(* ===== verification/_CoqProject ===== *)
-Q . S2P
Prelude.v
Crate.v
StdTime.v
Calls.v
Delay.v
Strategies.v
Retry.v
Futures.v
Async.v
AsyncRetry.v
RetryTimeout.v
TimeLimit.v
RetryTests.v
FileSlice.v
ZeroCopy.v
ZeroCopyPorts.v
AsyncIo.v
WriteAll.v
Fs.v
Bounded.v
SinkWrites.v
Transfer.v
Lock.v
Mmap.v
FsTests.v
SharedFile.v
SyncWrapper.v
Handshake.v
Openssl.v
NativeTls.v
RustTls.v
Net.v
Connectors.v
TlsSession.v
NetTests.v
Peers.v
TlsTests.v
Task.v
Derive.v
DeriveTests.v
Subscriber.v
DiskTests.v
SystemTests.v
Doomsday.v
DoomsdayRelaxed.v
DoomsdayTests.v
