(* ===== verification/Prelude.v ===== *)
(** * A verification library for fluvio-future

    The crate fluvio-future gives asynchronous building blocks to a streaming
    platform: retries and timers, files and zero-copy transfer, TCP and TLS
    streams, a doomsday timer.  This library models that code as Rocq definitions,
    translated function by function from the sources, and proves what makes each
    part correct, or shows where it is not.

    ** How the code is modelled

    - Values: a Rust integer is a [Z] in the range of its type; [arith] is what an
      addition or subtraction does when the exact value does not fit, which depends
      on the build ([Target]: width of [usize] and of [off_t], overflow checks on or
      off).  Structs
      are records, enums are inductive types, byte buffers are lists of bytes.
    - Effects: a call that acts on a world [W] is an element of [M W A], which maps
      a world to a world and an [outcome]: a value, a panic (what was done before
      it is kept), or the end of the fuel of the model.  [Result] is [result], and
      [x ←? m; k] is the question mark.
    - Futures: [f().await] is the effect of [f]; where polls matter (the TLS
      streams, the write future, timeouts) the polls themselves are modelled.
      [Async] says what awaiting abstracts from: an [async fn] is a resumable
      program, and polled to its end it does what running it does.
    - Conditional compilation is a parameter of a definition ([wasm32] of the task
      module) or one definition per variant; which modules a build has is [Crate].
    - Tasks that run together are resumable programs polled in some order; the
      networks, disks and clocks that tests are evaluated on are instances of the
      interfaces, in memory.
    - Other crates and the operating system are parameters: type classes of
      operations, with what their documentation promises as classes of laws.  Every
      theorem that uses laws has a witness at a concrete instance of them.
    - Loops without a bound in the code run on fuel, and the theorem about them
      says which fuel is enough: one unit more than delays for [retry_if], more than
      the bytes and the [EAGAIN]s still to come for the copy loops, one unit more
      than items for the PEM loop, as many polls as it takes for the limit to pass
      between them and one more for a retry, or any future, under a time limit, and as
      many polls as OpenSSL blocks and one more for a handshake that is awaited.  The
      loop of [WriteBufAll] needs none: its recursion is on the length of the buffer.
    - The tests of the crate are definitions too, evaluated on the model
      ([RetryTests], [FsTests], [DiskTests], [NetTests], [SystemTests], [Peers],
      [TlsTests], [DoomsdayTests], [DeriveTests]): they check the model, and no
      theorem on the crate rests on them.

    ** The parts

    - [Prelude] (this file): results, polls, the monad, machine integers, I/O
      errors, iterators, byte windows, the hint database [rust].
    - [Crate] (src/Cargo.toml, src/src/lib.rs): features, dependencies and modules;
      which builds resolve, for every target and set of features.  [Subscriber]
      (lib.rs, mod subscriber): setting up the log, which never fails and never
      uses the level it is given.
    - [StdTime]: [Duration] and [Instant] of the standard library.
    - [Calls]: a world that records fallible calls and answers them from a list
      ([makes], [attempt]), and the anyhow error type.
    - [Delay] (src/src/retry.rs, mod delay): modules [FixedDelay],
      [FibonacciBackoff], [ExponentialBackoff]; the closed form of the delays, with
      saturation and cap.  [Strategies]: the type invariant of the three, as the
      interface [DelayStrategy] that [Retry] uses them through.
    - [Retry] (src/src/retry.rs): [retry_if] refines its specification
      [retry_spec]; the exact trace; the bound on attempts and time; strategies
      without [take] never return.  [Async], [AsyncRetry]: [retry_if] as a future
      polled step by step refines the function.  [RetryTimeout]: under a time limit a
      retry that waits is bounded, and one that never waits is not limited.
    - [Futures] (src/src/timer.rs, future.rs, [RetryExt] of retry.rs): timeouts, by
      the polls at which futures complete.  [TimeLimit]: both time limits poll by
      poll, over any future whose polls return: they end in time, and the error is
      never early.
    - [FileSlice], [ZeroCopy] (src/src/file_slice.rs, zero_copy.rs): the Linux and
      the macOS loop deliver the slice for every behaviour of [sendfile] its manual
      allows; the empty slice on macOS.  The file is assumed not to change during
      the copy, and a socket that would block to accept data after finitely many
      attempts.  A position that does not fit an [off_t] of 32 bits is truncated.
      [ZeroCopyPorts]: on one kernel, where macOS may report the bytes sent together
      with the error that stopped it, the two ports agree wherever the slice is not
      empty.
    - [AsyncIo], [WriteAll] (src/src/write.rs): the poll traits; one poll of the
      write future, and that it starts over after [Pending].
    - [Fs] (src/src/fs/mod.rs, fs/extension.rs): open helpers, [as_slice] on every
      input, the sums that overflow included.  [Bounded] (fs/bounded.rs): the
      accounting of the sink, its bound under guarded writes, overflow, the read-only
      [open_write].  [SinkWrites]: the write future over a sink.  [Lock]: a shared
      object behind a lock that a panic poisons; [Mmap] (fs/mmap.rs): mappings
      behind such a lock, and what [create] and [write_bytes] leave in the file;
      [SharedFile] (fs/shared_file.rs): threads that read a shared file, in steps of
      which only the lock makes a poll, divide it between them.  [Transfer]: a slice
      from [as_slice] given to [copy_slice] is sent as far as the file goes, whole
      unless the sum of its position and length overflowed.
    - [SyncWrapper], [Handshake] (src/src/openssl/async_to_sync_wrapper.rs,
      stream.rs, handshake.rs): OpenSSL as any finite sequence of calls of the
      stream, and that closing one never waits.  Storing the task context in the
      wrapper refines passing the context of the current poll to every call, for the
      stream and for the handshake, whose life is pending, then ready once, then
      never polled.
    - [Openssl] (openssl/certificate.rs, acceptor.rs, connector.rs), [NativeTls]
      (native_tls.rs), [RustTls] (rust_tls.rs): certificates, identities and
      builders; the round trip of an identity, the order of the calls, PEM errors.
    - [Net], [Connectors] (src/src/net/tcp_stream.rs, net/mod.rs, and the connectors
      of the three TLS backends): socket options; the trait [TcpDomainConnector]
      with its eight implementations as instances, and what each hands out: [dials]
      says on which stream, with which options and by which session the seven on TCP
      make their halves.
      [TlsSession]: a domain connector over OpenSSL, with its handshake awaited, is
      the TCP connection, the configuration and OpenSSL's handshake on the stream.
    - [Peers], [TlsTests] (the tests of net/mod.rs, net/tcp_stream.rs and the three TLS
      backends): client and server as tasks, evaluated on a network in memory.
      [DiskTests], [SystemTests]: files with positions, and network, files and
      [sendfile] in one system, for the tests that need them.
    - [Doomsday] (src/src/doomsday.rs): main loop, handles and clock as interleaved
      atomic actions, with an invariant over all runs; explosions are overdue, overdue
      timers explode.  It takes a store of the flag to be seen at once, and is the
      specification of [DoomsdayRelaxed]: the same steps with the flag under relaxed
      memory, threads with views that the mutex carries over.  Relaxed memory only
      delays [defuse]; a timer that is defused in time explodes only if the loop
      misses the store, and a [reset] after [defuse] ends the delay.
    - [Task] (src/src/task.rs, test_util.rs): running futures on the executors, and
      that [main] natively never returns, and on wasm32 returns at once.  [Derive]
      (src/fluvio-future-derive/src/lib.rs): the attribute macros as functions on
      abstract syntax, with a semantics of what they expand to, over an interface of
      what the texts of types stand for.

    ** What is not modelled

    The lines that log, [Debug] output, and the file stream module, a stub that is not
    compiled.  The re-exports (io.rs, lib.rs) are only in [Crate], which considers
    builds of the library: not of its tests, with the dependencies for development.
    Of [test_zero_copy_large_size] the whole is evaluated on a smaller file, and what the
    server copies proved at its size.  Of the test of the shared file, the file is there
    at the start.  [WriteAll] and [SharedFile] model files that are in the
    repository although its lib.rs does not compile them.  Waking is not
    modelled: theorems on polls hold for every sequence of polls.  TLS, DNS,
    PEM, PKCS#12, websockets and the parsing of Rust are the business of the
    libraries the crate calls. *)

From stdpp Require Export base tactics option list numbers strings relations.
From Stdlib Require Export ZArith Lia.
From Stdlib Require Strings.Byte.

#[export] Set Default Goal Selector "!".

Open Scope Z_scope.

(** ** Results, polls and outcomes

    [result] is [core::result::Result], [poll] is [core::task::Poll].  An
    [outcome] says how a call ended: with a value, by unwinding ([Panic]), or
    because the fuel given to a loop of the model was used up, which no
    terminating run of the code reaches. *)

Inductive result (A E : Type) : Type :=
| Ok (a : A)
| Err (e : E).
Arguments Ok {A E} a.
Arguments Err {A E} e.

Inductive poll (A : Type) : Type :=
| Ready (a : A)
| Pending.
Arguments Ready {A} a.
Arguments Pending {A}.

Inductive outcome (A : Type) : Type :=
| Val (a : A)
| Panic
| OutOfFuel.
Arguments Val {A} a.
Arguments Panic {A}.
Arguments OutOfFuel {A}.

#[export] Instance result_eq_dec {A E} `{EqDecision A, EqDecision E} :
  EqDecision (result A E).
Proof. solve_decision. Defined.
#[export] Instance poll_eq_dec {A} `{EqDecision A} : EqDecision (poll A).
Proof. solve_decision. Defined.
#[export] Instance outcome_eq_dec {A} `{EqDecision A} : EqDecision (outcome A).
Proof. solve_decision. Defined.

Definition is_ok {A E} (r : result A E) : bool :=
  match r with Ok _ => true | Err _ => false end.

Definition is_ready {A} (p : poll A) : bool :=
  match p with Ready _ => true | Pending => false end.

(** [Result::map_err]. *)
Definition map_err {A E F} (f : E → F) (r : result A E) : result A F :=
  match r with Ok a => Ok a | Err e => Err (f e) end.

(** [Result::map]. *)
Definition map_ok {A B E} (f : A → B) (r : result A E) : result B E :=
  match r with Ok a => Ok (f a) | Err e => Err e end.

#[export] Instance outcome_ret : MRet outcome := @Val.
#[export] Instance outcome_bind : MBind outcome := λ A B f o,
  match o with Val a => f a | Panic => Panic | OutOfFuel => OutOfFuel end.

(** ** The monad of effectful code

    Code that acts on a world [W]: it ends in a world and an outcome, so that
    what a panicking call did before it unwound is not lost. *)

Definition M (W A : Type) : Type := W → W * outcome A.

#[export] Instance M_ret {W} : MRet (M W) := λ A a w, (w, Val a).
#[export] Instance M_bind {W} : MBind (M W) := λ A B f m w,
  match m w with
  | (w', Val a) => f a w'
  | (w', Panic) => (w', Panic)
  | (w', OutOfFuel) => (w', OutOfFuel)
  end.

Definition panic {W A} : M W A := λ w, (w, Panic).
Definition lift {W A} (o : outcome A) : M W A := λ w, (w, o).

(** A call that cannot unwind, a system call for one. *)
Definition act {W A} (f : W → W * A) : M W A := λ w, let '(w', a) := f w in (w', Val a).

(** The [?] operator on a call that returns a [Result]. *)
Definition try_bind {W A B E} (m : M W (result A E)) (f : A → M W (result B E)) :
    M W (result B E) :=
  m ≫= λ r, match r with Ok a => f a | Err e => mret (Err e) end.

Declare Scope rust_scope.
Delimit Scope rust_scope with rust.
Notation "x '←?' m ; k" := (try_bind m (λ x, k))
  (at level 20, m at level 100, k at level 200, right associativity,
   format "x  '←?'  m ;  '/' k") : rust_scope.
Notation "' x '←?' m ; k" := (try_bind m (λ x, k))
  (at level 20, x pattern, m at level 100, k at level 200, right associativity) : rust_scope.
Open Scope rust_scope.

(** [Result::unwrap]: an [Err] unwinds. *)
Definition unwrap {W A E} (r : result A E) : M W A :=
  match r with Ok a => mret a | Err _ => panic end.

Section monad_laws.
Context {W : Type}.

Lemma M_bind_ret_l {A B} (a : A) (f : A → M W B) w : (mret a ≫= f) w = f a w.
Proof. reflexivity. Qed.

Lemma M_bind_ret_r {A} (m : M W A) w : (m ≫= mret) w = m w.
Proof. unfold mbind, M_bind. by destruct (m w) as [w' []]. Qed.

Lemma M_bind_assoc {A B C} (m : M W A) (f : A → M W B) (g : B → M W C) w :
  ((m ≫= f) ≫= g) w = (m ≫= λ a, f a ≫= g) w.
Proof. unfold mbind, M_bind. by destruct (m w) as [w' []]. Qed.

Lemma M_bind_val {A B} (m : M W A) (f : A → M W B) w w' a :
  m w = (w', Val a) → (m ≫= f) w = f a w'.
Proof. intros H. unfold mbind, M_bind. by rewrite H. Qed.

Lemma M_bind_panic {A B} (m : M W A) (f : A → M W B) w w' :
  m w = (w', Panic) → (m ≫= f) w = (w', Panic).
Proof. intros H. unfold mbind, M_bind. by rewrite H. Qed.

Lemma try_bind_ok {A B E} (m : M W (result A E)) (f : A → M W (result B E)) w w' a :
  m w = (w', Val (Ok a)) → try_bind m f w = f a w'.
Proof. intros H. unfold try_bind, mbind, M_bind. by rewrite H. Qed.

Lemma try_bind_err {A B E} (m : M W (result A E)) (f : A → M W (result B E)) w w' e :
  m w = (w', Val (Err e)) → try_bind m f w = (w', Val (Err e)).
Proof. intros H. unfold try_bind, mbind, M_bind. by rewrite H. Qed.

Lemma try_bind_panic {A B E} (m : M W (result A E)) (f : A → M W (result B E)) w w' :
  m w = (w', Panic) → try_bind m f w = (w', Panic).
Proof. intros H. unfold try_bind, mbind, M_bind. by rewrite H. Qed.
End monad_laws.

(** ** Equal code

    Two pieces of effectful code are equal when they do the same in every world;
    sequencing respects that, so code can be rewritten inside other code. *)

#[export] Instance M_equiv {W A} : Equiv (M W A) := λ m n, ∀ w, m w = n w.

#[export] Instance M_equivalence {W A} : Equivalence (≡@{M W A}).
Proof.
  split.
  - by intros m w.
  - intros m n Hmn w. by rewrite Hmn.
  - intros m n o Hmn Hno w. by rewrite Hmn, Hno.
Qed.

#[export] Instance M_bind_proper {W A B} :
  Proper (pointwise_relation A (≡) ==> (≡) ==> (≡)) (M_bind (W := W) A B).
Proof.
  intros f g Hfg m n Hmn w. unfold M_bind. rewrite (Hmn w).
  destruct (n w) as [w' [a| |]]; [apply Hfg|done..].
Qed.

#[export] Instance try_bind_proper {W A B E} :
  Proper ((≡) ==> pointwise_relation A (≡) ==> (≡)) (@try_bind W A B E).
Proof.
  intros m n Hmn f g Hfg. unfold try_bind, mbind. apply M_bind_proper; [|done].
  intros [a|e]; [apply Hfg|done].
Qed.

(** Rewriting the first of two steps, and going under the second. *)
Lemma try_bind_same {W A B E} (m n : M W (result A E)) (f g : A → M W (result B E)) w :
  m w = n w → (∀ w' a, n w = (w', Val (Ok a)) → f a w' = g a w') →
  try_bind m f w = try_bind n g w.
Proof.
  unfold try_bind, mbind, M_bind. intros -> Hfg.
  destruct (n w) as [w' [[a|e]| |]]; [by apply Hfg|done..].
Qed.

(** ** Machine integers

    Integers are [Z] in the range of their Rust type.  What an overflow does
    depends on the build: with [overflow-checks] it unwinds, without it wraps.
    Both builds and both pointer widths are instances of [Target], and so are both widths
    that [off_t] has on Linux: 32 bits where a 32-bit system has the glibc. *)

Class Target := {
  usize_bits : Z;
  overflow_checks : bool;
  usize_bits_cases : usize_bits = 32 ∨ usize_bits = 64;
  off_t_bits : Z;
  off_t_bits_cases : off_t_bits = 32 ∨ off_t_bits = 64;
}.

(** The builds the witnesses run on. *)
Definition release_64 : Target :=
  {| usize_bits := 64; overflow_checks := false; usize_bits_cases := or_intror eq_refl;
     off_t_bits := 64; off_t_bits_cases := or_intror eq_refl |}.
Definition debug_64 : Target :=
  {| usize_bits := 64; overflow_checks := true; usize_bits_cases := or_intror eq_refl;
     off_t_bits := 64; off_t_bits_cases := or_intror eq_refl |}.

Definition u64_modulus : Z := 18446744073709551616.
Definition u64_max : Z := 18446744073709551615.
Definition i64_modulus_half : Z := 9223372036854775808.
Definition usize_modulus `{Target} : Z := 2 ^ usize_bits.
Definition off_t_modulus `{Target} : Z := 2 ^ off_t_bits.
(** The offsets that an [off_t] holds end before this one. *)
Definition off_t_end `{Target} : Z := 2 ^ (off_t_bits - 1).

Definition in_u64 (z : Z) : Prop := 0 ≤ z < u64_modulus.
Definition in_usize `{Target} (z : Z) : Prop := 0 ≤ z < usize_modulus.

#[export] Instance in_u64_dec z : Decision (in_u64 z).
Proof. unfold in_u64. apply _. Defined.
#[export] Instance in_usize_dec `{Target} z : Decision (in_usize z).
Proof. unfold in_usize. apply _. Defined.

(** [a + b], [a - b] and so on at an unsigned type of the given modulus: the
    exact value [z] if it fits, else what the build does. *)
Definition arith `{Target} (modulus z : Z) : outcome Z :=
  if (0 <=? z) && (z <? modulus) then Val z
  else if overflow_checks then Panic
  else Val (z mod modulus).

Definition u64_add `{Target} (a b : Z) : outcome Z := arith u64_modulus (a + b).
Definition u64_sub `{Target} (a b : Z) : outcome Z := arith u64_modulus (a - b).
Definition usize_add `{Target} (a b : Z) : outcome Z := arith usize_modulus (a + b).
Definition usize_sub `{Target} (a b : Z) : outcome Z := arith usize_modulus (a - b).

(** [u64::checked_add], [u64::checked_mul]. *)
Definition u64_checked_add (a b : Z) : option Z :=
  if a + b <=? u64_max then Some (a + b) else None.
Definition u64_checked_mul (a b : Z) : option Z :=
  if a * b <=? u64_max then Some (a * b) else None.

(** [as usize], [as u64], [as i64], [as off_t]. *)
Definition as_usize `{Target} (z : Z) : Z := z mod usize_modulus.
Definition as_u64 (z : Z) : Z := z mod u64_modulus.
Definition as_i64 (z : Z) : Z :=
  let m := z mod u64_modulus in
  if m <? i64_modulus_half then m else m - u64_modulus.
Definition as_off_t `{Target} (z : Z) : Z :=
  let m := z mod off_t_modulus in
  if m <? off_t_end then m else m - off_t_modulus.

Section machine_lemmas.
Context `{Target}.

Lemma usize_modulus_bounds : 4294967296 ≤ usize_modulus ≤ u64_modulus.
Proof.
  unfold usize_modulus, u64_modulus.
  by destruct usize_bits_cases as [-> | ->].
Qed.

Lemma arith_exact m z : 0 ≤ z < m → arith m z = Val z.
Proof.
  intros Hz. unfold arith.
  by rewrite (proj2 (Z.leb_le 0 z)), (proj2 (Z.ltb_lt z m)) by lia.
Qed.

Lemma arith_overflow m z :
  ¬ (0 ≤ z < m) → arith m z = if overflow_checks then Panic else Val (z mod m).
Proof.
  intros Hz. unfold arith.
  destruct (Z.leb_spec 0 z), (Z.ltb_spec z m); simpl; try reflexivity.
  exfalso. lia.
Qed.

Lemma arith_no_fuel m z : arith m z ≠ OutOfFuel.
Proof. unfold arith. by destruct (_ && _), overflow_checks. Qed.

Lemma as_usize_small z : in_usize z → as_usize z = z.
Proof. unfold in_usize, as_usize. intros. by apply Z.mod_small. Qed.

Lemma as_usize_in z : in_usize (as_usize z).
Proof.
  unfold in_usize, as_usize. apply Z.mod_pos_bound.
  pose proof usize_modulus_bounds. lia.
Qed.

Lemma off_t_end_bounds : 0 < off_t_end < off_t_modulus ∧ off_t_end ≤ i64_modulus_half.
Proof.
  unfold off_t_end, off_t_modulus, i64_modulus_half.
  by destruct off_t_bits_cases as [-> | ->].
Qed.

Lemma as_off_t_wraps z : as_off_t (z + off_t_modulus) = as_off_t z.
Proof.
  pose proof off_t_end_bounds. unfold as_off_t.
  replace (z + off_t_modulus) with (z + 1 * off_t_modulus) by lia.
  by rewrite Z.mod_add by lia.
Qed.

Lemma as_off_t_small z : 0 ≤ z < off_t_end → as_off_t z = z.
Proof.
  intros Hz. pose proof off_t_end_bounds. unfold as_off_t.
  rewrite Z.mod_small by lia. by rewrite (proj2 (Z.ltb_lt _ _)) by lia.
Qed.

Lemma usize_in_u64 z : in_usize z → in_u64 z.
Proof. pose proof usize_modulus_bounds. unfold in_usize, in_u64. lia. Qed.
End machine_lemmas.

Lemma as_i64_small z : 0 ≤ z < i64_modulus_half → as_i64 z = z.
Proof.
  unfold as_i64, i64_modulus_half, u64_modulus. intros Hz.
  rewrite Z.mod_small by lia. by rewrite (proj2 (Z.ltb_lt _ _)) by lia.
Qed.

Lemma as_u64_small z : in_u64 z → as_u64 z = z.
Proof. unfold in_u64, as_u64. intros. by apply Z.mod_small. Qed.

(** ** [std::io::Error]

    The kinds are the ones the crate creates or tests; [OtherKind] stands for
    every kind the operating system may report besides them. *)

Inductive error_kind : Type :=
| NotFound
| ConnectionRefused
| WouldBlock
| InvalidInput
| UnexpectedEof
| WriteZero
| Other
| OtherKind (code : Z).

Record io_error : Type := IoErr { err_kind : error_kind; err_msg : string }.

#[export] Instance error_kind_eq_dec : EqDecision error_kind.
Proof. solve_decision. Defined.
#[export] Instance io_error_eq_dec : EqDecision io_error.
Proof. solve_decision. Defined.

(** [io::Error::from(kind)]: no message of its own. *)
Definition io_error_from (k : error_kind) : io_error := IoErr k "".

(** ** Iterators *)

Class Iterator (I Item : Type) := iter_next : I → option Item * I.
#[export] Hint Mode Iterator ! - : typeclass_instances.

(** [Iterator::take]: the adaptor counts down and then stops asking. *)
Record take_iter (I : Type) : Type := Take { take_inner : I; take_left : nat }.
Arguments Take {I} _ _.
Arguments take_inner {I} _.
Arguments take_left {I} _.

#[export] Instance take_iterator {I Item} `{Iterator I Item} :
    Iterator (take_iter I) Item := λ t,
  match take_left t with
  | O => (None, t)
  | S n => let '(x, i) := iter_next (take_inner t) in (x, Take i n)
  end.

(** The first [n] items (fewer if the iterator ends before). *)
Fixpoint iter_items {I Item} `{Iterator I Item} (n : nat) (it : I) : list Item :=
  match n with
  | O => []
  | S n =>
      match iter_next it with
      | (Some x, it') => x :: iter_items n it'
      | (None, _) => []
      end
  end.

(** [yields it xs]: the iterator gives exactly [xs] and then ends. *)
Inductive yields {I Item} `{Iterator I Item} : I → list Item → Prop :=
| yields_nil it it' : iter_next it = (None, it') → yields it []
| yields_cons it x it' xs :
    iter_next it = (Some x, it') → yields it' xs → yields it (x :: xs).

(** An iterator with no end, as the delay strategies of the crate are. *)
Class Unending (I Item : Type) `{Iterator I Item} :=
  unending : ∀ it : I, ∃ x it', iter_next it = (Some x, it').

Section iterator_lemmas.
Context {I Item : Type} `{Iterator I Item}.

Lemma yields_take_unending `{!Unending I Item} n (it : I) :
  yields (Take it n) (iter_items n it).
Proof.
  revert it. induction n as [|n IH]; intros it.
  - by eapply yields_nil.
  - destruct (unending it) as (x & it' & Hn). simpl. rewrite Hn.
    eapply yields_cons; [|apply IH].
    unfold iter_next, take_iterator. simpl. by rewrite Hn.
Qed.

Lemma length_iter_items_unending `{!Unending I Item} n (it : I) :
  length (iter_items n it) = n.
Proof.
  revert it. induction n as [|n IH]; intros it; [done|].
  destruct (unending it) as (x & it' & Hn). simpl. rewrite Hn. simpl. by rewrite IH.
Qed.
End iterator_lemmas.

(** ** Lists as byte buffers *)

Abbreviation byte := Byte.byte.

#[export] Instance byte_eq_dec : EqDecision byte := Byte.byte_eq_dec.

(** The window of [n] bytes of [l] that starts at [off]. *)
Definition window {A} (off n : nat) (l : list A) : list A := take n (drop off l).

Lemma window_app {A} (l : list A) off n m :
  window off (n + m) l = window off n l ++ window (off + n) m l.
Proof.
  unfold window. rewrite <- drop_drop. by rewrite take_take_drop.
Qed.

Lemma length_window {A} (l : list A) off n :
  length (window off n l) = (n `min` (length l - off))%nat.
Proof. unfold window. by rewrite length_take, length_drop. Qed.

Lemma window_zero {A} (l : list A) off : window off 0 l = [].
Proof. done. Qed.

(** ** Automation *)

Create HintDb rust discriminated.
Create Rewrite HintDb rust.
#[export] Hint Resolve arith_no_fuel as_usize_in usize_in_u64 : rust.

(** Case analysis on the boolean comparisons of the code. *)
Ltac zbool :=
  repeat match goal with
  | H : (_ <=? _) = true |- _ => apply Z.leb_le in H
  | H : (_ <=? _) = false |- _ => apply Z.leb_gt in H
  | H : (_ <? _) = true |- _ => apply Z.ltb_lt in H
  | H : (_ <? _) = false |- _ => apply Z.ltb_ge in H
  | H : (_ =? _) = true |- _ => apply Z.eqb_eq in H
  | H : (_ =? _) = false |- _ => apply Z.eqb_neq in H
  | H : (_ && _) = true |- _ => apply andb_true_iff in H as [? ?]
  | H : (_ || _) = false |- _ => apply orb_false_iff in H as [? ?]
  | H : negb _ = true |- _ => apply negb_true_iff in H
  | H : negb _ = false |- _ => apply negb_false_iff in H
  end.

(** Decide the comparison under the first [if] of the goal. *)
Ltac zcase :=
  match goal with
  | |- context [if ?a <=? ?b then _ else _] => destruct (Z.leb_spec a b)
  | |- context [if ?a <? ?b then _ else _] => destruct (Z.ltb_spec a b)
  | |- context [if ?a =? ?b then _ else _] => destruct (Z.eqb_spec a b)
  end; try lia.
