(* ===== verification/Crate.v ===== *)
(** * The crate as cargo builds it: Cargo.toml and src/src/lib.rs

    Which modules and dependencies are there is decided by the target and by the
    features that were asked for, with what those turn on.  A build resolves when every
    name that a compiled module takes from another module or from another crate is
    there.  Only builds of the library are considered: [cfg(test)] is off, and the
    dependencies for development are away. *)

From S2P Require Export Prelude.

(** ** Cargo.toml *)

(** The targets the crate distinguishes: [cfg(unix)], [cfg(windows)], and [wasm32],
    which is neither. *)
Inductive target : Type := Unix | Windows | Wasm32.
Definition native (t : target) : bool := match t with Wasm32 => false | _ => true end.
Definition unix (t : target) : bool := match t with Unix => true | _ => false end.

Inductive feature : Type :=
| Ftask | Fsubscriber | Ffixture | Ffuture | Fio | Fnet | Ftls | Frust_tls | Fnative_tls
| Fopenssl_tls | Ftimer | Ffs | Fzero_copy | Fmmap | Fretry | Fdoomsday | Fattributes.

Inductive dependency : Type :=
| async_trait | anyhow_crate | cfg_if | fluvio_future_derive | futures_lite | futures_util
| pin_project | pin_utils | thiserror | tracing | tracing_subscriber
| tokio | async_global_executor | async_fs | async_io | async_native_tls | async_net
| async_lock | async_task | futures_rustls | memmap2 | native_tls_crate | nix | openssl_crate
| openssl_sys | openssl_src | rustls_pemfile | socket2
| wasm_bindgen_futures | fluvio_wasm_timer | ws_stream_wasm.

(** What a feature can turn on: a feature, an optional dependency, or a feature of a
    dependency ("futures-util/io"), which turns on the dependency too. *)
Inductive item : Type :=
| Feat (f : feature)
| Dep (d : dependency)
| FuturesUtilIo
| OpensslVendored
| SubscriberStd
| SubscriberEnvFilter.

#[export] Instance feature_eq_dec : EqDecision feature.
Proof. solve_decision. Defined.
#[export] Instance dependency_eq_dec : EqDecision dependency.
Proof. solve_decision. Defined.
#[export] Instance item_eq_dec : EqDecision item.
Proof. solve_decision. Defined.

(** The table [features]. *)
Definition features (f : feature) : list item :=
  match f with
  | Ftask => [Dep cfg_if; Dep async_task; Feat Ftimer]
  | Fsubscriber => [Dep tracing_subscriber; SubscriberStd; SubscriberEnvFilter]
  | Ffixture => [Feat Fsubscriber; Feat Ftask; Dep fluvio_future_derive]
  | Ffuture => [Dep futures_lite]
  | Fio => [Dep async_fs; Dep async_io]
  | Fnet => [Dep futures_lite; Dep async_net; Dep async_trait; Dep cfg_if; FuturesUtilIo;
             Dep socket2; Dep ws_stream_wasm]
  | Ftls => [Feat Frust_tls]
  | Frust_tls => [Feat Fnet; Dep rustls_pemfile; Dep futures_rustls; Dep pin_project;
                  FuturesUtilIo]
  | Fnative_tls => [Feat Fnet; Dep pin_project; Dep async_native_tls; Dep native_tls_crate;
                    OpensslVendored; FuturesUtilIo]
  | Fopenssl_tls => [Feat Fnet; Dep openssl_crate; Dep openssl_sys; Dep pin_project;
                     FuturesUtilIo]
  | Ftimer => [Dep async_io; Dep pin_project; Dep futures_lite; Dep fluvio_wasm_timer]
  | Ffs => [Dep async_fs; Dep futures_lite; Dep pin_utils; Dep async_trait]
  | Fzero_copy => [Dep nix; Feat Ftask]
  | Fmmap => [Feat Ffs; Dep memmap2; Feat Ftask]
  | Fretry => [Feat Ftimer; Dep cfg_if; Dep async_trait; FuturesUtilIo]
  | Fdoomsday => [Feat Ftask; Dep async_lock]
  | Fattributes => []
  end.

Definition enables (i : item) : list item :=
  match i with
  | Feat f => features f
  | Dep _ => []
  | FuturesUtilIo => [Dep futures_util]
  | OpensslVendored => [Dep openssl_crate]
  | SubscriberStd | SubscriberEnvFilter => [Dep tracing_subscriber]
  end.

(** The three tables of dependencies. *)
Definition optional (d : dependency) : bool :=
  match d with
  | anyhow_crate | thiserror | tracing | tokio | async_global_executor
  | wasm_bindgen_futures => false
  | _ => true
  end.
Definition in_table (d : dependency) (t : target) : bool :=
  match d with
  | async_trait | anyhow_crate | cfg_if | fluvio_future_derive | futures_lite | futures_util
  | pin_project | pin_utils | thiserror | tracing | tracing_subscriber => true
  | tokio | async_global_executor | async_fs | async_io | async_native_tls | async_net
  | async_lock | async_task | futures_rustls | memmap2 | native_tls_crate | nix
  | openssl_crate | openssl_sys | openssl_src | rustls_pemfile | socket2 => native t
  | wasm_bindgen_futures | fluvio_wasm_timer | ws_stream_wasm => negb (native t)
  end.

(** *** Turning on: what is asked for and everything that follows from it

    The longest chain of the table is of five items (tls, rust_tls, net,
    futures-util/io, futures-util). *)
Fixpoint turned_on (n : nat) (i : item) : list item :=
  i :: match n with O => [] | S n => enables i ≫= turned_on n end.
Definition on_from (i : item) : list item := turned_on 4 i.

Record build : Type := Build { b_target : target; b_asked : list item }.

Definition on (b : build) (i : item) : bool :=
  existsb (λ j, bool_decide (i ∈ on_from j)) (b_asked b).

Definition has_dep (b : build) (d : dependency) : bool :=
  in_table d (b_target b) && (negb (optional d) || on b (Dep d)).

(** One item turns on the other directly. *)
Definition step (i j : item) : Prop := j ∈ enables i.

Lemma on_from_self i : i ∈ on_from i.
Proof. apply list_elem_of_here. Qed.

(** Enough steps were taken. *)
Lemma on_from_closed i j k : j ∈ on_from i → step j k → k ∈ on_from i.
Proof.
  intros Hj Hk.
  assert (forallb (λ j, forallb (λ k, bool_decide (k ∈ on_from i)) (enables j)) (on_from i)
    = true) as Hall by (destruct i as [[]| | | | |]; vm_compute; reflexivity).
  rewrite forallb_forall in Hall. specialize (Hall j (proj1 (list_elem_of_In _ _) Hj)).
  rewrite forallb_forall in Hall. specialize (Hall k (proj1 (list_elem_of_In _ _) Hk)).
  by apply bool_decide_eq_true in Hall.
Qed.

Lemma turned_on_rtc n i j : j ∈ turned_on n i → rtc step i j.
Proof.
  revert i. induction n as [|n IH]; intros i; simpl.
  - rewrite list_elem_of_singleton. by intros ->.
  - intros [->|Hj]%elem_of_cons; [done|].
    apply list_elem_of_bind in Hj as (k & Hk & Hik).
    eapply rtc_l; [exact Hik|by apply IH].
Qed.

Lemma on_from_rtc i j : j ∈ on_from i ↔ rtc step i j.
Proof.
  split; [apply turned_on_rtc|]. revert j. apply rtc_ind_r; [apply on_from_self|].
  intros j k _ Hjk Hj. by eapply on_from_closed.
Qed.

(** What is on is what can be reached from what was asked for. *)
Lemma on_reachable b i : on b i = true ↔ ∃ j, j ∈ b_asked b ∧ rtc step j i.
Proof.
  unfold on. rewrite existsb_exists. split.
  - intros (j & Hj & Hi). exists j. rewrite list_elem_of_In. split; [done|].
    by apply on_from_rtc, (bool_decide_eq_true _).
  - intros (j & Hj & Hi). exists j. rewrite <- list_elem_of_In. split; [done|].
    by apply (bool_decide_eq_true _), on_from_rtc.
Qed.

Lemma on_trans b i j : on b i = true → bool_decide (j ∈ on_from i) = true → on b j = true.
Proof.
  rewrite !on_reachable, bool_decide_eq_true, on_from_rtc. intros (k & Hk & Hki) Hij.
  exists k. split; [done|]. by trans i.
Qed.

(** ** src/src/lib.rs *)

(** The modules of the crate, with [fs::mmap] and [net::tcp_stream], whose presence is
    decided apart, and the macros that it hands on. *)
Inductive cmodule : Type :=
| m_file_slice | m_fs | m_fs_mmap | m_io | m_task | m_timer | m_retry | m_test_util
| m_test_async | m_test | m_zero_copy | m_net | m_tcp_stream | m_rust_tls | m_native_tls
| m_openssl | m_future | m_subscriber | m_doomsday | m_main_async | m_tracing.

#[export] Instance cmodule_eq_dec : EqDecision cmodule.
Proof. solve_decision. Defined.

(** The [cfg] attributes in front of the modules. *)
Definition compiled (b : build) (m : cmodule) : bool :=
  let t := b_target b in
  let feature f := on b (Feat f) in
  match m with
  | m_file_slice => unix t
  | m_fs => feature Ffs && native t
  | m_fs_mmap => feature Ffs && native t && feature Fmmap
  | m_io => feature Fio && native t
  | m_task => feature Ftask
  | m_timer => feature Ftimer
  | m_retry => feature Fretry
  | m_test_util | m_test_async | m_test => feature Ffixture
  | m_zero_copy => unix t && feature Fzero_copy
  | m_net => feature Fnet
  | m_tcp_stream => feature Fnet && native t
  | m_rust_tls => native t && feature Frust_tls
  | m_native_tls => native t && feature Fnative_tls
  | m_openssl => feature Fopenssl_tls && native t
  | m_future => feature Ffuture
  | m_subscriber => feature Fsubscriber
  | m_doomsday => feature Fdoomsday && native t
  | m_main_async => feature Fattributes
  | m_tracing => true
  end.

(** The modules that [pub use ... as tls] names. *)
Definition tls (b : build) : list cmodule :=
  (if native (b_target b) && on b (Feat Frust_tls) && negb (on b (Feat Fnative_tls))
   then [m_rust_tls] else []) ++
  (if native (b_target b) && on b (Feat Fnative_tls) && negb (on b (Feat Frust_tls))
   then [m_native_tls] else []).

(** ** What the modules take from elsewhere *)

Inductive use : Type :=
| Extern (d : dependency)
| ExternIo (** [futures_util::io] and [AsyncReadExt], a feature of that crate *)
| Internal (m : cmodule).

Definition fs_uses (t : target) : list use :=
  [Extern async_fs; Extern async_trait; Extern futures_lite; Extern tracing;
   Extern pin_utils] ++ (if unix t then [Internal m_file_slice] else []).
Definition mmap_uses : list use := [Extern async_fs; Extern memmap2; Internal m_task].
Definition task_uses (t : target) : list use :=
  [Internal m_timer; Extern cfg_if] ++
  (if native t then [Extern async_global_executor; Extern async_task]
   else [Extern wasm_bindgen_futures]).
Definition timer_uses (t : target) : list use :=
  if native t then [Extern async_io; Extern futures_lite; Extern pin_project]
  else [Extern fluvio_wasm_timer].
Definition retry_uses : list use :=
  [Extern async_trait; Extern futures_lite; Extern futures_util; Extern tracing;
   Internal m_timer; Extern cfg_if].
Definition zero_copy_uses : list use :=
  [Extern thiserror; Extern nix; Extern tracing; Internal m_task; Internal m_file_slice].
Definition net_uses (t : target) : list use :=
  [Extern async_trait; Extern futures_lite; Extern cfg_if] ++
  (if native t then [Extern async_net; Extern anyhow_crate; Extern tracing;
                     Internal m_tcp_stream]
   else [ExternIo; Extern ws_stream_wasm]).
Definition tcp_stream_uses : list use :=
  [Extern async_net; Extern socket2; Extern tracing; Extern cfg_if; Internal m_net].
Definition rust_tls_uses : list use :=
  [Internal m_net; Extern futures_rustls; ExternIo; Extern anyhow_crate;
   Extern rustls_pemfile; Extern async_trait; Extern tracing; Internal m_tcp_stream].
Definition native_tls_uses : list use :=
  [Internal m_net; Extern async_native_tls; Extern async_net; ExternIo; Extern async_trait;
   Extern tracing; Internal m_tcp_stream; Extern anyhow_crate; Extern native_tls_crate;
   Extern openssl_crate].
Definition openssl_uses : list use :=
  [Extern anyhow_crate; Extern async_trait; Extern futures_lite; Extern openssl_crate;
   Extern tracing; Internal m_net; Internal m_tcp_stream; ExternIo].
Definition future_uses : list use :=
  [Extern anyhow_crate; Internal m_timer; Extern futures_lite].
Definition doomsday_uses : list use :=
  [Extern async_lock; Extern tracing; Internal m_task; Internal m_timer].

(** The code that the macros put into the user's crate: a logger and an executor. *)
Definition expansion_uses : list use := [Internal m_subscriber; Internal m_task].

Definition uses (t : target) (m : cmodule) : list use :=
  match m with
  | m_file_slice => []
  | m_fs => fs_uses t
  | m_fs_mmap => mmap_uses
  | m_io => [Extern async_io]
  | m_task => task_uses t
  | m_timer => timer_uses t
  | m_retry => retry_uses
  | m_test_util => [Internal m_task]
  | m_test_async | m_test | m_main_async => [Extern fluvio_future_derive]
  | m_zero_copy => zero_copy_uses
  | m_net => net_uses t
  | m_tcp_stream => tcp_stream_uses
  | m_rust_tls => rust_tls_uses
  | m_native_tls => native_tls_uses
  | m_openssl => openssl_uses
  | m_future => future_uses
  | m_subscriber => [Extern tracing_subscriber; Extern tracing]
  | m_doomsday => doomsday_uses
  | m_tracing => [Extern tracing]
  end.

Definition there (b : build) (u : use) : bool :=
  match u with
  | Extern d => has_dep b d
  | ExternIo => has_dep b futures_util && on b FuturesUtilIo
  | Internal m => compiled b m
  end.

Definition resolves (b : build) (m : cmodule) : bool :=
  forallb (there b) (uses (b_target b) m).

(** ** What resolves *)

(** Every use of a module is there because of what turned the module on. *)
Ltac turn_on :=
  match goal with
  | H : on ?b ?i = true |- on ?b ?j = true =>
      first [exact H | exact (on_trans b i j H eq_refl)]
  end.



(** The macros for tests find what their expansion uses wherever they are handed on, and
    [tls] never names two modules: with both features it names none. *)
Lemma test_macros_resolve b :
  compiled b m_test = true → forallb (there b) expansion_uses = true.
Proof. simpl. intros Hc. repeat (apply andb_true_intro; split); [turn_on..|done]. Qed.

Lemma tls_one b :
  tls b = match native (b_target b), on b (Feat Frust_tls), on b (Feat Fnative_tls) with
          | true, true, false => [m_rust_tls]
          | true, false, true => [m_native_tls]
          | _, _, _ => []
          end.
Proof.
  unfold tls. by destruct (native _), (on b (Feat Frust_tls)), (on b (Feat Fnative_tls)).
Qed.

(** The builds that fail, and what a user of [main_async] is missing. *)
Example future_alone_fails : ∃ t, resolves (Build t [Feat Ffuture]) m_future = false.
Proof. by exists Unix. Qed.
Example attributes_alone_fails : ∃ t, resolves (Build t [Feat Fattributes]) m_main_async = false.
Proof. by exists Unix. Qed.
Example main_async_needs_more :
  let b := Build Unix [Feat Fattributes; Dep fluvio_future_derive] in
  resolves b m_main_async = true ∧ forallb (there b) expansion_uses = false.
Proof. done. Qed.
