(* ===== verification/StdTime.v ===== *)
(** * [std::time]: durations and instants

    What the crate uses of the standard library's clock types.  A [Duration]
    is its two fields, seconds in [u64] and nanoseconds below one second; the
    operations are the ones of [core::time::Duration], carry and overflow
    included.  The lemmas relate them to the length in nanoseconds
    [as_nanos], which is what the theorems on delays are stated about.  An
    [Instant] is a number of nanoseconds on the monotonic clock, bounded as the
    [timespec] of the platform is. *)

From S2P Require Export Prelude.

Definition NANOS_PER_SEC : Z := 1000000000.

Record Duration : Type := MkDuration { secs : Z; nanos : Z }.

#[export] Instance Duration_eq_dec : EqDecision Duration.
Proof. solve_decision. Defined.

Definition duration_wf (d : Duration) : Prop :=
  in_u64 (secs d) ∧ 0 ≤ nanos d < NANOS_PER_SEC.

Definition as_nanos (d : Duration) : Z := secs d * NANOS_PER_SEC + nanos d.

Definition DURATION_MAX : Duration := MkDuration u64_max (NANOS_PER_SEC - 1).
Definition DURATION_ZERO : Duration := MkDuration 0 0.

(** The inverse of [as_nanos] on its range. *)
Definition of_nanos (n : Z) : Duration :=
  MkDuration (n / NANOS_PER_SEC) (n mod NANOS_PER_SEC).

Definition from_secs (s : Z) : Duration := MkDuration s 0.
Definition from_millis (m : Z) : Duration :=
  MkDuration (m / 1000) ((m mod 1000) * 1000000).

Definition checked_add (a b : Duration) : option Duration :=
  match u64_checked_add (secs a) (secs b) with
  | Some s =>
      let n := nanos a + nanos b in
      if NANOS_PER_SEC <=? n then
        match u64_checked_add s 1 with
        | Some s' => Some (MkDuration s' (n - NANOS_PER_SEC))
        | None => None
        end
      else Some (MkDuration s n)
  | None => None
  end.

(** The derived [PartialOrd]: [a > b], seconds first. *)
Definition duration_gtb (a b : Duration) : bool :=
  (secs b <? secs a) || ((secs a =? secs b) && (nanos b <? nanos a)).

(** ** Durations as nanoseconds *)

Definition max_nanos : Z := as_nanos DURATION_MAX.

Lemma max_nanos_eq : max_nanos = u64_modulus * NANOS_PER_SEC - 1.
Proof. reflexivity. Qed.

(** Unfold the constants so that [lia] sees numbers. *)
Ltac dur :=
  unfold duration_wf, as_nanos, in_u64, u64_modulus, u64_max, NANOS_PER_SEC in *;
  simpl in *.

Lemma as_nanos_bounds d : duration_wf d → 0 ≤ as_nanos d ≤ max_nanos.
Proof. rewrite max_nanos_eq. destruct d. dur. lia. Qed.

Lemma as_nanos_inj a b :
  duration_wf a → duration_wf b → as_nanos a = as_nanos b → a = b.
Proof. destruct a, b. dur. intros ???. f_equal; lia. Qed.

Lemma of_nanos_wf n : 0 ≤ n ≤ max_nanos → duration_wf (of_nanos n).
Proof.
  rewrite max_nanos_eq. unfold of_nanos. dur. intros Hn.
  split; [split|].
  - apply Z.div_pos; lia.
  - apply Z.div_lt_upper_bound; lia.
  - apply Z.mod_pos_bound. lia.
Qed.

Lemma as_of_nanos n : as_nanos (of_nanos n) = n.
Proof. unfold of_nanos. dur. pose proof (Z.div_mod n 1000000000). lia. Qed.

Lemma of_as_nanos d : duration_wf d → of_nanos (as_nanos d) = d.
Proof.
  intros Hd. apply as_nanos_inj; [|done|apply as_of_nanos].
  by apply of_nanos_wf, as_nanos_bounds.
Qed.

Lemma from_millis_wf m : in_u64 m → duration_wf (from_millis m).
Proof.
  unfold from_millis. dur. intros Hm.
  pose proof (Z.mod_pos_bound m 1000). repeat split; try lia.
  - apply Z.div_pos; lia.
  - apply Z.div_lt_upper_bound; lia.
Qed.

Lemma as_nanos_from_millis m : as_nanos (from_millis m) = m * 1000000.
Proof. unfold from_millis. dur. pose proof (Z.div_mod m 1000). lia. Qed.

Lemma from_secs_wf s : in_u64 s → duration_wf (from_secs s).
Proof. unfold from_secs. dur. lia. Qed.

Lemma as_nanos_from_secs s : as_nanos (from_secs s) = s * NANOS_PER_SEC.
Proof. unfold from_secs. dur. lia. Qed.

Lemma duration_max_wf : duration_wf DURATION_MAX.
Proof. unfold DURATION_MAX. dur. lia. Qed.

Lemma duration_zero_wf : duration_wf DURATION_ZERO.
Proof. unfold DURATION_ZERO. dur. lia. Qed.

(** The carry loop of [checked_add] is addition of nanoseconds, and it fails
    exactly when the sum is beyond [Duration::MAX]. *)
Lemma checked_add_spec a b :
  duration_wf a → duration_wf b →
  checked_add a b =
    if as_nanos a + as_nanos b <=? max_nanos
    then Some (of_nanos (as_nanos a + as_nanos b)) else None.
Proof.
  intros Ha Hb. unfold checked_add, u64_checked_add. rewrite max_nanos_eq.
  destruct a as [sa na], b as [sb nb]. dur.
  assert (∀ s n, 0 ≤ n < 1000000000 →
    of_nanos (s * 1000000000 + n) = MkDuration s n) as Hof.
  { intros s n Hn. unfold of_nanos, NANOS_PER_SEC. f_equal.
    - rewrite Z.div_add_l, Z.div_small by lia. lia.
    - rewrite Z.add_comm, Z.mod_add, Z.mod_small by lia. lia. }
  repeat zcase; f_equal.
  - rewrite <- Hof by lia. f_equal. lia.
  - rewrite <- Hof by lia. f_equal. lia.
Qed.

Lemma duration_gtb_spec a b :
  duration_wf a → duration_wf b → duration_gtb a b = (as_nanos b <? as_nanos a).
Proof.
  destruct a as [sa na], b as [sb nb]. unfold duration_gtb. dur. intros Ha Hb.
  destruct (Z.ltb_spec sb sa), (Z.eqb_spec sa sb), (Z.ltb_spec nb na),
    (Z.ltb_spec (sb * 1000000000 + nb) (sa * 1000000000 + na)); simpl;
    try reflexivity; lia.
Qed.

#[export] Hint Resolve of_nanos_wf as_nanos_bounds from_millis_wf from_secs_wf
  duration_max_wf duration_zero_wf : rust.
#[export] Hint Rewrite as_of_nanos as_nanos_from_millis as_nanos_from_secs : rust.

(** ** Instants *)

(** The largest instant of a 64-bit [timespec]. *)
Definition instant_max : Z := 9223372036854775807 * 1000000000 + 999999999.

(** [Instant + Duration]: "overflow when adding duration to instant" unwinds. *)
Definition instant_add (t : Z) (d : Duration) : outcome Z :=
  if t + as_nanos d <=? instant_max then Val (t + as_nanos d) else Panic.

(** [Instant - Instant]: zero when the right one is later. *)
Definition instant_sub (a b : Z) : Duration := of_nanos (Z.max 0 (a - b)).

Lemma instant_add_val t d t' :
  instant_add t d = Val t' → t' = t + as_nanos d ∧ t' ≤ instant_max.
Proof. unfold instant_add. zcase; [|done]. intros [= <-]. lia. Qed.

Lemma as_nanos_instant_sub a b : as_nanos (instant_sub a b) = Z.max 0 (a - b).
Proof. apply as_of_nanos. Qed.

#[export] Hint Rewrite as_nanos_instant_sub : rust.
