(* ===== verification/Calls.v ===== *)
(** * Sequences of fallible calls, and the anyhow error type

    Much of the crate configures an object of another library by a sequence of
    calls, each of which may fail, and stops at the first error.  [calls] is a world
    that records such calls and answers them from a list of outcomes, so that a
    theorem can say, for every way the calls may fail, which calls were made, in
    which order, and what came back. *)

From S2P Require Export Prelude.

Record calls (C E : Type) : Type := Calls { made : list C; answers : list (option E) }.
Arguments Calls {C E} _ _.
Arguments made {C E} _.
Arguments answers {C E} _.

Section calls.
Context {C E : Type}.

(** One call: it fails if the next answer says so; out of answers, it succeeds. *)
Definition call (c : C) : M (calls C E) (result unit E) := λ w,
  match answers w with
  | Some e :: rest => (Calls (made w ++ [c]) rest, Val (Err e))
  | None :: rest => (Calls (made w ++ [c]) rest, Val (Ok tt))
  | [] => (Calls (made w ++ [c]) [], Val (Ok tt))
  end.

(** A call that gives a value when it succeeds. *)
Definition call_for {A} (a : A) (c : C) : M (calls C E) (result A E) :=
  r ← call c; mret (map_ok (λ _, a) r).

(** Calls one after the other, up to the first error. *)
Fixpoint call_all (cs : list C) : M (calls C E) (result unit E) :=
  match cs with
  | [] => mret (Ok tt)
  | c :: cs => _ ←? call c; call_all cs
  end.

(** How many of [n] calls are made when they are answered by [outs], and the
    result: all of them, or up to the first that fails. *)
Fixpoint attempt (outs : list (option E)) (n : nat) {struct n} : nat * result unit E :=
  match n, outs with
  | O, _ => (O, Ok tt)
  | S _, Some e :: _ => (1%nat, Err e)
  | S n, None :: outs => let '(k, r) := attempt outs n in (S k, r)
  | S n, [] => (S n, Ok tt)
  end.

Lemma attempt_nil n : attempt [] n = (n, Ok tt).
Proof. by destruct n. Qed.

Lemma call_all_attempt cs done outs :
  call_all cs (Calls done outs) =
    let '(k, r) := attempt outs (length cs) in (Calls (done ++ take k cs) (drop k outs), Val r).
Proof.
  revert done outs. induction cs as [|c cs IH]; intros done outs; simpl.
  - by rewrite app_nil_r, drop_0.
  - unfold try_bind, mbind, M_bind, call. simpl. destruct outs as [|[e|] outs]; simpl.
    + by rewrite IH, attempt_nil, <- app_assoc, !firstn_all, !drop_nil.
    + done.
    + rewrite IH. destruct (attempt outs (length cs)) as [k r]. simpl.
      by rewrite <- app_assoc.
Qed.

Lemma call_all_app cs cs' w :
  call_all (cs ++ cs') w = (_ ←? call_all cs; call_all cs') w.
Proof.
  revert w. induction cs as [|c cs IH]; intros w; simpl.
  - unfold try_bind. by rewrite M_bind_ret_l.
  - unfold try_bind, mbind, M_bind. by destruct (call c w) as [w' [[u|e]| |]].
Qed.

(** What [attempt] says: either every call succeeds, or the last one made fails. *)
Lemma attempt_spec outs n k r :
  attempt outs n = (k, r) →
  (k ≤ n)%nat ∧
  match r with
  | Ok _ => k = n ∧ ∀ i e, (i < n)%nat → outs !! i ≠ Some (Some e)
  | Err e => ∃ j, k = S j ∧ (j < n)%nat ∧ outs !! j = Some (Some e) ∧
      ∀ i e', (i < j)%nat → outs !! i ≠ Some (Some e')
  end.
Proof.
  revert outs k r. induction n as [|n IH]; intros outs k r; simpl.
  - intros [= <- <-]. repeat split; [lia|]. intros i e Hi. lia.
  - destruct outs as [|[e|] outs].
    + intros [= <- <-]. repeat split; [lia|done].
    + intros [= <- <-]. split; [lia|]. exists 0%nat. repeat split; [lia|]. intros i e' Hi. lia.
    + destruct (attempt outs n) as [k' r'] eqn:Ha. intros [= <- <-].
      destruct (IH _ _ _ Ha) as [Hk Hr]. split; [lia|]. destruct r' as [u|e].
      * destruct Hr as [-> Hr]. split; [done|]. intros [|i] e Hi; simpl; [done|].
        apply Hr. lia.
      * destruct Hr as (j & -> & Hj & He & Hr). exists (S j). repeat split; [lia|done|].
        intros [|i] e' Hi; simpl; [done|]. apply Hr. lia.
Qed.
End calls.

(** ** [anyhow::Error]

    An error is the text of what was converted by [?] or made by [anyhow!], under
    the texts that [context] has put around it; it displays the outermost one. *)
Inductive anyhow : Type :=
| AnyhowError (message : string)
| AnyhowContext (context : string) (e : anyhow).

#[export] Instance anyhow_eq_dec : EqDecision anyhow.
Proof. solve_decision. Defined.

Definition anyhow_display (e : anyhow) : string :=
  match e with AnyhowError m => m | AnyhowContext c _ => c end.

(** [Context::context] on a [Result]. *)
Definition with_context {A} (c : string) (r : result A anyhow) : result A anyhow :=
  map_err (AnyhowContext c) r.

Definition io_anyhow (e : io_error) : anyhow := AnyhowError (err_msg e).

Definition m_context {W A} (c : string) (m : M W (result A anyhow)) : M W (result A anyhow) :=
  r ← m; mret (with_context c r).

(** [?] from one error type to another. *)
Definition m_map_err {W A E F} (f : E → F) (m : M W (result A E)) : M W (result A F) :=
  r ← m; mret (map_err f r).

(** [?] in a function without effects. *)
Definition and_then {A B E} (r : result A E) (f : A → result B E) : result B E :=
  match r with Ok a => f a | Err e => Err e end.
Notation "x '←!' r ; k" := (and_then r (λ x, k))
  (at level 20, r at level 100, k at level 200, right associativity,
   format "x  '←!'  r ;  '/' k") : rust_scope.

(** [Option::ok_or]. *)
Definition ok_or {A E} (o : option A) (e : E) : result A E :=
  match o with Some a => Ok a | None => Err e end.

(** [for x in xs { b = f(b, x)?; }]. *)
Fixpoint try_fold {W A B E} (f : B → A → M W (result B E)) (b : B) (xs : list A) :
    M W (result B E) :=
  match xs with
  | [] => mret (Ok b)
  | x :: xs => b ←? f b x; try_fold f b xs
  end.

(** [collect] of an iterator of results: the first error, or all values. *)
Fixpoint collect {A E} (rs : list (result A E)) : result (list A) E :=
  match rs with
  | [] => Ok []
  | r :: rs => x ←! r; xs ←! collect rs; Ok (x :: xs)
  end.

(** Setting up an object [b] by one call for each item, in the recording world. *)
Lemma try_fold_call_for {A B C E} (g : A → C) (b : B) (xs : list A) (w : calls C E) :
  try_fold (λ b x, call_for b (g x)) b xs w =
    (r ← call_all (g <$> xs); mret (map_ok (λ _, b) r)) w.
Proof.
  revert w. induction xs as [|x xs IH]; intros w; simpl; [done|].
  unfold call_for, try_bind, mbind, M_bind.
  destruct (call (g x) w) as [w' [[u|e]| |]]; simpl; done.
Qed.

(** A function that makes the calls [cs] and then gives [b]. *)
Definition makes {B C E} (cs : list C) (b : B) (m : M (calls C E) (result B E)) : Prop :=
  ∀ w, m w = (r ← call_all cs; mret (map_ok (λ _, b) r)) w.

Lemma makes_nil {B C E} (b : B) : makes (C := C) (E := E) [] b (mret (Ok b)).
Proof. done. Qed.

Lemma makes_call {B C E} (c : C) cs (b : B) (f : unit → M (calls C E) (result B E)) :
  makes cs b (f tt) → makes (c :: cs) b (u ←? call c; f u).
Proof.
  intros Hf w. unfold try_bind, mbind, M_bind. simpl. unfold try_bind, mbind, M_bind.
  by destruct (call c w) as [w' [[[]|e]| |]]; [apply Hf|..].
Qed.

Lemma makes_call_for {A B C E} (a : A) (c : C) cs (b : B)
    (f : A → M (calls C E) (result B E)) :
  makes cs b (f a) → makes (c :: cs) b (x ←? call_for a c; f x).
Proof.
  intros Hf w. unfold call_for, try_bind, mbind, M_bind. simpl.
  unfold try_bind, mbind, M_bind.
  by destruct (call c w) as [w' [[[]|e]| |]]; [apply Hf|..].
Qed.

Lemma makes_fold {A B B' C E} (g : A → C) (b : B) (xs : list A) (h : B → B') :
  makes (E := E) (g <$> xs) (h b)
    (b ←? try_fold (λ b x, call_for b (g x)) b xs; mret (Ok (h b))).
Proof.
  intros w. unfold try_bind, mbind, M_bind. rewrite try_fold_call_for.
  unfold mbind, M_bind. by destruct (call_all (g <$> xs) w) as [w' [[u|e]| |]].
Qed.

(** What a run from an empty record looks like. *)
Lemma makes_run {B C E} (cs : list C) (b : B) (m : M (calls C E) (result B E)) outs :
  makes cs b m →
  m (Calls [] outs) =
    let '(k, r) := attempt outs (length cs) in
    (Calls (take k cs) (drop k outs), Val (map_ok (λ _, b) r)).
Proof.
  intros ->. unfold mbind, M_bind. rewrite call_all_attempt.
  by destruct (attempt outs (length cs)).
Qed.
