(* ===== verification/Delay.v ===== *)
(** * Retry delays: [mod delay] of src/src/retry.rs

    The three strategies are iterators that never end.  Each is modelled by its
    struct, its constructors and its [next]; the theorems give, for every
    number of items, the list of delays in closed form, saturation at
    [Duration::MAX] or [u64::MAX] and the [max_delay] cap included. *)

From S2P Require Export StdTime.

(** [max_delay: Option<Duration>], as nanoseconds. *)
Definition capped (cap : option Duration) (z : Z) : Z :=
  match cap with Some m => Z.min (as_nanos m) z | None => z end.

Definition cap_wf (cap : option Duration) : Prop :=
  match cap with Some m => duration_wf m | None => True end.

(** The cap check both back-offs share: [duration > *max_delay]. *)
Definition over_cap (cap : option Duration) (z : Z) : Prop :=
  match cap with Some m => as_nanos m < z | None => False end.

#[export] Instance over_cap_dec cap z : Decision (over_cap cap z).
Proof. destruct cap; simpl; apply _. Defined.

Lemma capped_over cap z z' : over_cap cap z → z ≤ z' → capped cap z' = capped cap z.
Proof. destruct cap; simpl; lia. Qed.

Lemma capped_under cap z : ¬ over_cap cap z → capped cap z = z.
Proof. destruct cap; simpl; lia. Qed.

Lemma capped_bounds cap z :
  cap_wf cap → 0 ≤ z ≤ max_nanos → 0 ≤ capped cap z ≤ max_nanos.
Proof. destruct cap as [m|]; simpl; [|done]. intros ?%as_nanos_bounds ?. lia. Qed.

Lemma capped_mono cap z z' : z ≤ z' → capped cap z ≤ capped cap z'.
Proof. destruct cap; simpl; lia. Qed.

(** Both back-offs are a nondecreasing series of levels that stops moving once
    a level is over the cap. *)
Section capped_series.
Context {S : Type} `{Iterator S Duration}.
Context (cap : option Duration) (lvl : nat → Z) (at_level : nat → S → Prop) (step : S → S).
Hypothesis lvl_mono : ∀ n m, (n ≤ m)%nat → lvl n ≤ lvl m.
Hypothesis at_next : ∀ n s, at_level n s →
  iter_next s = (Some (of_nanos (capped cap (lvl n))),
                 if decide (over_cap cap (lvl n)) then s else step s).
Hypothesis at_step : ∀ n s, at_level n s → at_level (Datatypes.S n) (step s).

Lemma stuck_items n s k :
  at_level n s → over_cap cap (lvl n) →
  iter_items k s = replicate k (of_nanos (capped cap (lvl n))).
Proof.
  intros Hs Hover. induction k as [|k IH]; [done|].
  simpl. rewrite (at_next n), decide_True by done. by rewrite IH.
Qed.

Lemma series_items n s k :
  at_level n s →
  iter_items k s = (λ i, of_nanos (capped cap (lvl i))) <$> seq n k.
Proof.
  revert n s. induction k as [|k IH]; intros n s Hs; [done|].
  destruct (decide (over_cap cap (lvl n))) as [Hover|Hover].
  - rewrite (stuck_items n) by done.
    rewrite (const_fmap _ _ (of_nanos (capped cap (lvl n)))).
    + by rewrite length_seq.
    + intros i j [-> Hj]%lookup_seq.
      f_equal. apply capped_over; [done|]. apply lvl_mono. lia.
  - simpl. rewrite (at_next n), decide_False by done.
    f_equal. by apply (IH (Datatypes.S n)), at_step.
Qed.
End capped_series.

(** ** [FixedDelay] *)
Module FixedDelay.

Record t : Type := Mk { delay : Duration }.

Definition default : t := Mk DURATION_ZERO.
Definition new (d : Duration) : t := Mk d.
Definition from_millis (millis : Z) : t := new (StdTime.from_millis millis).
Definition from_secs (s : Z) : t := new (StdTime.from_secs s).

Definition next (s : t) : option Duration * t := (Some (delay s), s).

#[global] Instance iterator : Iterator t Duration := next.
#[global] Instance unending : Unending t Duration.
Proof. intros s. by eexists _, _. Qed.

Lemma fixed_items n s : iter_items n s = replicate n (delay s).
Proof. induction n; simpl; by f_equal. Qed.

End FixedDelay.

(** ** [FibonacciBackoff] *)
Module FibonacciBackoff.

Record t : Type := Mk {
  current : Duration;
  next_ : Duration;
  max_delay_ : option Duration;
}.

Definition default : t := Mk DURATION_ZERO DURATION_ZERO None.
Definition new (initial_delay : Duration) : t := Mk initial_delay initial_delay None.
Definition from_millis (millis : Z) : t := new (StdTime.from_millis millis).
Definition from_secs (s : Z) : t := new (StdTime.from_secs s).
Definition max_delay (s : t) (m : Duration) : t := Mk (current s) (next_ s) (Some m).

(** What [next] does after the cap check. *)
Definition advance (s : t) : t :=
  match checked_add (current s) (next_ s) with
  | Some next_next => Mk (next_ s) next_next (max_delay_ s)
  | None => Mk (next_ s) DURATION_MAX (max_delay_ s)
  end.

Definition next (s : t) : option Duration * t :=
  let duration := current s in
  match max_delay_ s with
  | Some m =>
      if duration_gtb duration m then (Some m, s) else (Some duration, advance s)
  | None => (Some duration, advance s)
  end.

#[global] Instance iterator : Iterator t Duration := next.
#[global] Instance unending : Unending t Duration.
Proof.
  intros s. unfold iter_next, iterator, next.
  destruct (max_delay_ s); [case_match|]; by eexists _, _.
Qed.

(** The Fibonacci numbers 0, 1, 1, 2, 3, 5, ... *)
Fixpoint fib_pair (n : nat) : Z * Z :=
  match n with
  | O => (0, 1)
  | S n => let '(a, b) := fib_pair n in (b, a + b)
  end.
Definition fib (n : nat) : Z := fst (fib_pair n).

Lemma fib_SS n : fib (S (S n)) = fib n + fib (S n).
Proof. unfold fib. simpl. by destruct (fib_pair n). Qed.

Lemma fib_pos n : 0 ≤ fib n ∧ 0 < fib (S n).
Proof. induction n as [|n IH]; [done|]. rewrite fib_SS. lia. Qed.

Lemma fib_mono n m : (n ≤ m)%nat → fib (S n) ≤ fib (S m).
Proof.
  induction 1 as [|m _ IH]; [done|]. rewrite fib_SS. pose proof (fib_pos m). lia.
Qed.

(** The [n]-th uncapped delay, in nanoseconds, of a series that starts at [d]. *)
Definition level (d : Z) (n : nat) : Z := Z.min max_nanos (fib (S n) * d).

Lemma fib_level_bounds d n : 0 ≤ d → 0 ≤ level d n ≤ max_nanos.
Proof.
  intros Hd. unfold level. pose proof (fib_pos n). rewrite max_nanos_eq.
  unfold u64_modulus, NANOS_PER_SEC. nia.
Qed.

Lemma fib_level_mono d n m : 0 ≤ d → (n ≤ m)%nat → level d n ≤ level d m.
Proof.
  intros Hd Hnm. unfold level. pose proof (fib_mono n m Hnm).
  apply Z.min_le_compat_l, Z.mul_le_mono_nonneg_r; lia.
Qed.

(** One step of the saturating recurrence. *)
Lemma fib_level_step d n :
  0 ≤ d →
  level d (S (S n)) =
    if level d n + level d (S n) <=? max_nanos
    then level d n + level d (S n) else max_nanos.
Proof.
  intros Hd. unfold level. rewrite (fib_SS (S n)).
  assert (0 ≤ fib (S n) * d ≤ fib (S (S n)) * d) as Hm.
  { pose proof (fib_pos n). pose proof (fib_mono n (S n)). nia. }
  rewrite Z.mul_add_distr_r. revert Hm.
  generalize (fib (S n) * d) (fib (S (S n)) * d). intros a b Hm.
  assert (0 < max_nanos) by (rewrite max_nanos_eq; done).
  zcase.
Qed.

(** The state holds the [n]-th and the next level of the series from [d]. *)
Record at_level (d : Z) (n : nat) (s : t) : Prop := {
  al_current : current s = of_nanos (level d n);
  al_next : next_ s = of_nanos (level d (S n));
}.

Lemma fib_advance_cap s : max_delay_ (advance s) = max_delay_ s.
Proof. unfold advance. by destruct (checked_add _ _). Qed.

Lemma fib_advance_at_level d n s :
  0 ≤ d → at_level d n s → at_level d (S n) (advance s).
Proof.
  intros Hd [Hc Hn]. unfold advance. rewrite Hc, Hn.
  pose proof (fib_level_bounds d n Hd). pose proof (fib_level_bounds d (S n) Hd).
  rewrite checked_add_spec, !as_of_nanos by (by apply of_nanos_wf).
  pose proof (fib_level_step d n Hd) as Hstep.
  destruct (Z.leb_spec (level d n + level d (S n)) max_nanos);
    split; simpl; try done; by rewrite Hstep.
Qed.

Lemma fib_next_at_level d n s :
  0 ≤ d → cap_wf (max_delay_ s) → at_level d n s →
  next s = (Some (of_nanos (capped (max_delay_ s) (level d n))),
            if decide (over_cap (max_delay_ s) (level d n)) then s else advance s).
Proof.
  intros Hd Hcap Hs. unfold next. pose proof (fib_level_bounds d n Hd).
  rewrite (al_current _ _ _ Hs).
  destruct (max_delay_ s) as [m|]; simpl in *.
  - rewrite duration_gtb_spec, as_of_nanos by (done || by apply of_nanos_wf).
    destruct (Z.ltb_spec (as_nanos m) (level d n)), (decide (as_nanos m < level d n));
      try lia.
    + rewrite Z.min_l, of_as_nanos by (done || lia). done.
    + by rewrite Z.min_r by lia.
  - by destruct (decide False).
Qed.

Lemma fib_new_at_level d : duration_wf d → at_level (as_nanos d) 0 (new d).
Proof.
  intros Hd. pose proof (as_nanos_bounds d Hd).
  assert (∀ n, fib (S n) = 1 → d = of_nanos (level (as_nanos d) n)) as Hl.
  { intros n Hn. unfold level. rewrite Hn, Z.min_r, Z.mul_1_l, of_as_nanos by (done || lia).
    done. }
  split; by apply Hl.
Qed.

Lemma fib_max_delay_at_level d n s m : at_level d n s → at_level d n (max_delay s m).
Proof. intros [? ?]. by split. Qed.

Lemma fib_items_at_level d cap n s k :
  0 ≤ d → cap_wf cap → at_level d n s → max_delay_ s = cap →
  iter_items k s = (λ i, of_nanos (capped cap (level d i))) <$> seq n k.
Proof.
  intros Hd Hcap Hs Heq.
  apply (series_items cap (level d) (λ n s, at_level d n s ∧ max_delay_ s = cap) advance);
    [|intros m u [Hu <-]..|done].
  - intros ??. by apply fib_level_mono.
  - by apply fib_next_at_level.
  - split; [by apply fib_advance_at_level|apply fib_advance_cap].
Qed.

(** A series seen through an optional [max_delay], as the builder sets it. *)
Definition build (d : Duration) (cap : option Duration) : t :=
  match cap with Some m => max_delay (new d) m | None => new d end.

Lemma fib_build_at_level d cap :
  duration_wf d →
  at_level (as_nanos d) 0 (build d cap) ∧ max_delay_ (build d cap) = cap.
Proof.
  intros Hd. destruct cap; simpl; [|by split; [apply fib_new_at_level|]].
  split; [|done]. by apply fib_max_delay_at_level, fib_new_at_level.
Qed.

(** C12: the delays of a Fibonacci back-off are the Fibonacci multiples of the
    initial delay, saturated at [Duration::MAX] and cut at [max_delay]: for
    every initial delay, optional cap and number of items. *)
Theorem fibonacci_delays (d : Duration) (cap : option Duration) (n : nat)
    (Hd : duration_wf d) (Hcap : cap_wf cap) :
  iter_items n (build d cap) =
    (λ k, of_nanos (capped cap (Z.min max_nanos (fib (S k) * as_nanos d)))) <$> seq 0 n.
Proof.
  destruct (fib_build_at_level d cap Hd) as [Hat Heq].
  pose proof (as_nanos_bounds d Hd). by apply fib_items_at_level; [lia|..].
Qed.

Lemma fibonacci_delays_witness :
  iter_items 6 (build (StdTime.from_millis 10) (Some (StdTime.from_millis 50))) =
    StdTime.from_millis <$> [10; 10; 20; 30; 50; 50].
Proof.
  rewrite (fibonacci_delays (StdTime.from_millis 10) (Some (StdTime.from_millis 50)) 6);
    [vm_compute; reflexivity | vm_compute; intuition discriminate
    | vm_compute; intuition discriminate].
Defined.

End FibonacciBackoff.

(** ** [ExponentialBackoff] *)
Module ExponentialBackoff.

Record t : Type := Mk {
  base_millis : Z;
  current_millis : Z;
  max_delay_ : option Duration;
}.

Definition default : t := Mk 0 0 None.
Definition from_millis (millis : Z) : t := Mk millis millis None.
Definition max_delay (s : t) (m : Duration) : t :=
  Mk (base_millis s) (current_millis s) (Some m).

Definition advance (s : t) : t :=
  match u64_checked_mul (current_millis s) (base_millis s) with
  | Some next => Mk (base_millis s) next (max_delay_ s)
  | None => Mk (base_millis s) u64_max (max_delay_ s)
  end.

Definition next (s : t) : option Duration * t :=
  let duration := StdTime.from_millis (current_millis s) in
  match max_delay_ s with
  | Some m =>
      if duration_gtb duration m then (Some m, s) else (Some duration, advance s)
  | None => (Some duration, advance s)
  end.

#[global] Instance iterator : Iterator t Duration := next.
#[global] Instance unending : Unending t Duration.
Proof.
  intros s. unfold iter_next, iterator, next.
  destruct (max_delay_ s); [case_match|]; by eexists _, _.
Qed.

(** The [n]-th uncapped delay in milliseconds. *)
Definition level (b : Z) (n : nat) : Z := Z.min u64_max (b ^ Z.of_nat (S n)).

Lemma power_S (b : Z) n : b ^ Z.of_nat (S (S n)) = b ^ Z.of_nat (S n) * b.
Proof. rewrite (Nat2Z.inj_succ (S n)), Z.pow_succ_r by lia. lia. Qed.

Lemma exp_level_bounds b n : 0 ≤ b → in_u64 (level b n).
Proof.
  intros Hb. unfold level, in_u64, u64_max, u64_modulus.
  pose proof (Z.pow_nonneg b (Z.of_nat (S n)) Hb). lia.
Qed.

Lemma exp_level_step b n :
  in_u64 b →
  level b (S n) =
    if level b n * b <=? u64_max then level b n * b else u64_max.
Proof.
  unfold in_u64, u64_modulus. intros Hb. unfold level. rewrite power_S.
  pose proof (Z.pow_nonneg b (Z.of_nat (S n))) as Hp.
  assert (b ≤ 1 → b ^ Z.of_nat (S n) ≤ 1) as Hsmall.
  { intros Hle. assert (b = 0 ∨ b = 1) as [-> | ->] by lia.
    - by rewrite Z.pow_0_l by lia.
    - by rewrite Z.pow_1_l by lia. }
  revert Hp Hsmall. generalize (b ^ Z.of_nat (S n)). unfold u64_max. intros p Hp Hs.
  destruct (Z.leb_spec p 18446744073709551615).
  - rewrite !(Z.min_r _ p) by lia. zcase; rewrite ?Z.min_r, ?Z.min_l by lia; lia.
  - rewrite !(Z.min_l _ p) by lia. assert (2 ≤ b) by lia.
    zcase; rewrite Z.min_l by nia; done.
Qed.

Lemma exp_level_mono b n m : in_u64 b → (n ≤ m)%nat → level b n ≤ level b m.
Proof.
  intros Hb. induction 1 as [|m _ IH]; [done|].
  etrans; [exact IH|]. pose proof (exp_level_bounds b m) as Hl.
  unfold in_u64, u64_modulus in *. rewrite (exp_level_step b m) by done.
  destruct (Z.eq_dec b 0) as [->|].
  - unfold level. rewrite Z.pow_0_l by lia. by rewrite Z.mul_0_r.
  - unfold u64_max. zcase. nia.
Qed.

Record at_level (b : Z) (n : nat) (s : t) : Prop := {
  al_base : base_millis s = b;
  al_current : current_millis s = level b n;
}.

Lemma exp_advance_cap s : max_delay_ (advance s) = max_delay_ s.
Proof. unfold advance. by destruct (u64_checked_mul _ _). Qed.

Lemma exp_advance_at_level b n s : in_u64 b → at_level b n s → at_level b (S n) (advance s).
Proof.
  intros Hb [Hbase Hc]. unfold advance, u64_checked_mul. rewrite Hc, Hbase.
  pose proof (exp_level_step b n Hb) as Hstep.
  destruct (Z.leb_spec (level b n * b) u64_max); split; simpl; done.
Qed.

Lemma exp_next_at_level b n s :
  in_u64 b → cap_wf (max_delay_ s) → at_level b n s →
  next s = (Some (of_nanos (capped (max_delay_ s) (level b n * 1000000))),
            if decide (over_cap (max_delay_ s) (level b n * 1000000)) then s
            else advance s).
Proof.
  intros Hb Hcap Hs. unfold next.
  assert (duration_wf (StdTime.from_millis (level b n))) as Hwf.
  { apply from_millis_wf, exp_level_bounds. by destruct Hb. }
  pose proof (as_nanos_from_millis (level b n)) as Hn.
  rewrite (al_current _ _ _ Hs). rewrite <- Hn. destruct (max_delay_ s) as [m|]; simpl in *.
  - rewrite duration_gtb_spec by done.
    destruct (Z.ltb_spec (as_nanos m) (as_nanos (StdTime.from_millis (level b n)))),
      (decide (as_nanos m < as_nanos (StdTime.from_millis (level b n)))); try lia.
    + rewrite Z.min_l, of_as_nanos by (done || lia). done.
    + by rewrite Z.min_r, of_as_nanos by (done || lia).
  - rewrite of_as_nanos by done. by destruct (decide False).
Qed.

Lemma exp_items_at_level b cap n s k :
  in_u64 b → cap_wf cap → at_level b n s → max_delay_ s = cap →
  iter_items k s = (λ i, of_nanos (capped cap (level b i * 1000000))) <$> seq n k.
Proof.
  intros Hb Hcap Hs Heq.
  apply (series_items cap (λ i, level b i * 1000000)
           (λ n s, at_level b n s ∧ max_delay_ s = cap) advance);
    [|intros m u [Hu <-]..|done].
  - intros i j Hij. pose proof (exp_level_mono b i j Hb Hij). lia.
  - by apply exp_next_at_level.
  - split; [by apply exp_advance_at_level|apply exp_advance_cap].
Qed.

Definition build (b : Z) (cap : option Duration) : t :=
  match cap with Some m => max_delay (from_millis b) m | None => from_millis b end.

Lemma exp_build_at_level b cap :
  in_u64 b → at_level b 0 (build b cap) ∧ max_delay_ (build b cap) = cap.
Proof.
  intros Hb. assert (b = level b 0) as Hl.
  { unfold level. rewrite Z.pow_1_r. unfold in_u64, u64_modulus, u64_max in *. lia. }
  by destruct cap; simpl; split; [split|..].
Qed.

(** C17: the delays of an exponential back-off from base [b] are the powers
    [b], [b^2], [b^3], ... milliseconds, saturated at [u64::MAX] milliseconds
    and cut at [max_delay]. *)
Theorem exponential_delays (b : Z) (cap : option Duration) (n : nat)
    (Hb : in_u64 b) (Hcap : cap_wf cap) :
  iter_items n (build b cap) =
    (λ k, of_nanos (capped cap (Z.min u64_max (b ^ Z.of_nat (S k)) * 1000000)))
      <$> seq 0 n.
Proof.
  destruct (exp_build_at_level b cap Hb) as [Hat Heq]. by apply exp_items_at_level.
Qed.

Lemma exponential_delays_witness :
  iter_items 3 (build 18446744073709551614 None) =
    StdTime.from_millis <$> [18446744073709551614; u64_max; u64_max].
Proof.
  rewrite (exponential_delays 18446744073709551614 None 3);
    [vm_compute; reflexivity | vm_compute; intuition discriminate | exact I].
Defined.

End ExponentialBackoff.
