(* ===== verification/Strategies.v ===== *)
(** * The type invariant of the delay strategies of src/src/retry.rs

    A strategy is typed when its fields are values of their Rust types.  The
    interface [DelayStrategy] states what [next] promises to a retry from any typed
    state, reached by the constructors or not: it gives a [Duration] within the limit,
    the limit stays, and the state stays typed, however often it is called. *)

From S2P Require Export Delay.

(** [d] is not above the limit. *)
Definition within (limit : option Duration) (d : Duration) : Prop :=
  match limit with Some m => as_nanos d ≤ as_nanos m | None => True end.

(** The state after [n] calls of [next]. *)
Fixpoint iter_state {I Item} `{Iterator I Item} (n : nat) (it : I) : I :=
  match n with O => it | S n => iter_state n (iter_next it).2 end.

Class DelayStrategy (I : Type) `{Iterator I Duration} := {
  typed : I → Prop;
  limit : I → option Duration;
  next_typed s : typed s → ∃ d s', iter_next s = (Some d, s') ∧
    duration_wf d ∧ within (limit s) d ∧ typed s' ∧ limit s' = limit s;
}.

Section strategy.
Context {I : Type} `{DelayStrategy I}.

Lemma strategy_state n (s : I) :
  typed s → typed (iter_state n s) ∧ limit (iter_state n s) = limit s.
Proof.
  revert s. induction n as [|n IH]; intros s Hs; [done|].
  destruct (next_typed s Hs) as (d & s' & Hn & _ & _ & Hs' & <-). simpl. rewrite Hn.
  by apply IH.
Qed.

Lemma strategy_items n (s : I) :
  typed s → Forall (λ d, duration_wf d ∧ within (limit s) d) (iter_items n s).
Proof.
  revert s. induction n as [|n IH]; intros s Hs; [constructor|].
  destruct (next_typed s Hs) as (d & s' & Hn & Hd & Hw & Hs' & Hl). simpl. rewrite Hn.
  constructor; [done|]. rewrite <- Hl. by apply IH.
Qed.
End strategy.

(** ** The three strategies *)

Definition fixed_typed (s : FixedDelay.t) : Prop := duration_wf (FixedDelay.delay s).
Definition fibonacci_typed (s : FibonacciBackoff.t) : Prop :=
  duration_wf (FibonacciBackoff.current s) ∧ duration_wf (FibonacciBackoff.next_ s) ∧
  cap_wf (FibonacciBackoff.max_delay_ s).
Definition exponential_typed (s : ExponentialBackoff.t) : Prop :=
  in_u64 (ExponentialBackoff.base_millis s) ∧ in_u64 (ExponentialBackoff.current_millis s) ∧
  cap_wf (ExponentialBackoff.max_delay_ s).

#[export] Instance fixed_strategy : DelayStrategy FixedDelay.t.
Proof.
  refine {| typed := fixed_typed; limit s := Some (FixedDelay.delay s) |}.
  intros s Hs. exists (FixedDelay.delay s), s. split_and!; simpl; done || lia.
Defined.

Section capped_strategies.
(** Both back-offs cut what they are about to give at their limit. *)
Lemma cut_within (cap : option Duration) (d : Duration) {S} (s s' : S) :
  duration_wf d → cap_wf cap →
  ∃ d', match cap with
        | Some m => if duration_gtb d m then (Some m, s) else (Some d, s')
        | None => (Some d, s')
        end = (Some d', if decide (over_cap cap (as_nanos d)) then s else s') ∧
    duration_wf d' ∧ within cap d'.
Proof.
  intros Hd Hcap. destruct cap as [m|]; simpl in *; [|by exists d].
  rewrite duration_gtb_spec by done.
  destruct (Z.ltb_spec (as_nanos m) (as_nanos d)), (decide (as_nanos m < as_nanos d)); try lia.
  - exists m. split; [done|]. split; [done|lia].
  - exists d. split; [done|]. split; [done|lia].
Qed.
End capped_strategies.

#[export] Instance fibonacci_strategy : DelayStrategy FibonacciBackoff.t.
Proof.
  refine {| typed := fibonacci_typed; limit := FibonacciBackoff.max_delay_ |}.
  intros s (Hc & Hn & Hm).
  destruct (cut_within _ _ s (FibonacciBackoff.advance s) Hc Hm) as (d & Hd & Hwf & Hw).
  exists d. eexists. split; [exact Hd|]. split; [done|]. split; [done|].
  destruct (decide _); [done|]. unfold fibonacci_typed. rewrite FibonacciBackoff.fib_advance_cap. split; [|done].
  unfold FibonacciBackoff.advance. pose proof (as_nanos_bounds _ Hc).
  pose proof (as_nanos_bounds _ Hn). rewrite checked_add_spec by done.
  zcase; simpl; split_and!; auto with rust. apply of_nanos_wf. lia.
Defined.

Lemma exp_advance_typed (s : ExponentialBackoff.t) :
  in_u64 (ExponentialBackoff.base_millis s) → in_u64 (ExponentialBackoff.current_millis s) →
  in_u64 (ExponentialBackoff.base_millis (ExponentialBackoff.advance s)) ∧
  in_u64 (ExponentialBackoff.current_millis (ExponentialBackoff.advance s)).
Proof.
  unfold ExponentialBackoff.advance, u64_checked_mul, in_u64. intros Hb Hc.
  assert (u64_modulus = u64_max + 1) as Hm by done.
  assert (0 ≤ u64_max) by done. revert Hm. generalize dependent u64_modulus.
  generalize dependent u64_max. intros max Hmax modulus Hb Hc Hm. zcase; simpl; nia.
Qed.

#[export] Instance exponential_strategy : DelayStrategy ExponentialBackoff.t.
Proof.
  refine {| typed := exponential_typed; limit := ExponentialBackoff.max_delay_ |}.
  intros s (Hb & Hc & Hm).
  destruct (cut_within _ _ s (ExponentialBackoff.advance s) (from_millis_wf _ Hc) Hm)
    as (d & Hd & Hwf & Hw).
  exists d. eexists. split; [exact Hd|]. split; [done|]. split; [done|].
  destruct (decide _); [done|]. unfold exponential_typed. rewrite ExponentialBackoff.exp_advance_cap. split; [|done].
  by destruct (exp_advance_typed s Hb Hc).
Defined.

(** Asked for [n] delays, a strategy gives typed ones and stays typed. *)
Definition keeps_types (I : Type) `{DelayStrategy I} (n : nat) : Prop :=
  ∀ s : I, typed s →
    Forall (λ d, duration_wf d ∧ within (limit s) d) (iter_items n s) ∧
    typed (iter_state n s) ∧ limit (iter_state n s) = limit s.

Lemma strategy_keeps_types {I} `{DelayStrategy I} n : keeps_types I n.
Proof. intros s Hs. split; [by apply strategy_items|by apply strategy_state]. Qed.

(** C22: the strategies are well typed.  The constructors and [max_delay] give typed
    states with the limit they are asked for, and from any typed state, reached that
    way or not, [next] never leaves the types: however many delays are asked for, each
    is a [Duration] within the limit, the fields keep their ranges (sums and products
    that do not fit saturate), and the limit stays. *)
Theorem strategies_typed (d m : Duration) (b : Z) (n : nat)
    (Hd : duration_wf d) (Hm : duration_wf m) (Hb : in_u64 b) :
  (fixed_typed (FixedDelay.new d) ∧ keeps_types FixedDelay.t n) ∧
  (fibonacci_typed (FibonacciBackoff.new d) ∧
   (∀ s, fibonacci_typed s → fibonacci_typed (FibonacciBackoff.max_delay s m) ∧
     limit (FibonacciBackoff.max_delay s m) = Some m) ∧
   keeps_types FibonacciBackoff.t n) ∧
  (exponential_typed (ExponentialBackoff.from_millis b) ∧
   (∀ s, exponential_typed s → exponential_typed (ExponentialBackoff.max_delay s m) ∧
     limit (ExponentialBackoff.max_delay s m) = Some m) ∧
   keeps_types ExponentialBackoff.t n).
Proof.
  split; [|split]; (split; [done|]); [|split..]; try apply strategy_keeps_types;
    by intros s (Hc & Hn & _).
Qed.

(** An exponential back-off at the end of its range. *)
Lemma strategies_typed_witness :
  Forall (λ x, duration_wf x ∧ within None x)
    (iter_items 3 (ExponentialBackoff.from_millis u64_max)).
Proof.
  refine (proj1 (proj2 (proj2 (proj2 (proj2 (strategies_typed (StdTime.from_millis 10)
    (StdTime.from_millis 50) u64_max 3 _ _ _)))) (ExponentialBackoff.from_millis u64_max) _));
    vm_compute; intuition discriminate.
Defined.
