(* ===== verification/Retry.v ===== *)
(** * Retries: [retry] and [retry_if] of src/src/retry.rs

    A call of the user's [factory] followed by [.await] is an effectful
    computation of the world [W] (the closure is [FnMut], so its captured state
    lives in [W]), and so is [sleep(delay).await].  The [for] loop takes its
    delays from an arbitrary iterator, which may never end, so it runs on fuel;
    [retry_if_refines] shows that one more unit of fuel than there are delays
    is enough, and [retry_unbounded_never_returns] that no fuel is enough when
    the delays and the retryable errors never end. *)

From S2P Require Export Strategies.

Section retry.
Context {W O E I : Type} `{Iterator I Duration}.
Context (sleep : Duration → M W unit).
Context (factory : M W (result O E)).

(** The [poll_err!] macro: [inl r] is its [return r], [inr err] its value. *)
Definition poll_err (condition : E → bool) : M W (result O E + E) :=
  r ← factory;
  match r with
  | Ok output => mret (inl (Ok output))
  | Err err => if negb (condition err) then mret (inl (Err err)) else mret (inr err)
  end.

(** The [for delay_duration in retries] loop, entered with [err]. *)
Fixpoint retry_loop (condition : E → bool) (fuel : nat) (retries : I) (err : E) :
    M W (result O E) :=
  match fuel with
  | 0%nat => lift OutOfFuel
  | S fuel =>
      match iter_next retries with
      | (None, _) => mret (Err err)
      | (Some delay_duration, retries') =>
          _ ← sleep delay_duration;
          r ← poll_err condition;
          match r with
          | inl ret => mret ret
          | inr err => retry_loop condition fuel retries' err
          end
      end
  end.

Definition retry_if (condition : E → bool) (fuel : nat) (retries : I) :
    M W (result O E) :=
  r ← poll_err condition;
  match r with
  | inl ret => mret ret
  | inr err => retry_loop condition fuel retries err
  end.

Definition retry (fuel : nat) (retries : I) : M W (result O E) :=
  retry_if (λ _, true) fuel retries.

(** *** What a retry promises

    One attempt per delay and one more, as long as the errors are retryable. *)
Fixpoint retry_spec (condition : E → bool) (delays : list Duration) : M W (result O E) :=
  r ← factory;
  match r, delays with
  | Ok output, _ => mret (Ok output)
  | Err err, [] => mret (Err err)
  | Err err, d :: delays =>
      if condition err then _ ← sleep d; retry_spec condition delays
      else mret (Err err)
  end.

(** The defining equations, with the monad unfolded. *)
Lemma retry_if_eq condition fuel it w :
  retry_if condition fuel it w =
    match factory w with
    | (w', Val (Ok o)) => (w', Val (Ok o))
    | (w', Val (Err e)) =>
        if condition e then retry_loop condition fuel it e w' else (w', Val (Err e))
    | (w', Panic) => (w', Panic)
    | (w', OutOfFuel) => (w', OutOfFuel)
    end.
Proof.
  unfold retry_if, poll_err, mbind, M_bind.
  destruct (factory w) as [w' [[o|e]| |]]; try reflexivity.
  by destruct (condition e).
Qed.

Lemma retry_loop_eq condition fuel it e w :
  retry_loop condition (S fuel) it e w =
    match iter_next it with
    | (None, _) => (w, Val (Err e))
    | (Some d, it') => (_ ← sleep d; retry_if condition fuel it') w
    end.
Proof. simpl. by destruct (iter_next it) as [[d|] it']. Qed.

Lemma retry_if_spec condition it delays fuel w :
  yields it delays → (length delays < fuel)%nat →
  retry_if condition fuel it w = retry_spec condition delays w.
Proof.
  intros Hy. revert fuel w.
  induction Hy as [it it' Hn|it d it' ds Hn Hy IH]; intros [|fuel] w Hfuel;
    simpl in Hfuel; [lia| |lia|]; rewrite retry_if_eq; cbn [retry_spec];
    unfold mbind at 1; unfold M_bind;
    destruct (factory w) as [w1 [[o|e]| |]]; try reflexivity;
    rewrite retry_loop_eq, Hn; destruct (condition e); try reflexivity.
  unfold mbind, M_bind. destruct (sleep d w1) as [w2 [[]| |]]; try reflexivity.
  apply IH. lia.
Qed.

(** C6: on an iterator that yields finitely many delays, [retry_if] returns
    (no fuel runs out once there is one unit more than delays) and is the
    specification: the same calls of the factory and of [sleep] in the same
    order, the same result, for every world and every factory, panicking ones
    included. *)
Theorem retry_if_refines (condition : E → bool) (it : I) (delays : list Duration)
    (fuel : nat) (w : W)
    (Hy : yields it delays) (Hfuel : (length delays < fuel)%nat) :
  retry_if condition fuel it w = retry_spec condition delays w.
Proof. by apply retry_if_spec. Qed.
End retry.

(** ** What an observer sees

    The world of an observer: how often the factory was called, and the calls
    and sleeps so far.  The outcome of the [n]-th attempt is given by an oracle. *)

Inductive event : Type :=
| Attempt (n : nat)
| Sleep (d : Duration).

Record observed : Type := Obs { attempts : nat; log : list event }.
Definition obs_init : observed := Obs 0 [].

Section observed.
Context {O E : Type} (oracle : nat → result O E).

Definition obs_sleep (d : Duration) : M observed unit := λ w,
  (Obs (attempts w) (log w ++ [Sleep d]), Val tt).

Definition obs_factory : M observed (result O E) := λ w,
  (Obs (S (attempts w)) (log w ++ [Attempt (attempts w)]), Val (oracle (attempts w))).

(** Whether the [n]-th attempt makes the retry go on. *)
Definition retryable (condition : E → bool) (n : nat) : bool :=
  match oracle n with Ok _ => false | Err e => condition e end.

(** Attempts from the [n]-th on, one delay between two of them. *)
Fixpoint rounds (n : nat) (delays : list Duration) : list event :=
  match delays with
  | [] => [Attempt n]
  | d :: ds => Attempt n :: Sleep d :: rounds (S n) ds
  end.

(** The time slept, in nanoseconds. *)
Definition slept (l : list event) : Z :=
  foldr (λ e acc, match e with Sleep d => as_nanos d + acc | Attempt _ => acc end) 0 l.

Lemma retry_spec_rounds condition delays n l k :
  (k ≤ length delays)%nat →
  (∀ i, (i < k)%nat → retryable condition (n + i) = true) →
  (k = length delays ∨ retryable condition (n + k) = false) →
  retry_spec obs_sleep obs_factory condition delays (Obs n l) =
    (Obs (S (n + k)) (l ++ rounds n (take k delays)), Val (oracle (n + k))).
Proof.
  revert n l k. induction delays as [|d ds IH]; intros n l k Hk Hgo Hstop; simpl in Hk.
  - assert (k = 0)%nat as -> by lia. rewrite Nat.add_0_r. simpl.
    unfold mbind, M_bind, obs_factory. simpl. by destruct (oracle n).
  - destruct k as [|k].
    + rewrite Nat.add_0_r in *. simpl in *.
      destruct Hstop as [|Hstop]; [done|]. unfold retryable in Hstop.
      unfold mbind, M_bind, obs_factory. simpl.
      destruct (oracle n) as [o|e]; [done|]. by rewrite Hstop.
    + pose proof (Hgo 0%nat ltac:(lia)) as H0. rewrite Nat.add_0_r in H0.
      simpl in *. unfold retryable in H0.
      unfold mbind, M_bind, obs_factory at 1. simpl.
      destruct (oracle n) as [o|e]; [done|]. rewrite H0. unfold mbind, M_bind. simpl.
      rewrite (IH (S n) _ k).
      * rewrite <- !app_assoc. simpl. by rewrite Nat.add_succ_r.
      * lia.
      * intros i Hi. rewrite Nat.add_succ_comm. apply Hgo. lia.
      * rewrite Nat.add_succ_comm. destruct Hstop as [|]; [left; lia|by right].
Qed.

(** [retry_if] stops at the first attempt that is not retryable, or
    after the last delay; the result is the one of that attempt, and the log
    is one attempt, then for each delay used a sleep of that very delay
    followed by the next attempt. *)
Lemma retry_if_trace {I} `{Iterator I Duration} (condition : E → bool) (it : I)
    (delays : list Duration) (fuel k : nat)
    (Hy : yields it delays) (Hfuel : (length delays < fuel)%nat)
    (Hk : (k ≤ length delays)%nat)
    (Hgo : ∀ i, (i < k)%nat → retryable condition i = true)
    (Hstop : k = length delays ∨ retryable condition k = false) :
  retry_if obs_sleep obs_factory condition fuel it obs_init =
    (Obs (S k) (rounds 0 (take k delays)), Val (oracle k)).
Proof.
  rewrite (retry_if_spec _ _ _ _ delays) by done. unfold obs_init.
  by rewrite (retry_spec_rounds condition delays 0 [] k).
Qed.

(** Where a retry over [ds] stops: the first attempt that is not retryable, or the
    one after the last delay. *)
Lemma stops_at condition n (ds : list Duration) :
  ∃ k, (k ≤ length ds)%nat ∧ (∀ i, (i < k)%nat → retryable condition (n + i) = true) ∧
    (k = length ds ∨ retryable condition (n + k) = false).
Proof.
  revert n. induction ds as [|d ds IH]; intros n.
  - exists 0%nat. repeat split; [simpl; lia|intros i Hi; lia|by left].
  - destruct (retryable condition n) eqn:Hr.
    + destruct (IH (S n)) as (k & Hk & Hgo & Hstop). exists (S k). simpl.
      split; [lia|]. rewrite Nat.add_succ_r. split.
      * intros [|i] Hi; [by rewrite Nat.add_0_r|]. rewrite Nat.add_succ_r. apply Hgo. lia.
      * destruct Hstop as [->|]; [by left|by right].
    + exists 0%nat. simpl. rewrite Nat.add_0_r. repeat split; [lia|intros i Hi; lia|by right].
Qed.

Lemma slept_rounds n ds m :
  Forall (λ d, as_nanos d ≤ m) ds → slept (rounds n ds) ≤ Z.of_nat (length ds) * m.
Proof.
  intros Hds. revert n. induction Hds as [|d ds Hd Hds IH]; intros n; simpl; [lia|].
  specialize (IH (S n)). lia.
Qed.

(** Every strategy that is taken [n] times and never asks for more than [m]. *)
Lemma retry_capped {I} `{Iterator I Duration} `{!Unending I Duration}
    (condition : E → bool) (it : I) (n : nat) (m : Z) :
  0 ≤ m → Forall (λ d, as_nanos d ≤ m) (iter_items n it) →
  ∃ w r, retry_if obs_sleep obs_factory condition (S n) (Take it n) obs_init = (w, Val r) ∧
    (attempts w ≤ S n)%nat ∧ slept (log w) ≤ Z.of_nat n * m.
Proof.
  intros Hm Hcap. pose proof (length_iter_items_unending n it) as Hlen.
  destruct (stops_at condition 0 (iter_items n it)) as (k & Hk & Hgo & Hstop).
  rewrite (retry_if_spec _ _ _ _ (iter_items n it)) by (apply yields_take_unending || lia).
  unfold obs_init. rewrite (retry_spec_rounds condition (iter_items n it) 0 [] k) by done.
  eexists _, _. split; [reflexivity|]. simpl. split; [lia|].
  pose proof (slept_rounds 0 (take k (iter_items n it)) m (Forall_take _ _ _ Hcap)) as Hs.
  rewrite length_take in Hs. nia.
Qed.

(** So, by its interface, does every strategy with a limit. *)
Lemma retry_strategy {I} `{DelayStrategy I} `{!Unending I Duration}
    (condition : E → bool) (it : I) (m : Duration) (n : nat) :
  typed it → limit it = Some m → duration_wf m →
  ∃ w r, retry_if obs_sleep obs_factory condition (S n) (Take it n) obs_init = (w, Val r) ∧
    (attempts w ≤ S n)%nat ∧ slept (log w) ≤ Z.of_nat n * as_nanos m.
Proof.
  intros Hit Hm Hwf. pose proof (as_nanos_bounds m Hwf).
  apply retry_capped; [lia|]. eapply Forall_impl; [by apply strategy_items|].
  intros d. rewrite Hm. by intros [_ ?].
Qed.

(** C18: a bounded retry is bounded in time: over [n] delays of any of the three
    strategies with [max_delay] (or of a fixed delay), whatever the attempts give and
    whatever is retryable, a retry returns after at most [n + 1] attempts, having
    slept at most [n] times the maximum in all. *)
Theorem retry_time_bounded (condition : E → bool) (d m : Duration) (b : Z) (n : nat)
    (Hd : duration_wf d) (Hm : duration_wf m) (Hb : in_u64 b) :
  let bounded {I} `{Iterator I Duration} (it : I) (limit : Duration) :=
    ∃ w r, retry_if obs_sleep obs_factory condition (S n) (Take it n) obs_init = (w, Val r) ∧
      (attempts w ≤ S n)%nat ∧ slept (log w) ≤ Z.of_nat n * as_nanos limit in
  bounded (FixedDelay.new d) d ∧
  bounded (FibonacciBackoff.max_delay (FibonacciBackoff.new d) m) m ∧
  bounded (ExponentialBackoff.max_delay (ExponentialBackoff.from_millis b) m) m.
Proof.
  intros bounded. unfold bounded. split; [|split]; by apply retry_strategy.
Qed.

(** A strategy without [take] (the three strategies of the crate never
    end) never returns when every error is retryable: whatever the fuel, the
    loop is still running, and it has made [fuel + 1] attempts. *)
Lemma retry_unbounded_never_returns {I} `{Iterator I Duration} `{!Unending I Duration}
    (condition : E → bool) (it : I) (fuel : nat)
    (Hgo : ∀ i, retryable condition i = true) :
  ∃ w, retry_if obs_sleep obs_factory condition fuel it obs_init = (w, OutOfFuel) ∧
       attempts w = S fuel.
Proof.
  assert (∀ fuel (it : I) n l e, ∃ w,
    retry_loop obs_sleep obs_factory condition fuel it e (Obs n l) = (w, OutOfFuel) ∧
    attempts w = (n + fuel)%nat) as Hloop.
  { clear it fuel. induction fuel as [|fuel IH]; intros it n l e.
    - eexists. simpl. split; [done|]. simpl. lia.
    - destruct (unending it) as (d & it' & Hn). simpl. rewrite Hn.
      pose proof (Hgo n) as Hr. unfold retryable in Hr.
      unfold mbind, M_bind, poll_err, obs_sleep, obs_factory. simpl.
      unfold mbind, M_bind. simpl.
      destruct (oracle n) as [o|e']; [done|]. rewrite Hr. simpl.
      destruct (IH it' (S n) ((l ++ [Sleep d]) ++ [Attempt n]) e') as (w & Hw & Ha).
      exists w. split; [exact Hw|]. lia. }
  pose proof (Hgo 0%nat) as Hr. unfold retryable in Hr.
  unfold retry_if, poll_err, mbind, M_bind, obs_factory. simpl.
  destruct (oracle 0%nat) as [o|e]; [done|]. rewrite Hr. simpl. apply Hloop.
Qed.
End observed.

(** ** Witnesses

    The run of the documentation example: [FixedDelay::from_millis(100).take(2)]
    around an operation that always fails is three attempts. *)

Definition doc_delays : list Duration := [StdTime.from_millis 100; StdTime.from_millis 100].
Definition doc_iter : take_iter FixedDelay.t := Take (FixedDelay.from_millis 100) 2.

Lemma doc_yields : yields doc_iter doc_delays.
Proof. exact (yields_take_unending 2 (FixedDelay.from_millis 100)). Qed.

Definition not_found (n : nat) : result unit error_kind := Err NotFound.
Definition retry_not_found (e : error_kind) : bool := bool_decide (e = NotFound).

(** Fails with [NotFound] once, then with an error that is not retryable. *)
Definition conditional (n : nat) : result unit error_kind :=
  if bool_decide (n < 1)%nat then Err NotFound else Err Other.

Lemma retry_if_refines_witness :
  (retry_if obs_sleep (obs_factory not_found) (λ _, true) 3 doc_iter obs_init).2 =
    Val (Err NotFound).
Proof.
  rewrite (retry_if_refines obs_sleep (obs_factory not_found) (λ _, true) doc_iter
             doc_delays 3 obs_init doc_yields ltac:(simpl; lia)).
  vm_compute. reflexivity.
Defined.

Lemma retry_if_trace_witness :
  retry_if obs_sleep (obs_factory conditional) retry_not_found 3 doc_iter obs_init =
    (Obs 2 [Attempt 0; Sleep (StdTime.from_millis 100); Attempt 1], Val (Err Other)).
Proof.
  refine (retry_if_trace conditional retry_not_found doc_iter doc_delays 3 1 doc_yields
            ltac:(simpl; lia) ltac:(simpl; lia) _ (or_intror eq_refl)).
  intros i Hi. assert (i = 0)%nat as -> by lia. reflexivity.
Defined.

Lemma retry_unbounded_never_returns_witness :
  ∃ w, retry_if obs_sleep (obs_factory not_found) (λ _, true) 5
         (FixedDelay.from_millis 100) obs_init = (w, OutOfFuel) ∧ attempts w = 6%nat.
Proof.
  exact (retry_unbounded_never_returns not_found (λ _, true)
           (FixedDelay.from_millis 100) 5 (λ _, eq_refl)).
Defined.

Lemma retry_time_bounded_witness :
  ∃ w r, retry_if obs_sleep (obs_factory not_found) (λ _, true) 4
    (Take (FibonacciBackoff.max_delay
             (FibonacciBackoff.new (StdTime.from_millis 100)) (StdTime.from_millis 150)) 3)
    obs_init = (w, Val r) ∧ (attempts w ≤ 4)%nat ∧ slept (log w) ≤ 3 * 150000000.
Proof.
  refine (proj1 (proj2 (retry_time_bounded not_found (λ _, true) (StdTime.from_millis 100)
    (StdTime.from_millis 150) 2 3 _ _ _))); vm_compute; intuition discriminate.
Defined.
