(* ===== verification/Futures.v ===== *)
(** * Timers and timeouts: src/src/timer.rs, future.rs and [RetryExt] of retry.rs

    A future is seen from the task that polls it: what its [n]-th poll answers.
    [Timer] of async-io and the combinators [or] and [race] of futures-lite are
    parameters; what is known of the combinators is their documentation: the result
    of the future that completes first, with a preference for the first one or
    without. *)

From S2P Require Export StdTime.

Definition future (A : Type) : Type := nat → poll A.

(** [f] is pending before its [n]-th poll, which gives [a]. *)
Definition completes {A} (f : future A) (n : nat) (a : A) : Prop :=
  f n = Ready a ∧ ∀ i, (i < n)%nat → f i = Pending.

(** [FutureExt::map], and an [async] block that awaits and returns. *)
Definition poll_map {A B} (g : A → B) (p : poll A) : poll B :=
  match p with Ready a => Ready (g a) | Pending => Pending end.
Definition future_map {A B} (g : A → B) (f : future A) : future B := λ n, poll_map g (f n).

Lemma completes_map {A B} (g : A → B) f n a :
  completes f n a → completes (future_map g f) n (g a).
Proof.
  unfold completes, future_map. intros [-> Hp]. split; [done|].
  intros i Hi. by rewrite Hp.
Qed.

Lemma pending_map {A B} (g : A → B) (f : future A) i :
  f i = Pending → future_map g f i = Pending.
Proof. unfold future_map. by intros ->. Qed.

(** [TimeoutError] of retry.rs, and the text of it. *)
Inductive TimeoutError : Type := MkTimeoutError.
Definition timeout_error_display (e : TimeoutError) : string := "TimeoutError".

Class Executor := {
  (** [Timer::after], which gives an instant *)
  Timer_after : Duration → future Z;
  (** [FutureExt::or] and [future::race] *)
  fut_or : ∀ {A}, future A → future A → future A;
  fut_race : ∀ {A}, future A → future A → future A;
}.

(** The documented behaviour of the two combinators. *)
Class ExecutorLaws `{Executor} := {
  or_first {A} (f g : future A) n a :
    completes f n a → (∀ i, (i < n)%nat → g i = Pending) → completes (fut_or f g) n a;
  or_second {A} (f g : future A) n a :
    completes g n a → (∀ i, (i ≤ n)%nat → f i = Pending) → completes (fut_or f g) n a;
  race_first {A} (f g : future A) n a :
    completes f n a → (∀ i, (i ≤ n)%nat → g i = Pending) → completes (fut_race f g) n a;
  race_second {A} (f g : future A) n a :
    completes g n a → (∀ i, (i ≤ n)%nat → f i = Pending) → completes (fut_race f g) n a;
  race_both {A} (f g : future A) n a b :
    completes f n a → completes g n b →
    completes (fut_race f g) n a ∨ completes (fut_race f g) n b;
}.

Section futures.
Context `{Executor}.

(** timer.rs: [after], and [Sleeper], which forgets the instant. *)
Definition after (duration : Duration) : future Z := Timer_after duration.
Definition sleeper_poll (p : poll Z) : poll unit :=
  if is_ready p then Ready tt else Pending.
Definition sleep (duration : Duration) : future unit := λ n, sleeper_poll (after duration n).

(** [RetryExt::timeout]. *)
Definition retry_timeout {A} (self : future A) (timeout : Duration) :
    future (result A TimeoutError) :=
  fut_or (future_map Ok self) (future_map (λ _, Err MkTimeoutError) (sleep timeout)).

(** [future::timeout], over the [Debug] text of a duration. *)
Definition timed_out (debug_duration : Duration → string) (d : Duration) : string :=
  "Future timed out after " +:+ debug_duration d.
Definition future_timeout {A} (debug_duration : Duration → string) (duration : Duration)
    (f : future A) : future (result A string) :=
  fut_race (future_map Ok f)
    (future_map (λ _, Err (timed_out debug_duration duration)) (sleep duration)).

Lemma sleep_completes d n t : completes (after d) n t → completes (sleep d) n tt.
Proof.
  unfold completes, sleep, sleeper_poll. intros [-> Hp]. split; [done|].
  intros i Hi. by rewrite Hp.
Qed.

(** Time-limited futures.  With the timer due at its [m]-th poll, [timeout]
    completes at the poll where the future or the timer does, whichever comes first:
    with the value of the future if it is first; with the timeout error if the timer
    is.  When both are due at the same poll, the [timeout] of retry.rs gives the value
    and the one of future.rs either of the two.  So it completes even if the
    future never does. *)
Lemma timeout_correct `{!ExecutorLaws} {A} (f : future A) (d : Duration) (m : nat) (t : Z)
    (debug_duration : Duration → string) (Htimer : completes (after d) m t) :
  let error := timed_out debug_duration d in
  (∀ n a, completes f n a → (n < m)%nat →
     completes (retry_timeout f d) n (Ok a) ∧
     completes (future_timeout debug_duration d f) n (Ok a)) ∧
  (∀ a, completes f m a →
     completes (retry_timeout f d) m (Ok a) ∧
     (completes (future_timeout debug_duration d f) m (Ok a) ∨
      completes (future_timeout debug_duration d f) m (Err error))) ∧
  ((∀ i, (i ≤ m)%nat → f i = Pending) →
     completes (retry_timeout f d) m (Err MkTimeoutError) ∧
     completes (future_timeout debug_duration d f) m (Err error)).
Proof.
  intros error. pose proof (sleep_completes d m t Htimer) as Hs.
  destruct Hs as [Hready Hpending]. split; [|split].
  - intros n a Hf Hn. split.
    + apply or_first; [by apply completes_map|].
      intros i Hi. apply pending_map, Hpending. lia.
    + apply race_first; [by apply completes_map|].
      intros i Hi. apply pending_map, Hpending. lia.
  - intros a Hf. split.
    + apply or_first; [by apply completes_map|].
      intros i Hi. apply pending_map, Hpending. lia.
    + apply race_both; [by apply completes_map|].
      by apply (completes_map (λ _, Err error) _ _ tt).
  - intros Hf. split.
    + apply or_second; [by apply (completes_map (λ _, Err MkTimeoutError) _ _ tt)|].
      intros i Hi. by apply pending_map, Hf.
    + apply race_second; [by apply (completes_map (λ _, Err error) _ _ tt)|].
      intros i Hi. by apply pending_map, Hf.
Qed.
End futures.

(** ** Witness: an executor that polls once a second *)

Definition first_of {A} (p q : poll A) : poll A :=
  match p with Ready a => Ready a | Pending => q end.

#[export] Instance second_executor : Executor := {
  Timer_after d n := if secs d <=? Z.of_nat n then Ready (Z.of_nat n) else Pending;
  fut_or A f g n := first_of (f n) (g n);
  fut_race A f g n := first_of (g n) (f n);
}.
#[export] Instance second_executor_laws : ExecutorLaws.
Proof.
  split; unfold completes; simpl; unfold first_of.
  - intros A f g n a [-> Hf] Hg. split; [done|]. intros i Hi. by rewrite Hf, Hg by lia.
  - intros A f g n a [Hg Hp] Hf. rewrite Hf, Hg by lia. split; [done|].
    intros i Hi. by rewrite Hf, Hp by lia.
  - intros A f g n a [Hf Hp] Hg. rewrite Hg, Hf by lia. split; [done|].
    intros i Hi. by rewrite Hg, Hp by lia.
  - intros A f g n a [-> Hg] Hf. split; [done|]. intros i Hi. by rewrite Hg, Hf by lia.
  - intros A f g n a b [Hf Hpf] [-> Hpg]. right. split; [done|].
    intros i Hi. by rewrite Hpg, Hpf by lia.
Defined.

(** A sleep of ten seconds, limited to one. *)
Lemma timeout_correct_witness :
  completes (retry_timeout (sleep (StdTime.from_secs 10)) (StdTime.from_secs 1)) 1
    (Err MkTimeoutError).
Proof.
  refine (proj1 (proj2 (proj2 (timeout_correct (sleep (StdTime.from_secs 10))
    (StdTime.from_secs 1) 1 1 (λ _, ""%string) _)) _)).
  - split; [reflexivity|]. intros i Hi. assert (i = 0)%nat as -> by lia. reflexivity.
  - intros i Hi. assert (i = 0 ∨ i = 1)%nat as [-> | ->] by lia; reflexivity.
Defined.
