(* ===== verification/Async.v ===== *)
(** * Awaiting, poll by poll

    Elsewhere [f().await] is the effect of [f].  Here is what that abstracts from: the
    body of an [async fn] is a resumable program, which a poll runs up to the next
    future that is pending; between two polls time passes and other tasks run.  The
    main result is that polling a program to its end does what running it does, with
    every [.await] a wait, so that theorems on effects are theorems on polls. *)

From S2P Require Export Futures.

(** An [async] body: synchronous code, or an [.await] on a future, given by its poll. *)
Inductive prog (W A : Type) : Type :=
| PRet (a : A)
| PDo {B : Type} (m : M W B) (k : B → prog W A)
| PWait {B : Type} (f : M W (poll B)) (k : B → prog W A).
Arguments PRet {W A} a.
Arguments PDo {W A B} m k.
Arguments PWait {W A B} f k.

Fixpoint pbind {W A B} (p : prog W A) (f : A → prog W B) : prog W B :=
  match p with
  | PRet a => f a
  | PDo m k => PDo m (λ b, pbind (k b) f)
  | PWait g k => PWait g (λ b, pbind (k b) f)
  end.

Notation "x '←•' p ; k" := (pbind p (λ x, k))
  (at level 20, p at level 100, k at level 200, right associativity,
   format "x  '←•'  p ;  '/' k") : rust_scope.

(** One poll: the value, or the program that is left. *)
Fixpoint poll_prog {W A} (p : prog W A) : M W (A + prog W A) :=
  match p with
  | PRet a => mret (inl a)
  | PDo m k => b ← m; poll_prog (k b)
  | PWait f k =>
      r ← f;
      match r with
      | Ready b => poll_prog (k b)
      | Pending => mret (inr (PWait f k))
      end
  end.

(** A future of any kind: a state and how it is polled. *)
Definition machine (W S A : Type) : Type := S → M W (A + S).

Section executor.
Context {W : Type} (elapse : W → W).

(** An executor polls until there is a value; [elapse] is what happens in between. *)
Fixpoint drive {S A} (n : nat) (f : machine W S A) (s : S) : M W A :=
  match n with
  | O => lift OutOfFuel
  | S n =>
      r ← f s;
      match r with
      | inl a => mret a
      | inr s' => λ w, drive n f s' (elapse w)
      end
  end.

Lemma drive_O {S A} (f : machine W S A) s w w' o :
  drive 0 f s w = (w', o) → o = OutOfFuel.
Proof. simpl. unfold lift. congruence. Qed.

(** Waiting for one future, and running a program in which [.await] waits. *)
Fixpoint wait {B} (n : nat) (f : M W (poll B)) : M W B :=
  match n with
  | O => lift OutOfFuel
  | S n =>
      r ← f;
      match r with
      | Ready b => mret b
      | Pending => λ w, wait n f (elapse w)
      end
  end.

Fixpoint run_prog {A} (n : nat) (p : prog W A) : M W A :=
  match p with
  | PRet a => mret a
  | PDo m k => b ← m; run_prog n (k b)
  | PWait f k => b ← wait n f; run_prog n (k b)
  end.

(** Running commutes with sequencing. *)
Lemma run_prog_bind {A B} n (p : prog W A) (f : A → prog W B) :
  run_prog n (pbind p f) ≡ (a ← run_prog n p; run_prog n (f a)).
Proof.
  induction p as [a|B' m k IH|B' g k IH]; intros w; simpl; [done|..];
    unfold mbind, M_bind.
  - destruct (m w) as [w' [b| |]]; [apply IH|done..].
  - destruct (wait n g w) as [w' [b| |]]; [apply IH|done..].
Qed.

(** More fuel changes nothing once there is an outcome. *)
Lemma wait_mono {B} n m (f : M W (poll B)) w w' o :
  (n ≤ m)%nat → wait n f w = (w', o) → o ≠ OutOfFuel → wait m f w = (w', o).
Proof.
  intros Hle Hw Ho. revert m w Hle Hw.
  induction n as [|n IH]; intros [|m] w Hle Hw; try lia;
    [simpl in Hw; unfold lift in Hw; congruence..|].
  simpl in *. unfold mbind, M_bind in *.
  destruct (f w) as [w1 [[b|]| |]]; [done| |done..]. apply IH; [lia|done].
Qed.

Lemma run_prog_mono {A} n m (p : prog W A) w w' o :
  (n ≤ m)%nat → run_prog n p w = (w', o) → o ≠ OutOfFuel → run_prog m p w = (w', o).
Proof.
  intros Hle Hw Ho. revert w Hw.
  induction p as [a|B g k IH|B f k IH]; intros w Hw; [done|..];
    simpl in *; unfold mbind, M_bind in *.
  - destruct (g w) as [w1 [b| |]]; [by apply IH|done..].
  - destruct (wait n f w) as [w1 [b| |]] eqn:Hf; [| |congruence];
      rewrite (wait_mono n m f w w1 _ Hle Hf) by done; [by apply IH|done].
Qed.

Lemma run_prog_wait {A B} n (f : M W (poll B)) (k : B → prog W A) w :
  run_prog (S n) (PWait f k) w =
    match f w with
    | (w1, Val (Ready b)) => run_prog (S n) (k b) w1
    | (w1, Val Pending) => (b ← wait n f; run_prog (S n) (k b)) (elapse w1)
    | (w1, Panic) => (w1, Panic)
    | (w1, OutOfFuel) => (w1, OutOfFuel)
    end.
Proof.
  cbn [run_prog wait]. unfold mbind, M_bind. by destruct (f w) as [w1 [[b|]| |]].
Qed.

(** A poll is the beginning of a run. *)
Lemma poll_prog_run {A} n (p : prog W A) w :
  match poll_prog p w with
  | (w', Val (inl a)) => run_prog (S n) p w = (w', Val a)
  | (w', Val (inr q)) => ∀ w2 o, run_prog n q (elapse w') = (w2, o) → o ≠ OutOfFuel →
      run_prog (S n) p w = (w2, o)
  | (w', Panic) => run_prog (S n) p w = (w', Panic)
  | (_, OutOfFuel) => True
  end.
Proof.
  revert w. induction p as [a|B m k IH|B f k IH]; intros w; [done|..].
  - cbn [poll_prog run_prog]. unfold mbind, M_bind.
    destruct (m w) as [w1 [b| |]]; [apply IH|done..].
  - rewrite run_prog_wait. cbn [poll_prog]. unfold mbind at 1, M_bind at 1.
    destruct (f w) as [w1 [[b|]| |]]; [apply IH| |done..].
    intros w2 o. cbn [run_prog]. unfold mbind, M_bind.
    destruct (wait n f (elapse w1)) as [w3 [b| |]]; [|done..].
    intros Hrun Ho. eapply run_prog_mono; [|exact Hrun|done]. lia.
Qed.

Lemma drive_run {A} n (p : prog W A) w w' o :
  drive n poll_prog p w = (w', o) → o ≠ OutOfFuel → run_prog n p w = (w', o).
Proof.
  revert p w. induction n as [|n IH]; intros p w Hd Ho.
  - simpl in Hd. unfold lift in Hd. congruence.
  - pose proof (poll_prog_run n p w) as Hp. simpl in Hd. unfold mbind, M_bind, mret, M_ret in Hd.
    destruct (poll_prog p w) as [w1 [[a|q]| |]]; simplify_eq; try done.
    apply Hp; [by apply IH|done].
Qed.

Lemma run_drive {A} n (p : prog W A) w w' o :
  run_prog n p w = (w', o) → o ≠ OutOfFuel → ∃ m, drive m poll_prog p w = (w', o).
Proof.
  revert w. induction p as [a|B m k IH|B f k IH]; intros w Hr Ho.
  - exists 1%nat. exact Hr.
  - simpl in Hr. unfold mbind, M_bind in Hr.
    destruct (m w) as [w1 [b| |]] eqn:Hm; simplify_eq/=.
    + destruct (IH b w1 Hr Ho) as [[|j] Hj]; [by apply drive_O in Hj|].
      exists (S j). rewrite <- Hj. simpl. unfold mbind, M_bind. by rewrite Hm.
    + exists 1%nat. simpl. unfold mbind, M_bind. by rewrite Hm.
  - enough (∀ i w, (b ← wait i f; run_prog n (k b)) w = (w', o) →
              ∃ m, drive m poll_prog (PWait f k) w = (w', o)) as Hi by by eapply Hi.
    clear w Hr. intros i. induction i as [|i IHi]; intros w Hr;
      unfold mbind, M_bind in Hr; cbn [wait] in Hr.
    + simpl in Hr. unfold lift in Hr. congruence.
    + unfold mbind, M_bind in Hr. destruct (f w) as [w1 [[b|]| |]] eqn:Hf; simplify_eq/=.
      * destruct (IH b w1 Hr Ho) as [[|j] Hj]; [by apply drive_O in Hj|].
        exists (S j). rewrite <- Hj. simpl. unfold mbind, M_bind. by rewrite Hf.
      * destruct (IHi (elapse w1)) as [j Hj]; [exact Hr|].
        exists (S j). rewrite <- Hj. simpl. unfold mbind, M_bind. by rewrite Hf.
      * exists 1%nat. simpl. unfold mbind, M_bind. by rewrite Hf.
Qed.

(** Polling to the end and running are the same. *)
Lemma drive_iff_run {A} (p : prog W A) w w' o :
  o ≠ OutOfFuel →
  (∃ n, drive n poll_prog p w = (w', o)) ↔ (∃ n, run_prog n p w = (w', o)).
Proof.
  intros Ho. split; intros [n Hn].
  - exists n. by apply drive_run.
  - by eapply run_drive.
Qed.
End executor.
