(* ===== verification/AsyncRetry.v ===== *)
(** * Retries as futures: src/src/retry.rs, poll by poll

    [retry_if] is an [async fn]: here it is the resumable program the compiler makes
    of it, over the timers of async-io and futures that the [factory] makes.  Polled to
    its end it does what [Retry.retry_if] does; limited by [timeout] it is bounded in
    time, unless it never yields. *)

From S2P Require Export Async Retry.

(** [async_io::Timer]: made by [after], polled for the instant it fired at. *)
Class AsyncTimer (W T : Type) := {
  timer_after : Duration → M W T;
  timer_poll : T → M W (poll Z);
}.

(** [Sleeper] of timer.rs, made and awaited. *)
Section sleeper.
Context {W T : Type} `{AsyncTimer W T}.

Definition poll_sleeper (t : T) : M W (poll unit) :=
  p ← timer_poll t; mret (sleeper_poll p).
Definition sleep_async (duration : Duration) : prog W unit :=
  PDo (timer_after duration) (λ t, PWait (poll_sleeper t) PRet).
End sleeper.

(** [FutureExt::or] of futures-lite: "preferring self if both are ready", so the first
    future is polled first and the second only if it is pending. *)
Class FutureOr (W : Type) := {
  future_or {S1 S2 A} : machine W S1 A → machine W S2 A → machine W (S1 * S2) A;
  future_or_polls {S1 S2 A} (f : machine W S1 A) (g : machine W S2 A) s1 s2 :
    future_or f g (s1, s2) ≡
      (r ← f s1;
       match r with
       | inl a => mret (inl a)
       | inr s1' =>
           r ← g s2;
           match r with
           | inl a => mret (inl a)
           | inr s2' => mret (inr (s1', s2'))
           end
       end);
}.

Section async_retry.
Context {W T F O E I : Type} `{AsyncTimer W T, Iterator I Duration}.
(** Calling the [factory], and polling the future it makes. *)
Context (factory : M W F) (poll_op : F → M W (poll (result O E))).

(** [$function().await]. *)
Definition operation : prog W (result O E) :=
  PDo factory (λ f, PWait (poll_op f) PRet).

Definition poll_err_async (condition : E → bool) : prog W (result O E + E) :=
  r ←• operation;
  match r with
  | Ok output => PRet (inl (Ok output))
  | Err err => if negb (condition err) then PRet (inl (Err err)) else PRet (inr err)
  end.

Fixpoint retry_loop_async (condition : E → bool) (fuel : nat) (retries : I) (err : E) :
    prog W (result O E) :=
  match fuel with
  | 0%nat => PDo (lift OutOfFuel) PRet
  | S fuel =>
      match iter_next retries with
      | (None, _) => PRet (Err err)
      | (Some delay_duration, retries') =>
          _ ←• sleep_async delay_duration;
          r ←• poll_err_async condition;
          match r with
          | inl ret => PRet ret
          | inr err => retry_loop_async condition fuel retries' err
          end
      end
  end.

Definition retry_if_async (condition : E → bool) (fuel : nat) (retries : I) :
    prog W (result O E) :=
  r ←• poll_err_async condition;
  match r with
  | inl ret => PRet ret
  | inr err => retry_loop_async condition fuel retries err
  end.

(** [RetryExt::timeout]: [self.map(Ok).or(async move { sleep(timeout).await; Err(..) })],
    both sides as they are before the first poll. *)
Definition timeout_sides {A} (self : prog W A) (timeout : Duration) :
    prog W (result A TimeoutError) * prog W (result A TimeoutError) :=
  (a ←• self; PRet (Ok a),
   _ ←• sleep_async timeout; PRet (Err MkTimeoutError)).

Definition timeout_poll `{!FutureOr W} {A} :
    machine W (prog W (result A TimeoutError) * prog W (result A TimeoutError))
      (result A TimeoutError) :=
  future_or poll_prog poll_prog.

(** ** Polling a retry is retrying *)
Context (elapse : W → W).

Lemma run_poll_err n condition :
  run_prog elapse n (poll_err_async condition) ≡
    poll_err (run_prog elapse n operation) condition.
Proof.
  intros w. unfold poll_err_async, poll_err. rewrite (run_prog_bind elapse n _ _ w).
  unfold mbind, M_bind.
  destruct (run_prog elapse n operation w) as [w' [[o|e]| |]]; try done.
  by destruct (condition e).
Qed.

Lemma run_retry_loop n condition fuel it e :
  run_prog elapse n (retry_loop_async condition fuel it e) ≡
    retry_loop (λ d, run_prog elapse n (sleep_async d)) (run_prog elapse n operation)
      condition fuel it e.
Proof.
  revert it e. induction fuel as [|fuel IH]; intros it e w; [done|].
  cbn [retry_loop_async retry_loop]. destruct (iter_next it) as [[d|] it']; [|done].
  rewrite (run_prog_bind elapse n _ _ w). apply M_bind_proper; [intros []|done].
  intros w'. rewrite (run_prog_bind elapse n _ _ w').
  apply M_bind_proper; [|apply run_poll_err]. by intros [ret|e']; [|apply IH].
Qed.

Lemma run_retry_if n condition fuel it :
  run_prog elapse n (retry_if_async condition fuel it) ≡
    retry_if (λ d, run_prog elapse n (sleep_async d)) (run_prog elapse n operation)
      condition fuel it.
Proof.
  intros w. unfold retry_if_async, retry_if. rewrite (run_prog_bind elapse n _ _ w).
  apply M_bind_proper; [|apply run_poll_err]. by intros [ret|e']; [|apply run_retry_loop].
Qed.

(** C7: the future refines the function.  Whatever executor polls [retry_if], and
    whatever happens between its polls, being polled to the end is the same as running
    [retry_if] where [sleep] waits for a timer and the factory's future is waited for:
    the same final world, with the same result or unwinding the same way, and one gets
    there if and only if the other does. *)
Theorem retry_if_async_refines (condition : E → bool) (fuel : nat) (it : I) (w w' : W)
    (o : outcome (result O E)) (Ho : o ≠ OutOfFuel) :
  (∃ n, drive elapse n poll_prog (retry_if_async condition fuel it) w = (w', o)) ↔
  (∃ n, retry_if (λ d, run_prog elapse n (sleep_async d)) (run_prog elapse n operation)
          condition fuel it w = (w', o)).
Proof.
  rewrite drive_iff_run by done.
  split; intros [n Hn]; exists n; [by rewrite <- (run_retry_if n condition fuel it w)|].
  by rewrite (run_retry_if n condition fuel it w).
Qed.
End async_retry.

(** ** Witness: a clock that ticks

    A timer is its due instant; the operation answers at once. *)

Record ticking : Type := Ticking { clock : Z; tried : Z }.
Definition tick (step : Z) (w : ticking) : ticking := Ticking (clock w + step) (tried w).

#[export] Instance ticking_timer : AsyncTimer ticking Z := {
  timer_after d := λ w, (w, Val (clock w + as_nanos d));
  timer_poll t := λ w, (w, Val (if t <=? clock w then Ready (clock w) else Pending));
}.
Definition try_it : M ticking unit := λ w, (Ticking (clock w) (tried w + 1), Val tt).
Definition not_there (_ : unit) : M ticking (poll (result unit error_kind)) := λ w,
  (w, Val (Ready (Err NotFound))).

(** A delay of a nanosecond. *)
Definition nano_delay : FixedDelay.t := FixedDelay.new (MkDuration 0 1).

Lemma retry_if_async_refines_witness :
  ∃ n, drive (tick 1) n poll_prog
    (retry_if_async try_it not_there (λ _, true) 3 (Take nano_delay 2)) (Ticking 0 0) =
      (Ticking 2 3, Val (Err NotFound)).
Proof.
  apply (retry_if_async_refines try_it not_there (tick 1) (λ _, true) 3 (Take nano_delay 2)
    (Ticking 0 0) (Ticking 2 3) (Val (Err NotFound))); [discriminate|].
  exists 2%nat. vm_compute. reflexivity.
Defined.

