(* ===== verification/RetryTimeout.v ===== *)
(** * Limited retries: [RetryExt::timeout] around [retry_if]

    The two meet in src/src/retry.rs.  A retry that waits between its attempts is
    bounded in time and in attempts by its limit, even if its delays never end; one that
    never waits is not limited at all. *)

From S2P Require Export AsyncRetry.

(** ** A retry in time

    [now] is the clock, which does not go back, and [attempts_of] counts the calls of the
    factory.  Whatever is called may take time.  A timer is due its duration after the
    instant at which it was made, some time during that call, and a poll of it looks at the
    clock at some time during the poll: it is ready if it is due by then.  The calls
    of the factory and the polls of its futures always return. *)

Class Timeline {W T F R : Type} `{AsyncTimer W T} (factory : M W F) (poll_op : F → M W (poll R))
    (elapse : W → W) := {
  now : W → Z;
  attempts_of : W → Z;
  due : T → Z;
  after_due d w : ∃ w' t, timer_after d w = (w', Val t) ∧
    now w + as_nanos d ≤ due t ≤ now w' + as_nanos d ∧
    now w ≤ now w' ∧ attempts_of w' = attempts_of w;
  poll_due t w : ∃ w' seen at_instant,
    timer_poll t w = (w', Val (if due t <=? seen then Ready at_instant else Pending)) ∧
    now w ≤ seen ≤ now w' ∧ attempts_of w' = attempts_of w;
  factory_called w : ∃ w' f, factory w = (w', Val f) ∧
    now w ≤ now w' ∧ attempts_of w' = attempts_of w + 1;
  op_polled f w : ∃ w' r, poll_op f w = (w', Val r) ∧
    now w ≤ now w' ∧ attempts_of w' = attempts_of w;
  elapsed w : now w ≤ now (elapse w) ∧ attempts_of (elapse w) = attempts_of w;
}.

Lemma poll_prog_bind_ret {W A B} (p : prog W A) (g : A → B) w :
  poll_prog (pbind p (λ a, PRet (g a))) w =
    match poll_prog p w with
    | (w', Val (inl a)) => (w', Val (inl (g a)))
    | (w', Val (inr q)) => (w', Val (inr (pbind q (λ a, PRet (g a)))))
    | (w', Panic) => (w', Panic)
    | (w', OutOfFuel) => (w', OutOfFuel)
    end.
Proof.
  revert w. induction p as [a|C m k IH|C f k IH]; intros w; [done|..];
    cbn [pbind poll_prog]; unfold mbind, M_bind.
  - by destruct (m w) as [w1 [c| |]].
  - by destruct (f w) as [w1 [[c|]| |]].
Qed.

Section timed_retry.
Context {W T F O E I : Type} `{AsyncTimer W T, Iterator I Duration}.
Context (factory : M W F) (poll_op : F → M W (poll (result O E))) (elapse : W → W).
Context `{!Timeline factory poll_op elapse}.
Context (condition : E → bool).

Abbreviation retry_future := (retry_if_async factory poll_op condition).
Abbreviation loop_future := (retry_loop_async factory poll_op condition).

(** What comes after the answer of an operation. *)
Definition after_op (fuel : nat) (it : I) (r : result O E) : prog W (result O E) :=
  x ←• match r with
       | Ok output => PRet (inl (Ok output))
       | Err err => if negb (condition err) then PRet (inl (Err err)) else PRet (inr err)
       end;
  match x with inl ret => PRet ret | inr err => loop_future fuel it err end.

Lemma retry_future_eq fuel (it : I) :
  retry_future fuel it = PDo factory (λ f, PWait (poll_op f) (after_op fuel it)).
Proof. done. Qed.

(** The world after a poll of a sleeper is the one after the poll of its timer. *)
Lemma poll_sleeper_due t w : ∃ w' seen,
  poll_sleeper t w = (w', Val (if due t <=? seen then Ready tt else Pending)) ∧
  w' = (timer_poll t w).1 ∧ now w ≤ seen ≤ now w' ∧ attempts_of w' = attempts_of w.
Proof.
  destruct (poll_due t w) as (w' & seen & i & Hp & Hn & Ha). exists w', seen. rewrite Hp.
  split; [|done]. unfold poll_sleeper. rewrite (M_bind_val _ _ _ _ _ Hp).
  by destruct (due t <=? seen).
Qed.

Section paced.
(** Every delay is at least [pace]; the retry began at [t0] after [a0] attempts. *)
Context (pace t0 a0 : Z).

Definition slow (it : I) : Prop := ∀ n, Forall (λ d, pace ≤ as_nanos d) (iter_items n it).

Definition paced_until (w : W) : Prop := pace * (attempts_of w - a0 - 1) ≤ now w - t0.

(** Where a retry can be between two polls, with [fuel] for the rest of its loop. *)
Inductive waiting (w : W) : nat → prog W (result O E) → Prop :=
| in_operation f fuel it :
    slow it → paced_until w → waiting w fuel (PWait (poll_op f) (after_op fuel it))
| in_sleep t fuel it :
    slow it → paced_until w → pace * (attempts_of w - a0) ≤ due t - t0 →
    waiting w fuel (PWait (poll_sleeper t) (λ _, retry_future fuel it)).

(** What one poll leaves: a result, or a retry that waits, one delay further at most. *)
Definition polled (w w' : W) (fuel : nat) (r : result O E + prog W (result O E)) : Prop :=
  now w ≤ now w' ∧ paced_until w' ∧
  match r with inl _ => True | inr q => ∃ fuel', (fuel ≤ fuel')%nat ∧ waiting w' fuel' q end.

Lemma paced_later w w' :
  now w ≤ now w' → attempts_of w' = attempts_of w → paced_until w → paced_until w'.
Proof. unfold paced_until. intros ? ->. lia. Qed.

Lemma waiting_later w w' fuel q :
  now w ≤ now w' → attempts_of w' = attempts_of w → waiting w fuel q → waiting w' fuel q.
Proof.
  intros Hn Ha [f n it Hs Hp|t n it Hs Hp Hd].
  - apply in_operation; [done|]. by eapply paced_later.
  - apply in_sleep; [done|by eapply paced_later|]. by rewrite Ha.
Qed.

Lemma slow_next it d it' : iter_next it = (Some d, it') → slow it → pace ≤ as_nanos d ∧ slow it'.
Proof.
  intros Hn Hs. split.
  - specialize (Hs 1%nat). simpl in Hs. rewrite Hn in Hs. by apply Forall_cons in Hs as [? _].
  - intros n. specialize (Hs (S n)). simpl in Hs. rewrite Hn in Hs.
    by apply Forall_cons in Hs as [_ ?].
Qed.

(** Making a timer and polling it each take at most [lag], and the two together less than
    [pace]: a sleep is not over at its first poll. *)
Context (lag : Z).
Hypothesis after_lag : ∀ d w, now (timer_after d w).1 ≤ now w + lag.
Hypothesis poll_lag : ∀ t w, now (timer_poll t w).1 ≤ now w + lag.
Hypothesis lag_pace : 2 * lag < pace.

Lemma pace_pos (w : W) : 0 < pace.
Proof.
  destruct (after_due (MkDuration 0 0) w) as (w' & t & Ht & _ & Hn & _).
  pose proof (after_lag (MkDuration 0 0) w) as Hl. rewrite Ht in Hl. simpl in Hl. lia.
Qed.

Lemma poll_after_op fuel it r w :
  slow it → paced_until w →
  ∃ w' x, poll_prog (after_op (S fuel) it r) w = (w', Val x) ∧ polled w w' fuel x.
Proof.
  intros Hslow Hp. destruct r as [o|e]; [by exists w, (inl (Ok o))|].
  unfold after_op. destruct (condition e); simpl; [|by exists w, (inl (Err e))].
  destruct (iter_next it) as [[d|] it'] eqn:Hn; [|by exists w, (inl (Err e))].
  destruct (slow_next it d it' Hn Hslow) as [Hd Hslow'].
  destruct (after_due d w) as (w1 & t & Ht & Hdue & Hn1 & Ha1).
  destruct (poll_sleeper_due t w1) as (w2 & seen & Hs & Hw2 & Hn2 & Ha2).
  pose proof (after_lag d w) as Hl1. rewrite Ht in Hl1. simpl in Hl1.
  pose proof (poll_lag t w1) as Hl2. rewrite <- Hw2 in Hl2. pose proof (pace_pos w).
  rewrite (proj2 (Z.leb_gt _ _)) in Hs by lia.
  exists w2. eexists. split.
  - cbn [sleep_async pbind poll_prog]. rewrite (M_bind_val _ _ _ _ _ Ht).
    rewrite (M_bind_val _ _ _ _ _ Hs). reflexivity.
  - assert (paced_until w2) as Hp2 by (eapply paced_later; [| |exact Hp]; lia).
    split; [lia|]. split; [done|]. exists fuel. split; [done|].
    apply in_sleep; [done..|]. unfold paced_until in Hp. rewrite Ha2, Ha1. nia.
Qed.

Lemma poll_attempt fuel it w :
  slow it → pace * (attempts_of w - a0) ≤ now w - t0 →
  ∃ w' x, poll_prog (retry_future (S fuel) it) w = (w', Val x) ∧ polled w w' fuel x.
Proof.
  intros Hslow Hp. rewrite retry_future_eq. cbn [poll_prog]. pose proof (pace_pos w).
  destruct (factory_called w) as (w1 & f & Hf & Hn1 & Ha1). rewrite (M_bind_val _ _ _ _ _ Hf).
  destruct (op_polled f w1) as (w2 & r & Hr & Hn2 & Ha2). rewrite (M_bind_val _ _ _ _ _ Hr).
  assert (paced_until w2) as Hp2 by (unfold paced_until; nia).
  destruct r as [r|].
  - destruct (poll_after_op fuel it r w2 Hslow Hp2) as (w3 & x & Hrun & Hn3 & Hx).
    exists w3, x. split; [done|]. split; [lia|done].
  - eexists w2, _. split; [done|]. split; [lia|]. split; [done|].
    exists (S fuel). split; [lia|]. by apply in_operation.
Qed.

Lemma poll_waiting fuel q w :
  waiting w (S fuel) q →
  ∃ w' x, poll_prog q w = (w', Val x) ∧ polled w w' fuel x.
Proof.
  remember (S fuel) as n eqn:Hfuel. destruct 1 as [f n it Hs Hp|t n it Hs Hp Hd]; subst n;
    cbn [poll_prog].
  - destruct (op_polled f w) as (w1 & r & Hr & Hn1 & Ha1). rewrite (M_bind_val _ _ _ _ _ Hr).
    assert (paced_until w1) as Hp1 by by eapply paced_later.
    destruct r as [r|].
    + destruct (poll_after_op fuel it r w1 Hs Hp1) as (w2 & x & Hrun & Hn2 & Hx).
      exists w2, x. split; [done|]. split; [lia|done].
    + eexists w1, _. split; [done|]. split; [done|]. split; [done|].
      exists (S fuel). split; [lia|]. by apply in_operation.
  - destruct (poll_sleeper_due t w) as (w1 & seen & Ht & _ & Hn1 & Ha1).
    rewrite (M_bind_val _ _ _ _ _ Ht). destruct (Z.leb_spec (due t) seen).
    + destruct (poll_attempt fuel it w1 Hs) as (w2 & x & Hrun & Hn2 & Hx); [lia|].
      exists w2, x. split; [done|]. split; [lia|done].
    + assert (paced_until w1) by (eapply paced_later; [| |exact Hp]; lia).
      eexists w1, _. split; [done|]. split; [lia|]. split; [done|].
      exists (S fuel). split; [lia|]. apply in_sleep; [done..|]. by rewrite Ha1.
Qed.

(** The two sides of [timeout] once the deadline's timer is made. *)
Definition deadline (t : T) : prog W (result (result O E) TimeoutError) :=
  PWait (poll_sleeper t) (λ _, PRet (Err MkTimeoutError)).
Definition attempt_side (q : prog W (result O E)) :
    prog W (result (result O E) TimeoutError) := a ←• q; PRet (Ok a).

(** Between two polls of the executor at least [turn] passes. *)
Lemma drive_timeout `{!FutureOr W} turn n fuel q t w :
  (∀ w, now w + turn ≤ now (elapse w)) → 0 < turn →
  due t ≤ now w + turn * Z.of_nat n → (S n ≤ fuel)%nat → waiting w fuel q →
  ∃ w' r, drive elapse (S n) timeout_poll (attempt_side q, deadline t) w = (w', Val r) ∧
    now w ≤ now w' ∧ paced_until w' ∧
    (r = Err MkTimeoutError → due t ≤ now w').
Proof.
  intros Hturn Hturn0. revert fuel q w.
  induction n as [n IH] using lt_wf_ind; intros [|fuel] q w Hn Hfuel Hw; [lia|].
  destruct (poll_waiting fuel q w Hw) as (w1 & x & Hpoll & Hn1 & Hp1 & Hx).
  cbn [drive]. unfold mbind at 1, M_bind at 1. unfold timeout_poll at 1.
  rewrite (future_or_polls poll_prog poll_prog _ _ w).
  unfold mbind at 1, M_bind at 1, attempt_side. rewrite poll_prog_bind_ret, Hpoll.
  destruct x as [r|q'].
  - exists w1, (Ok r). done.
  - destruct Hx as (fuel' & Hle & Hw').
    destruct (poll_sleeper_due t w1) as (w2 & seen & Ht & _ & Hn2 & Ha2).
    unfold deadline. cbn [poll_prog].
    unfold mbind at 1 2, M_bind at 1 2. rewrite Ht.
    destruct (Z.leb_spec (due t) seen) as [Hdue|Hdue].
    + exists w2, (Err MkTimeoutError). split; [done|]. split; [lia|].
      split; [eapply (paced_later w1); [lia|done|done]|]. intros _. lia.
    + destruct n as [|n]; [lia|]. destruct (elapsed w2) as [Hlater Ha3].
      pose proof (Hturn w2) as Hnext.
      destruct (IH n ltac:(lia) fuel' q' (elapse w2)) as (w' & r & Hrun & Hn' & Hp' & Hr).
      * lia.
      * lia.
      * eapply (waiting_later w1); [lia|congruence|done].
      * exists w', r. split; [exact Hrun|]. split; [lia|]. done.
Qed.
End paced.

(** C8: [timeout] bounds a retry that waits between its attempts.  Over any iterator,
    an unending one included, whose delays are at least [pace], whatever the operations
    do and however long they take, enough polls end in a result, the value of the retry or
    [TimeoutError], as long as making a timer and polling it the first time takes less than
    [pace]: otherwise a sleep may be over at its first poll, and the retry goes on without
    giving control back.  [TimeoutError] is never early, and by then the operation was
    attempted at most once and then once per [pace] of the time that passed.  As many polls
    as it takes for the limit to pass between them, and one more, are enough. *)
Theorem retry_timeout_bounded `{!FutureOr W} (it : I) (pace lag turn : Z) (limit : Duration)
    (n fuel : nat) (w : W)
    (Hafter : ∀ d w, now (timer_after d w).1 ≤ now w + lag)
    (Hpoll : ∀ t w, now (timer_poll t w).1 ≤ now w + lag)
    (Hlag : 2 * lag < pace) (Hslow : slow pace it)
    (Hturn : ∀ w, now w + turn ≤ now (elapse w)) (Hpos : 0 < turn)
    (Hn : as_nanos limit ≤ turn * Z.of_nat n) (Hfuel : (S n < fuel)%nat) :
  ∃ w' r, drive elapse (S n) timeout_poll (timeout_sides (retry_future fuel it) limit) w =
            (w', Val r) ∧
    pace * (attempts_of w' - attempts_of w - 1) ≤ now w' - now w ∧
    (r = Err MkTimeoutError → now w + as_nanos limit ≤ now w').
Proof.
  destruct fuel as [|fuel]; [lia|].
  destruct (poll_attempt pace (now w) (attempts_of w) lag Hafter Hpoll Hlag fuel it w Hslow)
    as (w1 & x & Hfirst & Hn1 & Hp1 & Hx); [lia|].
  cbn [drive]. unfold mbind at 1, M_bind at 1. unfold timeout_poll at 1, timeout_sides.
  rewrite (future_or_polls poll_prog poll_prog _ _ w).
  unfold mbind at 1, M_bind at 1. rewrite poll_prog_bind_ret, Hfirst.
  destruct x as [r|q]; [by exists w1, (Ok r)|]. destruct Hx as (fuel' & Hle & Hw').
  destruct (after_due limit w1) as (w2 & t & Ht & Hdue & Hn2 & Ha2).
  destruct (poll_sleeper_due t w2) as (w3 & seen & Hs & _ & Hn3 & Ha3).
  assert (paced_until pace (now w) (attempts_of w) w3) as Hp3
    by (eapply paced_later; [| |exact Hp1]; lia).
  cbn [sleep_async pbind poll_prog]. unfold mbind at 1 2, M_bind at 1 2. rewrite Ht.
  unfold mbind at 1, M_bind at 1. rewrite Hs.
  destruct (Z.leb_spec (due t) seen) as [Hnow|Hlater].
  - exists w3, (Err MkTimeoutError). split; [done|]. split; [exact Hp3|]. intros _. lia.
  - destruct n as [|n]; [lia|]. destruct (elapsed w3) as [Hel Ha4].
    pose proof (Hturn w3) as Hnext.
    destruct (drive_timeout pace (now w) (attempts_of w) lag Hafter Hpoll Hlag turn n fuel' q t
      (elapse w3)) as (w' & r & Hrun & Hn' & Hp' & Hr); [done|done|lia|lia| |].
    + eapply (waiting_later _ _ _ w1); [lia|congruence|done].
    + exists w', r. split; [exact Hrun|]. split; [exact Hp'|]. intros Hto.
      specialize (Hr Hto). lia.
Qed.

(** C38: but a retry that never waits is not limited by [timeout].  If the delays are
    zero and the operation fails at once, each time with an error that is retried, the
    first poll never gives control back: whatever the limit and however many turns the
    loop is given, the timer of the limit is not even made, and the operation has been
    attempted once per turn and once more. *)
Theorem retry_timeout_spins `{!FutureOr W, !Unending I Duration} (it : I) (limit : Duration)
    (n fuel : nat) (w : W)
    (Hzero : ∀ k, Forall (λ d, as_nanos d = 0) (iter_items k it))
    (Hfails : ∀ f w, ∃ w' e, poll_op f w = (w', Val (Ready (Err e))) ∧ condition e = true) :
  ∃ w', drive elapse (S n) timeout_poll (timeout_sides (retry_future fuel it) limit) w =
          (w', OutOfFuel) ∧
    attempts_of w' = attempts_of w + Z.of_nat fuel + 1.
Proof.
  assert (∀ fuel (it : I) w, (∀ k, Forall (λ d, as_nanos d = 0) (iter_items k it)) →
    ∃ w', poll_prog (retry_future fuel it) w = (w', OutOfFuel) ∧
      attempts_of w' = attempts_of w + Z.of_nat fuel + 1) as Hspin.
  { clear it w fuel Hzero. induction fuel as [|fuel IH]; intros it w Hzero;
      rewrite retry_future_eq; cbn [poll_prog];
      destruct (factory_called w) as (w1 & f & Hf & _ & Ha1);
      rewrite (M_bind_val _ _ _ _ _ Hf);
      destruct (Hfails f w1) as (w2 & e & He & Hc);
      destruct (op_polled f w1) as (w2' & r & Hr & _ & Ha2);
      rewrite He in Hr; injection Hr as <- <-; rewrite (M_bind_val _ _ _ _ _ He);
      unfold after_op; rewrite Hc; simpl.
    - eexists. split; [reflexivity|]. simpl. lia.
    - destruct (unending it) as (d & it' & Hn). rewrite Hn.
      assert (as_nanos d = 0 ∧ ∀ k, Forall (λ d, as_nanos d = 0) (iter_items k it'))
        as [Hd Hzero'].
      { split; [specialize (Hzero 1%nat)|intros k; specialize (Hzero (S k))];
          simpl in Hzero; rewrite Hn in Hzero; by apply Forall_cons in Hzero as [? ?]. }
      destruct (after_due d w2) as (w3 & t & Ht & Hdue & Hn3 & Ha3).
      destruct (poll_sleeper_due t w3) as (w4 & seen & Hs & _ & Hn4 & Ha4).
      rewrite (proj2 (Z.leb_le _ _)) in Hs by lia.
      cbn [sleep_async pbind poll_prog]. rewrite (M_bind_val _ _ _ _ _ Ht).
      rewrite (M_bind_val _ _ _ _ _ Hs).
      destruct (IH it' w4 Hzero') as (w' & Hrun & Ha). exists w'. split; [exact Hrun|]. lia. }
  destruct (Hspin fuel it w Hzero) as (w' & Hrun & Ha). exists w'. split; [|done].
  cbn [drive]. unfold mbind at 1, M_bind at 1. unfold timeout_poll at 1, timeout_sides.
  rewrite (future_or_polls poll_prog poll_prog _ _ w).
  unfold mbind at 1, M_bind at 1. by rewrite poll_prog_bind_ret, Hrun.
Qed.
End timed_retry.

(** ** Witnesses *)

#[export] Instance ticking_or : FutureOr ticking.
Proof.
  refine {| future_or S1 S2 A f g s :=
    r ← f s.1;
    match r with
    | inl a => mret (inl a)
    | inr s1' =>
        r ← g s.2;
        match r with inl a => mret (inl a) | inr s2' => mret (inr (s1', s2')) end
    end |}.
  by intros S1 S2 A f g s1 s2 w.
Defined.

(** Timers that take a microsecond to make, and one to be polled. *)
Definition microsecond : Z := 1000.
Record slow_clock : Type := SlowClock { sc_now : Z; sc_tried : Z }.
Definition spend (ns : Z) (w : slow_clock) : slow_clock := SlowClock (sc_now w + ns) (sc_tried w).

#[export] Instance slow_timer : AsyncTimer slow_clock Z := {
  timer_after d := λ w, (spend microsecond w, Val (sc_now w + as_nanos d));
  timer_poll t := λ w, (spend microsecond w,
    Val (if t <=? sc_now w then Ready (sc_now w) else Pending));
}.
Definition slow_try : M slow_clock unit := λ w, (SlowClock (sc_now w + 5000) (sc_tried w + 1), Val tt).
Definition slow_not_there (_ : unit) : M slow_clock (poll (result unit error_kind)) := λ w,
  (spend 300 w, Val (Ready (Err NotFound))).

#[export] Instance slow_timeline : Timeline slow_try slow_not_there (spend 1000000).
Proof.
  refine {| now := sc_now; attempts_of := sc_tried; due t := t |}.
  - intros d w. eexists _, _. split; [done|]. unfold microsecond. simpl. lia.
  - intros t w. eexists _, (sc_now w), _. split; [done|]. unfold microsecond. simpl. lia.
  - intros w. eexists _, _. split; [done|]. simpl. lia.
  - intros f w. eexists _, _. split; [done|]. simpl. lia.
  - intros w. simpl. lia.
Defined.

#[export] Instance slow_or : FutureOr slow_clock.
Proof.
  refine {| future_or S1 S2 A f g s :=
    r ← f s.1;
    match r with
    | inl a => mret (inl a)
    | inr s1' =>
        r ← g s.2;
        match r with inl a => mret (inl a) | inr s2' => mret (inr (s1', s2')) end
    end |}.
  by intros S1 S2 A f g s1 s2 w.
Defined.

#[export] Instance ticking_timeline : Timeline try_it not_there (tick 1).
Proof.
  refine {| now := clock; attempts_of := tried; due t := t |}.
  - intros d w. exists w, (clock w + as_nanos d). split; [done|lia].
  - intros t w. exists w, (clock w), (clock w). split; [done|lia].
  - intros w. exists (Ticking (clock w) (tried w + 1)), tt. simpl. by split; [|lia].
  - intros f w. exists w, (Ready (Err NotFound)). by split; [|lia].
  - intros w. simpl. lia.
Defined.

(** An unending retry every five milliseconds, limited to twenty, polled every millisecond. *)
Definition five_ms_delay : FixedDelay.t := FixedDelay.new (StdTime.from_millis 5).

Lemma retry_timeout_bounded_witness :
  ∃ w' r, drive (spend 1000000) 21 timeout_poll
    (timeout_sides (retry_if_async slow_try slow_not_there (λ _, true) 30 five_ms_delay)
      (StdTime.from_millis 20)) (SlowClock 0 0) = (w', Val r) ∧
    5000000 * (sc_tried w' - 1) ≤ sc_now w' ∧ r = Err MkTimeoutError ∧ sc_tried w' = 5.
Proof.
  destruct (retry_timeout_bounded slow_try slow_not_there (spend 1000000)
    (λ _, true) five_ms_delay
    5000000 1000 1000000 (StdTime.from_millis 20) 20 30 (SlowClock 0 0))
    as (w' & r & Hrun & Hp & _).
  - intros d w. simpl. unfold microsecond. lia.
  - intros t w. simpl. unfold microsecond. lia.
  - lia.
  - intros k. unfold five_ms_delay. rewrite FixedDelay.fixed_items.
    apply Forall_replicate. vm_compute. discriminate.
  - intros w. simpl. lia.
  - lia.
  - vm_compute. discriminate.
  - lia.
  - exists w', r. split; [exact Hrun|]. split; [simpl in Hp; lia|].
    vm_compute in Hrun. injection Hrun as <- <-. done.
Defined.

(** The default delay is zero. *)
Lemma retry_timeout_spins_witness :
  ∃ w', drive (tick 1) 5 timeout_poll
    (timeout_sides (retry_if_async try_it not_there (λ _, true) 100 FixedDelay.default)
      (StdTime.from_secs 1)) (Ticking 0 0) = (w', OutOfFuel) ∧ tried w' = 101.
Proof.
  refine (retry_timeout_spins try_it not_there (tick 1) (λ _, true) FixedDelay.default
    (StdTime.from_secs 1) 4 100 (Ticking 0 0) _ _).
  - intros k. rewrite FixedDelay.fixed_items. by apply Forall_replicate.
  - intros f w. by exists w, NotFound.
Defined.
