(* ===== verification/TimeLimit.v ===== *)
(** * Time limits, poll by poll: [timeout] of src/src/future.rs and of retry.rs

    Both functions run a future against a sleep: one with [or] of futures-lite, which
    polls the future first, one with [race], which picks the first at random each time.
    Here they are the machines that are polled, over any future whose polls return. *)

From S2P Require Export RetryTimeout.

(** One poll of two futures, the first one first, or the second. *)
Definition poll_both {W S1 S2 A} (f : machine W S1 A) (g : machine W S2 A) :
    machine W (S1 * S2) A := λ s,
  r ← f s.1;
  match r with
  | inl a => mret (inl a)
  | inr s1 =>
      r ← g s.2;
      match r with inl a => mret (inl a) | inr s2 => mret (inr (s1, s2)) end
  end.
Definition poll_both_swapped {W S1 S2 A} (f : machine W S1 A) (g : machine W S2 A) :
    machine W (S1 * S2) A := λ s,
  r ← g s.2;
  match r with
  | inl a => mret (inl a)
  | inr s2 =>
      r ← f s.1;
      match r with inl a => mret (inl a) | inr s1 => mret (inr (s1, s2)) end
  end.

(** [future::race] of futures-lite: "if both futures are ready, one of them is picked at
    random": each poll polls one first, whichever. *)
Class FutureRace (W : Type) := {
  future_race {S1 S2 A} : machine W S1 A → machine W S2 A → machine W (S1 * S2) A;
  future_race_polls {S1 S2 A} (f : machine W S1 A) (g : machine W S2 A) s w :
    future_race f g s w = poll_both f g s w ∨ future_race f g s w = poll_both_swapped f g s w;
}.

Section limits.
Context {W T : Type} `{AsyncTimer W T}.


(** A clock: a timer fires from its due instant on; making and polling it takes no
    time; between two polls of the executor at least a nanosecond passes. *)
Class Clock (elapse : W → W) := {
  time_of : W → Z;
  due_at : T → Z;
  timer_made d w : ∃ w' t, timer_after d w = (w', Val t) ∧
    due_at t = time_of w + as_nanos d ∧ time_of w' = time_of w;
  timer_polled t w : ∃ w' i,
    timer_poll t w = (w', Val (if due_at t <=? time_of w then Ready i else Pending)) ∧
    time_of w' = time_of w;
  time_passes w : time_of w < time_of (elapse w);
}.

Context (elapse : W → W) `{!Clock elapse}.









(** ** One poll of a limited future *)






(** ** Driving it *)







End limits.

(** ** Witness *)

#[export] Instance ticking_race : FutureRace ticking.
Proof.
  refine {| future_race S1 S2 A f g s w :=
    if Z.even (clock w) then poll_both f g s w else poll_both_swapped f g s w |}.
  intros S1 S2 A f g s w. destruct (Z.even (clock w)); [by left|by right].
Defined.

#[export] Instance ticking_clock : Clock (tick 1).
Proof.
  refine {| time_of := clock; due_at t := t |}.
  - intros d w. by exists w, (clock w + as_nanos d).
  - intros t w. by exists w, (clock w).
  - intros w. simpl. lia.
Defined.


