(* ===== verification/RetryTests.v ===== *)
(** * The tests of src/src/retry.rs, run on the model

    Each test of the two test modules is the definition of the same name: its
    statements over the model of what they call, a failed assertion unwinding.  That
    they pass in the model, as in the code, is checked by evaluation; it is a check of
    the model, since the theorems do not rest on it. *)

From S2P Require Export RetryTimeout.

(** [assert!]. *)
Definition assert {W} (b : bool) : M W unit := if b then mret tt else panic.

(** [assert_eq!(buffer[i], b)]. *)
Definition byte_is (buffer : list byte) (i : nat) (b : byte) : bool :=
  bool_decide (buffer !! i = Some b).

(** [let x = f().await?] and [expect] at the top of a test: an error fails it. *)
Definition expect {W A E} (m : M W (result A E)) : M W A := r ← m; unwrap r.

Lemma expect_bind {W A B E} (m : M W (result A E)) (f : A → M W B) w w' a :
  m w = (w', Val (Ok a)) → (expect m ≫= f) w = f a w'.
Proof. intros Hm. unfold expect, mbind, M_bind. by rewrite Hm. Qed.

Lemma assert_bind {W B} (b : bool) (f : unit → M W B) w :
  b = true → (assert b ≫= f) w = f tt w.
Proof. by intros ->. Qed.

Definition passes {W} (test : M W unit) (w : W) : Prop := (test w).2 = Val tt.

(** [assert_eq!(iter.next(), Some(d))], on the iterator [iter]. *)
Definition next_is {I} `{Iterator I Duration} (d : Duration) : M I unit := λ iter,
  let '(item, iter) := iter_next iter in assert (bool_decide (item = Some d)) iter.

Fixpoint nexts_are {I} `{Iterator I Duration} (ds : list Duration) : M I unit :=
  match ds with
  | [] => mret tt
  | d :: ds => _ ← next_is d; nexts_are ds
  end.

(** The assertions hold exactly if the iterator gives these delays. *)
Lemma nexts_are_items {I} `{Iterator I Duration} (ds : list Duration) (it : I) :
  passes (nexts_are ds) it ↔ iter_items (length ds) it = ds.
Proof.
  unfold passes. revert it. induction ds as [|d ds IH]; intros it; [done|].
  cbn [nexts_are length iter_items]. unfold mbind, M_bind, next_is.
  destruct (iter_next it) as [[x|] it']; simpl; [|done].
  destruct (decide (x = d)) as [->|Hne].
  - rewrite bool_decide_eq_true_2 by done. simpl. rewrite IH.
    split; [by intros ->|by intros [= ?]].
  - rewrite bool_decide_eq_false_2 by congruence. simpl. split; [done|congruence].
Qed.

(** A test that makes an iterator and asks it for delays. *)
Definition on_iter {W I} (iter : I) (test : M I unit) : M W unit := λ w, (w, (test iter).2).

Section delay_tests.
Context {W : Type}.
Let ms := StdTime.from_millis.
Let s := StdTime.from_secs.

Definition test_fibonacci_series_starting_at_10 : M W unit :=
  on_iter (FibonacciBackoff.from_millis 10)
    (nexts_are [ms 10; ms 10; ms 20; ms 30; ms 50; ms 80]).

Definition test_fibonacci_saturates_at_maximum_value : M W unit :=
  on_iter (FibonacciBackoff.from_millis u64_max) (nexts_are [ms u64_max; ms u64_max]).

Definition test_fibonacci_stops_increasing_at_max_delay : M W unit :=
  on_iter (FibonacciBackoff.max_delay (FibonacciBackoff.from_millis 10) (ms 50))
    (nexts_are [ms 10; ms 10; ms 20; ms 30; ms 50; ms 50]).

Definition test_fibonacci_returns_max_when_max_less_than_base : M W unit :=
  on_iter (FibonacciBackoff.max_delay (FibonacciBackoff.from_secs 20) (s 10))
    (nexts_are [s 10; s 10]).

Definition test_exponential_some_exponential_base_10 : M W unit :=
  on_iter (ExponentialBackoff.from_millis 10) (nexts_are [ms 10; ms 100; ms 1000]).

Definition test_exponential_some_exponential_base_2 : M W unit :=
  on_iter (ExponentialBackoff.from_millis 2) (nexts_are [ms 2; ms 4; ms 8]).

Definition test_exponential_saturates_at_maximum_value : M W unit :=
  on_iter (ExponentialBackoff.from_millis (u64_max - 1))
    (nexts_are [ms (u64_max - 1); ms u64_max; ms u64_max]).

Definition test_exponential_stops_increasing_at_max_delay : M W unit :=
  on_iter (ExponentialBackoff.max_delay (ExponentialBackoff.from_millis 2) (ms 4))
    (nexts_are [ms 2; ms 4; ms 4]).

Definition test_exponential_max_when_max_less_than_base : M W unit :=
  on_iter (ExponentialBackoff.max_delay (ExponentialBackoff.from_millis 20) (ms 10))
    (nexts_are [ms 10; ms 10]).

Definition delay_tests : list (M W unit) :=
  [test_fibonacci_series_starting_at_10; test_fibonacci_saturates_at_maximum_value;
   test_fibonacci_stops_increasing_at_max_delay;
   test_fibonacci_returns_max_when_max_less_than_base;
   test_exponential_some_exponential_base_10; test_exponential_some_exponential_base_2;
   test_exponential_saturates_at_maximum_value;
   test_exponential_stops_increasing_at_max_delay;
   test_exponential_max_when_max_less_than_base].

Example delay_tests_pass (w : W) : Forall (λ test, passes test w) delay_tests.
Proof. repeat constructor. Qed.
End delay_tests.

(** ** The tests of [retry] and [retry_if]

    The world is a clock and the captured [executed_retries]; the operations answer at
    their first poll.  The clock moves by a millisecond between two polls. *)

Definition millisecond : Z := 1000000.

(** The [operation] closures: [executed_retries.add_assign(1)], before or after it
    is read; what is returned depends on the number read. *)
Definition operation_call (read_after : bool) : M ticking Z := λ w,
  let w' := Ticking (clock w) (tried w + 1) in
  (w', Val (if read_after then tried w' else tried w)).

Definition always_not_found (i : Z) : M ticking (poll (result Z io_error)) :=
  mret (Ready (Err (io_error_from NotFound))).

(** [ErrorKind::AddrNotAvailable], by the number Linux has for it. *)
Definition AddrNotAvailable : error_kind := OtherKind 99.
Definition not_found_once (i : Z) : M ticking (poll (result Z io_error)) :=
  mret (Ready (Err (io_error_from (if i <? 2 then NotFound else AddrNotAvailable)))).

Definition error_is (kind : error_kind) (r : result Z io_error) : bool :=
  match r with Err err => bool_decide (err_kind err = kind) | Ok _ => false end.

(** [.await] at the top of a test: the executor polls to the end. *)
Definition await {S A} (fuel : nat) (f : machine ticking S A) (s : S) : M ticking A :=
  drive (tick millisecond) fuel f s.

Definition executed_retries : M ticking Z := λ w, (w, Val (tried w)).

Definition test_fixed_retries_no_delay : M ticking unit :=
  retry_result ← await 100 poll_prog
    (retry_if_async (operation_call false) always_not_found (λ _, true) 100
      (Take FixedDelay.default 2));
  _ ← assert (error_is NotFound retry_result);
  n ← executed_retries;
  assert (n =? 3).

Definition test_fixed_retries_timeout : M ticking unit :=
  retry_result ← await 1000 timeout_poll
    (timeout_sides
      (retry_if_async (operation_call false) always_not_found (λ _, true) 100
        (Take (FixedDelay.from_millis 100) 10))
      (StdTime.from_millis 300));
  _ ← assert (negb (is_ok retry_result));
  n ← executed_retries;
  assert (n <? 10).

Definition test_fixed_retries_not_retryable : M ticking unit :=
  retry_result ← await 100 poll_prog
    (retry_if_async (operation_call false) always_not_found (λ _, false) 100
      (Take (FixedDelay.from_millis 100) 10));
  _ ← assert (error_is NotFound retry_result);
  n ← executed_retries;
  assert (n =? 1).

Definition test_conditional_retry : M ticking unit :=
  retry_result ← await 100 poll_prog
    (retry_if_async (operation_call true) not_found_once
      (λ err, bool_decide (err_kind err = NotFound)) 100 (Take FixedDelay.default 10));
  _ ← assert (error_is AddrNotAvailable retry_result);
  n ← executed_retries;
  assert (n =? 2).

Example retry_tests_pass :
  Forall (λ test, passes test (Ticking 0 0))
    [test_fixed_retries_no_delay; test_fixed_retries_timeout;
     test_fixed_retries_not_retryable; test_conditional_retry].
Proof. repeat constructor; vm_compute; reflexivity. Qed.
