(* ===== verification/FileSlice.v ===== *)
(** * File slices: src/src/file_slice.rs

    A slice is a raw descriptor, a position and a length; nothing is checked
    when one is made. *)

From S2P Require Export Prelude.

Record AsyncFileSlice : Type := MkSlice {
  slice_fd : Z;
  slice_position : Z;
  slice_len : Z;
}.

#[export] Instance AsyncFileSlice_eq_dec : EqDecision AsyncFileSlice.
Proof. solve_decision. Defined.

Module AsyncFileSlice.

Definition new (fd position len : Z) : AsyncFileSlice := MkSlice fd position len.
Definition position (s : AsyncFileSlice) : Z := slice_position s.
Definition len (s : AsyncFileSlice) : Z := slice_len s.
Definition is_empty (s : AsyncFileSlice) : bool := slice_len s =? 0.
Definition fd (s : AsyncFileSlice) : Z := slice_fd s.
Definition as_raw_fd (s : AsyncFileSlice) : Z := slice_fd s.

End AsyncFileSlice.

(** Field ranges: [RawFd] is [i32], the others are [u64]. *)
Definition slice_wf (s : AsyncFileSlice) : Prop :=
  in_u64 (slice_position s) ∧ in_u64 (slice_len s).

(** The bytes of the file that the slice covers, as far as the file goes. *)
Definition slice_bytes {A} (s : AsyncFileSlice) (file : list A) : list A :=
  window (Z.to_nat (slice_position s)) (Z.to_nat (slice_len s)) file.

(** A slice that lies within the file. *)
Definition slice_within {A} (s : AsyncFileSlice) (file : list A) : Prop :=
  slice_position s + slice_len s ≤ Z.of_nat (length file).

Lemma length_slice_bytes_within {A} s (file : list A) :
  slice_wf s → slice_within s file →
  Z.of_nat (length (slice_bytes s file)) = slice_len s.
Proof.
  unfold slice_wf, in_u64, slice_within, slice_bytes. rewrite length_window. lia.
Qed.
