(* ===== verification/ZeroCopy.v ===== *)
(** * Zero copy: [ZeroCopy::copy_slice] of src/src/zero_copy.rs

    The Linux and the macOS loop are both modelled, each over the [sendfile] of
    the [nix] crate on that system, which is a parameter: a call on a world.
    The loops run on fuel.  What the loops rely on is stated as a class of laws
    (at most the bytes asked for are sent, they are the bytes of the file at the
    offset, zero bytes means there is nothing left, only finitely many [EAGAIN]);
    [spawn_blocking(f).await] is [f()]. *)

From S2P Require Export StdTime FileSlice.

(** [nix::errno::Errno], as far as the code tells errors apart. *)
Inductive Errno : Type :=
| EAGAIN
| EOTHER (code : Z).

#[export] Instance Errno_eq_dec : EqDecision Errno.
Proof. solve_decision. Defined.

Inductive SendFileError : Type :=
| IoError (source : io_error)
| NixError (source : Errno).

Record ZeroCopy : Type := MkZeroCopy { target_raw_fd : Z }.

Module ZeroCopy.
(** [from] takes the descriptor of any [AsRawFd]. *)
Definition from {S} (as_raw_fd : S → Z) (fd : S) : ZeroCopy := MkZeroCopy (as_raw_fd fd).
Definition raw (fd : Z) : ZeroCopy := MkZeroCopy fd.
End ZeroCopy.

(** [sleep(std::time::Duration::from_millis(10))]. *)
Definition eagain_pause : Duration := from_millis 10.

(** ** The Linux loop *)
Section linux.
Context `{Target} {W : Type}.
(** [sendfile(target, source, &mut offset, count)]: the new offset, and the
    bytes sent or the error. *)
Context (sendfile : Z → Z → Z → Z → W → W * (Z * result Z Errno)).
Context (thread_sleep : Duration → W → W * unit).

Fixpoint linux_loop (fuel : nat) (target source size total_transferred current_offset : Z) :
    M W (result Z SendFileError) :=
  match fuel with
  | 0%nat => lift OutOfFuel
  | S fuel =>
      to_be_transfer ← lift (usize_sub (as_usize size) total_transferred);
      '(current_offset, r) ← act (sendfile target source current_offset to_be_transfer);
      match r with
      | Ok bytes_transferred =>
          total_transferred ← lift (usize_add total_transferred bytes_transferred);
          if bytes_transferred =? 0 then mret (Ok total_transferred)
          else if total_transferred <? as_usize size
          then linux_loop fuel target source size total_transferred current_offset
          else mret (Ok total_transferred)
      | Err EAGAIN =>
          _ ← act (thread_sleep eagain_pause);
          linux_loop fuel target source size total_transferred current_offset
      | Err err => mret (Err (NixError err))
      end
  end.

Definition copy_slice_linux (fuel : nat) (self : ZeroCopy) (source : AsyncFileSlice) :
    M W (result Z SendFileError) :=
  let size := AsyncFileSlice.len source in
  let offset := as_off_t (AsyncFileSlice.position source) in
  linux_loop fuel (target_raw_fd self) (AsyncFileSlice.fd source) size 0 offset.
End linux.

(** ** The macOS loop *)
Section macos.
Context `{Target} {W : Type}.
(** [sendfile(source, target, offset, Some(count), None, None)]: the result and,
    in either case, the bytes sent. *)
Context (sendfile : Z → Z → Z → Z → W → W * (result unit Errno * Z)).
Context (thread_sleep : Duration → W → W * unit).

Fixpoint macos_loop (fuel : nat) (target source size total_transferred current_offset : Z) :
    M W (result Z SendFileError) :=
  match fuel with
  | 0%nat => lift OutOfFuel
  | S fuel =>
      left ← lift (u64_sub size total_transferred);
      let to_be_transfer := as_i64 left in
      '(res, bytes_transferred) ←
        act (sendfile source target (as_i64 current_offset) to_be_transfer);
      total_transferred ← lift (u64_add total_transferred (as_u64 bytes_transferred));
      current_offset ← lift (u64_add current_offset (as_u64 bytes_transferred));
      match res with
      | Ok _ =>
          if bytes_transferred =? 0 then mret (Ok (as_usize total_transferred))
          else if total_transferred <? size
          then macos_loop fuel target source size total_transferred current_offset
          else mret (Ok (as_usize total_transferred))
      | Err err =>
          if bool_decide (err = EAGAIN) then
            _ ← act (thread_sleep eagain_pause);
            macos_loop fuel target source size total_transferred current_offset
          else mret (Err (NixError err))
      end
  end.

Definition copy_slice_macos (fuel : nat) (self : ZeroCopy) (source : AsyncFileSlice) :
    M W (result Z SendFileError) :=
  let size := AsyncFileSlice.len source in
  let offset := AsyncFileSlice.position source in
  macos_loop fuel (target_raw_fd self) (AsyncFileSlice.fd source) size 0 offset.
End macos.

(** [as off_t] truncates: with an [off_t] of 32 bits a slice that starts 4 GiB further
    on in the file is copied from the place of the other one, without an error. *)
Lemma copy_slice_linux_truncates `{Target} {W : Type}
    (sendfile : Z → Z → Z → Z → W → W * (Z * result Z Errno))
    (thread_sleep : Duration → W → W * unit) (fuel : nat) (self : ZeroCopy)
    (fd position len : Z) :
  copy_slice_linux sendfile thread_sleep fuel self
    (AsyncFileSlice.new fd (position + off_t_modulus) len) =
  copy_slice_linux sendfile thread_sleep fuel self (AsyncFileSlice.new fd position len).
Proof.
  unfold copy_slice_linux, AsyncFileSlice.position, AsyncFileSlice.new; simpl.
  by rewrite as_off_t_wraps.
Qed.

(** ** What the kernel promises

    [contents fd w] are the bytes of the file behind a descriptor, [sent fd w]
    what the peer of a socket has been sent.  [eagain_left w] bounds the number
    of [EAGAIN] still to come: the peer reads on. *)

Class Kernel (W : Type) := {
  contents : Z → W → list byte;
  sent : Z → W → list byte;
  eagain_left : W → nat;
}.

(** [w'] is [w] after [n] more bytes of the file went from offset [off]. *)
Record transferred `{Kernel W} (target source off n : Z) (w w' : W) : Prop := {
  tr_nonneg : 0 ≤ n;
  tr_contents : contents source w' = contents source w;
  tr_sent : sent target w' = sent target w ++
              window (Z.to_nat off) (Z.to_nat n) (contents source w);
  tr_within : n ≤ Z.max 0 (Z.of_nat (length (contents source w)) - off);
  tr_eagain : (eagain_left w' ≤ eagain_left w)%nat;
}.

Class SleepLaws `{Kernel W} (thread_sleep : Duration → W → W * unit) := {
  sleep_contents d fd w : contents fd (thread_sleep d w).1 = contents fd w;
  sleep_sent d fd w : sent fd (thread_sleep d w).1 = sent fd w;
  sleep_eagain d w : eagain_left (thread_sleep d w).1 = eagain_left w;
}.

(** sendfile(2) on Linux. *)
Class LinuxLaws `{Kernel W} (sendfile : Z → Z → Z → Z → W → W * (Z * result Z Errno)) := {
  linux_ok target source off count w w' off' n :
    0 ≤ off → 0 ≤ count →
    sendfile target source off count w = (w', (off', Ok n)) →
    off' = off + n ∧ n ≤ count ∧ transferred target source off n w w' ∧
    (n = 0 → count = 0 ∨ Z.of_nat (length (contents source w)) ≤ off);
  linux_err target source off count w w' off' e :
    0 ≤ off → 0 ≤ count →
    sendfile target source off count w = (w', (off', Err e)) →
    off' = off ∧ transferred target source off 0 w w' ∧
    (e = EAGAIN → (eagain_left w' < eagain_left w)%nat);
}.

(** sendfile(2) on macOS: a count of zero means "until the end of the file", and
    [EAGAIN] means that not all of the bytes were sent. *)
Class MacLaws `{Kernel W} (sendfile : Z → Z → Z → Z → W → W * (result unit Errno * Z)) := {
  mac_ok target source off count w w' n :
    0 ≤ off → 0 ≤ count →
    sendfile source target off count w = (w', (Ok tt, n)) →
    transferred target source off n w w' ∧
    (0 < count → n ≤ count) ∧
    (n = 0 → Z.of_nat (length (contents source w)) ≤ off) ∧
    (count = 0 → n = Z.max 0 (Z.of_nat (length (contents source w)) - off));
  mac_err target source off count w w' e n :
    0 ≤ off → 0 ≤ count →
    sendfile source target off count w = (w', (Err e, n)) →
    transferred target source off n w w' ∧
    (0 < count → n < count) ∧
    (e = EAGAIN → (eagain_left w' < eagain_left w)%nat);
}.

(** What [copy_slice] is for: the bytes [avail] of the file from [pos] on reach
    the target, all of them on [Ok], a prefix on an error. *)
Definition copied `{Kernel W} (target source pos avail : Z) (w w' : W)
    (r : result Z SendFileError) : Prop :=
  contents source w' = contents source w ∧
  match r with
  | Ok n => n = avail ∧
      sent target w' = sent target w ++
        window (Z.to_nat pos) (Z.to_nat avail) (contents source w)
  | Err (NixError e) => e ≠ EAGAIN ∧ ∃ k, 0 ≤ k ≤ avail ∧
      sent target w' = sent target w ++
        window (Z.to_nat pos) (Z.to_nat k) (contents source w)
  | Err (IoError _) => False
  end.

(** The part of a request for [size] bytes at [pos] that a file of [len] bytes has. *)
Definition available (size pos len : Z) : Z := Z.min size (Z.max 0 (len - pos)).

Section kernel_lemmas.
Context `{Kernel W}.

Lemma transferred_trans target source off n1 n2 (w w1 w2 : W) :
  0 ≤ off →
  transferred target source off n1 w w1 →
  transferred target source (off + n1) n2 w1 w2 →
  n1 + n2 ≤ Z.max 0 (Z.of_nat (length (contents source w)) - off) →
  transferred target source off (n1 + n2) w w2.
Proof.
  intros Hoff [Hn1 Hc1 Hs1 Hw1 He1] [Hn2 Hc2 Hs2 Hw2 He2] Hle.
  split; [lia|congruence| |done|lia].
  rewrite Hs2, Hs1, Hc1, <- app_assoc, !Z2Nat.inj_add by lia. by rewrite window_app.
Qed.

Lemma transferred_zero_r target source off n (w w1 w2 : W) :
  transferred target source off 0 w w1 →
  transferred target source off n w1 w2 → transferred target source off n w w2.
Proof.
  intros [_ Hc1 Hs1 _ He1] [Hn2 Hc2 Hs2 Hw2 He2].
  rewrite Z2Nat.inj_0, window_zero, app_nil_r in Hs1.
  split; [done|congruence|congruence|congruence|lia].
Qed.

Lemma transferred_sleep `{!SleepLaws thread_sleep} target source off d (w : W) :
  transferred target source off 0 w (thread_sleep d w).1.
Proof.
  split; rewrite ?sleep_contents, ?sleep_sent, ?sleep_eagain; try lia; [done|].
  by rewrite Z2Nat.inj_0, window_zero, app_nil_r.
Qed.

(** How a loop that started with [t] bytes already sent ends: [k] bytes later. *)
Definition loop_ends (target source pos avail t : Z) (w w' : W)
    (r : result Z SendFileError) : Prop :=
  ∃ k, transferred target source (pos + t) k w w' ∧ t + k ≤ avail ∧
  match r with
  | Ok n => n = t + k ∧ n = avail
  | Err (NixError e) => e ≠ EAGAIN
  | Err (IoError _) => False
  end.

Lemma loop_ends_copied target source pos avail (w w' : W) r :
  loop_ends target source pos avail 0 w w' r → copied target source pos avail w w' r.
Proof.
  intros (k & [Hk Hc Hs Hw He] & Hle & Hr). rewrite Z.add_0_r in *.
  split; [done|]. destruct r as [n|[e|e]]; [|done|].
  - destruct Hr as [-> <-]. by rewrite Z.add_0_l.
  - split; [done|]. exists k. split; [lia|done].
Qed.

(** Going on after [n] more bytes. *)
Lemma loop_ends_step target source pos size t n (w w1 w2 : W) r :
  0 ≤ pos → 0 ≤ t → 0 ≤ n →
  transferred target source (pos + t) n w w1 →
  loop_ends target source pos
    (available size pos (Z.of_nat (length (contents source w1)))) (t + n) w1 w2 r →
  loop_ends target source pos
    (available size pos (Z.of_nat (length (contents source w)))) t w w2 r.
Proof.
  intros Hpos Ht Hn H1 (k & H2 & Hle & Hr). rewrite (tr_contents _ _ _ _ _ _ H1) in *.
  exists (n + k). rewrite Z.add_assoc in H2. pose proof (tr_nonneg _ _ _ _ _ _ H2).
  unfold available in *. split; [|split; [lia|]].
  - eapply transferred_trans; [lia|done|done|lia].
  - destruct r as [m|[]]; [|done..]. lia.
Qed.
End kernel_lemmas.

(** ** Linux: the loop delivers the slice *)
Section linux_correct.
Context `{Target} `{Kernel W}.
Context (sendfile : Z → Z → Z → Z → W → W * (Z * result Z Errno)) `{!LinuxLaws sendfile}.
Context (thread_sleep : Duration → W → W * unit) `{!SleepLaws thread_sleep}.

(** The defining equation of the loop where no arithmetic overflows. *)
Lemma linux_loop_eq fuel target source size t off (w : W) :
  0 ≤ t ≤ as_usize size →
  linux_loop sendfile thread_sleep (S fuel) target source size t off w =
    match sendfile target source off (as_usize size - t) w with
    | (w', (off', Ok n)) =>
        (total ← lift (usize_add t n);
         if n =? 0 then mret (Ok total)
         else if total <? as_usize size
         then linux_loop sendfile thread_sleep fuel target source size total off'
         else mret (Ok total)) w'
    | (w', (off', Err EAGAIN)) =>
        linux_loop sendfile thread_sleep fuel target source size t off'
          (thread_sleep eagain_pause w').1
    | (w', (off', Err e)) => (w', Val (Err (NixError e)))
    end.
Proof.
  intros Ht. pose proof (as_usize_in size) as Hin. unfold in_usize in Hin.
  cbn [linux_loop]. unfold usize_sub. rewrite arith_exact by lia.
  unfold mbind at 1, M_bind at 1, lift at 1. unfold mbind at 1, M_bind at 1, act at 1.
  destruct (sendfile _ _ _ _ w) as [w' [off' [n|[|c]]]]; [reflexivity| |reflexivity].
  unfold mbind, M_bind, act. by destruct (thread_sleep eagain_pause w') as [w2 []].
Qed.

Lemma linux_loop_ends fuel target source size t pos (w : W) :
  0 ≤ pos → 0 ≤ t → (t < as_usize size ∨ t = 0) →
  t ≤ available (as_usize size) pos (Z.of_nat (length (contents source w))) →
  (Z.to_nat (Z.min (as_usize size)
     (available (as_usize size) pos (Z.of_nat (length (contents source w))) + 1) - t)
   + eagain_left w < fuel)%nat →
  ∃ w' r, linux_loop sendfile thread_sleep fuel target source size t (pos + t) w = (w', Val r) ∧
    loop_ends target source pos
      (available (as_usize size) pos (Z.of_nat (length (contents source w)))) t w w' r.
Proof.
  intros Hpos. pose proof (as_usize_in size) as Hin. unfold in_usize in Hin.
  revert t w. induction fuel as [|fuel IH]; intros t w Ht Hlt Hav Hfuel; [lia|].
  rewrite linux_loop_eq by lia.
  destruct (sendfile target source (pos + t) (as_usize size - t) w)
    as [w1 [off1 [n|e]]] eqn:Hcall.
  - apply linux_ok in Hcall as (-> & Hn & Htr & Hzero); [|lia..].
    pose proof (tr_nonneg _ _ _ _ _ _ Htr) as Hn0.
    pose proof (tr_within _ _ _ _ _ _ Htr) as Hwithin.
    pose proof (tr_eagain _ _ _ _ _ _ Htr) as Heagain.
    pose proof (tr_contents _ _ _ _ _ _ Htr) as Hcont.
    unfold usize_add. rewrite arith_exact by lia. unfold mbind, M_bind, lift.
    unfold available in *. destruct (Z.eqb_spec n 0) as [->|Hne].
    + eexists _, _. split; [reflexivity|]. exists 0. split; [done|].
      destruct Hzero as [|Hzero]; [done|..]; lia.
    + destruct (Z.ltb_spec (t + n) (as_usize size)) as [Hmore|Hdone].
      * destruct (IH (t + n) w1) as (w' & r & Hrun & Hends);
          [lia..|rewrite Hcont; lia|rewrite Hcont; lia|].
        rewrite <- Z.add_assoc. exists w', r. split; [done|].
        eapply loop_ends_step; [..|exact Htr|exact Hends]; lia.
      * eexists _, _. split; [reflexivity|]. exists n. split; [done|]. lia.
  - apply linux_err in Hcall as (-> & Htr & Hea); [|lia..].
    destruct e as [|c].
    + specialize (Hea eq_refl).
      pose proof (transferred_sleep target source (pos + t) eagain_pause w1) as Hsl.
      pose proof (transferred_zero_r _ _ _ _ _ _ _ Htr Hsl) as Htr'.
      destruct (IH t (thread_sleep eagain_pause w1).1) as (w' & r & Hrun & Hends).
      * done.
      * lia.
      * by rewrite (tr_contents _ _ _ _ _ _ Htr').
      * rewrite sleep_eagain, (tr_contents _ _ _ _ _ _ Htr'). lia.
      * exists w', r. split; [done|].
        eapply loop_ends_step with (n := 0); [..|exact Htr'|by rewrite Z.add_0_r]; lia.
    + eexists _, _. split; [reflexivity|]. exists 0. split; [done|]. by split; [lia|].
Qed.

(** C1: on Linux [copy_slice] returns, without unwinding, for every sequence of
    short writes, errors and finitely many [EAGAIN], if its position fits an [off_t];
    [Ok n] means that the target was sent exactly the bytes of the slice that the
    file has, [n] of them, and an error that it was sent a prefix of them and that
    the error is not [EAGAIN].  Fuel above the number of bytes and of [EAGAIN]s is enough. *)
Theorem copy_slice_linux_correct (self : ZeroCopy) (source : AsyncFileSlice) (w : W)
    (fuel : nat)
    (Hpos : 0 ≤ slice_position source < off_t_end)
    (Hfuel : (Z.to_nat (as_usize (slice_len source)) + eagain_left w < fuel)%nat) :
  ∃ w' r,
    copy_slice_linux sendfile thread_sleep fuel self source w = (w', Val r) ∧
    copied (target_raw_fd self) (slice_fd source) (slice_position source)
      (available (as_usize (slice_len source)) (slice_position source)
         (Z.of_nat (length (contents (slice_fd source) w)))) w w' r.
Proof.
  unfold copy_slice_linux, AsyncFileSlice.len, AsyncFileSlice.position, AsyncFileSlice.fd.
  rewrite as_off_t_small by done. pose proof (as_usize_in (slice_len source)) as Hin.
  unfold in_usize in Hin.
  destruct (linux_loop_ends fuel (target_raw_fd self) (slice_fd source)
    (slice_len source) 0 (slice_position source) w) as (w' & r & Hrun & Hends).
  - lia.
  - done.
  - by right.
  - unfold available. lia.
  - lia.
  - rewrite Z.add_0_r in Hrun. exists w', r. split; [done|]. by apply loop_ends_copied.
Qed.
End linux_correct.

(** ** macOS: the loop delivers a non-empty slice *)
Section macos_correct.
Context `{Target} `{Kernel W}.
Context (sendfile : Z → Z → Z → Z → W → W * (result unit Errno * Z)) `{!MacLaws sendfile}.
Context (thread_sleep : Duration → W → W * unit) `{!SleepLaws thread_sleep}.

Lemma macos_loop_eq fuel target source size t off (w : W) w' res n :
  0 ≤ t ≤ size → size < i64_modulus_half → 0 ≤ off < i64_modulus_half →
  0 ≤ n → t + n < u64_modulus → off + n < u64_modulus →
  sendfile source target off (size - t) w = (w', (res, n)) →
  macos_loop sendfile thread_sleep (S fuel) target source size t off w =
    match res with
    | Ok _ =>
        if n =? 0 then (w', Val (Ok (as_usize (t + n))))
        else if t + n <? size
        then macos_loop sendfile thread_sleep fuel target source size (t + n) (off + n) w'
        else (w', Val (Ok (as_usize (t + n))))
    | Err EAGAIN =>
        macos_loop sendfile thread_sleep fuel target source size (t + n) (off + n)
          (thread_sleep eagain_pause w').1
    | Err e => (w', Val (Err (NixError e)))
    end.
Proof.
  intros Ht Hsize Hoff Hn Htn Hon Hcall. cbn [macos_loop].
  unfold i64_modulus_half, u64_modulus in *.
  unfold u64_sub. rewrite arith_exact by (unfold u64_modulus; lia).
  unfold mbind at 1, M_bind at 1, lift at 1.
  rewrite !as_i64_small by (unfold i64_modulus_half; lia).
  unfold mbind at 1, M_bind at 1, act at 1. rewrite Hcall.
  rewrite as_u64_small by (unfold in_u64, u64_modulus; lia).
  unfold u64_add. rewrite !arith_exact by (unfold u64_modulus; lia).
  unfold mbind at 1 2, M_bind at 1 2, lift.
  destruct res as [?|[|c]].
  - by destruct (n =? 0), (t + n <? size).
  - rewrite bool_decide_eq_true_2 by done. unfold mbind, M_bind, act.
    by destruct (thread_sleep eagain_pause w') as [w2 []].
  - by rewrite bool_decide_eq_false_2.
Qed.

Lemma macos_loop_ends fuel target source size t pos (w : W) :
  0 ≤ t < size → in_usize size → size < i64_modulus_half →
  0 ≤ pos < i64_modulus_half →
  Z.of_nat (length (contents source w)) < i64_modulus_half →
  t ≤ available size pos (Z.of_nat (length (contents source w))) →
  (Z.to_nat (size - t) + eagain_left w < fuel)%nat →
  ∃ w' r, macos_loop sendfile thread_sleep fuel target source size t (pos + t) w = (w', Val r) ∧
    loop_ends target source pos
      (available size pos (Z.of_nat (length (contents source w)))) t w w' r.
Proof.
  intros Ht Husize Hsize Hpos. revert t w Ht.
  induction fuel as [|fuel IH]; intros t w Ht Hlen Hav Hfuel; [lia|].
  assert (pos + t < i64_modulus_half) as Hpt by (unfold available in Hav; lia).
  destruct (sendfile source target (pos + t) (size - t) w) as [w1 [res n]] eqn:Hcall.
  assert (transferred target source (pos + t) n w w1 ∧ n ≤ size - t ∧
    match res with
    | Ok _ => n = 0 → Z.of_nat (length (contents source w)) ≤ pos + t
    | Err e => n < size - t ∧ (e = EAGAIN → (eagain_left w1 < eagain_left w)%nat)
    end) as (Htr & Hn & Hres).
  { destruct res as [[]|e].
    - apply mac_ok in Hcall as (Htr & Hle & Hz & _); [|lia..]. specialize (Hle ltac:(lia)). done.
    - apply mac_err in Hcall as (Htr & Hle & He); [|lia..]. specialize (Hle ltac:(lia)).
      split; [done|]. by split; [lia|]. }
  pose proof (tr_nonneg _ _ _ _ _ _ Htr) as Hn0.
  pose proof (tr_within _ _ _ _ _ _ Htr) as Hwithin.
  pose proof (tr_eagain _ _ _ _ _ _ Htr) as Heagain.
  pose proof (tr_contents _ _ _ _ _ _ Htr) as Hcont.
  rewrite (macos_loop_eq fuel _ _ _ _ _ _ w1 res n); try done;
    try (unfold i64_modulus_half, u64_modulus in *; lia).
  unfold in_usize, available in *. destruct res as [[]|[|c]].
  - destruct (Z.eqb_spec n 0) as [->|Hne].
    + eexists _, _. split; [reflexivity|]. exists 0. split; [done|].
      rewrite Z.add_0_r, as_usize_small by (unfold in_usize; lia). lia.
    + destruct (Z.ltb_spec (t + n) size) as [Hmore|Hdone].
      * destruct (IH (t + n) w1) as (w' & r & Hrun & Hends);
          [lia|by rewrite Hcont|rewrite Hcont; lia|lia|].
        rewrite <- Z.add_assoc. exists w', r. split; [done|].
        eapply loop_ends_step; [..|exact Htr|exact Hends]; lia.
      * eexists _, _. split; [reflexivity|]. exists n. split; [done|].
        rewrite as_usize_small by (unfold in_usize; lia). lia.
  - destruct Hres as [Hlt Hea]. specialize (Hea eq_refl).
    pose proof (transferred_sleep target source (pos + t + n) eagain_pause w1) as Hsl.
    assert (transferred target source (pos + t) n w (thread_sleep eagain_pause w1).1) as Htr'.
    { rewrite <- (Z.add_0_r n). eapply transferred_trans; [lia|done|done|lia]. }
    destruct (IH (t + n) (thread_sleep eagain_pause w1).1) as (w' & r & Hrun & Hends).
    + lia.
    + by rewrite (tr_contents _ _ _ _ _ _ Htr').
    + rewrite (tr_contents _ _ _ _ _ _ Htr'). lia.
    + rewrite sleep_eagain. lia.
    + rewrite <- Z.add_assoc. exists w', r. split; [done|].
      eapply loop_ends_step; [..|exact Htr'|exact Hends]; lia.
  - eexists _, _. split; [reflexivity|]. exists n. split; [done|]. by split; [lia|].
Qed.

(** C20: on macOS [copy_slice] does the same for every slice that is not
    empty, bytes sent along with an [EAGAIN] counted. *)
Theorem copy_slice_macos_correct (self : ZeroCopy) (source : AsyncFileSlice) (w : W)
    (fuel : nat)
    (Hlen : 0 < slice_len source < i64_modulus_half) (Husize : in_usize (slice_len source))
    (Hpos : 0 ≤ slice_position source < i64_modulus_half)
    (Hfile : Z.of_nat (length (contents (slice_fd source) w)) < i64_modulus_half)
    (Hfuel : (Z.to_nat (slice_len source) + eagain_left w < fuel)%nat) :
  ∃ w' r,
    copy_slice_macos sendfile thread_sleep fuel self source w = (w', Val r) ∧
    copied (target_raw_fd self) (slice_fd source) (slice_position source)
      (available (slice_len source) (slice_position source)
         (Z.of_nat (length (contents (slice_fd source) w)))) w w' r.
Proof.
  unfold copy_slice_macos, AsyncFileSlice.len, AsyncFileSlice.position, AsyncFileSlice.fd.
  destruct (macos_loop_ends fuel (target_raw_fd self) (slice_fd source)
    (slice_len source) 0 (slice_position source) w) as (w' & r & Hrun & Hends);
    [lia|done|lia|done|done|unfold available; lia|rewrite Z.sub_0_r; lia|].
  rewrite Z.add_0_r in Hrun. exists w', r. split; [done|]. by apply loop_ends_copied.
Qed.

(** On macOS an empty slice is not empty for [sendfile]: its count of zero
    means "until the end of the file", so a [copy_slice] of no bytes before the
    end of a file sends the whole rest of the file, if the kernel takes it in one
    call, and reports that many bytes.  On Linux the same slice sends nothing
    ([copy_slice_linux_correct]). *)
Lemma copy_slice_macos_empty_overshoots (self : ZeroCopy) (source : AsyncFileSlice)
    (w w1 : W) (n : Z) (fuel : nat)
    (Hlen : slice_len source = 0)
    (Hpos : 0 ≤ slice_position source)
    (Hfile : slice_position source < Z.of_nat (length (contents (slice_fd source) w)))
    (Hmax : Z.of_nat (length (contents (slice_fd source) w)) < i64_modulus_half)
    (Hcall : sendfile (slice_fd source) (target_raw_fd self) (slice_position source) 0 w =
             (w1, (Ok tt, n))) :
  copy_slice_macos sendfile thread_sleep (S fuel) self source w = (w1, Val (Ok (as_usize n))) ∧
  0 < n ∧
  sent (target_raw_fd self) w1 = sent (target_raw_fd self) w ++
    drop (Z.to_nat (slice_position source)) (contents (slice_fd source) w).
Proof.
  pose proof Hcall as Hlaw. apply mac_ok in Hlaw as (Htr & _ & _ & Hall); [|lia..].
  specialize (Hall eq_refl).
  pose proof (tr_sent _ _ _ _ _ _ Htr) as Hs.
  unfold copy_slice_macos, AsyncFileSlice.len, AsyncFileSlice.position, AsyncFileSlice.fd.
  rewrite (macos_loop_eq fuel _ _ _ _ _ _ w1 (Ok tt) n); try lia;
    try (unfold i64_modulus_half, u64_modulus in *; lia); [|by rewrite Hlen].
  rewrite Hlen, Z.add_0_l. split; [|split; [lia|]].
  - destruct (Z.eqb_spec n 0); [done|]. zcase. done.
  - rewrite Hs. f_equal. unfold window. rewrite take_ge; [done|]. rewrite length_drop. lia.
Qed.
End macos_correct.

(** ** A kernel that satisfies the laws

    One file, one socket, and a script that says what the next calls do: send at
    most [k + 1] bytes, or fail.  When the script is over everything is sent. *)

Record scripted : Type := Scripted {
  k_file : list byte;
  k_sent : list byte;
  k_script : list (nat + Errno);
}.

Fixpoint count_eagain (s : list (nat + Errno)) : nat :=
  match s with
  | [] => 0
  | inr EAGAIN :: s => S (count_eagain s)
  | _ :: s => count_eagain s
  end.

#[export] Instance scripted_kernel : Kernel scripted := {
  contents := λ _, k_file;
  sent := λ _, k_sent;
  eagain_left := λ w, count_eagain (k_script w);
}.

Definition scripted_send (off n : Z) (rest : list (nat + Errno)) (w : scripted) : scripted :=
  Scripted (k_file w) (k_sent w ++ window (Z.to_nat off) (Z.to_nat n) (k_file w)) rest.

(** How many bytes a call with the limit [k] sends. *)
Definition scripted_amount (k : option nat) (off count : Z) (w : scripted) : Z :=
  let all := Z.min count (Z.max 0 (Z.of_nat (length (k_file w)) - off)) in
  match k with Some k => Z.min (Z.of_nat k + 1) all | None => all end.

Definition scripted_linux (target source off count : Z) (w : scripted) :
    scripted * (Z * result Z Errno) :=
  match k_script w with
  | inr e :: rest => (Scripted (k_file w) (k_sent w) rest, (off, Err e))
  | inl k :: rest =>
      let n := scripted_amount (Some k) off count w in
      (scripted_send off n rest w, (off + n, Ok n))
  | [] =>
      let n := scripted_amount None off count w in
      (scripted_send off n [] w, (off + n, Ok n))
  end.

(** A failure of the call that would come next is reported at once, with the bytes that
    were sent before it. *)
Definition scripted_macos (source target off count : Z) (w : scripted) :
    scripted * (result unit Errno * Z) :=
  if count =? 0 then
    let n := Z.max 0 (Z.of_nat (length (k_file w)) - off) in
    (scripted_send off n (k_script w) w, (Ok tt, n))
  else
  match k_script w with
  | inr e :: rest => (Scripted (k_file w) (k_sent w) rest, (Err e, 0))
  | inl k :: inr e :: rest =>
      let n := scripted_amount (Some k) off count w in
      if (0 <? n) && (n <? count) then (scripted_send off n rest w, (Err e, n))
      else (scripted_send off n (inr e :: rest) w, (Ok tt, n))
  | inl k :: rest =>
      let n := scripted_amount (Some k) off count w in
      (scripted_send off n rest w, (Ok tt, n))
  | [] =>
      let n := scripted_amount None off count w in
      (scripted_send off n [] w, (Ok tt, n))
  end.

Definition scripted_sleep (d : Duration) (w : scripted) : scripted * unit := (w, tt).

#[export] Instance scripted_sleep_laws : SleepLaws scripted_sleep.
Proof. by split. Qed.

Lemma count_eagain_tail x s : (count_eagain s ≤ count_eagain (x :: s))%nat.
Proof. destruct x as [|[]]; simpl; lia. Qed.

Lemma scripted_transferred target source off n rest w :
  0 ≤ n ≤ Z.max 0 (Z.of_nat (length (k_file w)) - off) →
  (count_eagain rest ≤ count_eagain (k_script w))%nat →
  transferred target source off n w (scripted_send off n rest w).
Proof. intros Hn He. by split; simpl; [lia|..|lia|]. Qed.

Lemma scripted_transferred_none target source off rest w :
  (count_eagain rest ≤ count_eagain (k_script w))%nat →
  transferred target source off 0 w (Scripted (k_file w) (k_sent w) rest).
Proof.
  intros He. split; simpl; [lia|done| |lia|done]. by rewrite app_nil_r.
Qed.

#[export] Instance scripted_linux_laws : LinuxLaws scripted_linux.
Proof.
  split; intros target source off count w w' off' r Hoff Hcount;
    unfold scripted_linux, scripted_amount;
    destruct (k_script w) as [|[k|e'] rest] eqn:Hs; intros [= <- <- <-].
  - split; [done|]. split; [lia|]. split; [|simpl; lia].
    apply scripted_transferred; rewrite ?Hs; simpl; lia.
  - split; [done|]. split; [lia|]. split; [|simpl; lia].
    apply scripted_transferred; rewrite ?Hs; [lia|apply count_eagain_tail].
  - split; [done|]. split; [|simpl; intros ->; rewrite Hs; simpl; lia].
    apply scripted_transferred_none. rewrite Hs. apply count_eagain_tail.
Qed.

#[export] Instance scripted_macos_laws : MacLaws scripted_macos.
Proof.
  split; intros target source off count w w'; [intros n|intros e n]; intros Hoff Hcount;
    unfold scripted_macos, scripted_amount;
    (destruct (Z.eqb_spec count 0) as [->|Hne];
     [|destruct (k_script w) as [|[k|e'] [|[k'|e''] rest]] eqn:Hs;
       try match goal with |- context [if (0 <? ?n) && (?n <? ?c) then _ else _] =>
         destruct (Z.ltb_spec 0 n), (Z.ltb_spec n c) end; simpl]);
    intros Hcall; simplify_eq; (split; [|split; [lia|]]);
    try (apply scripted_transferred || apply scripted_transferred_none);
    rewrite ?Hs; try (split; lia);
    try (intros ->; simpl; rewrite ?Hs; simpl; lia);
    repeat match goal with e : Errno |- _ => destruct e end;
    simplify_eq/=; lia.
Qed.

(** Ten bytes, of which the slice wants six from the third on; the kernel sends
    two, then is busy, then sends one, then the rest. *)
Definition ten_bytes : list byte :=
  [Byte.x00; Byte.x01; Byte.x02; Byte.x03; Byte.x04;
   Byte.x05; Byte.x06; Byte.x07; Byte.x08; Byte.x09].
Definition busy_kernel : scripted := Scripted ten_bytes [] [inl 1%nat; inr EAGAIN; inl 0%nat].
Definition six_bytes : AsyncFileSlice := MkSlice 3 2 6.

Lemma copy_slice_linux_correct_witness :
  ∃ w' r,
    copy_slice_linux (H := release_64) scripted_linux scripted_sleep 20 (MkZeroCopy 4)
      six_bytes busy_kernel = (w', Val r) ∧
    copied 4 3 2 6 busy_kernel w' r.
Proof.
  destruct (copy_slice_linux_correct (H := release_64) scripted_linux scripted_sleep
    (MkZeroCopy 4) six_bytes busy_kernel 20) as (w' & r & Hrun & Hc);
    try (vm_compute; intuition (discriminate || lia)).
  exists w', r. split; [exact Hrun|]. vm_compute in Hc |- *. exact Hc.
Defined.

Lemma copy_slice_macos_correct_witness :
  ∃ w' r,
    copy_slice_macos (H := release_64) scripted_macos scripted_sleep 20 (MkZeroCopy 4)
      six_bytes busy_kernel = (w', Val r) ∧
    copied 4 3 2 6 busy_kernel w' r.
Proof.
  destruct (copy_slice_macos_correct (H := release_64) scripted_macos scripted_sleep
    (MkZeroCopy 4) six_bytes busy_kernel 20) as (w' & r & Hrun & Hc);
    try (vm_compute; intuition (discriminate || lia)).
  exists w', r. split; [exact Hrun|]. vm_compute in Hc |- *. exact Hc.
Defined.

Lemma copy_slice_macos_empty_overshoots_witness :
  ∃ w1 n,
    copy_slice_macos (H := release_64) scripted_macos scripted_sleep 1 (MkZeroCopy 4)
      (MkSlice 3 2 0) (Scripted ten_bytes [] []) = (w1, Val (Ok (as_usize (H := release_64) n))) ∧
    0 < n ∧ k_sent w1 = [] ++ drop 2 ten_bytes.
Proof.
  eexists _, _.
  refine (copy_slice_macos_empty_overshoots (H := release_64) scripted_macos scripted_sleep
           (MkZeroCopy 4) (MkSlice 3 2 0) (Scripted ten_bytes [] []) _ _ 0 eq_refl _ _ _ _);
    vm_compute; intuition (discriminate || reflexivity).
Defined.
