(* ===== verification/ZeroCopyPorts.v ===== *)
(** * The two ports of [copy_slice] agree

    src/src/zero_copy.rs has one loop for Linux and one for macOS, written against
    two different [sendfile] calls: other argument order, other result, offsets the
    caller advances itself, [u64] sums instead of [usize] ones, and errors that come
    with the bytes sent before them.  On one kernel seen through both calls they do the
    same wherever the slice is not empty. *)

From S2P Require Export ZeroCopy.

(** One kernel behind both calls, as their manuals describe them: Linux reports a part
    that was sent, and what stopped it only to the next call; macOS may report both at
    once, an error with the bytes sent before it ("if specified, the number of bytes
    successfully sent will be returned"), or the part alone. *)
Class SameKernel {W} (linux : Z → Z → Z → Z → W → W * (Z * result Z Errno))
    (mac : Z → Z → Z → Z → W → W * (result unit Errno * Z)) := {
  same_call target source off count w : 0 < count →
    match linux target source off count w with
    | (w1, (_, Err e)) => mac source target off count w = (w1, (Err e, 0))
    | (w1, (off1, Ok n)) =>
        mac source target off count w = (w1, (Ok tt, n)) ∨
        ∃ w2 off2 e, 0 < n < count ∧
          linux target source off1 (count - n) w1 = (w2, (off2, Err e)) ∧
          mac source target off count w = (w2, (Err e, n))
    end;
}.

Section ports.
Context `{Target} `{Kernel W}.
Context (linux : Z → Z → Z → Z → W → W * (Z * result Z Errno)) `{!LinuxLaws linux}.
Context (mac : Z → Z → Z → Z → W → W * (result unit Errno * Z)) `{!SameKernel linux mac}.
Context (thread_sleep : Duration → W → W * unit).

(** Where the loops are: [t] bytes of [size] are sent, and the offset is [off]. *)
Record in_range (size t off : Z) : Prop := {
  range_usize : in_usize size;
  range_size : size < i64_modulus_half;
  range_t : 0 ≤ t < size;
  range_off : 0 ≤ off ∧ off + (size - t) < i64_modulus_half;
}.

Abbreviation mac_from := (macos_loop mac thread_sleep).
Abbreviation linux_from := (linux_loop linux thread_sleep).

(** What a round of the macOS loop is in rounds of the Linux one, by its first call. *)
Lemma ports_round target source size t off (w : W) :
  in_range size t off →
  match linux target source off (size - t) w with
  | (w1, (_, Err EAGAIN)) =>
      (∀ f, mac_from (S f) target source size t off w =
              mac_from f target source size t off (thread_sleep eagain_pause w1).1) ∧
      (∀ f, linux_from (S f) target source size t off w =
              linux_from f target source size t off (thread_sleep eagain_pause w1).1)
  | (w1, (_, Err e)) => ∀ f,
      mac_from (S f) target source size t off w = (w1, Val (Err (NixError e))) ∧
      linux_from (S f) target source size t off w = (w1, Val (Err (NixError e)))
  | (w1, (_, Ok n)) =>
      if (n =? 0) || (size <=? t + n)
      then ∀ f, mac_from (S f) target source size t off w = (w1, Val (Ok (t + n))) ∧
                linux_from (S f) target source size t off w = (w1, Val (Ok (t + n)))
      else in_range size (t + n) (off + n) ∧
        (∀ f, linux_from (S f) target source size t off w =
                linux_from f target source size (t + n) (off + n) w1) ∧
        ((∀ f, mac_from (S f) target source size t off w =
                 mac_from f target source size (t + n) (off + n) w1) ∨
         (∀ f, mac_from (S f) target source size t off w =
                 mac_from (S f) target source size (t + n) (off + n) w1))
  end.
Proof.
  intros [Hsize Hmax Ht Hoff]. pose proof (as_usize_small size Hsize) as Has.
  pose proof (same_call target source off (size - t) w ltac:(lia)) as Hmac.
  destruct (linux target source off (size - t) w) as [w1 [off1 [n|e]]] eqn:Hcall.
  - pose proof Hcall as Hlaw. apply linux_ok in Hlaw as (-> & Hn & Htr & _); [|lia..].
    pose proof (tr_nonneg _ _ _ _ _ _ Htr) as Hn0. unfold in_usize in Hsize.
    assert (∀ f, linux_from (S f) target source size t off w =
      if (n =? 0) || (size <=? t + n) then (w1, Val (Ok (t + n)))
      else linux_from f target source size (t + n) (off + n) w1) as Hlinux.
    { intros f. rewrite linux_loop_eq by (rewrite Has; lia). rewrite Has, Hcall.
      unfold usize_add. rewrite arith_exact by lia. unfold mbind, M_bind, lift.
      destruct (n =? 0); [done|]. rewrite Z.ltb_antisym. by destruct (size <=? t + n). }
    assert (as_usize (t + n) = t + n) as Hasn by (apply as_usize_small; unfold in_usize; lia).
    assert (∀ f w2 r, mac source target off (size - t) w = (w2, (r, n)) →
      mac_from (S f) target source size t off w =
        match r with
        | Ok _ => if n =? 0 then (w2, Val (Ok (as_usize (t + n))))
                  else if t + n <? size
                  then mac_from f target source size (t + n) (off + n) w2
                  else (w2, Val (Ok (as_usize (t + n))))
        | Err EAGAIN => mac_from f target source size (t + n) (off + n)
                          (thread_sleep eagain_pause w2).1
        | Err e => (w2, Val (Err (NixError e)))
        end) as Hround.
    { intros f w2 r Hc. apply macos_loop_eq; try done;
        unfold i64_modulus_half, u64_modulus in *; lia. }
    destruct ((n =? 0) || (size <=? t + n)) eqn:Hend.
    + intros f. split; [|by rewrite Hlinux]. destruct Hmac as [Hok|(w2 & off2 & e & Hlt & _)];
        [|apply orb_true_iff in Hend as [?%Z.eqb_eq|?%Z.leb_le]; lia].
      rewrite (Hround f _ _ Hok), Hasn.
      destruct (n =? 0); [done|]. simpl in Hend. by rewrite Z.ltb_antisym, Hend.
    + apply orb_false_iff in Hend as [Hne%Z.eqb_neq Hmore%Z.leb_gt].
      assert (in_range size (t + n) (off + n)) as Hin by (split; [done|done|lia|lia]).
      split; [done|]. split; [intros f; by rewrite Hlinux|].
      destruct Hmac as [Hok|(w2 & off2 & e & Hlt & Hfail & Hboth)]; [left|right]; intros f.
      * rewrite (Hround f _ _ Hok). rewrite (proj2 (Z.eqb_neq n 0)), (proj2 (Z.ltb_lt _ _)) by lia.
        done.
      * rewrite (Hround f _ _ Hboth).
        pose proof (same_call target source (off + n) (size - t - n) w1 ltac:(lia)) as Hnext.
        rewrite Hfail in Hnext. rewrite <- Z.sub_add_distr in Hnext.
        rewrite (macos_loop_eq mac thread_sleep f _ _ _ _ _ w1 w2 (Err e) 0);
          try done; try (unfold i64_modulus_half, u64_modulus in *; lia).
        by rewrite !Z.add_0_r.
  - pose proof Hcall as Hlaw. apply linux_err in Hlaw as (-> & Htr & _); [|lia..].
    assert (∀ f, mac_from (S f) target source size t off w =
      match e with
      | EAGAIN => mac_from f target source size (t + 0) (off + 0)
                    (thread_sleep eagain_pause w1).1
      | e => (w1, Val (Err (NixError e)))
      end) as Hround.
    { intros f. apply (macos_loop_eq mac thread_sleep f _ _ _ _ _ w w1 (Err e) 0); try done;
        unfold i64_modulus_half, u64_modulus in *; lia. }
    rewrite !Z.add_0_r in Hround.
    assert (∀ f, linux_from (S f) target source size t off w =
      match e with
      | EAGAIN => linux_from f target source size t off (thread_sleep eagain_pause w1).1
      | e => (w1, Val (Err (NixError e)))
      end) as Hlinux.
    { intros f. rewrite linux_loop_eq by (rewrite Has; lia). by rewrite Has, Hcall. }
    destruct e as [|c]; [by split|]. intros f. by split.
Qed.

Lemma linux_to_mac fuel target source size t off (w w' : W) o :
  o ≠ OutOfFuel → in_range size t off →
  linux_from fuel target source size t off w = (w', o) →
  ∃ fuel', mac_from fuel' target source size t off w = (w', o).
Proof.
  intros Ho. revert t off w. induction fuel as [|fuel IH]; intros t off w Hin Hrun;
    [by injection Hrun as _ <-|].
  pose proof (ports_round target source size t off w Hin) as Hround.
  destruct (linux target source off (size - t) w) as [w1 [off1 [n|e]]].
  - destruct ((n =? 0) || (size <=? t + n)).
    + destruct (Hround fuel) as [Hm Hl]. exists (S fuel). congruence.
    + destruct Hround as (Hin' & Hl & Hm). rewrite Hl in Hrun.
      destruct (IH _ _ _ Hin' Hrun) as [[|f] Hf]; [by injection Hf as _ <-|].
      destruct Hm as [Hm|Hm]; [exists (S (S f))|exists (S f)]; by rewrite Hm.
  - destruct e as [|c].
    + destruct Hround as [Hm Hl]. rewrite Hl in Hrun. destruct (IH _ _ _ Hin Hrun) as [f Hf].
      exists (S f). by rewrite Hm.
    + destruct (Hround fuel) as [Hm Hl]. exists (S fuel). congruence.
Qed.

Lemma mac_to_linux fuel target source size t off (w w' : W) o :
  o ≠ OutOfFuel → in_range size t off →
  mac_from fuel target source size t off w = (w', o) →
  ∃ fuel', linux_from fuel' target source size t off w = (w', o).
Proof.
  intros Ho. revert t off w. induction fuel as [|fuel IH]; intros t off w;
    [intros _ Hrun; by injection Hrun as _ <-|].
  remember (Z.to_nat (size - t)) as k eqn:Hk. revert t off w Hk.
  induction k as [k IHk] using lt_wf_ind. intros t off w Hk Hin Hrun.
  pose proof (ports_round target source size t off w Hin) as Hround.
  destruct (linux target source off (size - t) w) as [w1 [off1 [n|e]]] eqn:Hcall.
  - destruct ((n =? 0) || (size <=? t + n)) eqn:Hend.
    + destruct (Hround fuel) as [Hm Hl]. exists (S fuel). congruence.
    + destruct Hround as (Hin' & Hl & Hm).
      assert (∃ f, linux_from f target source size (t + n) (off + n) w1 = (w', o)) as [f Hf];
        [|exists (S f); by rewrite Hl].
      destruct Hm as [Hm|Hm]; rewrite Hm in Hrun; [by apply IH|].
      apply (IHk (Z.to_nat (size - (t + n)))); [|done..].
      apply orb_false_iff in Hend as [Hne%Z.eqb_neq Hmore%Z.leb_gt].
      destruct Hin as [_ _ Ht Hoff].
      apply linux_ok in Hcall as (_ & _ & Htr & _); [|lia..].
      pose proof (tr_nonneg _ _ _ _ _ _ Htr). lia.
  - destruct e as [|c].
    + destruct Hround as [Hm Hl]. rewrite Hm in Hrun. destruct (IH _ _ _ Hin Hrun) as [f Hf].
      exists (S f). by rewrite Hl.
    + destruct (Hround fuel) as [Hm Hl]. exists (S fuel). congruence.
Qed.

(** C21: on one kernel behind both calls the two [copy_slice] do the same.  For every
    non-empty slice whose end fits the offsets of both and an address space, every state
    of the kernel and every way it has to send a part, be busy or fail, one ends if and only
    if the other does, with the same bytes sent, the same pauses and the same result, though
    Linux may take two calls where macOS reports a part and what stopped it in one.  Of the
    two ports only the empty slice tells them apart ([copy_slice_macos_empty_overshoots]). *)
Theorem copy_slice_ports_agree (self : ZeroCopy) (source : AsyncFileSlice) (w w' : W)
    (o : outcome (result Z SendFileError))
    (Hlen : 0 < slice_len source) (Hpos : 0 ≤ slice_position source < off_t_end)
    (Hend : slice_position source + slice_len source < i64_modulus_half)
    (Husize : in_usize (slice_len source)) (Ho : o ≠ OutOfFuel) :
  (∃ fuel, copy_slice_macos mac thread_sleep fuel self source w = (w', o)) ↔
  (∃ fuel, copy_slice_linux linux thread_sleep fuel self source w = (w', o)).
Proof.
  unfold copy_slice_macos, copy_slice_linux.
  unfold AsyncFileSlice.len, AsyncFileSlice.position, AsyncFileSlice.fd.
  rewrite as_off_t_small by done.
  assert (in_range (slice_len source) 0 (slice_position source)) by (split; done || lia).
  split; intros [fuel Hrun]; [by eapply mac_to_linux|by eapply linux_to_mac].
Qed.
End ports.

(** The scripted kernel is such a kernel. *)
#[export] Instance scripted_same_kernel : SameKernel scripted_linux scripted_macos.
Proof.
  split. intros target source off count w Hcount. unfold scripted_macos, scripted_linux.
  destruct (Z.eqb_spec count 0); [lia|].
  destruct (k_script w) as [|[k|e] [|[k'|e'] rest]]; try done; try by left.
  destruct (Z.ltb_spec 0 (scripted_amount (Some k) off count w)),
    (Z.ltb_spec (scripted_amount (Some k) off count w) count); simpl; try by left.
  right. eexists _, _, _. split; [done|]. by split.
Qed.

(** The kernel sends two bytes and is busy: macOS says so in one call, Linux in two. *)
Lemma copy_slice_ports_agree_witness :
  ∃ fuel,
    copy_slice_macos (H := release_64) scripted_macos scripted_sleep fuel (MkZeroCopy 4)
      six_bytes busy_kernel =
    (Scripted ten_bytes (take 6 (drop 2 ten_bytes)) [], Val (Ok 6)).
Proof.
  refine (proj2 (copy_slice_ports_agree (H := release_64) scripted_linux scripted_macos
    scripted_sleep (MkZeroCopy 4) six_bytes busy_kernel
    (Scripted ten_bytes (take 6 (drop 2 ten_bytes)) []) (Val (Ok 6)) _ _ _ _ _) _);
    [vm_compute; intuition discriminate..|discriminate|].
  exists 20%nat. vm_compute. reflexivity.
Defined.

(** On that kernel they differ in the number of calls, not in what they do. *)
Example ports_call_counts :
  scripted_macos 3 4 2 6 busy_kernel =
    (Scripted ten_bytes (take 2 (drop 2 ten_bytes)) [inl 0%nat], (Err EAGAIN, 2)) ∧
  scripted_linux 4 3 2 6 busy_kernel =
    (Scripted ten_bytes (take 2 (drop 2 ten_bytes)) [inr EAGAIN; inl 0%nat], (4, Ok 2)).
Proof. by vm_compute. Qed.
