(* ===== verification/AsyncIo.v ===== *)
(** * The asynchronous I/O traits the crate is written against

    [AsyncRead] and [AsyncWrite] of the futures crates: a poll of an object of
    type [S], with the context [cx] of the task that polls (its address, which
    is never null).  The types of the crate that implement a trait are instances,
    the types it is generic in are parameters of these classes.  The laws are what
    the documentation of the traits asks of every implementation. *)

From S2P Require Export Prelude.

Class AsyncRead (S : Type) := {
  (** [poll_read(cx, buf)] with a buffer of the given length: the bytes read. *)
  poll_read : Z → nat → M S (poll (result (list byte) io_error));
}.

Class AsyncWrite (S : Type) := {
  poll_write : Z → list byte → M S (poll (result Z io_error));
  poll_flush : Z → M S (poll (result unit io_error));
  poll_close : Z → M S (poll (result unit io_error));
}.

(** [written s] is what the object has accepted so far: an [Ok(n)] accepts the
    first [n] bytes of the buffer, anything else accepts nothing. *)
Class AsyncWriteLaws (S : Type) `{AsyncWrite S} := {
  written : S → list byte;
  poll_write_returns cx buf s : (poll_write cx buf s).2 ≠ Panic ∧
    (poll_write cx buf s).2 ≠ OutOfFuel;
  poll_write_ok cx buf s s' n :
    poll_write cx buf s = (s', Val (Ready (Ok n))) →
    0 ≤ n ≤ Z.of_nat (length buf) ∧ written s' = written s ++ take (Z.to_nat n) buf;
  poll_write_err cx buf s s' e :
    poll_write cx buf s = (s', Val (Ready (Err e))) → written s' = written s;
  poll_write_pending cx buf s s' :
    poll_write cx buf s = (s', Val Pending) → written s' = written s;
}.

(** ** A writer for the witnesses

    It follows a script: accept at most [k] bytes, be pending, or fail. *)

Inductive write_step : Type :=
| Accept (k : nat)
| Busy
| Refuse (e : io_error).

Record script_writer : Type := ScriptWriter {
  sw_written : list byte;
  sw_script : list write_step;
}.

Definition script_write (cx : Z) (buf : list byte) :
    M script_writer (poll (result Z io_error)) := λ s,
  match sw_script s with
  | [] => (ScriptWriter (sw_written s ++ buf) [], Val (Ready (Ok (Z.of_nat (length buf)))))
  | Accept k :: rest =>
      let n := (k `min` length buf)%nat in
      (ScriptWriter (sw_written s ++ take n buf) rest, Val (Ready (Ok (Z.of_nat n))))
  | Busy :: rest => (ScriptWriter (sw_written s) rest, Val Pending)
  | Refuse e :: rest => (ScriptWriter (sw_written s) rest, Val (Ready (Err e)))
  end.

#[export] Instance script_async_write : AsyncWrite script_writer := {
  poll_write := script_write;
  poll_flush := λ _ s, (s, Val (Ready (Ok tt)));
  poll_close := λ _ s, (s, Val (Ready (Ok tt)));
}.

#[export] Instance script_write_laws : AsyncWriteLaws script_writer.
Proof.
  refine {| written := sw_written |}; intros cx buf s; simpl; unfold script_write;
    destruct (sw_script s) as [|[k| |e] rest]; try done.
  - intros s' n [= <- <-]. rewrite Nat2Z.id. simpl. split; [lia|]. by rewrite take_ge.
  - intros s' n [= <- <-]. rewrite Nat2Z.id. simpl. split; [lia|done].
  - intros s' e' [= <- <-]. done.
  - intros s' [= <-]. done.
Defined.
