(* ===== verification/WriteAll.v ===== *)
(** * [WriteBufAll]: src/src/write.rs

    The future returned by [write_buf_all]: it owns the buffer and polls the
    writer until the buffer is used up.  The loop of one [poll] is
    well-founded in the length of what is left, since a write of zero bytes ends
    it. *)

From Equations Require Import Equations.
From S2P Require Export AsyncIo.

Record WriteBufAll (S : Type) : Type := MkWriteBufAll { writer : S; buf : list byte }.
Arguments MkWriteBufAll {S} _ _.
Arguments writer {S} _.
Arguments buf {S} _.

(** [AsyncWrite2::write_buf_all] and [WriteBufAll::new]. *)
Definition write_buf_all {S} (self : S) (b : list byte) : WriteBufAll S := MkWriteBufAll self b.

Section write_all.
Context {Wr : Type} `{AsyncWrite Wr}.

(** [while !buf.is_empty()]: [split_at(n)] unwinds when [n] is beyond the end, and
    comes before the test for a write of zero bytes. *)
Equations? write_loop (cx : Z) (b : list byte) (s : Wr) :
    Wr * outcome (poll (result unit io_error)) by wf (length b) lt :=
  write_loop cx [] s := (s, Val (Ready (Ok tt)));
  write_loop cx (x :: b) s with poll_write cx (x :: b) s => {
    | (s', Val (Ready (Ok n))) with Z.of_nat (length (x :: b)) <? n => {
        | true := (s', Panic);
        | false with Z.to_nat n => {
            | 0%nat := (s', Val (Ready (Err (io_error_from WriteZero))));
            | S k := write_loop cx (drop k b) s' } };
    | (s', Val (Ready (Err e))) := (s', Val (Ready (Err e)));
    | (s', Val Pending) := (s', Val Pending);
    | (s', Panic) := (s', Panic);
    | (s', OutOfFuel) := (s', OutOfFuel) }.
Proof. rewrite length_drop. simpl. lia. Qed.

(** [poll]: the loop starts from [this.buf], on every poll. *)
Definition write_poll (cx : Z) : M (WriteBufAll Wr) (poll (result unit io_error)) := λ this,
  let '(s', o) := write_loop cx (buf this) (writer this) in
  (MkWriteBufAll s' (buf this), o).
End write_all.

Section write_all_correct.
Context {Wr : Type} `{AsyncWriteLaws Wr}.

(** One loop over [b] accepts a prefix of it: all of it exactly on [Ok]. *)
Lemma write_loop_spec cx b (s : Wr) :
  ∃ s' o k, write_loop cx b s = (s', Val o) ∧
    written s' = written s ++ take k b ∧
    match o with Ready (Ok _) => k = length b | _ => (k < length b)%nat end.
Proof.
  funelim (write_loop cx b s);
    try match goal with E : poll_write _ _ _ = (_, Val (Ready (Ok _))) |- _ =>
      apply poll_write_ok in E as [Hn Hw] end.
  - exists s, (Ready (Ok tt)), 0%nat. by rewrite app_nil_r.
  - exists s', (Ready (Err e)), 0%nat. apply poll_write_err in Heq.
    rewrite Heq, app_nil_r. simpl. by split; [|split; [|lia]].
  - exists s', Pending, 0%nat. apply poll_write_pending in Heq.
    rewrite Heq, app_nil_r. simpl. by split; [|split; [|lia]].
  - destruct (poll_write_returns cx (x :: b) s) as [Hp _]. by rewrite Heq in Hp.
  - destruct (poll_write_returns cx (x :: b) s) as [_ Hp]. by rewrite Heq in Hp.
  - zbool. lia.
  - exists s', (Ready (Err (io_error_from WriteZero))), 0%nat.
    rewrite Hw, Heq. split; [done|]. simpl. by split; [|lia].
  - match goal with IH : ∃ _ _ _, _ |- _ => destruct IH as (s2 & o & k' & Hrun & Hw' & Ho) end.
    exists s2, o, (S k + k')%nat. split; [done|]. rewrite Hw', Hw, Heq. split.
    + rewrite <- app_assoc. f_equal. by rewrite <- take_take_drop.
    + rewrite length_drop in Ho. simpl in *. destruct o as [[]|]; lia.
Qed.

(** What every poll of the writer keeps, the loop keeps. *)
Lemma write_loop_keeps (P : Wr → Prop) cx b (s : Wr) :
  (∀ b s, P s → P (poll_write cx b s).1) → P s → P (write_loop cx b s).1.
Proof.
  intros HP. funelim (write_loop cx b s);
    try match goal with E : poll_write _ ?b ?s = _ |- _ =>
      intros Hs; pose proof (HP b s Hs) as Hs'; rewrite E in Hs'; simpl in Hs' end; auto.
  match goal with IH : ∀ P : Wr → Prop, _ |- _ => by apply IH end.
Qed.

(** C34: one poll of a [WriteBufAll] returns without unwinding: [Ok] means that
    the whole buffer has been accepted, once and in order, [Pending] and every
    error that a proper prefix of it has. *)
Theorem write_poll_prefix (cx : Z) (this : WriteBufAll Wr) :
  ∃ this' o k, write_poll cx this = (this', Val o) ∧ buf this' = buf this ∧
    written (writer this') = written (writer this) ++ take k (buf this) ∧
    match o with Ready (Ok _) => k = length (buf this)
               | _ => (k < length (buf this))%nat end.
Proof.
  destruct (write_loop_spec cx (buf this) (writer this)) as (s' & o & k & Hrun & Hw & Ho).
  exists (MkWriteBufAll s' (buf this)), o, k. unfold write_poll. by rewrite Hrun.
Qed.

Lemma write_poll_ok cx (this this' : WriteBufAll Wr) :
  write_poll cx this = (this', Val (Ready (Ok tt))) →
  written (writer this') = written (writer this) ++ buf this.
Proof.
  destruct (write_loop_spec cx (buf this) (writer this)) as (s' & o & k & Hrun & Hw & Ho).
  unfold write_poll. rewrite Hrun. intros [= <- ->]. simpl. by rewrite Hw, Ho, take_ge.
Qed.

Lemma write_poll_pending cx (this this' : WriteBufAll Wr) :
  write_poll cx this = (this', Val Pending) →
  buf this' = buf this ∧ ∃ k, (k < length (buf this))%nat ∧
  written (writer this') = written (writer this) ++ take k (buf this).
Proof.
  destruct (write_loop_spec cx (buf this) (writer this)) as (s' & o & k & Hrun & Hw & Ho).
  unfold write_poll. rewrite Hrun. intros [= <- ->]. simpl. split; [done|]. by exists k.
Qed.

(** Progress is not kept between polls.  When a poll returns [Pending] after
    the writer has accepted [k] bytes, a later poll starts again at the beginning
    of the buffer, so that a future which completes on that poll has written the
    first [k] bytes twice. *)
Lemma write_poll_restarts (cx1 cx2 : Z) (this this1 this2 : WriteBufAll Wr)
    (Hpending : write_poll cx1 this = (this1, Val Pending))
    (Hready : write_poll cx2 this1 = (this2, Val (Ready (Ok tt)))) :
  ∃ k, (k < length (buf this))%nat ∧
    written (writer this1) = written (writer this) ++ take k (buf this) ∧
    written (writer this2) = written (writer this) ++ take k (buf this) ++ buf this.
Proof.
  apply write_poll_pending in Hpending as (Hbuf & k & Hk & Hw).
  apply write_poll_ok in Hready. exists k. split; [done|]. split; [done|].
  by rewrite Hready, Hbuf, Hw, app_assoc.
Qed.
End write_all_correct.

(** A writer that takes two bytes of four, is busy once, then takes everything:
    it ends with six bytes. *)
Definition four_bytes : list byte := [Byte.x0a; Byte.x0b; Byte.x0c; Byte.x0d].
Definition busy_writer : WriteBufAll script_writer :=
  write_buf_all (ScriptWriter [] [Accept 2; Busy]) four_bytes.

Lemma write_poll_restarts_witness :
  ∃ k this2, (k < 4)%nat ∧ (write_poll 1 busy_writer).2 = Val Pending ∧
    write_poll 1 (write_poll 1 busy_writer).1 = (this2, Val (Ready (Ok tt))) ∧
    sw_written (writer this2) = take k four_bytes ++ four_bytes ∧
    length (sw_written (writer this2)) = 6%nat.
Proof.
  pose (this1 := (write_poll 1 busy_writer).1).
  pose (this2 := (write_poll 1 this1).1).
  destruct (write_poll_restarts 1 1 busy_writer this1 this2) as (k & Hk & _ & Hw);
    [vm_compute; reflexivity|vm_compute; reflexivity|].
  exists k, this2. split; [exact Hk|]. split; [vm_compute; reflexivity|].
  split; [vm_compute; reflexivity|]. split; [exact Hw|]. vm_compute. reflexivity.
Defined.

Lemma write_poll_prefix_witness :
  ∃ this' o k, write_poll 1 busy_writer = (this', Val o) ∧
    sw_written (writer this') = take k four_bytes ∧ o = Pending ∧ (k < 4)%nat.
Proof.
  destruct (write_poll_prefix 1 busy_writer) as (this' & o & k & Hrun & _ & Hw & Ho).
  exists this', o, k. vm_compute in Hrun. injection Hrun as <- <-.
  split; [vm_compute; reflexivity|]. split; [exact Hw|]. split; [reflexivity|exact Ho].
Defined.
