(* ===== verification/Fs.v ===== *)
(** * Files: src/src/fs/mod.rs and src/src/fs/extension.rs

    The [File] of [async_fs] is a parameter: an interface of operations on the
    file system.  Here are the open helpers of [fs::util] and the extension
    trait [AsyncFileExtension], whose [as_slice] is the checked way to make an
    [AsyncFileSlice]. *)

From stdpp Require Import gmap.
From S2P Require Export FileSlice AsyncIo.

(** The flags of [OpenOptions]; [new()] clears them all. *)
Record OpenOptions : Type := MkOpenOptions {
  oo_read : bool;
  oo_write : bool;
  oo_create : bool;
  oo_append : bool;
  oo_truncate : bool;
}.
Definition oo_new : OpenOptions := MkOpenOptions false false false false false.
Definition with_read (b : bool) (o : OpenOptions) : OpenOptions :=
  MkOpenOptions b (oo_write o) (oo_create o) (oo_append o) (oo_truncate o).
Definition with_write (b : bool) (o : OpenOptions) : OpenOptions :=
  MkOpenOptions (oo_read o) b (oo_create o) (oo_append o) (oo_truncate o).
Definition with_create (b : bool) (o : OpenOptions) : OpenOptions :=
  MkOpenOptions (oo_read o) (oo_write o) b (oo_append o) (oo_truncate o).
Definition with_append (b : bool) (o : OpenOptions) : OpenOptions :=
  MkOpenOptions (oo_read o) (oo_write o) (oo_create o) b (oo_truncate o).
Definition with_truncate (b : bool) (o : OpenOptions) : OpenOptions :=
  MkOpenOptions (oo_read o) (oo_write o) (oo_create o) (oo_append o) b.

(** What the crate calls on [async_fs]: paths are strings, a [File] is a handle,
    [W] is the file system. *)
Class FileSystem (W File : Type) := {
  File_create : string → M W (result File io_error);
  File_open : string → M W (result File io_error);
  OpenOptions_open : OpenOptions → string → M W (result File io_error);
  metadata_len : File → M W (result Z io_error);
  seek_from_start : File → Z → M W (result Z io_error);
  File_as_raw_fd : File → Z;
}.

(** ** [fs::util] *)
Module util.
Section util.
Context `{FileSystem W File}.

Definition create (path : string) : M W (result File io_error) := File_create path.
Definition open (path : string) : M W (result File io_error) := File_open path.
Definition open_read_write (path : string) : M W (result File io_error) :=
  OpenOptions_open
    (with_append false (with_create true (with_write true (with_read true oo_new)))) path.
Definition open_read_append (path : string) : M W (result File io_error) :=
  OpenOptions_open (with_append true (with_create true (with_read true oo_new))) path.
End util.
End util.

(** ** [AsyncFileExtension] *)
Section extension.
Context `{Target} `{FileSystem W File}.

Definition reset_to_beginning (self : File) : M W (result unit io_error) :=
  r ← seek_from_start self 0;
  mret (map_ok (λ _, tt) r).

Definition raw_slice (self : File) (position len : Z) : AsyncFileSlice :=
  AsyncFileSlice.new (File_as_raw_fd self) position len.

Definition position_error : io_error :=
  IoErr UnexpectedEof "position is greater than available len".
Definition bytes_error : io_error := IoErr UnexpectedEof "not available bytes".

Definition as_slice (self : File) (position : Z) (desired_len_opt : option Z) :
    M W (result AsyncFileSlice io_error) :=
  len ←? metadata_len self;
  if len <=? position then mret (Err position_error)
  else
    match desired_len_opt with
    | Some desired_len =>
        e ← lift (u64_add position desired_len);
        if len <=? e then mret (Err bytes_error)
        else mret (Ok (raw_slice self position desired_len))
    | None =>
        slice_len ← lift (u64_sub len position);
        mret (Ok (raw_slice self position slice_len))
    end.

(** What [as_slice] answers when the length of the file is [len].  The sum of position and
    desired length may not fit 64 bits: with overflow checks that unwinds, without them
    the test is made with the sum less [2^64]. *)
Definition as_slice_answer (self : File) (len position : Z) (desired : option Z) :
    outcome (result AsyncFileSlice io_error) :=
  if len <=? position then Val (Err position_error)
  else match desired with
  | Some d =>
      if (u64_modulus <=? position + d) && overflow_checks then Panic
      else
        let e := if u64_modulus <=? position + d then position + d - u64_modulus
                 else position + d in
        Val (if len <=? e then Err bytes_error else Ok (raw_slice self position d))
  | None => Val (Ok (raw_slice self position (len - position)))
  end.

Lemma u64_add_cases a b :
  in_u64 a → in_u64 b →
  u64_add a b =
    if (u64_modulus <=? a + b) && overflow_checks then Panic
    else Val (if u64_modulus <=? a + b then a + b - u64_modulus else a + b).
Proof.
  unfold in_u64. intros Ha Hb. unfold u64_add. destruct (Z.leb_spec u64_modulus (a + b)).
  - rewrite arith_overflow by lia. destruct overflow_checks; simpl; [done|].
    f_equal. symmetry. apply Z.mod_unique_pos with 1; lia.
  - by rewrite arith_exact by lia.
Qed.

Lemma as_slice_eq self position desired w w' len :
  metadata_len self w = (w', Val (Ok len)) →
  in_u64 len → in_u64 position → match desired with Some d => in_u64 d | None => True end →
  as_slice self position desired w = (w', as_slice_answer self len position desired).
Proof.
  intros Hm Hlen Hpos Hd. unfold as_slice. erewrite try_bind_ok by exact Hm.
  unfold as_slice_answer. destruct (Z.leb_spec len position); [done|].
  destruct desired as [d|]; unfold mbind, M_bind, lift.
  - rewrite u64_add_cases by done.
    destruct (_ && overflow_checks); [done|]. by destruct (len <=? _).
  - unfold u64_sub, in_u64 in *. by rewrite arith_exact by lia.
Qed.

(** The slices that [as_slice] gives. *)
Lemma as_slice_given self position desired w w' len s :
  metadata_len self w = (w', Val (Ok len)) →
  in_u64 len → in_u64 position → match desired with Some d => in_u64 d | None => True end →
  as_slice self position desired w = (w', Val (Ok s)) →
  let stop := position + match desired with Some d => d | None => len - position end in
  s = raw_slice self position (stop - position) ∧ position < len ∧
  if stop <? u64_modulus then stop ≤ len else overflow_checks = false ∧ len < stop.
Proof.
  intros Hm Hlen Hpos Hd. rewrite (as_slice_eq self position desired w w' len) by done.
  intros [= Hs] stop. revert Hs. subst stop. unfold as_slice_answer, in_u64 in *.
  rewrite Z.add_simpl_l.
  destruct (Z.leb_spec len position) as [|Hlt]; [done|]. destruct desired as [d|].
  - destruct (Z.leb_spec u64_modulus (position + d)) as [Hover|Hfit].
    + rewrite (proj2 (Z.ltb_ge _ _)) by lia. destruct overflow_checks; simpl; [done|].
      destruct (len <=? _); intros [= <-]. split; [done|lia].
    + rewrite (proj2 (Z.ltb_lt _ _)) by lia. simpl.
      destruct (Z.leb_spec len (position + d)); intros [= <-]. split; [done|lia].
  - rewrite (proj2 (Z.ltb_lt _ _)) by lia. intros [= <-]. split; [done|lia].
Qed.

(** C28: [as_slice] on every input.  With the file length the metadata reports, a position
    at or beyond the end is refused, a desired length that reaches or passes the end is
    refused, no desired length means the rest of the file, and an error of the metadata call
    is passed on.  A slice it gives starts where it was asked to, has the length asked for,
    and lies within the file, unless the sum of position and desired length does not fit 64
    bits: then the call unwinds in a build with overflow checks, and without them it may
    give a slice, which always reaches beyond the end of the file. *)
Theorem as_slice_correct (self : File) (position : Z) (desired : option Z) (w w' : W)
    (m : result Z io_error)
    (Hmeta : metadata_len self w = (w', Val m))
    (Hlen : match m with Ok len => in_u64 len | Err _ => True end)
    (Hpos : in_u64 position) (Hd : match desired with Some d => in_u64 d | None => True end) :
  as_slice self position desired w =
    (w', match m with
         | Ok len => as_slice_answer self len position desired
         | Err e => Val (Err e)
         end) ∧
  ∀ len s, m = Ok len → as_slice self position desired w = (w', Val (Ok s)) →
    let stop := position + match desired with Some d => d | None => len - position end in
    s = raw_slice self position (stop - position) ∧ position < len ∧
    if stop <? u64_modulus then stop ≤ len else overflow_checks = false ∧ len < stop.
Proof.
  destruct m as [len|e].
  - split; [by apply as_slice_eq|]. intros ? s [= <-] Hs. by eapply as_slice_given.
  - assert (as_slice self position desired w = (w', Val (Err e))) as ->; [|done].
    unfold as_slice. by erewrite try_bind_err by exact Hmeta.
Qed.

(** The two ways to ask for the rest of a file differ: without a desired
    length [as_slice] gives the bytes up to the end, with exactly that length as
    the desired one it reports [UnexpectedEof] "not available bytes". *)
Lemma as_slice_rest_of_file (self : File) (position len : Z) (w w' : W)
    (Hmeta : metadata_len self w = (w', Val (Ok len)))
    (Hlen : in_u64 len) (Hpos : 0 ≤ position < len) :
  as_slice self position None w =
    (w', Val (Ok (raw_slice self position (len - position)))) ∧
  as_slice self position (Some (len - position)) w = (w', Val (Err bytes_error)).
Proof.
  assert (in_u64 position ∧ in_u64 (len - position)) as [Hp Hr] by (unfold in_u64 in *; lia).
  rewrite !(as_slice_eq self position _ w w' len) by done.
  unfold as_slice_answer. unfold in_u64 in Hlen. rewrite (proj2 (Z.leb_gt _ _)) by lia.
  split; [done|]. rewrite (proj2 (Z.leb_gt u64_modulus _)) by lia.
  simpl. by rewrite (proj2 (Z.leb_le _ _)) by lia.
Qed.

(** Without overflow checks the sum [position + desired_len] wraps, and a
    desired length near [u64::MAX] passes the test: the slice that comes back
    reaches beyond the end of the file.  With overflow checks the call unwinds. *)
Lemma as_slice_overflow (self : File) (position d len : Z) (w w' : W)
    (Hmeta : metadata_len self w = (w', Val (Ok len)))
    (Hlen : in_u64 len) (Hpos : 0 ≤ position < len) (Hd : in_u64 d)
    (Hover : u64_modulus ≤ position + d < u64_modulus + len) :
  if overflow_checks then as_slice self position (Some d) w = (w', Panic)
  else as_slice self position (Some d) w = (w', Val (Ok (raw_slice self position d))) ∧
       len < position + d.
Proof.
  assert (in_u64 position) by (unfold in_u64 in *; lia).
  rewrite (as_slice_eq self position (Some d) w w' len) by done.
  unfold as_slice_answer, in_u64 in *. rewrite (proj2 (Z.leb_gt len _)) by lia.
  rewrite (proj2 (Z.leb_le u64_modulus _)) by lia.
  destruct overflow_checks; simpl; [done|]. rewrite (proj2 (Z.leb_gt _ _)) by lia.
  split; [done|lia].
Qed.
End extension.

(** ** A file system in memory, for the witnesses

    A handle remembers its path, whether it may write, and what was written
    through it; writing through a handle opened for reading fails, as the
    operating system has it. *)

Record mem_file : Type := MemFile {
  mf_path : string;
  mf_writable : bool;
  mf_written : list byte;
}.

Abbreviation mem_fs := (gmap string (list byte)).

Definition bad_descriptor : io_error := IoErr (OtherKind 9) "Bad file descriptor".

Definition mem_open (o : OpenOptions) (path : string) : M mem_fs (result mem_file io_error) := λ w,
  match w !! path with
  | Some _ => (if oo_truncate o then <[path := []]> w else w,
               Val (Ok (MemFile path (oo_write o || oo_append o) [])))
  | None =>
      if oo_create o
      then (<[path := []]> w, Val (Ok (MemFile path (oo_write o || oo_append o) [])))
      else (w, Val (Err (io_error_from NotFound)))
  end.

#[export] Instance mem_file_system : FileSystem mem_fs mem_file := {
  File_create path := λ w, (<[path := []]> w, Val (Ok (MemFile path true [])));
  File_open path := mem_open (with_read true oo_new) path;
  OpenOptions_open := mem_open;
  metadata_len f := λ w,
    match w !! mf_path f with
    | Some bytes => (w, Val (Ok (Z.of_nat (length bytes))))
    | None => (w, Val (Err (io_error_from NotFound)))
    end;
  seek_from_start f n := λ w, (w, Val (Ok n));
  File_as_raw_fd f := 3;
}.

#[export] Instance mem_async_write : AsyncWrite mem_file := {
  poll_write cx b := λ f,
    if mf_writable f
    then (MemFile (mf_path f) true (mf_written f ++ b), Val (Ready (Ok (Z.of_nat (length b)))))
    else (f, Val (Ready (Err bad_descriptor)));
  poll_flush cx := λ f, (f, Val (Ready (Ok tt)));
  poll_close cx := λ f, (f, Val (Ready (Ok tt)));
}.

#[export] Instance mem_write_laws : AsyncWriteLaws mem_file.
Proof.
  refine {| written := mf_written |}; intros cx buf s; simpl;
    destruct (mf_writable s); try done.
  - intros s' n [= <- <-]. rewrite Nat2Z.id. simpl. split; [lia|]. by rewrite take_ge.
  - intros s' e [= <- <-]. done.
Defined.

(** A file of thirty bytes, as the one of the tests. *)
Definition apirequest : mem_fs := {[ "apirequest.bin" := replicate 30 Byte.x00 ]}.
Definition apirequest_file : mem_file := MemFile "apirequest.bin" false [].

Lemma as_slice_correct_witness :
  as_slice (H := release_64) apirequest_file 4 (Some 10) apirequest =
    (apirequest, Val (Ok (MkSlice 3 4 10))) ∧
  as_slice (H := debug_64) apirequest_file 4 (Some 18446744073709551612) apirequest =
    (apirequest, Panic).
Proof.
  split.
  - refine (proj1 (as_slice_correct (H := release_64) apirequest_file 4 (Some 10) apirequest
      apirequest (Ok 30) eq_refl _ _ _)); vm_compute; intuition discriminate.
  - refine (proj1 (as_slice_correct (H := debug_64) apirequest_file 4
      (Some 18446744073709551612) apirequest apirequest (Ok 30) eq_refl _ _ _));
      vm_compute; intuition discriminate.
Defined.

Lemma as_slice_rest_of_file_witness :
  as_slice (H := release_64) apirequest_file 0 None apirequest =
    (apirequest, Val (Ok (MkSlice 3 0 30))) ∧
  as_slice (H := release_64) apirequest_file 0 (Some 30) apirequest =
    (apirequest, Val (Err bytes_error)).
Proof.
  refine (as_slice_rest_of_file (H := release_64) apirequest_file 0 30 apirequest apirequest
    eq_refl _ _); vm_compute; intuition discriminate.
Defined.

Lemma as_slice_overflow_witness :
  as_slice (H := release_64) apirequest_file 4 (Some 18446744073709551612) apirequest =
    (apirequest, Val (Ok (MkSlice 3 4 18446744073709551612))) ∧
  30 < 4 + 18446744073709551612.
Proof.
  refine (as_slice_overflow (H := release_64) apirequest_file 4 18446744073709551612 30
    apirequest apirequest eq_refl _ _ _ _); vm_compute; intuition discriminate.
Defined.
