(* ===== verification/Bounded.v ===== *)
(** * The bounded file sink: src/src/fs/bounded.rs

    A [BoundedFileSink] is a file with a count of its bytes and an optional
    maximum.  It implements [AsyncWrite] over the one of the file and never
    refuses a write itself: [can_be_appended] is the test its users are to make.
    The file is any type with the file-system interface and [AsyncWrite]. *)

From S2P Require Export Fs.

Inductive BoundedFileSinkError : Type :=
| BIoError (e : io_error)
| MaxLenReached.

(** [From<io::Error>] and [Display]. *)
Definition sink_error_from (e : io_error) : BoundedFileSinkError := BIoError e.
Definition sink_error_display (show_io : io_error → string) (e : BoundedFileSinkError) : string :=
  match e with BIoError err => show_io err | MaxLenReached => "max len reached" end.

Record BoundedFileOption : Type := MkBoundedFileOption { max_len : option Z }.
Definition option_default : BoundedFileOption := MkBoundedFileOption None.

Record BoundedFileSink (File : Type) : Type := MkSink {
  option_ : BoundedFileOption;
  current_len : Z;
  sink_writer : File;
  path_ : string;
}.
Arguments MkSink {File} _ _ _ _.
Arguments option_ {File} _.
Arguments current_len {File} _.
Arguments sink_writer {File} _.
Arguments path_ {File} _.

Definition set_len {File} (n : Z) (s : BoundedFileSink File) : BoundedFileSink File :=
  MkSink (option_ s) n (sink_writer s) (path_ s).
Definition set_writer {File} (f : File) (s : BoundedFileSink File) : BoundedFileSink File :=
  MkSink (option_ s) (current_len s) f (path_ s).

Section bounded.
Context `{Target} `{FileSystem W File} `{!AsyncWrite File}.

Definition sink_create (path : string) (option : BoundedFileOption) :
    M W (result (BoundedFileSink File) io_error) :=
  writer ←? File_create path;
  mret (Ok (MkSink option 0 writer path)).

Definition open_write (path : string) (option : BoundedFileOption) :
    M W (result (BoundedFileSink File) io_error) :=
  writer ←? File_open path;
  len ←? metadata_len writer;
  mret (Ok (MkSink option len writer path)).

Definition open_append (path : string) (option : BoundedFileOption) :
    M W (result (BoundedFileSink File) io_error) :=
  writer ←? util.open_read_append path;
  len ←? metadata_len writer;
  mret (Ok (MkSink option len writer path)).

Definition get_current_len (s : BoundedFileSink File) : Z := current_len s.

Definition can_be_appended (s : BoundedFileSink File) (buf_len : Z) : outcome bool :=
  match max_len (option_ s) with
  | Some m => sum ← u64_add (current_len s) buf_len; mret (sum <=? m)
  | None => mret true
  end.

Definition get_path (s : BoundedFileSink File) : string := path_ s.
Definition inner (s : BoundedFileSink File) : File := sink_writer s.
Definition mut_inner (s : BoundedFileSink File) : File := sink_writer s.

Definition slice_from (s : BoundedFileSink File) (position len : Z) :
    result AsyncFileSlice io_error :=
  Ok (raw_slice (sink_writer s) position len).

(** A poll of the file inside the sink. *)
Definition with_writer {A} (f : M File A) : M (BoundedFileSink File) A := λ s,
  let '(w', o) := f (sink_writer s) in (set_writer w' s, o).

(** [*(self.as_mut().current_len()) = self.as_ref().current_len + size as u64]. *)
Definition add_len (size : Z) : M (BoundedFileSink File) unit := λ s,
  match u64_add (current_len s) (as_u64 size) with
  | Val n => (set_len n s, Val tt)
  | Panic => (s, Panic)
  | OutOfFuel => (s, OutOfFuel)
  end.

Definition sink_poll_write (cx : Z) (buf : list byte) :
    M (BoundedFileSink File) (poll (result Z io_error)) :=
  p ← with_writer (poll_write cx buf);
  match p with
  | Pending => mret Pending
  | Ready (Ok size) => _ ← add_len size; mret (Ready (Ok size))
  | Ready (Err err) => mret (Ready (Err err))
  end.

#[export] Instance bounded_async_write : AsyncWrite (BoundedFileSink File) := {
  poll_write := sink_poll_write;
  poll_flush cx := with_writer (poll_flush cx);
  poll_close cx := with_writer (poll_close cx);
}.
End bounded.

(** ** Accounting *)
Section accounting.
Context `{Target} {File : Type} `{AsyncWriteLaws File}.

(** What one poll of the sink does, in terms of the file. *)
Lemma sink_poll_write_spec cx buf (s : BoundedFileSink File) :
  in_u64 (current_len s) → current_len s + Z.of_nat (length buf) < u64_modulus →
  ∃ f' p n,
    poll_write cx buf (sink_writer s) = (f', Val p) ∧
    sink_poll_write cx buf s = (set_len (current_len s + Z.of_nat n) (set_writer f' s), Val p) ∧
    (n ≤ length buf)%nat ∧ written f' = written (sink_writer s) ++ take n buf ∧
    match p with Ready (Ok size) => size = Z.of_nat n | _ => n = 0%nat end.
Proof.
  intros Hlen Hsum. destruct (poll_write_returns cx buf (sink_writer s)) as [Hnp Hnf].
  unfold sink_poll_write, mbind, M_bind, with_writer.
  destruct (poll_write cx buf (sink_writer s)) as [f' [p| |]] eqn:Hp; try done.
  destruct p as [[size|e]|].
  - apply poll_write_ok in Hp as [Hsize Hw].
    simpl. unfold mbind, M_bind, add_len, u64_add. simpl.
    rewrite as_u64_small by (unfold in_u64 in *; lia). rewrite arith_exact by (unfold in_u64 in *; lia).
    exists f', (Ready (Ok size)), (Z.to_nat size). rewrite Z2Nat.id by lia.
    split; [done|]. split; [done|]. split; [lia|]. by split; [|lia].
  - apply poll_write_err in Hp. exists f', (Ready (Err e)), 0%nat.
    rewrite Hp, app_nil_r. destruct s; unfold set_len; simpl. rewrite Z.add_0_r.
    split; [done|]. split; [done|]. by split; [lia|].
  - apply poll_write_pending in Hp. exists f', Pending, 0%nat.
    rewrite Hp, app_nil_r. destruct s; unfold set_len; simpl. rewrite Z.add_0_r.
    split; [done|]. split; [done|]. by split; [lia|].
Qed.

(** A client: it polls the sink with one buffer after another, whatever the
    answers; [guarded] clients ask [can_be_appended] first. *)
Inductive run_writes (guarded : bool) :
    list (Z * list byte) → BoundedFileSink File → BoundedFileSink File → Prop :=
| run_nil s : run_writes guarded [] s s
| run_cons cx buf ops s s1 s2 o :
    (guarded = true → can_be_appended s (Z.of_nat (length buf)) = Val true) →
    sink_poll_write cx buf s = (s1, o) →
    run_writes guarded ops s1 s2 →
    run_writes guarded ((cx, buf) :: ops) s s2.

Definition total_len (ops : list (Z * list byte)) : Z :=
  Z.of_nat (sum_list ((λ op, length op.2) <$> ops)).

Lemma total_len_cons cx buf ops :
  total_len ((cx, buf) :: ops) = Z.of_nat (length buf) + total_len ops.
Proof. unfold total_len. rewrite fmap_cons, <- Nat2Z.inj_add. done. Qed.

Lemma total_len_nonneg ops : 0 ≤ total_len ops.
Proof. apply Nat2Z.is_nonneg. Qed.

(** C11: the count of a sink is the length it was opened with plus the number
    of bytes the file has accepted through it, whatever the sequence of writes
    and however the file answers (short writes, [Pending], errors); the maximum,
    and the path, play no part. *)
Theorem sink_accounting (g : bool) (ops : list (Z * list byte)) (s s' : BoundedFileSink File)
    (Hrun : run_writes g ops s s')
    (Hlen : in_u64 (current_len s)) (Htotal : current_len s + total_len ops < u64_modulus) :
  current_len s' - current_len s =
    Z.of_nat (length (written (sink_writer s'))) - Z.of_nat (length (written (sink_writer s))) ∧
  current_len s ≤ current_len s' ≤ current_len s + total_len ops ∧
  option_ s' = option_ s ∧ path_ s' = path_ s.
Proof.
  induction Hrun as [s|cx buf ops s s1 s2 o Hg Hpoll Hrun IH].
  - unfold total_len. simpl. by repeat split; lia.
  - rewrite total_len_cons in *. pose proof (total_len_nonneg ops).
    destruct (sink_poll_write_spec cx buf s) as (f' & p & n & _ & Hp & Hn & Hw & _); [done|lia|].
    rewrite Hpoll in Hp. injection Hp as -> _.
    destruct IH as (IH1 & IH2 & IH3 & IH4); simpl; [unfold in_u64 in *; lia|lia|].
    simpl in *. rewrite Hw, length_app, length_take in IH1.
    split; [lia|]. split; [lia|]. done.
Qed.

(** C29: a client that asks [can_be_appended] before each write keeps the sink
    within its maximum, as long as lengths are far enough from [u64::MAX]. *)
Theorem guarded_writes_bounded (m : Z) (ops : list (Z * list byte))
    (s s' : BoundedFileSink File)
    (Hrun : run_writes true ops s s')
    (Hmax : max_len (option_ s) = Some m)
    (Hlen : 0 ≤ current_len s ≤ m)
    (Hbufs : Forall (λ op, m + Z.of_nat (length op.2) < u64_modulus) ops) :
  0 ≤ current_len s' ≤ m.
Proof.
  remember true as g eqn:Hg.
  induction Hrun as [s|cx buf ops s s1 s2 o Hguard Hpoll Hrun IH]; [done|].
  apply Forall_cons in Hbufs as [Hbuf Hbufs]. simpl in Hbuf.
  specialize (Hguard Hg). unfold can_be_appended in Hguard. rewrite Hmax in Hguard.
  unfold u64_add in Hguard. rewrite arith_exact in Hguard by lia.
  injection Hguard as Hle%Z.leb_le.
  destruct (sink_poll_write_spec cx buf s) as (f' & p & n & _ & Hp & Hn & _);
    [unfold in_u64; lia|lia|].
  rewrite Hpoll in Hp. injection Hp as -> _.
  apply IH; simpl; [exact Hmax|lia|done].
Qed.

(** The test itself: exact while the sum fits; without overflow checks a
    sum that wraps to a value under the maximum is answered [true], with them the
    call unwinds. *)
Lemma can_be_appended_correct (s : BoundedFileSink File) (m buf_len : Z)
    (Hmax : max_len (option_ s) = Some m)
    (Hlen : in_u64 (current_len s)) (Hbuf : in_u64 buf_len) :
  can_be_appended s buf_len =
    if decide (current_len s + buf_len < u64_modulus)
    then Val (current_len s + buf_len <=? m)
    else if overflow_checks then Panic
    else Val (current_len s + buf_len - u64_modulus <=? m).
Proof.
  unfold can_be_appended, u64_add, in_u64 in *. rewrite Hmax.
  destruct (decide _) as [Hfit|Hover].
  - by rewrite arith_exact by lia.
  - rewrite arith_overflow by lia. destruct overflow_checks; [done|].
    unfold mbind, outcome_bind, mret, outcome_ret. do 2 f_equal.
    rewrite <- (Z.mod_small (current_len s + buf_len - u64_modulus) u64_modulus) by lia.
    rewrite <- (Z.mod_add (current_len s + buf_len - u64_modulus) 1) by done. f_equal. lia.
Qed.
End accounting.

(** ** Opening

    [File::open] opens "in read-only mode"; the operating system refuses writes
    through such a handle.  [writable f] is the mode of a handle. *)

Class FileModes (W File : Type) `{FileSystem W File, AsyncWrite File} := {
  writable : File → bool;
  file_open_read_only path w w' f : File_open path w = (w', Val (Ok f)) → writable f = false;
  open_with_mode o path w w' f :
    OpenOptions_open o path w = (w', Val (Ok f)) → writable f = oo_write o || oo_append o;
  poll_write_mode cx buf f f' o : poll_write cx buf f = (f', o) → writable f' = writable f;
  poll_write_refused cx buf f f' n :
    writable f = false → poll_write cx buf f ≠ (f', Val (Ready (Ok n)));
}.

Section opening.
Context `{Target} {W File : Type}.
Context `{FileSystem W File, !AsyncWrite File, !AsyncWriteLaws File, !FileModes W File}.

Lemma sink_writable cx buf (s s' : BoundedFileSink File) o :
  sink_poll_write cx buf s = (s', o) → writable (sink_writer s') = writable (sink_writer s).
Proof.
  unfold sink_poll_write, mbind, M_bind, with_writer, add_len.
  destruct (poll_write cx buf (sink_writer s)) as [f' [p| |]] eqn:Hp;
    apply poll_write_mode in Hp; [|intros [= <- _]; exact Hp..].
  destruct p as [[size|e]|]; [|intros [= <- _]; exact Hp..].
  simpl. by destruct (u64_add _ _); intros [= <- _].
Qed.

Lemma read_only_step cx buf (s s' : BoundedFileSink File) o :
  writable (sink_writer s) = false → sink_poll_write cx buf s = (s', o) →
  current_len s' = current_len s ∧ ∀ n, o ≠ Val (Ready (Ok n)).
Proof.
  intros Hw. unfold sink_poll_write, mbind, M_bind, with_writer.
  destruct (poll_write cx buf (sink_writer s)) as [f' [[[n|e]|]| |]] eqn:Hp;
    try (by intros [= <- <-]).
  by destruct (poll_write_refused cx buf _ f' n Hw).
Qed.

Lemma read_only_run g ops (s s' : BoundedFileSink File) :
  run_writes g ops s s' → writable (sink_writer s) = false →
  writable (sink_writer s') = false ∧ current_len s' = current_len s.
Proof.
  induction 1 as [s|cx buf ops s s1 s2 o _ Hpoll Hrun IH]; intros Hw; [done|].
  destruct (read_only_step _ _ _ _ _ Hw Hpoll) as [<- _].
  apply IH. by rewrite (sink_writable _ _ _ _ _ Hpoll).
Qed.

Lemma open_write_mode path option w w' (s : BoundedFileSink File) :
  open_write path option w = (w', Val (Ok s)) → writable (sink_writer s) = false.
Proof.
  unfold open_write, try_bind, mbind, M_bind.
  destruct (File_open path w) as [w1 [[f|e]| |]] eqn:Hf; try done.
  apply file_open_read_only in Hf.
  destruct (metadata_len f w1) as [w2 [[len|e]| |]]; try done.
  by intros [= <- <-].
Qed.

(** A sink from [open_write] cannot be written to: it holds a handle opened
    for reading only, so no poll of a write is ever answered [Ok], and its count
    stays the length of the file. *)
Lemma open_write_never_writes (path : string) (option : BoundedFileOption) (w w' : W)
    (s0 s : BoundedFileSink File) (g : bool) (ops : list (Z * list byte))
    (Hopen : open_write path option w = (w', Val (Ok s0)))
    (Hrun : run_writes g ops s0 s) :
  current_len s = current_len s0 ∧
  ∀ cx buf s' n, sink_poll_write cx buf s ≠ (s', Val (Ready (Ok n))).
Proof.
  apply open_write_mode in Hopen.
  destruct (read_only_run _ _ _ _ Hrun Hopen) as [Hw Hlen]. split; [done|].
  intros cx buf s' n Hpoll. destruct (read_only_step _ _ _ _ _ Hw Hpoll) as [_ Hno].
  by apply (Hno n).
Qed.
End opening.

(** ** Witnesses *)

#[export] Instance mem_file_modes : FileModes mem_fs mem_file.
Proof.
  assert (∀ o path (w w' : mem_fs) f, mem_open o path w = (w', Val (Ok f)) →
    mf_writable f = oo_write o || oo_append o) as Hopen.
  { intros o path w w' f. unfold mem_open.
    destruct (w !! path); [by intros [= <- <-]|].
    destruct (oo_create o); [by intros [= <- <-]|done]. }
  refine {| writable := mf_writable |}.
  - intros path w w' f Hf. by apply Hopen in Hf.
  - exact Hopen.
  - intros cx buf f f' o. simpl. by destruct (mf_writable f) eqn:?; intros [= <- _].
  - intros cx buf f f' n Hw. simpl. by rewrite Hw.
Defined.

(** The sink of the test [test_sink_file_max_reached]: eight bytes of ten. *)
Definition sink_ten : BoundedFileSink mem_file :=
  MkSink (MkBoundedFileOption (Some 10)) 0 (MemFile "file_test_max" true []) "file_test_max".
Definition eight : list byte := replicate 8 Byte.x01.
Definition sink_eight : BoundedFileSink mem_file :=
  (sink_poll_write (H := release_64) 1 eight sink_ten).1.

Lemma run_eight g : run_writes (H := release_64) g [(1, eight)] sink_ten sink_eight.
Proof. eapply run_cons; [by intros _|by apply surjective_pairing|apply run_nil]. Qed.

Lemma sink_accounting_witness :
  current_len sink_eight - 0 = Z.of_nat (length (mf_written (sink_writer sink_eight))) - 0 ∧
  0 ≤ current_len sink_eight ≤ 8.
Proof.
  destruct (sink_accounting (H := release_64) false _ _ _ (run_eight false)) as (Ha & Hb & _);
    [vm_compute; intuition discriminate|vm_compute; reflexivity|].
  split; [exact Ha|exact Hb].
Defined.

Lemma guarded_writes_bounded_witness : 0 ≤ current_len sink_eight ≤ 10.
Proof.
  apply (guarded_writes_bounded (H := release_64) 10 _ _ _ (run_eight true) eq_refl);
    [vm_compute; intuition discriminate|].
  repeat constructor.
Defined.

Lemma can_be_appended_correct_witness :
  can_be_appended (H := release_64) sink_eight 20 = Val false ∧
  can_be_appended (H := release_64) sink_eight 18446744073709551608 = Val true ∧
  can_be_appended (H := debug_64) sink_eight 18446744073709551608 = Panic.
Proof.
  split; [|split].
  - rewrite (can_be_appended_correct (H := release_64) sink_eight 10 20);
      vm_compute; intuition discriminate.
  - rewrite (can_be_appended_correct (H := release_64) sink_eight 10);
      vm_compute; intuition discriminate.
  - rewrite (can_be_appended_correct (H := debug_64) sink_eight 10);
      vm_compute; intuition discriminate.
Defined.

Definition sink_read_only : BoundedFileSink mem_file :=
  MkSink option_default 30 apirequest_file "apirequest.bin".

Lemma open_write_never_writes_witness :
  open_write "apirequest.bin" option_default apirequest = (apirequest, Val (Ok sink_read_only)) ∧
  ∀ cx buf s' n, sink_poll_write (H := release_64) cx buf sink_read_only ≠
    (s', Val (Ready (Ok n))).
Proof.
  split; [vm_compute; reflexivity|].
  destruct (open_write_never_writes (H := release_64) "apirequest.bin" option_default
    apirequest apirequest sink_read_only sink_read_only false []) as [_ Hno];
    [vm_compute; reflexivity|apply run_nil|exact Hno].
Defined.
