(* ===== verification/SinkWrites.v ===== *)
(** * Writing a whole buffer to a bounded sink

    [WriteBufAll] (src/src/write.rs) drives any [AsyncWrite], and [BoundedFileSink]
    (src/src/fs/bounded.rs) is one: without overflow checks it is as lawful a writer as
    the file inside it, so that what is known of the write future holds of sinks, and
    the count of the sink follows. *)

From S2P Require Export WriteAll Bounded.

Section sink_writes.
Context `{Target} {File : Type} `{AsyncWriteLaws File}.
Hypothesis release : overflow_checks = false.

(** One poll of a sink in a build without overflow checks. *)
Lemma sink_poll_release cx buf (s : BoundedFileSink File) :
  sink_poll_write cx buf s =
    match poll_write cx buf (sink_writer s) with
    | (f', Val (Ready (Ok n))) =>
        (set_len ((current_len s + as_u64 n) mod u64_modulus) (set_writer f' s),
         Val (Ready (Ok n)))
    | (f', o) => (set_writer f' s, o)
    end.
Proof.
  unfold sink_poll_write, mbind, M_bind, with_writer.
  destruct (poll_write cx buf (sink_writer s)) as [f' [[[n|e]|]| |]]; try done.
  simpl. unfold mbind, M_bind, add_len, u64_add. simpl.
  destruct (decide (0 ≤ current_len s + as_u64 n < u64_modulus)) as [Hfit|Hover].
  - rewrite arith_exact by done. by rewrite Z.mod_small.
  - by rewrite arith_overflow, release by done.
Qed.

(** The sink is a lawful writer: what it has accepted is what its file has. *)
#[export] Instance sink_write_laws : AsyncWriteLaws (BoundedFileSink File).
Proof.
  refine {| written s := written (sink_writer s) |}; intros cx buf s; simpl;
    rewrite sink_poll_release; pose proof (poll_write_returns cx buf (sink_writer s)) as Hr;
    destruct (poll_write cx buf (sink_writer s)) as [f' [[[n|e]|]| |]] eqn:Hp; simpl in *;
    try done; try (by intros; simplify_eq; destruct Hr).
  - intros s' n' [= <- <-]. by apply poll_write_ok in Hp.
  - intros s' e' [= <- <-]. by apply poll_write_err in Hp.
  - intros s' [= <-]. by apply poll_write_pending in Hp.
Defined.

(** The count of [s'], counted from that of [s] by what the file has taken since. *)
Definition counted (s s' : BoundedFileSink File) : Prop :=
  current_len s' = (current_len s + Z.of_nat (length (written (sink_writer s'))) -
                    Z.of_nat (length (written (sink_writer s)))) mod u64_modulus ∧
  option_ s' = option_ s ∧ path_ s' = path_ s.

Lemma counted_poll s cx buf s' : counted s s' → counted s (sink_poll_write cx buf s').1.
Proof.
  intros (Hlen & Ho & Hpath). rewrite sink_poll_release.
  destruct (poll_write cx buf (sink_writer s')) as [f' [[[n|e]|]| |]] eqn:Hp.
  - apply poll_write_ok in Hp as [Hn Hw]. split; [|done]. simpl. rewrite Hw, length_app, Hlen.
    rewrite length_take, Nat.min_l by lia. unfold as_u64.
    rewrite <- Z.add_mod by done. f_equal. lia.
  - apply poll_write_err in Hp. split; [|done]. simpl. by rewrite Hp.
  - apply poll_write_pending in Hp. split; [|done]. simpl. by rewrite Hp.
  - destruct (poll_write_returns cx buf (sink_writer s')) as [Hr _]. by rewrite Hp in Hr.
  - destruct (poll_write_returns cx buf (sink_writer s')) as [_ Hr]. by rewrite Hp in Hr.
Qed.

(** C35: a write future over a bounded sink, in a build without overflow checks: one
    poll returns, and whatever it returns the count of the sink has grown, modulo
    [2^64], by exactly the bytes the file accepted in that poll, which are the buffer
    on [Ok] and a proper prefix of it otherwise; neither the maximum nor the path
    changes, and the maximum stops nothing. *)
Theorem sink_write_all_counts (cx : Z) (this : WriteBufAll (BoundedFileSink File))
    (Hlen : in_u64 (current_len (writer this))) :
  ∃ this' o k, write_poll cx this = (this', Val o) ∧
    written (sink_writer (writer this')) =
      written (sink_writer (writer this)) ++ take k (buf this) ∧
    match o with
    | Ready (Ok _) => k = length (buf this)
    | _ => (k < length (buf this))%nat
    end ∧
    current_len (writer this') = (current_len (writer this) + Z.of_nat k) mod u64_modulus ∧
    option_ (writer this') = option_ (writer this) ∧
    path_ (writer this') = path_ (writer this).
Proof.
  destruct (write_loop_spec cx (buf this) (writer this)) as (s' & o & k & Hrun & Hw & Ho).
  assert (counted (writer this) s') as (Hc & Hopt & Hpath).
  { pose proof (write_loop_keeps (counted (writer this)) cx (buf this) (writer this)) as Hk.
    rewrite Hrun in Hk. apply Hk.
    - intros b s Hs. by apply counted_poll.
    - split; [|done]. rewrite Z.add_simpl_r. by rewrite Z.mod_small. }
  exists (MkWriteBufAll s' (buf this)), o, k. unfold write_poll. rewrite Hrun.
  split; [done|]. split; [exact Hw|]. split; [done|]. split; [|done]. simpl.
  change (written s') with (written (sink_writer s')) in Hw. rewrite Hc.
  change (written (writer this)) with (written (sink_writer (writer this))) in Hw.
  rewrite Hw, length_app, length_take.
  replace (k `min` length (buf this))%nat with k; [f_equal; lia|].
  destruct o as [[]|]; lia.
Qed.
End sink_writes.

(** A buffer of eight bytes to a sink whose count is about to wrap. *)
Definition sink_brim : BoundedFileSink mem_file :=
  MkSink option_default (u64_modulus - 3) (MemFile "brim" true []) "brim".

Lemma sink_write_all_counts_witness :
  ∃ this', write_poll (H := bounded_async_write (H := release_64)) 1
    (write_buf_all sink_brim eight) = (this', Val (Ready (Ok tt))) ∧
    current_len (writer this') = 5.
Proof.
  destruct (sink_write_all_counts (H := release_64) eq_refl 1 (write_buf_all sink_brim eight))
    as (this' & o & k & Hrun & _ & Ho & Hc & _); [vm_compute; intuition discriminate|].
  exists this'. vm_compute in Hrun. injection Hrun as <- <-. split; [reflexivity|].
  vm_compute. reflexivity.
Defined.
