(* ===== verification/Transfer.v ===== *)
(** * Sending a part of a file: [as_slice] followed by [copy_slice]

    The two operations are made to be used together, as the tests of
    src/src/zero_copy.rs do: a checked slice of an open file, handed to [ZeroCopy].
    Their worlds are the same system, seen through the file interface and through
    the descriptor. *)

From S2P Require Export Fs ZeroCopy.

(** The metadata of an open file tell the length of what its descriptor reads, and
    asking for them changes nothing. *)
Class FileKernel (W File : Type) `{FileSystem W File, Kernel W} := {
  metadata_contents (f : File) (w w' : W) (len : Z) :
    metadata_len f w = (w', Val (Ok len)) →
    w' = w ∧ len = Z.of_nat (length (contents (File_as_raw_fd f) w));
}.

Section transfer.
Context `{Target} {W File : Type} `{FileKernel W File}.
Context (sendfile : Z → Z → Z → Z → W → W * (Z * result Z Errno)) `{!LinuxLaws sendfile}.
Context (thread_sleep : Duration → W → W * unit) `{!SleepLaws thread_sleep}.

(** C5: [as_slice] followed by [copy_slice] on Linux, whatever was asked for.  For a file
    that fits an address space and an [off_t], copying a slice that [as_slice] gave returns;
    [Ok n] means that exactly [n] bytes were sent, starting at the position asked for, and
    an error that a prefix of them was.  If the sum of position and desired length fits 64
    bits, as it does without a desired length, [n] is the length asked for: nothing less,
    nothing beyond the end.  If it does not, which only a build without overflow checks
    lets pass, the slice is never sent whole: [n] is less than its length. *)
Theorem slice_then_copy (zc : ZeroCopy) (file : File) (position : Z) (desired : option Z)
    (w w1 : W) (s : AsyncFileSlice) (fuel : nat)
    (Hpos : in_u64 position) (Hd : match desired with Some d => in_u64 d | None => True end)
    (Hlen : in_usize (Z.of_nat (length (contents (File_as_raw_fd file) w))))
    (Hmax : Z.of_nat (length (contents (File_as_raw_fd file) w)) < off_t_end)
    (Hslice : as_slice file position desired w = (w1, Val (Ok s)))
    (Hfuel : (length (contents (File_as_raw_fd file) w) + eagain_left w < fuel)%nat) :
  let bytes := contents (File_as_raw_fd file) w in
  let asked := match desired with Some d => d | None => Z.of_nat (length bytes) - position end in
  ∃ n w2 r, copy_slice_linux sendfile thread_sleep fuel zc s w1 = (w2, Val r) ∧
    copied (target_raw_fd zc) (File_as_raw_fd file) position n w w2 r ∧
    position + n ≤ Z.of_nat (length bytes) ∧
    if position + asked <? u64_modulus then n = asked
    else overflow_checks = false ∧ n < asked.
Proof.
  intros bytes asked. fold bytes in Hlen, Hmax, Hfuel.
  assert (∃ len, metadata_len file w = (w1, Val (Ok len))) as [len Hmeta].
  { unfold as_slice, try_bind, mbind, M_bind in Hslice.
    destruct (metadata_len file w) as [w' [[len|e]| |]]; try done. exists len.
    destruct (len <=? position); [done|]. destruct desired as [d|]; unfold lift in Hslice.
    - destruct (u64_add position d) as [e| |]; [|done..].
      by destruct (len <=? e); injection Hslice as -> _.
    - destruct (u64_sub len position) as [e| |]; [|done..]. by injection Hslice as -> _. }
  destruct (metadata_contents file w w1 len Hmeta) as [-> ->]. fold bytes in Hmeta.
  pose proof (usize_in_u64 _ Hlen) as Hlen64.
  destruct (as_slice_given file position desired w w _ s Hmeta Hlen64 Hpos Hd Hslice)
    as (Hs & Hlt & Hstop). fold asked in Hs, Hstop. rewrite Z.add_simpl_l in Hs. subst s.
  assert (0 ≤ asked < u64_modulus) as Hasked
    by (subst asked; unfold in_u64 in *; destruct desired; lia).
  pose proof (as_usize_in asked) as Hin. unfold in_u64, in_usize in *.
  unfold copy_slice_linux, raw_slice, AsyncFileSlice.new.
  unfold AsyncFileSlice.len, AsyncFileSlice.position, AsyncFileSlice.fd. simpl.
  rewrite as_off_t_small by lia.
  remember (available (as_usize asked) position (Z.of_nat (length bytes))) as n eqn:Hn.
  assert (0 ≤ n ≤ as_usize asked ∧ position + n ≤ Z.of_nat (length bytes)) as Hn'
    by (unfold available in Hn; lia).
  assert (as_usize asked ≤ asked) as Hle.
  { unfold as_usize. pose proof usize_modulus_bounds. apply Z.mod_le; lia. }
  assert (if position + asked <? u64_modulus then n = asked
          else overflow_checks = false ∧ n < asked) as Hwhole.
  { destruct (Z.ltb_spec (position + asked) u64_modulus); [|split; [apply Hstop|lia]].
    assert (as_usize asked = asked) by (apply as_usize_small; unfold in_usize; lia).
    unfold available in Hn. lia. }
  destruct (linux_loop_ends sendfile thread_sleep fuel (target_raw_fd zc)
    (File_as_raw_fd file) asked 0 position w) as (w2 & r & Hrun & Hends);
    fold bytes; rewrite <- ?Hn; [lia|done|by right|lia| |].
  { clear Hwhole. destruct (Z.ltb_spec (position + asked) u64_modulus); lia. }
  fold bytes in Hends. rewrite <- Hn in Hends. rewrite Z.add_0_r in Hrun.
  exists n, w2, r. split; [done|]. split; [by apply loop_ends_copied|]. by split; [lia|].
Qed.
End transfer.

(** ** Witness: a file of the scripted kernel *)

#[export] Instance scripted_files : FileSystem scripted Z := {
  File_create _ := λ w, (w, Val (Ok 3));
  File_open _ := λ w, (w, Val (Ok 3));
  OpenOptions_open _ _ := λ w, (w, Val (Ok 3));
  metadata_len _ := λ w, (w, Val (Ok (Z.of_nat (length (k_file w)))));
  seek_from_start _ n := λ w, (w, Val (Ok n));
  File_as_raw_fd f := f;
}.
#[export] Instance scripted_file_kernel : FileKernel scripted Z.
Proof. split. by intros f w w' len [= <- <-]. Qed.

Lemma slice_then_copy_witness :
  (∃ n w2 r,
    copy_slice_linux (H := release_64) scripted_linux scripted_sleep 20 (MkZeroCopy 4)
      (MkSlice 3 2 6) busy_kernel = (w2, Val r) ∧
    copied 4 3 2 n busy_kernel w2 r ∧ 2 + n ≤ 10 ∧ n = 6) ∧
  (∃ n w2 r,
    copy_slice_linux (H := release_64) scripted_linux scripted_sleep 20 (MkZeroCopy 4)
      (MkSlice 3 2 18446744073709551614) busy_kernel = (w2, Val r) ∧
    copied 4 3 2 n busy_kernel w2 r ∧ 2 + n ≤ 10 ∧
    false = false ∧ n < 18446744073709551614).
Proof.
  split.
  - refine (slice_then_copy (H := release_64) scripted_linux scripted_sleep
      (MkZeroCopy 4) 3 2 (Some 6) busy_kernel busy_kernel (MkSlice 3 2 6) 20 _ _ _ _ eq_refl _);
      vm_compute; intuition (discriminate || lia).
  - refine (slice_then_copy (H := release_64) scripted_linux scripted_sleep
      (MkZeroCopy 4) 3 2 (Some 18446744073709551614) busy_kernel busy_kernel
      (MkSlice 3 2 18446744073709551614) 20 _ _ _ _ eq_refl _);
      vm_compute; intuition (discriminate || lia).
Defined.
