(* ===== verification/Lock.v ===== *)
(** * The shared lock: [Arc<RwLock<_>>] of the standard library

    Handles cloned from one [Arc] share the object and its poison flag.  A panic while
    the write guard is held poisons the lock, and [unwrap] then makes every later
    attempt to take it unwind, in whatever thread. *)

From S2P Require Export Prelude.

Record shared (W : Type) : Type := Shared { sh_world : W; poisoned : bool }.
Arguments Shared {W} _ _.
Arguments sh_world {W} _.
Arguments poisoned {W} _.

Section lock.
Context {W : Type}.

(** [read().unwrap()] and the use of the guard: readers do not poison. *)
Definition with_read_guard {A} (f : M W A) : M (shared W) A := λ s,
  if poisoned s then (s, Panic)
  else let '(w, o) := f (sh_world s) in (Shared w false, o).

(** [write().unwrap()] and the use of the guard: unwinding through it poisons. *)
Definition with_write_guard {A} (f : M W A) : M (shared W) A := λ s,
  if poisoned s then (s, Panic)
  else match f (sh_world s) with
       | (w, Panic) => (Shared w true, Panic)
       | (w, o) => (Shared w false, o)
       end.

Lemma poisoned_stays {A} (f : M W A) w :
  with_write_guard f (Shared w true) = (Shared w true, Panic) ∧
  with_read_guard f (Shared w true) = (Shared w true, Panic).
Proof. done. Qed.

Lemma with_write_guard_ok {A} (f : M W A) w w' o :
  f w = (w', o) → o ≠ Panic → with_write_guard f (Shared w false) = (Shared w' false, o).
Proof. unfold with_write_guard. simpl. intros ->. by destruct o. Qed.
End lock.
