(* ===== verification/Mmap.v ===== *)
(** * Memory mapped files: src/src/fs/mmap.rs

    A mapping is memory that two parties share: the handles cloned from one [Arc]
    share the [RwLock], and the mapping shares its bytes with the file.  [std::fs]
    and the memmap2 crate are an interface over the file system [W]; the lock is
    modelled with its poison flag, since a panic with the write guard held leaves
    the lock unusable for every other handle.  [spawn_blocking] runs its closure on
    another thread and hands a panic of it to the task that awaits the result. *)

From stdpp Require Import gmap.
From S2P Require Export Lock Fs.

(** ** The interface to the file system and to memmap2 *)

Class MappedFs (W File Map : Type) := {
  std_open : OpenOptions → string → M W (result File io_error);
  std_set_len : File → Z → M W (result unit io_error);
  std_metadata_len : File → M W (result Z io_error);
  map_mut : File → M W (result Map io_error);
  map_ro : File → M W (result Map io_error);
  map_bytes : Map → W → list byte;
  map_store : Map → list byte → W → W;
  map_flush : Map → M W (result unit io_error);
  map_flush_async : Map → M W (result unit io_error);
  map_flush_range : Map → Z → Z → M W (result unit io_error);
}.

(** ** [MemoryMappedMutFile] *)

Section mapped.
Context `{Target} {W File Map : Type} `{MappedFs W File Map}.

Record MemoryMappedMutFile : Type := MkMappedMut { mut_map : Map }.

(** The options of [create]. *)
Definition create_options : OpenOptions :=
  with_truncate false (with_create true (with_write true (with_read true oo_new))).

(** The closure of [create]: [open(..).unwrap()] unwinds, the other two calls
    return their errors. *)
Definition mapped_mut_create (m_path : string) (len : Z) :
    M W (result (MemoryMappedMutFile * File) io_error) :=
  r ← std_open create_options m_path;
  mfile ← unwrap r;
  _ ←? std_set_len mfile len;
  m_map ←? map_mut mfile;
  mret (Ok (MkMappedMut m_map, mfile)).

(** [inner] and [mut_inner], with what the caller does with the guard. *)
Definition mapped_mut_inner {A} (self : MemoryMappedMutFile) (use : Map → M W A) :
    M (shared W) A := with_read_guard (use (mut_map self)).
Definition mut_inner {A} (self : MemoryMappedMutFile) (use : Map → M W A) :
    M (shared W) A := with_write_guard (use (mut_map self)).

(** [inner_map]: another handle of the same lock. *)
Definition inner_map (self : MemoryMappedMutFile) : MemoryMappedMutFile := self.

(** [m_array[pos..(pos + bytes.len())].clone_from_slice(bytes)]. *)
Definition store_slice (pos stop : Z) (bytes : list byte) (m : Map) : M W unit := λ w,
  let array := map_bytes m w in
  if (pos <=? stop) && (stop <=? Z.of_nat (length array))
  then (map_store m (take (Z.to_nat pos) array ++ bytes ++ drop (Z.to_nat stop) array) w, Val tt)
  else (w, Panic).

Definition write_bytes (self : MemoryMappedMutFile) (pos : Z) (bytes : list byte) :
    M (shared W) unit :=
  mut_inner self (λ m,
    stop ← lift (usize_add pos (Z.of_nat (length bytes)));
    store_slice pos stop bytes m).

Definition flush_ft (self : MemoryMappedMutFile) : M (shared W) (result unit io_error) :=
  with_write_guard (map_flush (mut_map self)).
Definition flush_async_ft (self : MemoryMappedMutFile) : M (shared W) (result unit io_error) :=
  with_write_guard (map_flush_async (mut_map self)).
Definition flush_range_ft (self : MemoryMappedMutFile) (offset len : Z) :
    M (shared W) (result unit io_error) :=
  with_write_guard (map_flush_range (mut_map self) offset len).

(** ** [MemoryMappedFile] *)

Record MemoryMappedFile : Type := MkMapped { ro_map : Map }.

Definition mapped_open (m_path : string) (min_len : Z) :
    M W (result (MemoryMappedFile * File) io_error) :=
  r ← std_open (with_read true oo_new) m_path;
  mfile ← unwrap r;
  meta ← std_metadata_len mfile;
  meta_len ← unwrap meta;
  let map_it : M W (result (MemoryMappedFile * File) io_error) :=
    m_map ←? map_ro mfile; mret (Ok (MkMapped m_map, mfile)) in
  if meta_len =? 0 then
    r ← std_open (with_write true (with_read true oo_new)) m_path;
    fd ← unwrap r;
    _ ←? std_set_len fd min_len;
    map_it
  else map_it.

Definition mapped_inner {A} (self : MemoryMappedFile) (use : Map → M W A) :
    M (shared W) A := with_read_guard (use (ro_map self)).
End mapped.
Arguments MemoryMappedMutFile _ : clear implicits.
Arguments MemoryMappedFile _ : clear implicits.

(** ** What the system promises

    Files are known by the path they are opened at, where nobody renames or removes them;
    one that is not there has no bytes.  Opening a file leaves its bytes, unless it
    truncates; [set_len] truncates a file or extends it with zeros; a mapping shows the
    bytes of its file, and is shared: a store is what the mapping and the file then have. *)
Class MappedLaws (W File Map : Type) `{MappedFs W File Map} := {
  path_bytes : string → W → list byte;
  file_path : File → string;
  map_file : Map → string;
  open_law o path w w' f :
    std_open o path w = (w', Val (Ok f)) →
    file_path f = path ∧
    path_bytes path w' = if oo_truncate o then [] else path_bytes path w;
  open_existing_law f w o path w' f' :
    oo_truncate o = false →
    std_open (with_read true oo_new) path w = (w, Val (Ok f)) →
    std_open o path w = (w', Val (Ok f')) → w' = w;
  set_len_law f n w w' :
    std_set_len f n w = (w', Val (Ok tt)) →
    path_bytes (file_path f) w' = resize (Z.to_nat n) Byte.x00 (path_bytes (file_path f) w);
  metadata_law f w w' n :
    std_metadata_len f w = (w', Val (Ok n)) →
    w' = w ∧ n = Z.of_nat (length (path_bytes (file_path f) w));
  map_mut_law f w w' m :
    map_mut f w = (w', Val (Ok m)) →
    w' = w ∧ map_file m = file_path f ∧ map_bytes m w = path_bytes (file_path f) w;
  map_ro_law f w w' m :
    map_ro f w = (w', Val (Ok m)) → w' = w ∧ map_bytes m w = path_bytes (file_path f) w;
  map_store_law m bs w :
    length bs = length (map_bytes m w) → map_bytes m (map_store m bs w) = bs;
  map_shared_law m bs w :
    length bs = length (map_bytes m w) → map_bytes m w = path_bytes (map_file m) w →
    path_bytes (map_file m) (map_store m bs w) = bs;
}.

Section mapped_theorems.
Context `{Target} {W File Map : Type} `{MappedLaws W File Map}.

Lemma splice_length (array bytes : list byte) pos :
  (pos + length bytes ≤ length array)%nat →
  length (take pos array ++ bytes ++ drop (pos + length bytes) array) = length array.
Proof. intros Hle. rewrite !length_app, length_take, length_drop. lia. Qed.

Lemma splice_lookup (array bytes : list byte) pos i :
  (pos + length bytes ≤ length array)%nat →
  (take pos array ++ bytes ++ drop (pos + length bytes) array) !! i =
    if decide (pos ≤ i < pos + length bytes)%nat then bytes !! (i - pos)%nat else array !! i.
Proof.
  intros Hle. case_decide as Hi.
  - rewrite lookup_app_r by (rewrite length_take; lia).
    rewrite length_take, Nat.min_l by lia. apply lookup_app_l. lia.
  - destruct (decide (i < pos)%nat) as [Hlt|Hge].
    + rewrite lookup_app_l by (rewrite length_take; lia). by apply lookup_take_lt.
    + rewrite lookup_app_r by (rewrite length_take; lia).
      rewrite length_take, Nat.min_l by lia.
      rewrite lookup_app_r by lia. rewrite lookup_drop. f_equal. lia.
Qed.

(** C10: [write_bytes] within the mapping replaces exactly the bytes from the
    position on and keeps the length; out of range, overflow of the sum included,
    it writes nothing, unwinds with the write guard held, and so makes every later
    use of any handle of the mapping unwind: reading, writing and flushing. *)
Theorem write_bytes_correct (self : MemoryMappedMutFile Map) (pos : Z) (bytes : list byte)
    (w : W) (Hpos : in_usize pos) (Hn : in_usize (Z.of_nat (length bytes)))
    (Hmap : in_usize (Z.of_nat (length (map_bytes (mut_map self) w)))) :
  let array := map_bytes (mut_map self) w in
  let fits := pos + Z.of_nat (length bytes) <=? Z.of_nat (length array) in
  if fits then
    ∃ w', write_bytes self pos bytes (Shared w false) = (Shared w' false, Val tt) ∧
      length (map_bytes (mut_map self) w') = length array ∧
      ∀ i, map_bytes (mut_map self) w' !! i =
        if decide (Z.to_nat pos ≤ i < Z.to_nat pos + length bytes)%nat
        then bytes !! (i - Z.to_nat pos)%nat else array !! i
  else
    write_bytes self pos bytes (Shared w false) = (Shared w true, Panic) ∧
    ∀ pos' bytes' A (use : Map → M W A),
      write_bytes self pos' bytes' (Shared w true) = (Shared w true, Panic) ∧
      mapped_mut_inner (inner_map self) use (Shared w true) = (Shared w true, Panic) ∧
      mut_inner (inner_map self) use (Shared w true) = (Shared w true, Panic) ∧
      flush_ft (inner_map self) (Shared w true) = (Shared w true, Panic).
Proof.
  intros array fits. fold array in Hmap. pose proof usize_modulus_bounds as Hm.
  unfold in_usize in *.
  destruct (Z.leb_spec (pos + Z.of_nat (length bytes)) (Z.of_nat (length array))) as [Hle|Hgt];
    subst fits.
  - assert (Z.to_nat (pos + Z.of_nat (length bytes)) = Z.to_nat pos + length bytes)%nat as Hstop
      by lia.
    pose proof (splice_length array bytes (Z.to_nat pos) ltac:(lia)) as Hlen.
    pose proof (map_store_law (mut_map self) _ w Hlen) as Hstore.
    eexists. split; [|rewrite Hstore; split; [exact Hlen|]].
    + unfold write_bytes, mut_inner. apply with_write_guard_ok; [|done].
      unfold usize_add. rewrite arith_exact by lia.
      unfold mbind, M_bind, lift, store_slice. fold array. rewrite Hstop.
      destruct (Z.leb_spec pos (pos + Z.of_nat (length bytes))); [|lia].
      by destruct (Z.leb_spec (pos + Z.of_nat (length bytes)) (Z.of_nat (length array))); [|lia].
    + intros i. apply splice_lookup. lia.
  - split; [|done]. unfold write_bytes, mut_inner, with_write_guard. simpl.
    destruct (decide (pos + Z.of_nat (length bytes) < usize_modulus)) as [Hfit|Hwrap].
    + unfold usize_add. rewrite arith_exact by lia.
      unfold mbind, M_bind, lift, store_slice. fold array.
      destruct (Z.leb_spec pos (pos + Z.of_nat (length bytes))); [|done].
      by destruct (Z.leb_spec (pos + Z.of_nat (length bytes)) (Z.of_nat (length array))); [lia|].
    + unfold usize_add. rewrite arith_overflow by lia.
      destruct overflow_checks; [done|].
      unfold mbind, M_bind, lift, store_slice. fold array.
      replace ((pos + Z.of_nat (length bytes)) mod usize_modulus)
        with (pos + Z.of_nat (length bytes) - usize_modulus)
        by (apply Z.mod_unique_pos with 1; lia).
      by destruct (Z.leb_spec pos (pos + Z.of_nat (length bytes) - usize_modulus)); [lia|].
Qed.

(** What a successful [create] gives. *)
Lemma mapped_create_ok (m_path : string) (len : Z) (w w' : W)
    (self : MemoryMappedMutFile Map) (f : File) :
  mapped_mut_create m_path len w = (w', Val (Ok (self, f))) →
  file_path f = m_path ∧ map_file (mut_map self) = m_path ∧
  map_bytes (mut_map self) w' = path_bytes m_path w' ∧
  path_bytes m_path w' = resize (Z.to_nat len) Byte.x00 (path_bytes m_path w).
Proof.
  unfold mapped_mut_create.
  destruct (std_open create_options m_path w) as [w1 [[f1|e]| |]] eqn:Hopen;
    unfold mbind at 1, M_bind at 1; rewrite Hopen; try done.
  unfold unwrap. rewrite M_bind_ret_l. apply open_law in Hopen as [<- Hbytes].
  destruct (std_set_len f1 len w1) as [w2 [[[]|e]| |]] eqn:Hset;
    unfold try_bind, mbind, M_bind; rewrite Hset; try done.
  destruct (map_mut f1 w2) as [w3 [[m|e]| |]] eqn:Hmap; try done.
  intros [= <- <- <-]. apply map_mut_law in Hmap as (-> & Hfile & Hmap).
  apply set_len_law in Hset. rewrite Hset, Hbytes. simpl. by rewrite Hmap, Hset, Hbytes.
Qed.

(** A write that returned was in range. *)
Lemma write_bytes_returned (self : MemoryMappedMutFile Map) (pos : Z) (bytes : list byte)
    (w w' : W) (Hpos : in_usize pos) (Hn : in_usize (Z.of_nat (length bytes))) :
  let array := map_bytes (mut_map self) w in
  write_bytes self pos bytes (Shared w false) = (Shared w' false, Val tt) →
  (Z.to_nat pos + length bytes ≤ length array)%nat ∧
  w' = map_store (mut_map self)
         (take (Z.to_nat pos) array ++ bytes ++ drop (Z.to_nat pos + length bytes) array) w.
Proof.
  intros array. unfold write_bytes, mut_inner, with_write_guard, mbind, M_bind, lift, usize_add.
  simpl. unfold in_usize in *.
  destruct (decide (pos + Z.of_nat (length bytes) < usize_modulus)) as [Hfit|Hwrap].
  - rewrite arith_exact by lia. unfold store_slice. fold array.
    destruct (Z.leb_spec pos (pos + Z.of_nat (length bytes))); [|lia].
    destruct (Z.leb_spec (pos + Z.of_nat (length bytes)) (Z.of_nat (length array))); [|done].
    simpl. intros [= <-]. split; [lia|]. repeat f_equal. lia.
  - rewrite arith_overflow by lia. destruct overflow_checks; [done|].
    unfold store_slice.
    replace ((pos + Z.of_nat (length bytes)) mod usize_modulus)
      with (pos + Z.of_nat (length bytes) - usize_modulus)
      by (apply Z.mod_unique_pos with 1; lia).
    by destruct (Z.leb_spec pos (pos + Z.of_nat (length bytes) - usize_modulus)); [lia|].
Qed.

(** C39: [create], then [write_bytes], then [create] again.  A mapping that [create] gives
    is one of the file at the path, with the length asked for: the bytes that the file had
    before, as far as they go, then zeros, and the file is left with the same.  What is then
    written through it, in range, is in the file: a later [create] at the same length gives
    a mapping with these bytes at the position and the earlier ones elsewhere.  An error of
    [set_len] is returned, but a file that cannot be opened makes [create] unwind instead of
    returning the error. *)
Theorem mapped_create_correct (m_path : string) (len : Z) (w : W) :
  (∀ w1 e, std_open create_options m_path w = (w1, Val (Err e)) →
     mapped_mut_create m_path len w = (w1, Panic)) ∧
  (∀ w1 f w2 e, std_open create_options m_path w = (w1, Val (Ok f)) →
     std_set_len f len w1 = (w2, Val (Err e)) →
     mapped_mut_create m_path len w = (w2, Val (Err e))) ∧
  (∀ w1 self f, mapped_mut_create m_path len w = (w1, Val (Ok (self, f))) →
     let array := resize (Z.to_nat len) Byte.x00 (path_bytes m_path w) in
     map_bytes (mut_map self) w1 = array ∧ path_bytes m_path w1 = array ∧
     ∀ pos bytes w2 w3 self' f',
       in_usize pos → in_usize (Z.of_nat (length bytes)) →
       write_bytes self pos bytes (Shared w1 false) = (Shared w2 false, Val tt) →
       mapped_mut_create m_path len w2 = (w3, Val (Ok (self', f'))) →
       ∀ i, map_bytes (mut_map self') w3 !! i =
         if decide (Z.to_nat pos ≤ i < Z.to_nat pos + length bytes)%nat
         then bytes !! (i - Z.to_nat pos)%nat else array !! i).
Proof.
  split; [|split].
  - intros w1 e Hopen. unfold mapped_mut_create. by rewrite (M_bind_val _ _ _ _ _ Hopen).
  - intros w1 f w2 e Hopen Hset. unfold mapped_mut_create.
    rewrite (M_bind_val _ _ _ _ _ Hopen). unfold unwrap. rewrite M_bind_ret_l.
    by rewrite (try_bind_err _ _ _ _ _ Hset).
  - intros w1 self f Hcreate array.
    apply mapped_create_ok in Hcreate as (_ & Hfile & Hmap & Hbytes). fold array in Hbytes.
    split; [congruence|]. split; [done|].
    intros pos bytes w2 w3 self' f' Hpos Hn Hwrite Hagain.
    apply mapped_create_ok in Hagain as (_ & _ & Hmap' & Hbytes').
    apply write_bytes_returned in Hwrite as [Hle ->]; [|done..].
    rewrite Hmap, Hbytes in Hle.
    pose proof (splice_length array bytes (Z.to_nat pos) Hle) as Hlen.
    rewrite Hmap, Hbytes in Hbytes'.
    rewrite <- Hfile, map_shared_law in Hbytes' by (rewrite ?Hfile, ?Hmap, ?Hbytes; done).
    intros i. rewrite Hmap', <- Hfile, Hbytes'.
    assert (length array = Z.to_nat len) as Harray by apply length_resize.
    rewrite resize_all_alt by congruence. by apply splice_lookup.
Qed.

(** The minimum size of [MemoryMappedFile::open] is used only when the file
    is empty: the mapping is as long as the file was, or, of an empty file, the
    minimum size (the file is then extended with zeros). *)
Lemma mapped_open_length (m_path : string) (min_len : Z) (w w' : W) (f f' : File)
    (self : MemoryMappedFile Map) (Hmin : 0 ≤ min_len)
    (Hread : std_open (with_read true oo_new) m_path w = (w, Val (Ok f)))
    (Hrun : mapped_open m_path min_len w = (w', Val (Ok (self, f')))) :
  let len := Z.of_nat (length (path_bytes m_path w)) in
  Z.of_nat (length (map_bytes (ro_map self) w')) = (if len =? 0 then min_len else len) ∧
  (len ≠ 0 → map_bytes (ro_map self) w' = path_bytes m_path w ∧ w' = w).
Proof.
  intros len. revert Hrun. unfold mapped_open.
  rewrite (M_bind_val _ _ _ _ _ Hread). unfold unwrap. rewrite M_bind_ret_l.
  destruct (std_metadata_len f w) as [w1 [[n|e]| |]] eqn:Hmeta;
    unfold mbind at 1, M_bind at 1; rewrite Hmeta; try done.
  assert (file_path f = m_path) as Hpath by apply (open_law _ _ _ _ _ Hread).
  apply metadata_law in Hmeta as [-> ->]. rewrite M_bind_ret_l, Hpath. fold len. intros Hrun.
  assert (∀ w1, (m_map ←? map_ro f; mret (Ok (MkMapped m_map, f))) w1 =
            (w', Val (Ok (self, f'))) →
          w' = w1 ∧ map_bytes (ro_map self) w' = path_bytes m_path w1) as Hmap.
  { intros w1. unfold try_bind, mbind, M_bind.
    destruct (map_ro f w1) as [w2 [[m|e]| |]] eqn:Hm; try done.
    apply map_ro_law in Hm as [-> Hm]. rewrite Hpath in Hm. by intros [= <- <- <-]. }
  destruct (Z.eqb_spec len 0) as [Hzero|Hne].
  - revert Hrun.
    destruct (std_open (with_write true (with_read true oo_new)) m_path w) as [w1 [[fd|e]| |]] eqn:Hopen;
      unfold mbind at 1, M_bind at 1; rewrite Hopen; try done.
    pose proof (open_existing_law f w (with_write true (with_read true oo_new)) m_path w1 fd
      eq_refl Hread Hopen) as ->.
    apply open_law in Hopen as [Hfd _].
    rewrite M_bind_ret_l.
    destruct (std_set_len fd min_len w) as [w2 [[[]|e]| |]] eqn:Hset;
      unfold try_bind at 1, mbind at 1, M_bind at 1; rewrite Hset; try done.
    intros [-> ->]%Hmap. split; [|done].
    apply set_len_law in Hset. rewrite Hfd in Hset. rewrite Hset, length_resize. lia.
  - apply Hmap in Hrun as [-> ->]. done.
Qed.
End mapped_theorems.

(** ** Witnesses: mappings of the file system in memory

    A file and its mapping are both the path. *)

Definition mem_bytes (path : string) (w : mem_fs) : list byte := default [] (w !! path).

#[export] Instance mem_mapped : MappedFs mem_fs string string := {
  std_open o path := λ w,
    match w !! path with
    | Some _ => (if oo_truncate o then <[path := []]> w else w, Val (Ok path))
    | None =>
        if oo_create o then (<[path := []]> w, Val (Ok path))
        else (w, Val (Err (io_error_from NotFound)))
    end;
  std_set_len path n := λ w,
    (<[path := resize (Z.to_nat n) Byte.x00 (mem_bytes path w)]> w, Val (Ok tt));
  std_metadata_len path := λ w, (w, Val (Ok (Z.of_nat (length (mem_bytes path w)))));
  map_mut path := λ w, (w, Val (Ok path));
  map_ro path := λ w, (w, Val (Ok path));
  map_bytes := mem_bytes;
  map_store path bs := <[path := bs]>;
  map_flush path := λ w, (w, Val (Ok tt));
  map_flush_async path := λ w, (w, Val (Ok tt));
  map_flush_range path _ _ := λ w, (w, Val (Ok tt));
}.

#[export] Instance mem_mapped_laws : MappedLaws mem_fs string string.
Proof.
  refine {| path_bytes := mem_bytes; file_path f := f; map_file m := m |}; simpl.
  - unfold mem_bytes. intros o path w w' f. destruct (w !! path) eqn:Hp.
    + intros [= <- <-]. split; [done|].
      destruct (oo_truncate o); by rewrite ?lookup_insert_eq, ?Hp.
    + destruct (oo_create o); intros [= <- <-]. rewrite lookup_insert_eq. simpl.
      by destruct (oo_truncate o).
  - intros f w o path w' f' Ht. rewrite Ht.
    destruct (w !! path) eqn:Hp; [|by destruct (oo_create o)]. by intros _ [= <- <-].
  - intros f n w w' [= <-]. unfold mem_bytes. by rewrite lookup_insert_eq.
  - by intros f w w' n [= <- <-].
  - by intros f w w' m [= <- <-].
  - by intros f w w' m [= <- <-].
  - intros m bs w _. unfold mem_bytes. by rewrite lookup_insert_eq.
  - intros m bs w _ _. unfold mem_bytes. by rewrite lookup_insert_eq.
Defined.

Definition ten_zeros : mem_fs := {[ "testpos.index" := replicate 10 Byte.x00 ]}.
Definition three_bytes : list byte := [Byte.x05; Byte.x10; Byte.x44].

Lemma write_bytes_correct_witness :
  (∃ w', write_bytes (H := release_64) (MkMappedMut "testpos.index") 5 three_bytes
     (Shared ten_zeros false) = (Shared w' false, Val tt) ∧
     mem_bytes "testpos.index" w' !! 5%nat = Some Byte.x05) ∧
  write_bytes (H := release_64) (MkMappedMut "testpos.index") 8 three_bytes
     (Shared ten_zeros false) = (Shared ten_zeros true, Panic).
Proof.
  split.
  - destruct (write_bytes_correct (H := release_64) (MkMappedMut "testpos.index") 5
      three_bytes ten_zeros) as (w' & Hw & _ & Hl);
      [vm_compute; intuition discriminate..|].
    exists w'. split; [exact Hw|]. exact (Hl 5%nat).
  - refine (proj1 (write_bytes_correct (H := release_64) (MkMappedMut "testpos.index") 8
      three_bytes ten_zeros _ _ _)); vm_compute; intuition discriminate.
Defined.

(** Ten bytes are created, three written, and seen when the file is mapped again. *)
Definition ten_written : mem_fs :=
  {[ "testpos.index" := replicate 5 Byte.x00 ++ three_bytes ++ replicate 2 Byte.x00 ]}.

Lemma mapped_create_correct_witness :
  mapped_mut_create "testpos.index" 10 ten_written =
    (ten_written, Val (Ok (MkMappedMut "testpos.index", "testpos.index"%string))) ∧
  mem_bytes "testpos.index" ten_written !! 5%nat = Some Byte.x05.
Proof.
  split; [vm_compute; reflexivity|].
  destruct (mapped_create_correct (H := release_64) "testpos.index" 10 ∅) as (_ & _ & Hok).
  destruct (Hok ten_zeros (MkMappedMut "testpos.index") "testpos.index"%string)
    as (_ & _ & Hkept); [vm_compute; reflexivity|].
  refine (Hkept 5 three_bytes ten_written ten_written (MkMappedMut "testpos.index")
    "testpos.index"%string _ _ _ _ 5%nat);
    vm_compute; first [intuition discriminate | reflexivity].
Defined.

Lemma mapped_open_length_witness :
  Z.of_nat (length (mem_bytes "testpos.index" ten_zeros)) = 10.
Proof.
  refine (proj1 (mapped_open_length "testpos.index" 4096 ten_zeros ten_zeros
    "testpos.index" "testpos.index" (MkMapped "testpos.index") _ eq_refl eq_refl)).
  discriminate.
Defined.
