(* ===== verification/FsTests.v ===== *)
(** * The tests of src/src/fs/extension.rs, bounded.rs and mmap.rs, run on the model

    As in [RetryTests], each test is the definition of the same name, over the file
    system in memory.  A handle of that file system keeps what was written through it,
    so the bytes a test reads back are the ones the handle has accepted; [write_all] of
    futures-lite is the loop of [WriteAll], the files never being pending. *)

From stdpp Require Import gmap.
From S2P Require Export RetryTests Bounded WriteAll Mmap.

(** [ensure_clean_file] of the tests of bounded.rs, over [std::fs::remove_file]: that there
    is no file to remove is no failure. *)
Definition ensure_clean_file {W} (remove_file : string → M W (result unit io_error))
    (log_path : string) : M W unit :=
  _ ← remove_file log_path;
  mret tt.

Definition mem_remove_file (path : string) : M mem_fs (result unit io_error) := λ w,
  match w !! path with
  | Some _ => (delete path w, Val (Ok tt))
  | None => (w, Val (Err (io_error_from NotFound)))
  end.

Section fs_tests.
Local Instance test_target : Target := release_64.

(** ** extension.rs *)

Definition test_as_slice : M mem_fs unit :=
  file ← expect (util.open "apirequest.bin");
  f_slice ← expect (as_slice file 0 None);
  _ ← assert (AsyncFileSlice.position f_slice =? 0);
  assert (AsyncFileSlice.len f_slice =? 30).

Example test_as_slice_passes : passes test_as_slice apirequest.
Proof. reflexivity. Qed.

(** ** bounded.rs *)

Abbreviation sink := (BoundedFileSink mem_file).

(** The rest of a test, with the sink it made. *)
Definition on_sink (s : sink) (test : M sink unit) : M mem_fs unit := λ w, (w, (test s).2).

(** [f_sink.write_all(&bytes).await.expect(..)] and [f_sink.flush()]. *)
Definition sink_write_all (bytes : list byte) : M sink unit :=
  p ← write_loop 1 bytes;
  match p with Ready (Ok _) => mret tt | _ => panic end.
Definition sink_flush : M sink unit :=
  p ← poll_flush 1;
  match p with Ready (Ok _) => mret tt | _ => panic end.
Definition sink_len : M sink Z := λ s, (s, Val (get_current_len s)).
Definition sink_can_be_appended (len : Z) : M sink bool := λ s, (s, can_be_appended s len).
(** Reading the file of the sink from its beginning. *)
Definition read_back : M sink (list byte) := λ s, (s, Val (written (inner s))).

Definition test_sink_file_write_happy_path : M mem_fs unit :=
  _ ← ensure_clean_file mem_remove_file "file_test_01";
  f_sink ← expect (sink_create "file_test_01" option_default);
  on_sink f_sink (
    _ ← sink_write_all [Byte.x01; Byte.x02; Byte.x03];
    n ← sink_len;
    _ ← assert (n =? 3);
    _ ← sink_flush;
    buffer ← read_back;
    _ ← assert (byte_is buffer 0 Byte.x01);
    _ ← assert (byte_is buffer 1 Byte.x02);
    assert (byte_is buffer 2 Byte.x03)).

Definition test_sink_file_write_multiple_path : M mem_fs unit :=
  _ ← ensure_clean_file mem_remove_file "file_test_02";
  f_sink ← expect (sink_create "file_test_02" option_default);
  let bytes := replicate 1000 Byte.x01 in
  on_sink f_sink (
    _ ← sink_write_all bytes;
    _ ← sink_write_all bytes;
    n ← sink_len;
    _ ← assert (n =? 2000);
    _ ← sink_flush;
    buffer ← read_back;
    assert (Z.of_nat (length buffer) =? 2000)).

Definition test_sink_file_max_reached : M mem_fs unit :=
  _ ← ensure_clean_file mem_remove_file "file_test_max";
  let option := MkBoundedFileOption (Some 10) in
  f_sink ← expect (sink_create "file_test_max" option);
  on_sink f_sink (
    _ ← sink_write_all (replicate 8 Byte.x01);
    n ← sink_len;
    _ ← assert (n =? 8);
    b ← sink_can_be_appended 20;
    assert (negb b)).

Definition test_sink_file_write_read : M mem_fs unit :=
  _ ← ensure_clean_file mem_remove_file "file_test_write_bounded";
  f_sink ← expect (open_append "file_test_write_bounded" option_default);
  on_sink f_sink (
    _ ← sink_write_all (replicate 73 Byte.x01);
    _ ← sink_write_all (replicate 74 Byte.x01);
    n ← sink_len;
    _ ← assert (n =? 147);
    buffer ← read_back;
    assert (Z.of_nat (length buffer) =? 147)).

Definition sink_tests : list (M mem_fs unit) :=
  [test_sink_file_write_happy_path; test_sink_file_write_multiple_path;
   test_sink_file_max_reached; test_sink_file_write_read].

Example sink_tests_pass : Forall (λ test, passes test ∅) sink_tests.
Proof. repeat constructor; vm_compute; reflexivity. Qed.

(** They pass over the files of an earlier run as well. *)
Definition left_over : mem_fs :=
  {[ "file_test_01" := [Byte.x05]; "file_test_02" := [Byte.x05]; "file_test_max" := [Byte.x05];
     "file_test_write_bounded" := replicate 147 Byte.x01 ]}.
Example sink_tests_pass_again : Forall (λ test, passes test left_over) sink_tests.
Proof. repeat constructor; vm_compute; reflexivity. Qed.

(** The last one needs the cleaning: it appends, and a sink counts what was there. *)
Example append_counts_left_over :
  (f_sink ← expect (open_append "file_test_write_bounded" option_default);
   mret (get_current_len f_sink)) left_over = (left_over, Val 147).
Proof. vm_compute. reflexivity. Qed.

(** ** mmap.rs *)

Section mmap_tests.
(** The one of flv-util. *)
Context (ensure_clean_file : string → M mem_fs unit).

(** The rest of a test, with the lock of the mapping it made. *)
Definition on_lock (test : M (shared mem_fs) unit) : M mem_fs unit := λ w,
  let '(s, o) := test (Shared w false) in (sh_world s, o).

(** [std::fs::File::open] and [read_exact] into a buffer of [n] bytes. *)
Definition read_file (path : string) (n : nat) : M (shared mem_fs) (list byte) :=
  with_read_guard (λ w, (w, Val (take n (mem_bytes path w)))).

(** [mm.copy_from_slice(src)], which unwinds if the lengths differ. *)
Definition copy_from_slice (src : list byte) (m : string) : M mem_fs unit := λ w,
  if decide (length src = length (map_bytes m w)) then (map_store m src w, Val tt)
  else (w, Panic).

Definition test_mmap_write_slice : M mem_fs unit :=
  _ ← ensure_clean_file "test.index";
  r ← mapped_mut_create "test.index" 3;
  _ ← assert (is_ok r);
  '(mm_file, _) ← unwrap r;
  on_lock (
    _ ← mut_inner mm_file (copy_from_slice [Byte.x01; Byte.x02; Byte.x03]);
    _ ← expect (flush_ft mm_file);
    buffer ← read_file "test.index" 3;
    _ ← assert (byte_is buffer 0 Byte.x01);
    _ ← assert (byte_is buffer 1 Byte.x02);
    assert (byte_is buffer 2 Byte.x03)).

(** [align_to] between [(u32, u32)] and bytes, of a little-endian machine. *)
Definition byte_of (z : Z) : byte :=
  match Byte.of_N (Z.to_N (z mod 256)) with Some b => b | None => Byte.x00 end.
Definition u32_bytes (z : Z) : list byte :=
  byte_of <$> [z; Z.shiftr z 8; Z.shiftr z 16; Z.shiftr z 24].
Definition pair_bytes (p : Z * Z) : list byte := u32_bytes p.1 ++ u32_bytes p.2.
Definition u32_of (bs : list byte) : Z :=
  foldr (λ b acc, Z.of_N (Byte.to_N b) + Z.shiftl acc 8) 0 bs.
Fixpoint pairs_of (n : nat) (bs : list byte) : list (Z * Z) :=
  match n with
  | O => []
  | S n => (u32_of (take 4 bs), u32_of (take 4 (drop 4 bs))) :: pairs_of n (drop 8 bs)
  end.

Definition test_mmap_write_pair_slice : M mem_fs unit :=
  _ ← ensure_clean_file "pairslice.index";
  r ← mapped_mut_create "pairslice.index" 24;
  _ ← assert (is_ok r);
  '(mm_file, _) ← unwrap r;
  let src := [(5, 10); (11, 22); (50, 100)] in
  let bytes := src ≫= pair_bytes in
  _ ← assert (Z.of_nat (length bytes) =? 24);
  _ ← on_lock (
    _ ← mut_inner mm_file (copy_from_slice bytes);
    _ ← expect (flush_ft mm_file);
    mret tt);
  '(mm_file2, _) ← expect (mapped_mut_create "pairslice.index" 24);
  on_lock (
    pairs ← mut_inner mm_file2 (λ m w, (w, Val (pairs_of (length (map_bytes m w) / 8)
                                                  (map_bytes m w))));
    _ ← assert (Z.of_nat (length pairs) =? 3);
    _ ← assert (bool_decide (fst <$> pairs !! 0%nat = Some 5));
    assert (bool_decide (snd <$> pairs !! 2%nat = Some 100))).

Definition test_mmap_write_with_pos : M mem_fs unit :=
  _ ← ensure_clean_file "testpos.index";
  '(mm_file, _) ← expect (mapped_mut_create "testpos.index" 10);
  let src := [Byte.x05; Byte.x10; Byte.x44] in
  on_lock (
    _ ← write_bytes mm_file 5 src;
    _ ← expect (flush_ft mm_file);
    buffer ← read_file "testpos.index" 10;
    _ ← assert (byte_is buffer 5 Byte.x05);
    _ ← assert (byte_is buffer 6 Byte.x10);
    assert (byte_is buffer 7 Byte.x44)).

Definition test_empty_index_read_only : M mem_fs unit :=
  _ ← ensure_clean_file "zerosized.index";
  file ← expect (std_open (with_read true (with_write true (with_create true oo_new)))
                   "zerosized.index");
  meta_len ← expect (std_metadata_len file);
  _ ← assert (meta_len =? 0);
  let min_size := 10 in
  '(mm_file, _) ← expect (mapped_open "zerosized.index" min_size);
  on_lock (
    memory_size ← mapped_inner mm_file (λ m w, (w, Val (Z.of_nat (length (map_bytes m w)))));
    assert (memory_size =? as_usize min_size)).

End mmap_tests.

Example mmap_tests_pass :
  Forall (λ test, passes (test (ensure_clean_file mem_remove_file)) ∅)
    [test_mmap_write_slice; test_mmap_write_pair_slice; test_mmap_write_with_pos;
     test_empty_index_read_only].
Proof. repeat constructor; vm_compute; reflexivity. Qed.
End fs_tests.
