(* ===== verification/SharedFile.v ===== *)
(** * Files shared between readers: src/src/fs/shared_file.rs

    A [SharedAsyncFile] is a file behind a lock; its clones share the file and so
    its position.  The lock is taken for the time of one poll.  The file is any type
    with [AsyncRead]; seeking is a parameter, the first poll of a new seek future.

    Several threads may poll at the same time.  Reading a file is not atomic: a poll looks at
    the file and changes it later.  [reader_step] is the next step of a thread, of which a
    poll takes four, and a run is any interleaving of them; what keeps the polls apart is the
    lock, and nothing else. *)

From S2P Require Export Lock AsyncIo.

(** [std::io::SeekFrom]. *)
Inductive SeekFrom : Type :=
| SeekStart (n : Z)
| SeekEnd (n : Z)
| SeekCurrent (n : Z).

Section shared_file.
Context {File : Type} `{AsyncRead File}.
(** The first poll of [file.seek(pos)]. *)
Context (seek_poll : Z → SeekFrom → M File (poll (result Z io_error))).

(** [SharedAsyncFile::new]; a clone is the same lock. *)
Definition shared_new (file : File) : shared File := Shared file false.
(** [From<AsyncFile> for SharedAsyncFile]. *)
Definition shared_from (file : File) : shared File := shared_new file.

(** [AsyncRead for SharedAsyncFile]. *)
#[export] Instance shared_async_read : AsyncRead (shared File) := {
  poll_read cx n := with_write_guard (poll_read cx n);
}.

(** [SharedAsyncFileRead], the future of [read]: the length of its buffer. *)
Record SharedAsyncFileRead : Type := MkSharedRead { read_buf : nat }.
Definition shared_read (buf_len : nat) : SharedAsyncFileRead := MkSharedRead buf_len.
Definition shared_read_poll (self : SharedAsyncFileRead) (cx : Z) :
    M (shared File) (poll (result (list byte) io_error)) :=
  with_write_guard (poll_read cx (read_buf self)).

(** [SharedSeekFuture]: every poll makes a new seek of the file. *)
Record SharedSeekFuture : Type := MkSharedSeek { seek_pos : SeekFrom }.
Definition shared_seek (pos : SeekFrom) : SharedSeekFuture := MkSharedSeek pos.
Definition shared_seek_poll (self : SharedSeekFuture) (cx : Z) :
    M (shared File) (poll (result Z io_error)) :=
  with_write_guard (seek_poll cx (seek_pos self)).
End shared_file.

(** ** Concurrent readers *)

(** What [AsyncRead] asks of a file that nobody writes to: [Ok] hands over the next
    bytes, at most as many as the buffer holds, anything else hands over none. *)
Class AsyncReadLaws (S : Type) `{AsyncRead S} := {
  unread : S → list byte;
  poll_read_returns cx n s : (poll_read cx n s).2 ≠ Panic ∧ (poll_read cx n s).2 ≠ OutOfFuel;
  poll_read_ok cx n s s' bs :
    poll_read cx n s = (s', Val (Ready (Ok bs))) →
    (length bs ≤ n)%nat ∧ unread s = bs ++ unread s';
  poll_read_other cx n s s' p :
    poll_read cx n s = (s', Val p) → match p with Ready (Ok _) => True | _ => unread s' = unread s end;
}.

(** The steps of a poll: [self.inner.write().unwrap()], the two of [inner.poll_read], and the
    end of the guard. *)
Inductive lock_op : Type :=
| WriteLock
| LoadFile
| StoreFile
| DropGuard.

(** [poll] of [SharedAsyncFileRead]. *)
Definition shared_read_ops : list lock_op := [WriteLock; LoadFile; StoreFile; DropGuard].

Section threads.
Context {File : Type} `{AsyncRead File}.

Abbreviation answer := (poll (result (list byte) io_error)).
Abbreviation request := (Z * SharedAsyncFileRead)%type.

(** A thread: the polls it has still to make, each with its context; what is left of the one
    it is in; and what that one has found out. *)
Record thread : Type := Thread {
  requests : list request;
  ops : list lock_op;
  loaded : option (File * outcome answer);
}.

(** The file behind its lock, the thread that holds the guard, and what was handed out: to
    whom, for which future, in the order in which the file was changed. *)
Record system : Type := System {
  locked : shared File;
  holder : option nat;
  threads : list thread;
  handed : list (nat * SharedAsyncFileRead * answer);
}.

Definition readers_start (file : File) (todo : list (list request)) : system :=
  System (shared_new file) None ((λ rs, Thread rs [] None) <$> todo) [].

(** The next step of the thread [i]; [None] if it has nothing to do or waits for the lock.
    On a poisoned lock the thread unwinds, and a guard that is dropped by unwinding poisons. *)
Definition reader_step (i : nat) (s : system) : option system :=
  t ← threads s !! i;
  match ops t with
  | [] =>
      match requests t with
      | [] => None
      | _ => Some (System (locked s) (holder s)
                     (<[i := Thread (requests t) shared_read_ops None]> (threads s)) (handed s))
      end
  | WriteLock :: rest =>
      match holder s with
      | Some _ => None
      | None =>
          if poisoned (locked s)
          then Some (System (locked s) None (<[i := Thread [] [] None]> (threads s)) (handed s))
          else Some (System (locked s) (Some i)
                       (<[i := Thread (requests t) rest None]> (threads s)) (handed s))
      end
  | LoadFile :: rest =>
      match requests t with
      | [] => None
      | (cx, fut) :: _ =>
          let seen := poll_read cx (read_buf fut) (sh_world (locked s)) in
          Some (System (locked s) (holder s)
                  (<[i := Thread (requests t) rest (Some seen)]> (threads s)) (handed s))
      end
  | StoreFile :: rest =>
      match requests t, loaded t with
      | (_, fut) :: more, Some (file, o) =>
          Some (System (Shared file (poisoned (locked s))) (holder s)
                  (<[i := Thread more rest (loaded t)]> (threads s))
                  (handed s ++ match o with Val p => [(i, fut, p)] | _ => [] end))
      | _, _ => None
      end
  | DropGuard :: rest =>
      match loaded t with
      | Some (_, Val _) =>
          Some (System (locked s) None (<[i := Thread (requests t) rest None]> (threads s))
                  (handed s))
      | Some (_, Panic) =>
          Some (System (Shared (sh_world (locked s)) true) None
                  (<[i := Thread [] [] None]> (threads s)) (handed s))
      | _ => None
      end
  end.

Fixpoint readers_run (order : list nat) (s : system) : option system :=
  match order with
  | [] => Some s
  | i :: order => s ← reader_step i s; readers_run order s
  end.

(** A thread that is left alone polls as [shared_read_poll] does. *)
Lemma poll_alone cx fut rs file f p (h : list (nat * SharedAsyncFileRead * answer)) :
  shared_read_poll fut cx (Shared file false) = (Shared f false, Val p) →
  readers_run [0; 0; 0; 0; 0]%nat (System (Shared file false) None [Thread ((cx, fut) :: rs) [] None] h) =
    Some (System (Shared f false) None [Thread rs [] None] (h ++ [(0%nat, fut, p)])).
Proof.
  unfold shared_read_poll, with_write_guard. simpl. intros Hp.
  destruct (poll_read cx (read_buf fut) file) as [f1 [p1| |]] eqn:Hread; simplify_eq.
  reflexivity.
Qed.

(** The futures that the thread [i] was answered. *)
Definition answered (i : nat) (h : list (nat * SharedAsyncFileRead * answer)) :
    list SharedAsyncFileRead :=
  (λ e, e.1.2) <$> filter (λ e, e.1.1 = i) h.

Definition handed_bytes (e : nat * SharedAsyncFileRead * answer) : list byte :=
  match e.2 with Ready (Ok bs) => bs | _ => [] end.
End threads.
Arguments thread _ : clear implicits.
Arguments system _ : clear implicits.

(** *** The invariant *)
Section readers.
Context {File : Type} `{AsyncReadLaws File}.

(** What a thread is doing, when it holds the guard ([mine]) and when it does not. *)
Definition thread_ok (mine : bool) (file : File) (t : thread File) : Prop :=
  if mine then
    (ops t = [LoadFile; StoreFile; DropGuard] ∧ requests t ≠ []) ∨
    (ops t = [StoreFile; DropGuard] ∧ ∃ cx fut rs, requests t = (cx, fut) :: rs ∧
       loaded t = Some (poll_read cx (read_buf fut) file)) ∨
    (ops t = [DropGuard] ∧ ∃ f p, loaded t = Some (f, Val p))
  else ops t = [] ∨ (ops t = shared_read_ops ∧ requests t ≠ []).

Record shared_inv (file : File) (todo : list (list (Z * SharedAsyncFileRead)))
    (s : system File) : Prop := {
  inv_poison : poisoned (locked s) = false;
  inv_holder i : holder s = Some i → (i < length (threads s))%nat;
  inv_threads i t : threads s !! i = Some t →
    thread_ok (bool_decide (holder s = Some i)) (sh_world (locked s)) t;
  inv_todo i t : threads s !! i = Some t →
    snd <$> default [] (todo !! i) = answered i (handed s) ++ (snd <$> requests t);
  inv_bytes : unread file = concat (handed_bytes <$> handed s) ++ unread (sh_world (locked s));
  inv_buffers : Forall (λ e, (length (handed_bytes e) ≤ read_buf e.1.2)%nat) (handed s);
}.

Lemma readers_start_inv file todo : shared_inv file todo (readers_start file todo).
Proof.
  split; simpl; try done.
  - intros i t (rs & -> & _)%list_lookup_fmap_Some. by left.
  - intros i t (rs & -> & Hrs)%list_lookup_fmap_Some. by rewrite Hrs.
Qed.

Lemma answered_app i (h es : list (nat * SharedAsyncFileRead * poll (result (list byte) io_error))) :
  answered i (h ++ es) = answered i h ++ answered i es.
Proof. unfold answered. by rewrite filter_app, fmap_app. Qed.

Lemma answered_own i (es : list (nat * SharedAsyncFileRead * poll (result (list byte) io_error))) j :
  Forall (λ e, e.1.1 = i) es →
  answered j es = if decide (j = i) then (λ e, e.1.2) <$> es else [].
Proof.
  intros Hes. unfold answered. induction Hes as [|e es He Hes IH]; [by case_decide|].
  rewrite filter_cons. case_decide; subst; simpl; case_decide; simplify_eq/=; congruence.
Qed.

(** What a step of the thread [i] has to keep. *)
Lemma shared_inv_update file todo s i t t' l' h' es :
  shared_inv file todo s → threads s !! i = Some t →
  poisoned l' = false →
  (h' = holder s ∨ (holder s = None ∧ h' = Some i) ∨ (holder s = Some i ∧ h' = None)) →
  holder s = Some i ∨ sh_world l' = sh_world (locked s) →
  thread_ok (bool_decide (h' = Some i)) (sh_world l') t' →
  snd <$> requests t = ((λ e, e.1.2) <$> es) ++ (snd <$> requests t') →
  Forall (λ e, e.1.1 = i ∧ (length (handed_bytes e) ≤ read_buf e.1.2)%nat) es →
  unread (sh_world (locked s)) = concat (handed_bytes <$> es) ++ unread (sh_world l') →
  shared_inv file todo (System l' h' (<[i := t']> (threads s)) (handed s ++ es)).
Proof.
  intros [Hp Hh Hth Htodo Hb Hbuf] Ht Hp' Hh' Hfile Hok Hreq Hes Hun.
  pose proof (lookup_lt_Some _ _ _ Ht) as Hi.
  split; simpl; [done| | | | |].
  - intros j Hj. rewrite length_insert. destruct Hh' as [->|[[_ ->]|[_ ->]]]; [by apply Hh| |done].
    by injection Hj as <-.
  - intros j u [(<- & <- & _)|[Hne Hu]]%list_lookup_insert_Some; [done|].
    specialize (Hth j u Hu).
    destruct (bool_decide_reflect (h' = Some j)) as [Hj|Hj].
    + assert (holder s = Some j) as Hs by (destruct Hh' as [->|[[_ ->]|[_ ->]]]; congruence).
      rewrite bool_decide_eq_true_2 in Hth by done.
      destruct Hfile as [Hi'|Hsame]; [congruence|]. by rewrite Hsame.
    + rewrite bool_decide_eq_false_2 in Hth; [done|].
      destruct Hh' as [->|[[-> _]|[-> _]]]; congruence.
  - assert (Forall (λ e, e.1.1 = i) es) as Hown by (eapply Forall_impl; [exact Hes|by intros e [? _]]).
    intros j u. rewrite answered_app, (answered_own i es j Hown).
    intros [(<- & <- & _)|[Hne Hu]]%list_lookup_insert_Some.
    + rewrite decide_True by done. rewrite <- app_assoc, <- Hreq. by apply Htodo.
    + rewrite decide_False by done. rewrite app_nil_r. by apply Htodo.
  - by rewrite fmap_app, concat_app, <- app_assoc, <- Hun.
  - apply Forall_app. split; [done|]. eapply Forall_impl; [exact Hes|by intros e [_ ?]].
Qed.

Lemma reader_step_inv file todo i s s' :
  shared_inv file todo s → reader_step i s = Some s' → shared_inv file todo s'.
Proof.
  intros Hinv. unfold reader_step. intros (t & Ht & Hs)%bind_Some.
  pose proof (inv_threads _ _ _ Hinv i t Ht) as Hok. pose proof (inv_poison _ _ _ Hinv) as Hp.
  rewrite <- (app_nil_r (handed s)) in Hs.
  destruct (bool_decide_reflect (holder s = Some i)) as [Hmine|Hmine]; simpl in Hok.
  - destruct Hok as [[Hops Hreq]|[(Hops & cx & fut & rs & Hreq & Hl)|(Hops & f & p & Hl)]];
      rewrite Hops in Hs.
    + destruct (requests t) as [|[cx fut] rs] eqn:Hr; [done|]. injection Hs as <-.
      eapply shared_inv_update; try done; try (by left); [|by rewrite Hr].
      rewrite Hmine, bool_decide_eq_true_2 by done. right; left. simpl.
      split; [done|]. by exists cx, fut, rs.
    + rewrite Hreq, Hl in Hs. rewrite app_nil_r in Hs.
      destruct (poll_read_returns cx (read_buf fut) (sh_world (locked s))) as [Hnp Hnf].
      destruct (poll_read cx (read_buf fut) (sh_world (locked s))) as [f [p| |]] eqn:Hread;
        [|done..]. injection Hs as <-.
      eapply shared_inv_update; try done; try (by left); simpl.
      * rewrite Hmine, bool_decide_eq_true_2 by done. right; right. split; [done|]. by exists f, p.
      * by rewrite Hreq.
      * constructor; [|constructor]. split; [done|]. unfold handed_bytes. simpl.
        destruct p as [[bs|e]|]; simpl; [|lia..]. by apply poll_read_ok in Hread as [? _].
      * rewrite app_nil_r. unfold handed_bytes. simpl.
        pose proof (poll_read_other _ _ _ _ _ Hread) as Hother.
        destruct p as [[bs|e]|]; simpl; [by apply poll_read_ok in Hread as [_ ?]|done..].
    + rewrite Hl in Hs. injection Hs as <-.
      eapply shared_inv_update; try done; [by right; right|by right|by left].
  - destruct Hok as [Hops|[Hops Hreq]]; rewrite Hops in Hs.
    + destruct (requests t) as [|rq rs] eqn:Hr; [done|]. injection Hs as <-.
      eapply shared_inv_update; try done; try (by left); [by right| |by rewrite Hr].
      rewrite bool_decide_eq_false_2 by done. by right.
    + unfold shared_read_ops in Hs. destruct (holder s) eqn:Hh; [done|]. rewrite Hp in Hs.
      injection Hs as <-. eapply shared_inv_update; try done; [by right; left|by right|].
      rewrite bool_decide_eq_true_2 by done. by left.
Qed.

Lemma readers_run_inv file todo order s s' :
  shared_inv file todo s → readers_run order s = Some s' → shared_inv file todo s'.
Proof.
  revert s. induction order as [|i order IH]; intros s Hs; simpl; [by intros [= <-]|].
  intros (s1 & H1 & Hrun)%bind_Some. eauto using reader_step_inv.
Qed.

(** No deadlock: while a thread has something to do, one of them can move. *)
Lemma readers_progress file todo s i t :
  shared_inv file todo s → threads s !! i = Some t → ops t ≠ [] ∨ requests t ≠ [] →
  ∃ j s', reader_step j s = Some s'.
Proof.
  intros Hinv Ht Hbusy. destruct (holder s) as [j|] eqn:Hh.
  - destruct (lookup_lt_is_Some_2 (threads s) j (inv_holder _ _ _ Hinv j Hh)) as [u Hu].
    pose proof (inv_threads _ _ _ Hinv j u Hu) as Hok.
    rewrite bool_decide_eq_true_2 in Hok by done. exists j. unfold reader_step. rewrite Hu. simpl.
    destruct Hok as [[-> Hreq]|[(-> & cx & fut & rs & -> & ->)|(-> & f & p & ->)]].
    + destruct (requests u) as [|[cx fut] rs]; [done|]. by eexists.
    + destruct (poll_read _ _ _). by eexists.
    + by eexists.
  - pose proof (inv_threads _ _ _ Hinv i t Ht) as Hok. rewrite Hh in Hok. simpl in Hok.
    exists i. unfold reader_step. rewrite Ht. simpl.
    destruct Hok as [Hops|[Hops Hreq]]; rewrite Hops.
    + destruct (requests t); [by destruct Hbusy|]. by eexists.
    + unfold shared_read_ops. rewrite Hh, (inv_poison _ _ _ Hinv). by eexists.
Qed.

(** C33: readers of a shared file divide it between them, in whatever threads they are.
    Take any number of threads, each with any polls to make, and any interleaving of
    the steps of their polls, in which reading is not atomic.  What is handed out, in the order
    in which the file is changed, is the file from its position on: each byte goes to
    exactly one reader.  No reader is handed more than its buffer holds, each thread has been
    answered the futures it polled, in their order, the lock is not poisoned, and while a
    thread has something left to do one of them can move. *)
Theorem shared_readers_partition (file : File) (todo : list (list (Z * SharedAsyncFileRead)))
    (order : list nat) (s : system File)
    (Hrun : readers_run order (readers_start file todo) = Some s) :
  unread file = concat (handed_bytes <$> handed s) ++ unread (sh_world (locked s)) ∧
  Forall (λ e, (length (handed_bytes e) ≤ read_buf e.1.2)%nat) (handed s) ∧
  poisoned (locked s) = false ∧
  ∀ i t, threads s !! i = Some t →
    snd <$> default [] (todo !! i) = answered i (handed s) ++ (snd <$> requests t) ∧
    (ops t ≠ [] ∨ requests t ≠ [] → ∃ j s', reader_step j s = Some s').
Proof.
  pose proof (readers_run_inv file todo order _ s (readers_start_inv file todo) Hrun) as Hinv.
  split; [exact (inv_bytes _ _ _ Hinv)|]. split; [exact (inv_buffers _ _ _ Hinv)|].
  split; [exact (inv_poison _ _ _ Hinv)|]. intros i t Ht.
  split; [exact (inv_todo _ _ _ Hinv i t Ht)|]. by apply (readers_progress file todo s i t).
Qed.
End readers.

(** ** Witness: a file in memory, read by two threads *)

#[export] Instance list_read : AsyncRead (list byte) := {
  poll_read cx n := λ s, (drop n s, Val (Ready (Ok (take n s))));
}.
#[export] Instance list_read_laws : AsyncReadLaws (list byte).
Proof.
  refine {| unread := id |}; simpl.
  - done.
  - intros cx n s s' bs [= <- <-]. split; [rewrite length_take; lia|].
    symmetry. apply take_drop.
  - by intros cx n s s' p [= <- <-].
Defined.

Definition test_bytes : list byte := [Byte.x74; Byte.x65; Byte.x73; Byte.x74].

(** Both threads begin, the second takes the lock first, and the first goes on while the
    second is still to make its other poll. *)
Definition two_readers : system (list byte) :=
  readers_start test_bytes [[(7, shared_read 1)]; [(8, shared_read 2); (8, shared_read 5)]].
Definition two_readers_order : list nat := [0; 1; 1; 1; 1; 1; 0; 1; 0; 0; 0; 1; 1; 1; 1]%nat.

Lemma shared_readers_partition_witness :
  ∃ s, readers_run two_readers_order two_readers = Some s ∧
    handed_bytes <$> handed s = [[Byte.x74; Byte.x65]; [Byte.x73]; [Byte.x74]] ∧
    test_bytes = concat (handed_bytes <$> handed s) ++ sh_world (locked s).
Proof.
  eexists. split; [vm_compute; reflexivity|]. split; [reflexivity|].
  refine (proj1 (shared_readers_partition test_bytes
    [[(7, shared_read 1)]; [(8, shared_read 2); (8, shared_read 5)]] two_readers_order _ _)).
  vm_compute. reflexivity.
Defined.
