(* ===== verification/SyncWrapper.v ===== *)
(** * The bridge from asynchronous to blocking I/O:
    src/src/openssl/async_to_sync_wrapper.rs and stream.rs

    OpenSSL calls [Read] and [Write] of the object it is given.  The wrapper
    stores the address of the task's [Context] for the time of one call into
    OpenSSL, zero otherwise, and turns [Poll::Pending] into [WouldBlock]; the
    stream turns it back.  OpenSSL is a parameter: any finite sequence of calls
    of the wrapper, each chosen from the answers to the calls before it
    ([ssl_prog]).  The main result is a refinement: storing the pointer is the
    same as passing the context of the current poll to every call. *)

From S2P Require Export AsyncIo.

(** ** [AsyncToSyncWrapper] *)

Record AsyncToSyncWrapper (St : Type) : Type := MkWrapper {
  wrapper_inner : St;
  context : Z;
}.
Arguments MkWrapper {St} _ _.
Arguments wrapper_inner {St} _.
Arguments context {St} _.

Definition would_block : io_error := io_error_from WouldBlock.

Section wrapper.
Context {St : Type} `{AsyncRead St, AsyncWrite St}.

Definition wrapper_new (inner : St) : AsyncToSyncWrapper St := MkWrapper inner 0.

(** [assert_eq!(self.context, 0)] and the store of the pointer. *)
Definition set_context (cx : Z) : M (AsyncToSyncWrapper St) unit := λ w,
  if context w =? 0 then (MkWrapper (wrapper_inner w) cx, Val tt) else (w, Panic).

Definition unset_context : M (AsyncToSyncWrapper St) unit := λ w,
  if context w =? 0 then (w, Panic) else (MkWrapper (wrapper_inner w) 0, Val tt).

Definition wrapper_with_context {R} (f : Z → M St R) : M (AsyncToSyncWrapper St) R := λ w,
  if context w =? 0 then (w, Panic)
  else let '(s, o) := f (context w) (wrapper_inner w) in (MkWrapper s (context w), o).

(** The match all three methods end with. *)
Definition or_would_block {A} (p : poll (result A io_error)) : result A io_error :=
  match p with Ready r => r | Pending => Err would_block end.

Definition wrapper_read (n : nat) : M (AsyncToSyncWrapper St) (result (list byte) io_error) :=
  p ← wrapper_with_context (λ cx, poll_read cx n); mret (or_would_block p).
Definition wrapper_write (b : list byte) : M (AsyncToSyncWrapper St) (result Z io_error) :=
  p ← wrapper_with_context (λ cx, poll_write cx b); mret (or_would_block p).
Definition wrapper_flush : M (AsyncToSyncWrapper St) (result unit io_error) :=
  p ← wrapper_with_context (λ cx, poll_flush cx); mret (or_would_block p).
End wrapper.

(** ** Calls into OpenSSL *)

Inductive ssl_prog (A : Type) : Type :=
| SslRet (a : A)
| SslRead (n : nat) (k : result (list byte) io_error → ssl_prog A)
| SslWrite (b : list byte) (k : result Z io_error → ssl_prog A)
| SslFlush (k : result unit io_error → ssl_prog A).
Arguments SslRet {A} a.
Arguments SslRead {A} n k.
Arguments SslWrite {A} b k.
Arguments SslFlush {A} k.

Section running.
Context {St : Type} `{AsyncRead St, AsyncWrite St}.

(** OpenSSL running on the wrapper. *)
Fixpoint run_prog {A} (p : ssl_prog A) : M (AsyncToSyncWrapper St) A :=
  match p with
  | SslRet a => mret a
  | SslRead n k => r ← wrapper_read n; run_prog (k r)
  | SslWrite b k => r ← wrapper_write b; run_prog (k r)
  | SslFlush k => r ← wrapper_flush; run_prog (k r)
  end.

(** The specification: OpenSSL running on the stream itself, every call polled
    with [cx]. *)
Fixpoint run_direct {A} (cx : Z) (p : ssl_prog A) : M St A :=
  match p with
  | SslRet a => mret a
  | SslRead n k => r ← poll_read cx n; run_direct cx (k (or_would_block r))
  | SslWrite b k => r ← poll_write cx b; run_direct cx (k (or_would_block r))
  | SslFlush k => r ← poll_flush cx; run_direct cx (k (or_would_block r))
  end.

Lemma run_prog_direct {A} (p : ssl_prog A) cx (s : St) :
  cx ≠ 0 →
  run_prog p (MkWrapper s cx) =
    let '(s', o) := run_direct cx p s in (MkWrapper s' cx, o).
Proof.
  intros Hcx. revert s. induction p as [a|n k IH|b k IH|k IH]; intros s; simpl; [done|..];
    unfold wrapper_read, wrapper_write, wrapper_flush, wrapper_with_context, mbind, M_bind;
    simpl; destruct (Z.eqb_spec cx 0); try done.
  - destruct (poll_read cx n s) as [s' [r| |]]; try done; apply IH.
  - destruct (poll_write cx b s) as [s' [r| |]]; try done; apply IH.
  - destruct (poll_flush cx s) as [s' [r| |]]; try done; apply IH.
Qed.

(** Set the context, run, clear it: what every poll of the stream does, and the
    handshake when OpenSSL hands the stream back. *)
Lemma bracket_direct {A B} (p : ssl_prog A) (f : A → B) cx (s : St) :
  cx ≠ 0 →
  (_ ← set_context cx; r ← run_prog p; _ ← unset_context; mret (f r)) (MkWrapper s 0) =
    match run_direct cx p s with
    | (s', Val r) => (MkWrapper s' 0, Val (f r))
    | (s', Panic) => (MkWrapper s' cx, Panic)
    | (s', OutOfFuel) => (MkWrapper s' cx, OutOfFuel)
    end.
Proof.
  intros Hcx. unfold mbind, M_bind, set_context. simpl.
  rewrite run_prog_direct by done.
  destruct (run_direct cx p s) as [s' [r| |]]; try done.
  unfold unset_context. simpl. by destruct (Z.eqb_spec cx 0).
Qed.

Lemma set_context_again (cx cx' : Z) (s : St) :
  cx' ≠ 0 → set_context cx (MkWrapper s cx') = (MkWrapper s cx', Panic).
Proof. intros Hcx. unfold set_context. simpl. by destruct (Z.eqb_spec cx' 0). Qed.
End running.

(** ** [TlsStream] *)

(** [openssl::ssl::ErrorCode] and what [shutdown] may return. *)
Inductive ErrorCode : Type :=
| ZERO_RETURN
| WANT_READ
| WANT_WRITE
| SSL_SYSCALL
| SSL_SSL.

Inductive ShutdownResult : Type := ShutdownSent | ShutdownReceived.

(** The [SslStream] of the openssl crate, without the wrapper it owns. *)
Class SslOps (Ssl X509 : Type) := {
  ssl_read : Ssl → nat → ssl_prog (Ssl * result (list byte) io_error);
  ssl_write : Ssl → list byte → ssl_prog (Ssl * result Z io_error);
  ssl_flush : Ssl → ssl_prog (Ssl * result unit io_error);
  ssl_shutdown : Ssl → ssl_prog (Ssl * result ShutdownResult ErrorCode);
  ssl_peer_certificate : Ssl → option X509;
}.

Record TlsStream (Ssl St : Type) : Type := MkTlsStream {
  ssl : Ssl;
  ssl_wrapper : AsyncToSyncWrapper St;
}.
Arguments MkTlsStream {Ssl St} _ _.
Arguments ssl {Ssl St} _.
Arguments ssl_wrapper {Ssl St} _.

Definition result_to_poll {T} (r : result T io_error) : poll (result T io_error) :=
  match r with
  | Ok v => Ready (Ok v)
  | Err e => if bool_decide (err_kind e = WouldBlock) then Pending else Ready (Err e)
  end.

Section tls_stream.
Context {Ssl X509 St : Type} `{SslOps Ssl X509, AsyncRead St, AsyncWrite St}.

Definition peer_certificate (t : TlsStream Ssl St) : option X509 :=
  ssl_peer_certificate (ssl t).

(** A call into OpenSSL between [set_context] and [unset_context]. *)
Definition tls_with_context {R} (cx : Z) (f : Ssl → ssl_prog (Ssl * result R io_error)) :
    M (TlsStream Ssl St) (poll (result R io_error)) := λ t,
  match (_ ← set_context cx; r ← run_prog (f (ssl t)); _ ← unset_context; mret r)
          (ssl_wrapper t) with
  | (w, Val (ssl', r)) => (MkTlsStream ssl' w, Val (result_to_poll r))
  | (w, Panic) => (MkTlsStream (ssl t) w, Panic)
  | (w, OutOfFuel) => (MkTlsStream (ssl t) w, OutOfFuel)
  end.

(** Continue an OpenSSL call with a function of its result. *)
Fixpoint prog_map {A B} (g : A → B) (p : ssl_prog A) : ssl_prog B :=
  match p with
  | SslRet a => SslRet (g a)
  | SslRead n k => SslRead n (λ r, prog_map g (k r))
  | SslWrite b k => SslWrite b (λ r, prog_map g (k r))
  | SslFlush k => SslFlush (λ r, prog_map g (k r))
  end.

(** [io::Error::other(e)]. *)
Definition other_error : io_error := io_error_from Other.

Definition close_result (r : result ShutdownResult ErrorCode) : result unit io_error :=
  match r with
  | Ok _ => Ok tt
  | Err ZERO_RETURN => Ok tt
  | Err _ => Err other_error
  end.

#[export] Instance tls_async_read : AsyncRead (TlsStream Ssl St) := {
  poll_read cx n := tls_with_context cx (λ s, ssl_read s n);
}.
#[export] Instance tls_async_write : AsyncWrite (TlsStream Ssl St) := {
  poll_write cx b := tls_with_context cx (λ s, ssl_write s b);
  poll_flush cx := tls_with_context cx ssl_flush;
  poll_close cx := tls_with_context cx (λ s,
    prog_map (λ x, (x.1, close_result x.2)) (ssl_shutdown s));
}.

(** *** The specification of a poll: OpenSSL on the stream, with this context *)
Definition tls_direct {R} (cx : Z) (f : Ssl → ssl_prog (Ssl * result R io_error))
    (sl : Ssl) (s : St) : (Ssl * St) * outcome (poll (result R io_error)) :=
  match run_direct cx (f sl) s with
  | (s', Val (sl', r)) => ((sl', s'), Val (result_to_poll r))
  | (s', Panic) => ((sl, s'), Panic)
  | (s', OutOfFuel) => ((sl, s'), OutOfFuel)
  end.

Definition idle (sl : Ssl) (s : St) : TlsStream Ssl St := MkTlsStream sl (MkWrapper s 0).

Lemma tls_with_context_direct {R} cx (f : Ssl → ssl_prog (Ssl * result R io_error)) sl s :
  cx ≠ 0 →
  match tls_direct cx f sl s with
  | ((sl', s'), Val r) => tls_with_context cx f (idle sl s) = (idle sl' s', Val r)
  | ((_, s'), o) => ∃ t', tls_with_context cx f (idle sl s) = (t', o) ∧
      ssl_wrapper t' = MkWrapper s' cx
  end.
Proof.
  intros Hcx. unfold tls_with_context, tls_direct, idle. simpl.
  rewrite (bracket_direct (f sl) id cx s Hcx).
  destruct (run_direct cx (f sl) s) as [s' [[sl' r]| |]]; simpl; [done|by eexists..].
Qed.

(** C3: a poll of a [TlsStream] is OpenSSL running on the stream with the
    context of this very poll, its [WouldBlock] read as [Pending].  Here [f] is the
    OpenSSL call of [poll_read], [poll_write], [poll_flush] or [poll_close].  The
    stored pointer is never stale: it is clear again after the poll, and if the
    stream unwinds inside OpenSSL, what is left refuses every further poll before
    OpenSSL runs. *)
Theorem tls_poll_refines {R} (f : Ssl → ssl_prog (Ssl * result R io_error)) (cx : Z)
    (sl : Ssl) (s : St) (Hcx : cx ≠ 0) :
  match tls_direct cx f sl s with
  | ((sl', s'), Val r) => tls_with_context cx f (idle sl s) = (idle sl' s', Val r)
  | ((_, s'), o) => ∃ t', tls_with_context cx f (idle sl s) = (t', o) ∧
      ∀ cx' R' (g : Ssl → ssl_prog (Ssl * result R' io_error)),
        tls_with_context cx' g t' = (t', Panic)
  end.
Proof.
  pose proof (tls_with_context_direct cx f sl s Hcx) as Hd.
  assert (∀ (t' : TlsStream Ssl St) s' cx' R' (g : Ssl → ssl_prog (Ssl * result R' io_error)),
    ssl_wrapper t' = MkWrapper s' cx → tls_with_context cx' g t' = (t', Panic)) as Hstuck.
  { intros [sl' w'] s' cx' R' g Hw. simpl in Hw. subst w'. unfold tls_with_context. simpl.
    erewrite M_bind_panic by (by apply set_context_again). done. }
  destruct (tls_direct cx f sl s) as [[sl' s'] [r| |]]; [done|..];
    destruct Hd as (t' & Hrun & Hw); exists t'; eauto.
Qed.

(** [WouldBlock] and [Pending] stand for each other: what the wrapper makes
    of a poll, the stream turns back into that poll, unless the stream below
    answers with an error that is [WouldBlock] itself. *)
Lemma would_block_roundtrip {A} (p : poll (result A io_error))
    (Hp : match p with Ready (Err e) => err_kind e ≠ WouldBlock | _ => True end) :
  result_to_poll (or_would_block p) = p.
Proof.
  destruct p as [[a|e]|]; simpl; [done| |done]. by rewrite bool_decide_eq_false_2.
Qed.

Lemma run_direct_map {A B} (g : A → B) cx (p : ssl_prog A) (s : St) :
  run_direct cx (prog_map g p) s =
    let '(s', o) := run_direct cx p s in
    (s', match o with Val a => Val (g a) | Panic => Panic | OutOfFuel => OutOfFuel end).
Proof.
  revert s. induction p as [a|n k IH|b k IH|k IH]; intros s; simpl; [done|..];
    unfold mbind, M_bind.
  - destruct (poll_read cx n s) as [s' [r| |]]; try done; apply IH.
  - destruct (poll_write cx b s) as [s' [r| |]]; try done; apply IH.
  - destruct (poll_flush cx s) as [s' [r| |]]; try done; apply IH.
Qed.

(** C40: closing a stream is never [Pending].  Whatever calls OpenSSL's shutdown makes on
    the socket, [poll_close] is ready in the same poll: with [Ok] if the shutdown came
    through or the peer had closed already, else with an error of kind [Other].  This
    is so too when the shutdown has to wait for the socket ([WANT_READ] or
    [WANT_WRITE], the socket having answered [Pending]): the caller sees a failure
    where it should be polled again. *)
Theorem tls_close_never_pending (cx : Z) (sl sl' : Ssl) (s s' : St)
    (r : result ShutdownResult ErrorCode) (Hcx : cx ≠ 0)
    (Hshut : run_direct cx (ssl_shutdown sl) s = (s', Val (sl', r))) :
  poll_close cx (idle sl s) =
    (idle sl' s', Val (Ready (match r with
                              | Ok _ | Err ZERO_RETURN => Ok tt
                              | Err _ => Err other_error
                              end))).
Proof.
  pose proof (tls_with_context_direct cx
    (λ s, prog_map (λ x, (x.1, close_result x.2)) (ssl_shutdown s)) sl s Hcx) as Hd.
  unfold tls_direct in Hd. rewrite run_direct_map, Hshut in Hd. simpl in *. rewrite Hd.
  by destruct r as [?|[]].
Qed.
End tls_stream.

(** ** Witnesses: a layer that passes bytes through

    Its shutdown flushes the stream and wants to write again when that blocks. *)

#[export] Instance passthrough : SslOps unit unit := {
  ssl_read _ n := SslRead n (λ r, SslRet (tt, r));
  ssl_write _ b := SslWrite b (λ r, SslRet (tt, r));
  ssl_flush _ := SslFlush (λ r, SslRet (tt, r));
  ssl_shutdown _ := SslFlush (λ r, SslRet (tt,
    match r with Ok _ => Ok ShutdownSent | Err _ => Err WANT_WRITE end));
  ssl_peer_certificate _ := None;
}.

(** A socket that is busy when the flag is set. *)
Record socket : Type := Socket { sk_busy : bool; sk_bytes : list byte }.

#[export] Instance socket_read : AsyncRead socket := {
  poll_read cx n := λ s,
    if sk_busy s then (Socket false (sk_bytes s), Val Pending)
    else (Socket true (drop n (sk_bytes s)), Val (Ready (Ok (take n (sk_bytes s)))));
}.
#[export] Instance socket_write : AsyncWrite socket := {
  poll_write cx b := λ s,
    if sk_busy s then (Socket false (sk_bytes s), Val Pending)
    else (Socket true (sk_bytes s ++ b), Val (Ready (Ok (Z.of_nat (length b)))));
  poll_flush cx := λ s,
    if sk_busy s then (Socket false (sk_bytes s), Val Pending)
    else (s, Val (Ready (Ok tt)));
  poll_close cx := λ s, (s, Val (Ready (Ok tt)));
}.

Lemma tls_poll_refines_witness :
  tls_with_context 7 (λ s, ssl_read s 2) (idle tt (Socket true [Byte.x01])) =
    (idle tt (Socket false [Byte.x01]), Val Pending) ∧
  tls_with_context 8 (λ s, ssl_read s 2) (idle tt (Socket false [Byte.x01])) =
    (idle tt (Socket true []), Val (Ready (Ok [Byte.x01]))).
Proof.
  split.
  - exact (tls_poll_refines (λ s, ssl_read s 2) 7 tt (Socket true [Byte.x01]) ltac:(lia)).
  - exact (tls_poll_refines (λ s, ssl_read s 2) 8 tt (Socket false [Byte.x01]) ltac:(lia)).
Defined.

Lemma would_block_roundtrip_witness :
  result_to_poll (or_would_block (Ready (Err (io_error_from WriteZero)) :
    poll (result Z io_error))) = Ready (Err (io_error_from WriteZero)).
Proof. apply would_block_roundtrip. discriminate. Defined.

Lemma tls_close_never_pending_witness :
  poll_close 7 (idle tt (Socket true [])) =
    (idle tt (Socket false []), Val (Ready (Err other_error))).
Proof.
  exact (tls_close_never_pending 7 tt tt (Socket true []) (Socket false []) (Err WANT_WRITE)
           ltac:(lia) eq_refl).
Defined.
