(* ===== verification/Handshake.v ===== *)
(** * The TLS handshake as a future: src/src/openssl/handshake.rs

    The closure that starts the handshake ([SslAcceptor::accept] or
    [ConnectConfiguration::connect]) and [MidHandshakeSslStream::handshake] are
    OpenSSL's: programs over the stream ([ssl_prog]).  What they return keeps the
    wrapper they were given, so a [MidHandshakeSslStream] is a pair of OpenSSL's
    part and the wrapper.  The specification is a future that passes the context
    of the current poll to every call and has no wrapper at all. *)

From S2P Require Export SyncWrapper.

(** [openssl::ssl::HandshakeError], over the stream it may keep. *)
Inductive HandshakeError (ErrorStack Mid : Type) : Type :=
| SetupFailure (e : ErrorStack)
| Failure (mid : Mid)
| HsWouldBlock (mid : Mid).
Arguments SetupFailure {ErrorStack Mid} e.
Arguments Failure {ErrorStack Mid} mid.
Arguments HsWouldBlock {ErrorStack Mid} mid.

(** What the closure computes, before it is put together with the wrapper. *)
Abbreviation handshake_prog Ssl ErrorStack Mid :=
  (ssl_prog (result Ssl (HandshakeError ErrorStack Mid))).

(** [MidHandshakeSslStream::handshake]. *)
Class MidOps (Ssl ErrorStack Mid : Type) := {
  mid_handshake : Mid → handshake_prog Ssl ErrorStack Mid;
}.

Section handshake.
Context {Ssl ErrorStack Mid St : Type}
  `{MidOps Ssl ErrorStack Mid, AsyncRead St, AsyncWrite St}.

Definition MidHandshakeSslStream : Type := Mid * AsyncToSyncWrapper St.

Inductive HandshakeFuture : Type :=
| Initial (f : handshake_prog Ssl ErrorStack Mid) (stream : AsyncToSyncWrapper St)
| MidHandshake (mid : MidHandshakeSslStream)
| Done.

(** The anyhow error around the [HandshakeError]. *)
Abbreviation handshake_error := (HandshakeError ErrorStack MidHandshakeSslStream).
Abbreviation handshake_output := (poll (result (TlsStream Ssl St) handshake_error)).

(** Run OpenSSL on the wrapper; the wrapper ends up in what it returns, except in
    a [SetupFailure], which drops it. *)
Definition run_handshake (f : handshake_prog Ssl ErrorStack Mid)
    (stream : AsyncToSyncWrapper St) : outcome (result (TlsStream Ssl St) handshake_error) :=
  let '(w, o) := run_prog f stream in
  r ← o;
  Val match r with
      | Ok ssl => Ok (MkTlsStream ssl w)
      | Err (SetupFailure e) => Err (SetupFailure e)
      | Err (Failure mid) => Err (Failure (mid, w))
      | Err (HsWouldBlock mid) => Err (HsWouldBlock (mid, w))
      end.

(** The match both polling arms end with. *)
Definition handshake_step (r : result (TlsStream Ssl St) handshake_error) :
    M HandshakeFuture handshake_output := λ self,
  match r with
  | Ok stream =>
      let '(w, o) := unset_context (ssl_wrapper stream) in
      (self, _ ← o; Val (Ready (Ok (MkTlsStream (ssl stream) w))))
  | Err (HsWouldBlock (mid, stream)) =>
      match unset_context stream with
      | (w, Val _) => (MidHandshake (mid, w), Val Pending)
      | (_, o) => (self, _ ← o; Val Pending)
      end
  | Err e => (self, Val (Ready (Err e)))
  end.

(** [mem::replace(self_mut, Done)] first: whatever happens next, and unwinding
    in particular, the future is [Done] unless it is put back. *)
Definition handshake_poll (cx : Z) : M HandshakeFuture handshake_output := λ self,
  match self with
  | Initial f stream =>
      let '(w, o) := set_context cx stream in
      (r ← lift (_ ← o; run_handshake f w); handshake_step r) Done
  | MidHandshake (mid, stream) =>
      let '(w, o) := set_context cx stream in
      (r ← lift (_ ← o; run_handshake (mid_handshake mid) w); handshake_step r) Done
  | Done => (Done, Panic)
  end.

(** ** The specification: a handshake with an explicit context *)

Inductive handshake_spec : Type :=
| Running (f : handshake_prog Ssl ErrorStack Mid) (s : St)
| Finished.

(** The answer of a finished handshake, the wrapper idle if it succeeded.  After
    a [Failure] the wrapper is in the error, and its context is still set. *)
Definition answer (cx : Z) (s : St) (r : result Ssl (HandshakeError ErrorStack Mid)) :
    handshake_output :=
  match r with
  | Ok sl => Ready (Ok (idle sl s))
  | Err (SetupFailure e) => Ready (Err (SetupFailure e))
  | Err (Failure mid) => Ready (Err (Failure (mid, MkWrapper s cx)))
  | Err (HsWouldBlock mid) => Pending
  end.

Definition spec_poll (cx : Z) : M handshake_spec handshake_output := λ h,
  match h with
  | Running f s =>
      match run_direct cx f s with
      | (s', Val (Err (HsWouldBlock mid))) => (Running (mid_handshake mid) s', Val Pending)
      | (s', Val r) => (Finished, Val (answer cx s' r))
      | (_, Panic) => (Finished, Panic)
      | (_, OutOfFuel) => (Finished, OutOfFuel)
      end
  | Finished => (Finished, Panic)
  end.

(** A state of the code and the state of the specification it stands for: the
    stored context is clear between two polls. *)
Definition refines (h : HandshakeFuture) (a : handshake_spec) : Prop :=
  match h, a with
  | Initial f w, Running g s => f = g ∧ w = MkWrapper s 0
  | MidHandshake (mid, w), Running g s => mid_handshake mid = g ∧ w = MkWrapper s 0
  | Done, Finished => True
  | _, _ => False
  end.

(** What both polling arms compute, on a wrapper with a clear context. *)
Lemma handshake_arm cx f (s : St) :
  cx ≠ 0 →
  (let '(w, o) := set_context cx (MkWrapper s 0) in
   (r ← lift (_ ← o; run_handshake f w); handshake_step r) Done) =
    match run_direct cx f s with
    | (s', Val (Err (HsWouldBlock mid))) => (MidHandshake (mid, MkWrapper s' 0), Val Pending)
    | (s', Val r) => (Done, Val (answer cx s' r))
    | (_, Panic) => (Done, Panic)
    | (_, OutOfFuel) => (Done, OutOfFuel)
    end.
Proof.
  intros Hcx. unfold set_context, run_handshake. simpl.
  rewrite run_prog_direct by done.
  destruct (run_direct cx f s) as [s' [r| |]]; [|done..].
  unfold mbind, M_bind, lift, handshake_step, unset_context. simpl.
  destruct r as [sl|[e|mid|mid]]; simpl; try done; by destruct (Z.eqb_spec cx 0).
Qed.

Lemma handshake_poll_simulates cx h a :
  cx ≠ 0 → refines h a →
  (handshake_poll cx h).2 = (spec_poll cx a).2 ∧
  refines (handshake_poll cx h).1 (spec_poll cx a).1.
Proof.
  intros Hcx. destruct h as [f w|[mid w]|], a as [g s|]; simpl; try done.
  all: intros [-> ->]; pose proof (handshake_arm cx g s Hcx) as Harm.
  all: unfold set_context in *; simpl in *; rewrite Harm.
  all: by destruct (run_direct cx g s) as [s' [[sl|[e|mid'|mid']]| |]].
Qed.

(** The polls of a future, one for each context, and the future they leave. *)
Fixpoint poll_all {F Out} (p : Z → M F Out) (cxs : list Z) (h : F) : list (outcome Out) * F :=
  match cxs with
  | [] => ([], h)
  | cx :: cxs => let '(h, o) := p cx h in let '(os, h) := poll_all p cxs h in (o :: os, h)
  end.

(** C2: the handshake future refines its specification: whatever the tasks that
    poll it, a new future answers every poll as the specification does, in which
    OpenSSL's calls reach the stream with the context of the very poll they are
    made in, an unwinding stream included. *)
Theorem handshake_refines (f : handshake_prog Ssl ErrorStack Mid) (s : St) (cxs : list Z)
    (Hcxs : Forall (λ cx, cx ≠ 0) cxs) :
  (poll_all handshake_poll cxs (Initial f (wrapper_new s))).1 =
  (poll_all spec_poll cxs (Running f s)).1.
Proof.
  assert (∀ cxs h a, Forall (λ cx, cx ≠ 0) cxs → refines h a →
    (poll_all handshake_poll cxs h).1 = (poll_all spec_poll cxs a).1) as Hgen.
  { clear. induction cxs as [|cx cxs IH]; intros h a Hcxs Hr; [done|].
    apply Forall_cons in Hcxs as [Hcx Hcxs]. simpl.
    destruct (handshake_poll_simulates cx h a Hcx Hr) as [Ho Hr'].
    destruct (handshake_poll cx h) as [h' o], (spec_poll cx a) as [a' o'].
    simpl in *. subst o'. specialize (IH h' a' Hcxs Hr').
    destruct (poll_all handshake_poll cxs h'), (poll_all spec_poll cxs a').
    simpl in *. by rewrite IH. }
  by apply Hgen.
Qed.

(** [shakes cx s' r f s cxs]: OpenSSL blocks once in every context of [cxs], in
    their order, and is done with the result [r] in the context [cx]. *)
Inductive shakes (cx : Z) (s' : St) (r : result Ssl (HandshakeError ErrorStack Mid)) :
    handshake_prog Ssl ErrorStack Mid → St → list Z → Prop :=
| shakes_done f s :
    run_direct cx f s = (s', Val r) →
    match r with Err (HsWouldBlock _) => False | _ => True end →
    shakes cx s' r f s []
| shakes_blocked f s c s1 mid cxs :
    run_direct c f s = (s1, Val (Err (HsWouldBlock mid))) →
    shakes cx s' r (mid_handshake mid) s1 cxs →
    shakes cx s' r f s (c :: cxs).

Lemma shakes_poll f s cx s' r cxs :
  shakes cx s' r f s cxs → cx ≠ 0 → Forall (λ c, c ≠ 0) cxs →
  ∀ h, refines h (Running f s) →
  poll_all handshake_poll (cxs ++ [cx]) h =
    (replicate (length cxs) (Val Pending) ++ [Val (answer cx s' r)], Done).
Proof.
  intros Hs Hcx. revert Hs. induction 1 as [f s Hrun Hr|f s c s1 mid cxs Hrun Hs IH];
    intros Hcxs h Href.
  - destruct (handshake_poll_simulates cx h _ Hcx Href) as [Ho Hh].
    simpl in *. rewrite Hrun in Ho, Hh. destruct (handshake_poll cx h) as [h' o].
    destruct r as [sl|[e|mid|mid]]; simpl in *; try done;
      subst o; by destruct h' as [| [] |].
  - apply Forall_cons in Hcxs as [Hc Hcxs].
    destruct (handshake_poll_simulates c h _ Hc Href) as [Ho Hh].
    simpl in *. rewrite Hrun in Ho, Hh. simpl in *.
    destruct (handshake_poll c h) as [h' o]. simpl in *. subst o.
    by rewrite (IH Hcxs h' Hh).
Qed.

(** C16: the life of a handshake.  It is [Pending] as often as OpenSSL has to
    wait, then [Ready] exactly once, with a stream that is idle if the handshake
    succeeded and with OpenSSL's error otherwise; every poll after that unwinds. *)
Theorem handshake_protocol (f : handshake_prog Ssl ErrorStack Mid) (s s' : St)
    (cxs : list Z) (cx : Z) (late : list Z)
    (r : result Ssl (HandshakeError ErrorStack Mid))
    (Hs : shakes cx s' r f s cxs) (Hcx : cx ≠ 0) (Hcxs : Forall (λ c, c ≠ 0) cxs) :
  poll_all handshake_poll (cxs ++ cx :: late) (Initial f (wrapper_new s)) =
    (replicate (length cxs) (Val Pending) ++
       Val (answer cx s' r) :: replicate (length late) Panic, Done).
Proof.
  assert (∀ (xs ys : list Z) (h : HandshakeFuture),
    poll_all handshake_poll (xs ++ ys) h =
      let '(os, h) := poll_all handshake_poll xs h in
      let '(os', h) := poll_all handshake_poll ys h in (os ++ os', h)) as Happ.
  { induction xs as [|x xs IH]; intros ys h; simpl; [by destruct (poll_all _ ys h)|].
    destruct (handshake_poll x h) as [h1 o]. rewrite IH.
    destruct (poll_all handshake_poll xs h1) as [os h2].
    by destruct (poll_all handshake_poll ys h2). }
  assert (poll_all handshake_poll late Done = (replicate (length late) Panic, Done)) as Hlate.
  { induction late as [|c late IH]; simpl; [done|]. by rewrite IH. }
  replace (cxs ++ cx :: late) with ((cxs ++ [cx]) ++ late) by by rewrite <- app_assoc.
  rewrite Happ, (shakes_poll f s cx s' r cxs) by done.
  by rewrite Hlate, <- app_assoc.
Qed.
End handshake.
Arguments HandshakeFuture _ _ _ _ : clear implicits.
Arguments MidHandshakeSslStream _ _ : clear implicits.

(** ** Witnesses: a handshake of one message each way *)

(** Flush until the socket takes it, then read the answer. *)
Definition shake_read : handshake_prog unit unit bool :=
  SslRead 1 (λ r, SslRet match r with
                         | Ok _ => Ok tt
                         | Err e => if bool_decide (err_kind e = WouldBlock)
                                    then Err (HsWouldBlock true) else Err (Failure true)
                         end).
Definition shake_start : handshake_prog unit unit bool :=
  SslWrite [Byte.x16] (λ r, match r with
                           | Ok _ => shake_read
                           | Err e => SslRet (Err (HsWouldBlock false))
                           end).
#[export] Instance shake_ops : MidOps unit unit bool := {
  mid_handshake m := if m then shake_read else shake_start;
}.

Lemma handshake_refines_witness :
  (poll_all handshake_poll [7; 8; 9] (Initial shake_start (wrapper_new (Socket true [])))).1 =
  (poll_all spec_poll [7; 8; 9] (Running shake_start (Socket true []))).1.
Proof. apply handshake_refines. repeat constructor; discriminate. Defined.

Lemma handshake_protocol_witness :
  poll_all handshake_poll [7; 8; 9; 7] (Initial shake_start (wrapper_new (Socket true []))) =
    ([Val Pending; Val Pending; Val (Ready (Ok (idle tt (Socket true [])))); Panic], Done).
Proof.
  refine (handshake_protocol shake_start (Socket true []) _ [7; 8] 9 [7] (Ok tt) _ _ _).
  - eapply shakes_blocked; [reflexivity|]. eapply shakes_blocked; [reflexivity|].
    apply shakes_done; [reflexivity|exact I].
  - discriminate.
  - repeat constructor; discriminate.
Defined.
