(* ===== verification/Openssl.v ===== *)
(** * Certificates, identities and builders of the OpenSSL backend:
    src/src/openssl/certificate.rs, acceptor.rs and connector.rs

    The openssl crate is an interface: parsing and sealing ([Crypto]), the context
    builder shared by both sides ([SslContextBuilder]), and the configured
    connector and acceptor.  Errors are anyhow errors, as [?] makes them. *)

From S2P Require Export Handshake Calls.

(** ** The crypto functions the crate calls *)

Record ParsedPkcs12 (X509 PKey : Type) : Type := MkParsed {
  parsed_pkey : option PKey;
  parsed_cert : option X509;
  parsed_ca : option (list X509);
}.
Arguments MkParsed {X509 PKey} _ _ _.
Arguments parsed_pkey {X509 PKey} _.
Arguments parsed_cert {X509 PKey} _.
Arguments parsed_ca {X509 PKey} _.

Class Crypto (X509 PKey Pkcs12 : Type) := {
  X509_from_pem : list byte → result X509 anyhow;
  X509_from_der : list byte → result X509 anyhow;
  X509_to_der : X509 → result (list byte) anyhow;
  private_key_from_pem : list byte → result PKey anyhow;
  Pkcs12_from_der : list byte → result Pkcs12 anyhow;
  Pkcs12_to_der : Pkcs12 → result (list byte) anyhow;
  Pkcs12_parse2 : Pkcs12 → string → result (ParsedPkcs12 X509 PKey) anyhow;
  Pkcs12_build2 : string → PKey → X509 → string → result Pkcs12 anyhow;
}.

(** ** certificate.rs *)

Record Certificate (X509 : Type) : Type := MkCertificate { x509 : X509 }.
Arguments MkCertificate {X509} _.
Arguments x509 {X509} _.
Record PrivateKey (PKey : Type) : Type := MkPrivateKey { private_pkey : PKey }.
Arguments MkPrivateKey {PKey} _.
Arguments private_pkey {PKey} _.

(** [Identity] of connector.rs and the three builders: bytes not parsed yet. *)
Record Identity (X509 PKey : Type) : Type := MkIdentity {
  id_pkey : PKey;
  id_cert : X509;
  id_chain : list X509;
}.
Arguments MkIdentity {X509 PKey} _ _ _.
Arguments id_pkey {X509 PKey} _.
Arguments id_cert {X509 PKey} _.
Arguments id_chain {X509 PKey} _.

Record X509PemBuilder : Type := MkX509Pem { x509_bytes : list byte }.
Record PrivateKeyBuilder : Type := MkKeyPem { key_bytes : list byte }.
Record IdentityBuilder : Type := MkIdentityDer { der_bytes : list byte }.

(** [CertBuilder] of src/src/net/mod.rs: [new], and from it [from_reader] (the
    bytes up to the end, or the error of reading) and [from_path]. *)
Class CertBuilder (B : Type) := cert_new : list byte → B.
#[export] Instance x509_cert_builder : CertBuilder X509PemBuilder := MkX509Pem.
#[export] Instance key_cert_builder : CertBuilder PrivateKeyBuilder := MkKeyPem.
#[export] Instance identity_cert_builder : CertBuilder IdentityBuilder := MkIdentityDer.

Section cert_builder.
Context {W Reader B : Type} `{CertBuilder B}.
Context (read_to_end : Reader → M W (result (list byte) io_error)).
Context (open_file : string → M W (result Reader io_error)).

Definition from_reader (reader : Reader) : M W (result B anyhow) :=
  bytes ←? m_map_err io_anyhow (read_to_end reader);
  mret (Ok (cert_new bytes)).

Definition from_path (path : string) : M W (result B anyhow) :=
  reader ←? m_map_err io_anyhow (open_file path);
  from_reader reader.
End cert_builder.

Section certificates.
Context {X509 PKey Pkcs12 : Type} `{Crypto X509 PKey Pkcs12}.

Definition certificate_from_pem (bytes : list byte) : result (Certificate X509) anyhow :=
  c ←! X509_from_pem bytes; Ok (MkCertificate c).
Definition certificate_from_der (bytes : list byte) : result (Certificate X509) anyhow :=
  c ←! X509_from_der bytes; Ok (MkCertificate c).
Definition certificate_to_der (self : Certificate X509) : result (list byte) anyhow :=
  X509_to_der (x509 self).
Definition certificate_inner (self : Certificate X509) : X509 := x509 self.

(** [Identity::from_pkcs12]. *)
Definition from_pkcs12 (buf : list byte) (pass : string) : result (Identity X509 PKey) anyhow :=
  pkcs12 ←! Pkcs12_from_der buf;
  parsed ←! map_err (λ err, AnyhowError ("Couldn't read pkcs12 " +:+ anyhow_display err))
              (Pkcs12_parse2 pkcs12 pass);
  pkey ←! ok_or (parsed_pkey parsed) (AnyhowError "Missing private key");
  cert ←! ok_or (parsed_cert parsed) (AnyhowError "Missing cert");
  Ok (MkIdentity pkey cert (default [] (parsed_ca parsed))).

Definition x509_build (self : X509PemBuilder) : result (Certificate X509) anyhow :=
  with_context "invalid cert" (certificate_from_pem (x509_bytes self)).

Definition key_build (self : PrivateKeyBuilder) : result PKey anyhow :=
  with_context "invalid key" (private_key_from_pem (key_bytes self)).

Definition PASSWORD : string := "test".

Definition identity_from_x509 (x : X509PemBuilder) (key : PrivateKeyBuilder) :
    result IdentityBuilder anyhow :=
  server_key ←! key_build key;
  server_crt ←! x509_build x;
  p12 ←! with_context "Failed to create Pkcs12"
           (Pkcs12_build2 "" server_key (certificate_inner server_crt) PASSWORD);
  der ←! Pkcs12_to_der p12;
  Ok (MkIdentityDer der).

Definition identity_build (self : IdentityBuilder) : result (Identity X509 PKey) anyhow :=
  with_context "Failed to load der" (from_pkcs12 (der_bytes self) PASSWORD).
End certificates.

(** What PKCS#12 promises: the DER form can be read back, and an archive opens with
    the password it was sealed with, to the key and certificate put into it. *)
Class Pkcs12Laws (X509 PKey Pkcs12 : Type) `{Crypto X509 PKey Pkcs12} := {
  pkcs12_der p bytes : Pkcs12_to_der p = Ok bytes → Pkcs12_from_der bytes = Ok p;
  pkcs12_open name key cert pass p :
    Pkcs12_build2 name key cert pass = Ok p →
    Pkcs12_parse2 p pass = Ok (MkParsed (Some key) (Some cert) None);
}.

Section identity_theorems.
Context {X509 PKey Pkcs12 : Type} `{Pkcs12Laws X509 PKey Pkcs12}.

(** C31: the identity made from a certificate and a key is loaded back as that
    certificate and that key, with an empty chain; and it cannot be made unless both
    parse, the key being looked at first. *)
Theorem identity_roundtrip (x : X509PemBuilder) (key : PrivateKeyBuilder) :
  match private_key_from_pem (key_bytes key), X509_from_pem (x509_bytes x) with
  | Ok k, Ok c => ∀ ib,
      identity_from_x509 x key = Ok ib → identity_build ib = Ok (MkIdentity k c [])
  | Err e, _ => identity_from_x509 x key = Err (AnyhowContext "invalid key" e)
  | _, Err e => identity_from_x509 x key = Err (AnyhowContext "invalid cert" e)
  end.
Proof.
  unfold identity_from_x509, key_build, x509_build, certificate_from_pem.
  destruct (private_key_from_pem (key_bytes key)) as [k|e]; [|done].
  destruct (X509_from_pem (x509_bytes x)) as [c|e]; [|done]. simpl. intros ib.
  destruct (Pkcs12_build2 "" k c PASSWORD) as [p|e] eqn:Hbuild; [|done]. simpl.
  destruct (Pkcs12_to_der p) as [der|e] eqn:Hder; [|done]. simpl. intros [= <-].
  unfold identity_build, from_pkcs12. simpl.
  rewrite (pkcs12_der _ _ Hder). simpl. by rewrite (pkcs12_open _ _ _ _ _ Hbuild).
Qed.
End identity_theorems.

(** ** The context builders of both sides *)

Inductive SslVerifyMode : Type := VERIFY_NONE | VERIFY_PEER | VERIFY_FAIL_IF_NO_PEER_CERT.

(** [SslContextBuilder] of the openssl crate; files are given by their path. *)
Class SslContextBuilder (W B X509 PKey : Type) := {
  set_certificate_file : B → string → M W (result B anyhow);
  set_private_key_file : B → string → M W (result B anyhow);
  set_certificate : B → X509 → M W (result B anyhow);
  set_private_key : B → PKey → M W (result B anyhow);
  add_extra_chain_cert : B → X509 → M W (result B anyhow);
  set_ca_file : B → string → M W (result B anyhow);
  add_store_cert : B → X509 → M W (result B anyhow);
  set_verify : B → SslVerifyMode → B;
}.

(** acceptor.rs *)
Record TlsAcceptorBuilder (B : Type) : Type := MkAcceptorBuilder { ab_inner : B }.
Arguments MkAcceptorBuilder {B} _.
Arguments ab_inner {B} _.

(** connector.rs *)
Record TlsConnectorBuilder (B : Type) : Type := MkConnectorBuilder {
  cb_inner : B;
  cb_verify_hostname : bool;
  cb_allow_partial : bool;
}.
Arguments MkConnectorBuilder {B} _ _ _.
Arguments cb_inner {B} _.
Arguments cb_verify_hostname {B} _.
Arguments cb_allow_partial {B} _.

Section builders.
Context {W B X509 PKey Pkcs12 : Type}
  `{SslContextBuilder W B X509 PKey, !Crypto X509 PKey Pkcs12}.

Definition acceptor_builder (mozilla_intermediate_v5 : result B anyhow) :
    result (TlsAcceptorBuilder B) anyhow :=
  inner ←! mozilla_intermediate_v5; Ok (MkAcceptorBuilder inner).

Definition acceptor_key_from_pem_files (self : TlsAcceptorBuilder B)
    (cert_file key_file : string) : M W (result (TlsAcceptorBuilder B) anyhow) :=
  inner ←? set_certificate_file (ab_inner self) cert_file;
  inner ←? set_private_key_file inner key_file;
  mret (Ok (MkAcceptorBuilder inner)).

Definition acceptor_cert_and_key (self : TlsAcceptorBuilder B)
    (cert : Certificate X509) (key : PrivateKey PKey) :
    M W (result (TlsAcceptorBuilder B) anyhow) :=
  inner ←? set_certificate (ab_inner self) (x509 cert);
  inner ←? set_private_key inner (private_pkey key);
  mret (Ok (MkAcceptorBuilder inner)).

Definition acceptor_with_chain (self : TlsAcceptorBuilder B) (chain : list (Certificate X509)) :
    M W (result (TlsAcceptorBuilder B) anyhow) :=
  inner ←? try_fold (λ b cert, add_extra_chain_cert b (x509 cert)) (ab_inner self) chain;
  mret (Ok (MkAcceptorBuilder inner)).

Definition acceptor_ca_from_pem_file (self : TlsAcceptorBuilder B) (ca_file : string) :
    M W (result (TlsAcceptorBuilder B) anyhow) :=
  inner ←? set_ca_file (ab_inner self) ca_file;
  mret (Ok (MkAcceptorBuilder inner)).

Definition acceptor_ssl_verify_mode (self : TlsAcceptorBuilder B) (mode : SslVerifyMode) :
    TlsAcceptorBuilder B := MkAcceptorBuilder (set_verify (ab_inner self) mode).

Definition connector_builder (ssl_connector_builder : result B anyhow) :
    result (TlsConnectorBuilder B) anyhow :=
  inner ←! ssl_connector_builder; Ok (MkConnectorBuilder inner true true).

Definition set_inner (self : TlsConnectorBuilder B) (inner : B) : TlsConnectorBuilder B :=
  MkConnectorBuilder inner (cb_verify_hostname self) (cb_allow_partial self).

Definition hostname_verification_disabled (self : TlsConnectorBuilder B) :
    result (TlsConnectorBuilder B) anyhow :=
  Ok (MkConnectorBuilder (cb_inner self) false (cb_allow_partial self)).

Definition certificate_verification_disabled (self : TlsConnectorBuilder B) :
    result (TlsConnectorBuilder B) anyhow :=
  Ok (set_inner self (set_verify (cb_inner self) VERIFY_NONE)).

Definition connector_key_from_pem_files (self : TlsConnectorBuilder B)
    (cert_file key_file : string) : M W (result (TlsConnectorBuilder B) anyhow) :=
  inner ←? set_certificate_file (cb_inner self) cert_file;
  inner ←? set_private_key_file inner key_file;
  mret (Ok (set_inner self inner)).

Definition connector_ca_from_pem_file (self : TlsConnectorBuilder B) (ca_file : string) :
    M W (result (TlsConnectorBuilder B) anyhow) :=
  inner ←? set_ca_file (cb_inner self) ca_file;
  mret (Ok (set_inner self inner)).

Definition connector_add_root_certificate (self : TlsConnectorBuilder B)
    (cert : Certificate X509) : M W (result (TlsConnectorBuilder B) anyhow) :=
  inner ←? add_store_cert (cb_inner self) (x509 cert);
  mret (Ok (set_inner self inner)).

Definition with_identity (self : TlsConnectorBuilder B) (builder : IdentityBuilder) :
    M W (result (TlsConnectorBuilder B) anyhow) :=
  identity ←? mret (with_context "failed to build identity" (identity_build builder));
  inner ←? set_certificate (cb_inner self) (id_cert identity);
  inner ←? set_private_key inner (id_pkey identity);
  inner ←? try_fold add_extra_chain_cert inner (rev (id_chain identity));
  mret (Ok (set_inner self inner)).
End builders.

(** ** The builder as an observer sees it *)

Inductive ssl_call (X509 PKey : Type) : Type :=
| CertificateFile (path : string)
| PrivateKeyFile (path : string)
| SetCertificate (c : X509)
| SetPrivateKey (k : PKey)
| AddExtraChainCert (c : X509)
| CaFile (path : string)
| AddStoreCert (c : X509).
Arguments CertificateFile {X509 PKey} path.
Arguments PrivateKeyFile {X509 PKey} path.
Arguments SetCertificate {X509 PKey} c.
Arguments SetPrivateKey {X509 PKey} k.
Arguments AddExtraChainCert {X509 PKey} c.
Arguments CaFile {X509 PKey} path.
Arguments AddStoreCert {X509 PKey} c.

#[export] Instance observed_builder {X509 PKey} :
    SslContextBuilder (calls (ssl_call X509 PKey) anyhow) unit X509 PKey := {
  set_certificate_file b f := call_for b (CertificateFile f);
  set_private_key_file b f := call_for b (PrivateKeyFile f);
  set_certificate b c := call_for b (SetCertificate c);
  set_private_key b k := call_for b (SetPrivateKey k);
  add_extra_chain_cert b c := call_for b (AddExtraChainCert c);
  set_ca_file b f := call_for b (CaFile f);
  add_store_cert b c := call_for b (AddStoreCert c);
  set_verify b _ := b;
}.

Section builder_theorems.
Context {X509 PKey Pkcs12 : Type} `{!Crypto X509 PKey Pkcs12}.

(** C15: [with_identity] installs the certificate, then its key, then the chain in
    the reverse of the order the archive has it in; it stops at the first call that
    fails with the error of that call, and makes no call at all when the archive does
    not open.  The flags of the builder are kept. *)
Theorem with_identity_calls (self : TlsConnectorBuilder unit) (builder : IdentityBuilder)
    (outs : list (option anyhow)) :
  with_identity self builder (Calls [] outs) =
    match identity_build builder with
    | Err e => (Calls [] outs, Val (Err (AnyhowContext "failed to build identity" e)))
    | Ok id =>
        let cs := SetCertificate (id_cert id) :: SetPrivateKey (id_pkey id) ::
                  (AddExtraChainCert <$> rev (id_chain id)) in
        let '(k, r) := attempt outs (length cs) in
        (Calls (take k cs) (drop k outs), Val (map_ok (λ _, self) r))
    end.
Proof.
  unfold with_identity. destruct (identity_build builder) as [id|e]; [|done].
  destruct self as [[] vh ap]. simpl.
  apply (makes_run (SetCertificate (id_cert id) :: SetPrivateKey (id_pkey id) :: _)).
  do 2 apply makes_call_for.
  by apply (makes_fold _ _ _ (set_inner (MkConnectorBuilder () vh ap))).
Qed.
End builder_theorems.

(** ** The configured connector and acceptor *)

Class SslConnect (Ssl ErrorStack Mid Connector Config : Type) := {
  configure : Connector → result Config anyhow;
  config_verify_hostname : Config → bool → Config;
  config_partial_chain : Config → result Config anyhow;
  config_connect : Config → string → handshake_prog Ssl ErrorStack Mid;
}.
Class SslAccept (Ssl ErrorStack Mid Acceptor : Type) :=
  ssl_accept : Acceptor → handshake_prog Ssl ErrorStack Mid.

Record TlsConnector (Connector : Type) : Type := MkTlsConnector {
  tc_inner : Connector;
  tc_verify_hostname : bool;
  tc_allow_partial : bool;
}.
Arguments MkTlsConnector {Connector} _ _ _.
Arguments tc_inner {Connector} _.
Arguments tc_verify_hostname {Connector} _.
Arguments tc_allow_partial {Connector} _.
Record TlsAcceptor (Acceptor : Type) : Type := MkTlsAcceptor { ta_inner : Acceptor }.
Arguments MkTlsAcceptor {Acceptor} _.
Arguments ta_inner {Acceptor} _.

Section configured.
Context {Ssl ErrorStack Mid St Connector Config Acceptor B : Type}
  `{SslConnect Ssl ErrorStack Mid Connector Config, !SslAccept Ssl ErrorStack Mid Acceptor}.

Definition connector_build (ssl_build : B → Connector) (self : TlsConnectorBuilder B) :
    TlsConnector Connector :=
  MkTlsConnector (ssl_build (cb_inner self)) (cb_verify_hostname self) (cb_allow_partial self).
Definition acceptor_build (ssl_build : B → Acceptor) (self : TlsAcceptorBuilder B) :
    TlsAcceptor Acceptor := MkTlsAcceptor (ssl_build (ab_inner self)).

(** [TlsAcceptor::accept]: the future, not yet polled. *)
Definition tls_accept (self : TlsAcceptor Acceptor) (stream : St) :
    HandshakeFuture Ssl ErrorStack Mid St :=
  Initial (ssl_accept (ta_inner self)) (wrapper_new stream).

(** [TlsConnector::connect], up to its [await]. *)
Definition tls_connect (self : TlsConnector Connector) (domain : string) (stream : St) :
    result (HandshakeFuture Ssl ErrorStack Mid St) anyhow :=
  client_configuration ←! configure (tc_inner self);
  let client_configuration :=
    config_verify_hostname client_configuration (tc_verify_hostname self) in
  client_configuration ←!
    (if tc_allow_partial self then config_partial_chain client_configuration
     else Ok client_configuration);
  Ok (Initial (config_connect client_configuration domain) (wrapper_new stream)).
End configured.

(** ** Witnesses: an archive that lists its parts *)

Definition pem_text (bytes : list byte) : result (list byte) anyhow :=
  match bytes with [] => Err (AnyhowError "no start line") | _ => Ok bytes end.

(** The archive: password, key, certificate. *)
Definition sealed : Type := string * list byte * list byte.
Definition seal_der (p : sealed) : result (list byte) anyhow :=
  match p with
  | ("test"%string, [k], [c]) => Ok [k; c]
  | _ => Err (AnyhowError "unsupported")
  end.

#[export] Instance listed_crypto : Crypto (list byte) (list byte) sealed := {
  X509_from_pem := pem_text;
  X509_from_der := pem_text;
  X509_to_der c := Ok c;
  private_key_from_pem := pem_text;
  Pkcs12_from_der bytes :=
    match bytes with
    | [k; c] => Ok ("test"%string, [k], [c])
    | _ => Err (AnyhowError "bad tag")
    end;
  Pkcs12_to_der := seal_der;
  Pkcs12_parse2 p pass :=
    if bool_decide (p.1.1 = pass) then Ok (MkParsed (Some p.1.2) (Some p.2) None)
    else Err (AnyhowError "mac verify failure");
  Pkcs12_build2 _ key cert pass := Ok (pass, key, cert);
}.
#[export] Instance listed_crypto_laws : Pkcs12Laws (list byte) (list byte) sealed.
Proof.
  split; simpl.
  - intros [[pass k] c] bytes Hs. unfold seal_der in Hs.
    repeat case_match; simplify_eq/=; done.
  - intros name key cert pass p [= <-]. simpl. by rewrite bool_decide_eq_true_2.
Defined.

Lemma identity_roundtrip_witness :
  identity_build (MkIdentityDer [Byte.x0b; Byte.x0c]) =
    Ok (MkIdentity [Byte.x0b] [Byte.x0c] []).
Proof.
  exact (identity_roundtrip (MkX509Pem [Byte.x0c]) (MkKeyPem [Byte.x0b]) _ eq_refl).
Defined.
