(* ===== verification/NativeTls.v ===== *)
(** * Certificates and builders of the native-tls backend: src/src/native_tls.rs

    Certificates and keys are parsed and sealed with the openssl crate, as in
    [Openssl]; the identity is opened by native-tls.  The connector of
    async-native-tls is a record of settings that each call of the builder
    changes. *)

From S2P Require Export Openssl.

(** native-tls and async-native-tls. *)
Class NativeTls (NativeCertificate NativeIdentity Connector Acceptor : Type) := {
  native_cert_from_pem : list byte → result NativeCertificate anyhow;
  native_identity_from_pkcs12 : list byte → string → result NativeIdentity anyhow;
  connector_new : Connector;
  connector_identity : Connector → NativeIdentity → Connector;
  accept_invalid_certs : Connector → bool → Connector;
  accept_invalid_hostnames : Connector → bool → Connector;
  connector_use_sni : Connector → bool → Connector;
  connector_root_certificate : Connector → NativeCertificate → Connector;
  acceptor_new : NativeIdentity → result Acceptor anyhow;
}.

Module native.
Section cert.
Context {X509 PKey Pkcs12 NativeCertificate NativeIdentity Connector Acceptor : Type}
  `{Crypto X509 PKey Pkcs12,
    NativeTls NativeCertificate NativeIdentity Connector Acceptor}.

Definition x509_build (self : X509PemBuilder) : result X509 anyhow :=
  with_context "invalid cert" (X509_from_pem (x509_bytes self)).
Definition build_native (self : X509PemBuilder) : result NativeCertificate anyhow :=
  with_context "invalid pem file" (native_cert_from_pem (x509_bytes self)).
Definition key_build (self : PrivateKeyBuilder) : result PKey anyhow :=
  with_context "invalid key" (private_key_from_pem (key_bytes self)).

Definition PASSWORD : string := "test".

Definition from_x509 (x : X509PemBuilder) (key : PrivateKeyBuilder) :
    result IdentityBuilder anyhow :=
  server_key ←! key_build key;
  server_crt ←! x509_build x;
  p12 ←! with_context "Failed to create Pkcs12"
           (Pkcs12_build2 "" server_key server_crt PASSWORD);
  der ←! Pkcs12_to_der p12;
  Ok (MkIdentityDer der).

Definition identity_build (self : IdentityBuilder) : result NativeIdentity anyhow :=
  with_context "Failed to load der" (native_identity_from_pkcs12 (der_bytes self) PASSWORD).

(** *** [ConnectorBuilder] *)
Definition identity (builder : IdentityBuilder) : result Connector anyhow :=
  identity ←! identity_build builder;
  Ok (connector_identity connector_new identity).
Definition anonymous : Connector :=
  accept_invalid_hostnames (accept_invalid_certs connector_new true) true.
Definition no_cert_verification (self : Connector) : Connector :=
  accept_invalid_certs self true.
Definition danger_accept_invalid_hostnames (self : Connector) : Connector :=
  accept_invalid_hostnames self true.
Definition use_sni (self : Connector) (b : bool) : Connector := connector_use_sni self b.
Definition add_root_certificate (self : Connector) (builder : X509PemBuilder) :
    result Connector anyhow :=
  certificate ←! build_native builder;
  Ok (connector_root_certificate self certificate).
Definition connector_build (self : Connector) : Connector := self.

(** *** [AcceptorBuilder]: an identity. *)
Definition acceptor_identity (builder : IdentityBuilder) : result NativeIdentity anyhow :=
  identity_build builder.
Definition acceptor_build (self : NativeIdentity) : result Acceptor anyhow :=
  with_context "invalid cert" (acceptor_new self).
End cert.
End native.

(** ** What the identity of a certificate and a key opens to

    native-tls opens an archive that openssl sealed: it gives an identity with that
    key and that certificate. *)
Class NativeIdentityLaws (X509 PKey Pkcs12 NativeCertificate NativeIdentity Connector Acceptor
    : Type) `{Crypto X509 PKey Pkcs12,
              NativeTls NativeCertificate NativeIdentity Connector Acceptor} := {
  identity_parts : NativeIdentity → PKey * X509;
  native_open name key cert pass p der :
    Pkcs12_build2 name key cert pass = Ok p → Pkcs12_to_der p = Ok der →
    ∃ i, native_identity_from_pkcs12 der pass = Ok i ∧ identity_parts i = (key, cert);
}.

Section native_theorems.
Context {X509 PKey Pkcs12 NativeCertificate NativeIdentity Connector Acceptor : Type}
  `{NativeIdentityLaws X509 PKey Pkcs12 NativeCertificate NativeIdentity Connector Acceptor}.

(** An identity builder made from a certificate and a key always opens: the seal
    and the opening use the same password. *)
Lemma native_identity_opens (x : X509PemBuilder) (key : PrivateKeyBuilder) ib :
  native.from_x509 x key = Ok ib →
  ∃ k c i, private_key_from_pem (key_bytes key) = Ok k ∧ X509_from_pem (x509_bytes x) = Ok c ∧
    native.identity_build ib = Ok i ∧ identity_parts i = (k, c) ∧
    native.identity (Connector := Connector) ib = Ok (connector_identity connector_new i).
Proof.
  unfold native.from_x509, native.key_build, native.x509_build, native.identity.
  destruct (private_key_from_pem (key_bytes key)) as [k|e]; [|done].
  destruct (X509_from_pem (x509_bytes x)) as [c|e]; [|done]. simpl.
  destruct (Pkcs12_build2 "" k c native.PASSWORD) as [p|e] eqn:Hbuild; [|done]. simpl.
  destruct (Pkcs12_to_der p) as [der|e] eqn:Hder; [|done]. simpl. intros [= <-].
  destruct (native_open _ _ _ _ _ _ Hbuild Hder) as (i & Hi & Hp).
  exists k, c, i. unfold native.identity_build. simpl. by rewrite Hi.
Qed.
End native_theorems.
