(* ===== verification/RustTls.v ===== *)
(** * Certificates, keys and builders of the rustls backend: src/src/rust_tls.rs

    The PEM reader is rustls-pemfile's: [read_one] gives the next item of a reader,
    an error, or nothing at the end; [certs] is its iterator over the certificates.
    The configuration builders of rustls are an interface; their stages are types,
    as they are in the code. *)

From S2P Require Export Calls.

(** The items of rustls-pemfile, over the bytes of a key. *)
Inductive Item (Key : Type) : Type :=
| Pkcs1Key (k : Key)
| Pkcs8Key (k : Key)
| Sec1Key (k : Key)
| OtherItem.
Arguments Pkcs1Key {Key} k.
Arguments Pkcs8Key {Key} k.
Arguments Sec1Key {Key} k.
Arguments OtherItem {Key}.

Inductive PrivateKeyDer (Key : Type) : Type :=
| KeyPkcs1 (k : Key)
| KeyPkcs8 (k : Key)
| KeySec1 (k : Key).
Arguments KeyPkcs1 {Key} k.
Arguments KeyPkcs8 {Key} k.
Arguments KeySec1 {Key} k.

(** [mod cert] and the configurations of the builders. *)
Class Pem (Reader Key Cert : Type) := {
  read_one : Reader → result (option (Item Key)) string * Reader;
  certs : Reader → list (result Cert string);
}.
Class RootStore (Store Cert : Type) := {
  root_empty : Store;
  root_add : Store → Cert → result Store string;
}.

Section cert.
Context {W Reader Key Cert Store : Type} `{Pem Reader Key Cert, RootStore Store Cert}.
Context (open_file : string → M W (result Reader io_error)).

(** [iter::from_fn(|| read_one(rd).transpose())]. *)
#[export] Instance pem_items : Iterator Reader (result (Item Key) string) := λ rd,
  match read_one rd with
  | (Ok (Some item), rd') => (Some (Ok item), rd')
  | (Ok None, rd') => (None, rd')
  | (Err e, rd') => (Some (Err e), rd')
  end.

Definition push_key (item : Item Key) (keys : list (PrivateKeyDer Key)) :
    list (PrivateKeyDer Key) :=
  match item with
  | Pkcs1Key key => keys ++ [KeyPkcs1 key]
  | Pkcs8Key key => keys ++ [KeyPkcs8 key]
  | Sec1Key key => keys ++ [KeySec1 key]
  | OtherItem => keys
  end.

(** The loop over the items; [item.unwrap()] unwinds on a malformed one. *)
Fixpoint load_keys_loop (fuel : nat) (rd : Reader) (keys : list (PrivateKeyDer Key)) :
    outcome (list (PrivateKeyDer Key)) :=
  match fuel with
  | O => OutOfFuel
  | S fuel =>
      match iter_next rd with
      | (None, _) => Val keys
      | (Some (Err _), _) => Panic
      | (Some (Ok item), rd) => load_keys_loop fuel rd (push_key item keys)
      end
  end.

Definition load_keys_from_reader (fuel : nat) (rd : Reader) :
    outcome (result (list (PrivateKeyDer Key)) anyhow) :=
  keys ← load_keys_loop fuel rd []; Val (Ok keys).

Definition load_first_key_from_reader (fuel : nat) (rd : Reader) :
    outcome (result (PrivateKeyDer Key) anyhow) :=
  r ← load_keys_from_reader fuel rd;
  Val (keys ←! r;
       match keys with
       | [] => Err (AnyhowError "no keys found")
       | key :: _ => Ok key
       end).

Definition load_certs_from_reader (rd : Reader) : result (list Cert) anyhow :=
  collect (map (λ r, with_context "invalid cert" (map_err AnyhowError r)) (certs rd)).

(** The variants that take a path. *)
Definition load_certs (path : string) : M W (result (list Cert) anyhow) :=
  rd ←? m_map_err io_anyhow (open_file path);
  mret (load_certs_from_reader rd).
Definition load_keys (fuel : nat) (path : string) :
    M W (result (list (PrivateKeyDer Key)) anyhow) :=
  rd ←? m_map_err io_anyhow (open_file path);
  lift (load_keys_from_reader fuel rd).
Definition load_first_key (fuel : nat) (path : string) :
    M W (result (PrivateKeyDer Key) anyhow) :=
  rd ←? m_map_err io_anyhow (open_file path);
  lift (load_first_key_from_reader fuel rd).

(** [root_store.add(cert).context("invalid ca crt")?] for each certificate. *)
Fixpoint add_roots (root_store : Store) (cs : list Cert) : result Store anyhow :=
  match cs with
  | [] => Ok root_store
  | cert :: cs =>
      root_store ←! with_context "invalid ca crt"
                      (map_err AnyhowError (root_add root_store cert));
      add_roots root_store cs
  end.

Definition load_root_ca (path : string) : M W (result Store anyhow) :=
  cs ←? m_context "invalid ca crt" (load_certs path);
  mret (add_roots root_empty cs).
End cert.

(** ** The builders *)

(** rustls: a configuration is built in stages. *)
Class RustlsClient (WantsVerifier WantsClientCert ClientConfig Store Cert Key Connector : Type)
  := {
  client_config_builder : WantsVerifier;
  client_root_certificates : WantsVerifier → Store → WantsClientCert;
  client_custom_verifier : WantsVerifier → WantsClientCert;
  client_no_auth : WantsClientCert → ClientConfig;
  client_auth_cert : WantsClientCert → list Cert → PrivateKeyDer Key →
    result ClientConfig string;
  connector_from : ClientConfig → Connector;
}.
Class RustlsServer (WantsVerifier WantsServerCert ServerConfig Verifier Store Cert Key Acceptor
    : Type) := {
  server_config_builder : WantsVerifier;
  server_no_client_auth : WantsVerifier → WantsServerCert;
  build_client_verifier : Store → result Verifier string;
  server_client_verifier : WantsVerifier → Verifier → WantsServerCert;
  server_single_cert : WantsServerCert → list Cert → PrivateKeyDer Key →
    result ServerConfig string;
  acceptor_from : ServerConfig → Acceptor;
}.

Section connector_builder.
Context {W Reader Key Cert Store WantsVerifier WantsClientCert ClientConfig Connector : Type}
  `{Pem Reader Key Cert, RootStore Store Cert,
    RustlsClient WantsVerifier WantsClientCert ClientConfig Store Cert Key Connector}.
Context (open_file : string → M W (result Reader io_error)).
(** [Cursor::new(buffer)]. *)
Context (cursor : list byte → Reader).

Definition connector_safe_defaults : WantsVerifier := client_config_builder.

Definition with_root_certificates (self : WantsVerifier) (cs : list Cert) :
    result WantsClientCert anyhow :=
  root_store ←! add_roots root_empty cs;
  Ok (client_root_certificates self root_store).

Definition load_ca_cert (self : WantsVerifier) (path : string) :
    M W (result WantsClientCert anyhow) :=
  cs ←? load_certs (Key := Key) open_file path;
  mret (with_root_certificates self cs).

Definition load_ca_cert_from_bytes (self : WantsVerifier) (buffer : list byte) :
    result WantsClientCert anyhow :=
  cs ←! load_certs_from_reader (Key := Key) (cursor buffer);
  with_root_certificates self cs.

Definition no_cert_verification (self : WantsVerifier) : ClientConfig :=
  client_no_auth (client_custom_verifier self).

Definition with_single_cert (self : WantsClientCert) (cs : list Cert)
    (key : PrivateKeyDer Key) : result ClientConfig anyhow :=
  with_context "invalid cert" (map_err AnyhowError (client_auth_cert self cs key)).

Definition load_client_certs (fuel : nat) (self : WantsClientCert)
    (cert_path key_path : string) : M W (result ClientConfig anyhow) :=
  cs ←? load_certs (Key := Key) open_file cert_path;
  key ←? load_first_key (Cert := Cert) open_file fuel key_path;
  mret (with_single_cert self cs key).

Definition load_client_certs_from_bytes (fuel : nat) (self : WantsClientCert)
    (cert_buf key_buf : list byte) : outcome (result ClientConfig anyhow) :=
  match load_certs_from_reader (Key := Key) (cursor cert_buf) with
  | Ok cs =>
      key ← load_first_key_from_reader (Cert := Cert) fuel (cursor key_buf);
      Val (key ←! key; with_single_cert self cs key)
  | Err e => Val (Err e)
  end.

Definition no_client_auth (self : WantsClientCert) : ClientConfig := client_no_auth self.
Definition connector_config_build (self : ClientConfig) : Connector := connector_from self.
End connector_builder.

Section acceptor_builder.
Context {W Reader Key Cert Store WantsVerifier WantsServerCert ServerConfig Verifier Acceptor : Type}
  `{Pem Reader Key Cert, RootStore Store Cert,
    RustlsServer WantsVerifier WantsServerCert ServerConfig Verifier Store Cert Key Acceptor}.
Context (open_file : string → M W (result Reader io_error)).

Definition acceptor_safe_defaults : WantsVerifier := server_config_builder.
Definition no_client_authentication (self : WantsVerifier) : WantsServerCert :=
  server_no_client_auth self.

Definition client_authenticate (self : WantsVerifier) (path : string) :
    M W (result WantsServerCert anyhow) :=
  root_store ←? load_root_ca (Key := Key) open_file path;
  mret (client_verifier ←! with_context "invalid verifier"
                             (map_err AnyhowError (build_client_verifier root_store));
        Ok (server_client_verifier self client_verifier)).

Definition load_server_certs (fuel : nat) (self : WantsServerCert)
    (cert_path key_path : string) : M W (result ServerConfig anyhow) :=
  cs ←? load_certs (Key := Key) open_file cert_path;
  key ←? load_first_key (Cert := Cert) open_file fuel key_path;
  mret (with_context "invalid cert" (map_err AnyhowError (server_single_cert self cs key))).

Definition acceptor_config_build (self : ServerConfig) : Acceptor := acceptor_from self.
End acceptor_builder.

(** [NoCertificateVerification]: every certificate and every signature is fine. *)
Section no_verification.
Context {Cert ServerName Time Dss : Type}.
Definition verify_server_cert (end_entity : Cert) (intermediates : list Cert)
    (server_name : ServerName) (ocsp_response : list byte) (now : Time) :
    result unit string := Ok tt.
Definition verify_tls12_signature (message : list byte) (cert : Cert) (dss : Dss) :
    result unit string := Ok tt.
Definition verify_tls13_signature (message : list byte) (cert : Cert) (dss : Dss) :
    result unit string := Ok tt.

(** The schemes are the ones of the crypto provider. *)
Definition supported_verify_schemes {Provider Scheme : Type} (default_provider : Provider)
    (supported_schemes : Provider → list Scheme) : list Scheme :=
  let provider := default_provider in supported_schemes provider.
End no_verification.

(** ** What loading keys and roots gives *)

Section theorems.
Context {Reader Key Cert Store : Type} `{Pem Reader Key Cert, RootStore Store Cert}.

(** The private key of an item, if it is one. *)
Definition key_of (item : Item Key) : option (PrivateKeyDer Key) :=
  match item with
  | Pkcs1Key k => Some (KeyPkcs1 k)
  | Pkcs8Key k => Some (KeyPkcs8 k)
  | Sec1Key k => Some (KeySec1 k)
  | OtherItem => None
  end.

Lemma push_key_of item keys : push_key item keys = keys ++ option_list (key_of item).
Proof. destruct item; simpl; [done..|]. by rewrite app_nil_r. Qed.

Lemma load_keys_loop_yields rd items fuel keys :
  yields rd items → (length items < fuel)%nat →
  load_keys_loop fuel rd keys =
    match collect items with
    | Ok oks => Val (keys ++ omap key_of oks)
    | Err _ => Panic
    end.
Proof.
  intros Hy. revert fuel keys. induction Hy as [it it' Hn|it x it' xs Hn Hy IH];
    intros [|fuel] keys Hfuel; simpl in Hfuel; [lia| |lia|]; simpl; rewrite Hn; simpl.
  - by rewrite app_nil_r.
  - destruct x as [item|e]; simpl; [|done]. rewrite IH by lia.
    destruct (collect xs) as [oks|e]; simpl; [|done].
    rewrite push_key_of, <- app_assoc. by destruct (key_of item).
Qed.

(** C30: the first key of a reader is the first PKCS#1, PKCS#8 or SEC1 item of it,
    or the error "no keys found" if there is none; but every item up to the end is
    read first, and a malformed one, even after the key, unwinds instead of giving
    an error.  One more unit of fuel than items is enough. *)
Theorem load_first_key_correct (rd : Reader) (items : list (result (Item Key) string))
    (fuel : nat) (Hy : yields rd items) (Hfuel : (length items < fuel)%nat) :
  load_first_key_from_reader fuel rd =
    match collect items with
    | Ok oks => Val (ok_or (head (omap key_of oks)) (AnyhowError "no keys found"))
    | Err _ => Panic
    end.
Proof.
  unfold load_first_key_from_reader, load_keys_from_reader.
  rewrite (load_keys_loop_yields rd items) by done.
  destruct (collect items) as [oks|e]; [|done]. simpl. by destruct (omap key_of oks).
Qed.
End theorems.

(** ** Files or bytes *)
Section sources.
Context {W Reader Key Cert Store WantsVerifier WantsClientCert ClientConfig Connector : Type}
  `{Pem Reader Key Cert, RootStore Store Cert,
    RustlsClient WantsVerifier WantsClientCert ClientConfig Store Cert Key Connector}.
Context (open_file : string → M W (result Reader io_error)).
Context (cursor : list byte → Reader).

Lemma load_first_key_same rd rd' fuel items :
  yields rd items → yields rd' items → (length items < fuel)%nat →
  load_first_key_from_reader fuel rd = load_first_key_from_reader fuel rd'.
Proof.
  intros Hy Hy' Hf. unfold load_first_key_from_reader, load_keys_from_reader.
  by rewrite (load_keys_loop_yields rd items), (load_keys_loop_yields rd' items).
Qed.

(** Loading a client certificate and its key from files or from bytes is the same: when
    the files hold the bytes, [load_client_certs] ends as [load_client_certs_from_bytes]
    does, with the same configuration, the same error or unwinding alike, and it does
    not open the file of the key if the certificates do not load. *)
Lemma load_client_certs_sources (self : WantsClientCert) (cert_path key_path : string)
    (cert_buf key_buf : list byte) (rdc rdk : Reader) (fuel : nat) (w w1 w2 : W)
    (items : list (result (Item Key) string)) :
  open_file cert_path w = (w1, Val (Ok rdc)) → certs rdc = certs (cursor cert_buf) →
  open_file key_path w1 = (w2, Val (Ok rdk)) →
  yields rdk items → yields (cursor key_buf) items → (length items < fuel)%nat →
  load_client_certs open_file fuel self cert_path key_path w =
    (if is_ok (load_certs_from_reader (Key := Key) (cursor cert_buf)) then w2 else w1,
     load_client_certs_from_bytes cursor fuel self cert_buf key_buf).
Proof.
  intros Hc Hcerts Hk Hy Hy' Hfuel.
  assert (load_certs_from_reader (Key := Key) rdc =
          load_certs_from_reader (Key := Key) (cursor cert_buf)) as Hload
    by by unfold load_certs_from_reader; rewrite Hcerts.
  unfold load_client_certs, load_client_certs_from_bytes, load_certs, load_first_key.
  unfold m_map_err, try_bind, mbind, M_bind. rewrite Hc. simpl. rewrite Hload.
  destruct (load_certs_from_reader (Key := Key) (cursor cert_buf)) as [cs|e]; [|done].
  rewrite Hk. simpl. unfold lift.
  rewrite (load_first_key_same rdk (cursor key_buf) fuel items) by done.
  by destruct (load_first_key_from_reader fuel (cursor key_buf)) as [[key|e]| |].
Qed.
End sources.

(** ** Witness: a reader that is its items *)

Definition item_reader : Type := list (result (Item Z) string).
#[export] Instance item_pem : Pem item_reader Z Z := {
  read_one rd :=
    match rd with
    | [] => (Ok None, [])
    | Ok i :: rd => (Ok (Some i), rd)
    | Err e :: rd => (Err e, rd)
    end;
  certs _ := [];
}.

Lemma item_reader_yields (rd : item_reader) : yields rd rd.
Proof.
  induction rd as [|[i|e] rd IH].
  - by eapply yields_nil.
  - by eapply yields_cons.
  - by eapply yields_cons.
Qed.

Lemma load_first_key_correct_witness :
  load_first_key_from_reader 4 ([Ok OtherItem; Ok (Pkcs8Key 7); Ok (Sec1Key 8)] : item_reader) =
    Val (Ok (KeyPkcs8 7)) ∧
  load_first_key_from_reader 4 ([Ok (Pkcs8Key 7); Err "illegal section start"%string]
    : item_reader) = Panic.
Proof.
  split.
  - refine (load_first_key_correct ([Ok OtherItem; Ok (Pkcs8Key 7); Ok (Sec1Key 8)]
      : item_reader) _ 4 (item_reader_yields _) _). simpl. lia.
  - refine (load_first_key_correct ([Ok (Pkcs8Key 7); Err "illegal section start"%string]
      : item_reader) _ 4 (item_reader_yields _) _). simpl. lia.
Defined.
