(* ===== verification/Net.v ===== *)
(** * TCP streams and their options: src/src/net/tcp_stream.rs

    [async_net] and [socket2] are an interface over the network [W].  A stream is
    handed out only after every option asked for has been set on it. *)

From S2P Require Export StdTime Calls.

(** The TCP stream of async_net and the [SockRef] and [TcpKeepalive] of socket2. *)
Class TcpNet (W TcpStream TcpKeepalive : Type) := {
  tcp_connect : string → M W (result TcpStream io_error);
  set_nodelay : TcpStream → bool → M W (result unit io_error);
  set_tcp_keepalive : TcpStream → TcpKeepalive → M W (result unit io_error);
  stream_raw_fd : TcpStream → Z;
  keepalive_new : TcpKeepalive;
  with_time : TcpKeepalive → Duration → TcpKeepalive;
  with_interval : TcpKeepalive → Duration → TcpKeepalive;
  with_retries : TcpKeepalive → Z → TcpKeepalive;
}.

Definition TCP_KEEPALIVE_TIME : Duration := StdTime.from_secs 7200.
Definition TCP_KEEPALIVE_INTERVAL : Duration := StdTime.from_secs 75.
Definition TCP_KEEPALIVE_PROBES : Z := 9.

(** The record of the builds other than Windows, which has no [retries]. *)
Record KeepaliveOpts : Type := MkKeepaliveOpts {
  time : option Duration;
  interval : option Duration;
  retries : option Z;
}.

Record SocketOpts : Type := MkSocketOpts {
  nodelay : option bool;
  keepalive : option KeepaliveOpts;
}.

Definition keepalive_opts_default : KeepaliveOpts :=
  MkKeepaliveOpts (Some TCP_KEEPALIVE_TIME) (Some TCP_KEEPALIVE_INTERVAL)
    (Some TCP_KEEPALIVE_PROBES).
Definition socket_opts_default : SocketOpts := MkSocketOpts None None.

Section tcp_stream.
Context {W TcpStream TcpKeepalive : Type} `{TcpNet W TcpStream TcpKeepalive}.

(** [impl From<&KeepaliveOpts> for TcpKeepalive]. *)
Definition keepalive_from (value : KeepaliveOpts) : TcpKeepalive :=
  let result := keepalive_new in
  let result := match time value with Some t => with_time result t | None => result end in
  let result :=
    match interval value with Some i => with_interval result i | None => result end in
  match retries value with Some r => with_retries result r | None => result end.

Definition stream_with_opts (addr : string) (socket_opts : option SocketOpts) :
    M W (result TcpStream io_error) :=
  tcp_stream ←? tcp_connect addr;
  match socket_opts with
  | Some socket_opts =>
      _ ←? match nodelay socket_opts with
           | Some nodelay => set_nodelay tcp_stream nodelay
           | None => mret (Ok tt)
           end;
      _ ←? match keepalive socket_opts with
           | Some keepalive_opts => set_tcp_keepalive tcp_stream (keepalive_from keepalive_opts)
           | None => mret (Ok tt)
           end;
      mret (Ok tcp_stream)
  | None => mret (Ok tcp_stream)
  end.

Definition stream (addr : string) : M W (result TcpStream io_error) :=
  let socket_opts := MkSocketOpts (nodelay socket_opts_default) (Some keepalive_opts_default) in
  stream_with_opts addr (Some socket_opts).

(** [AsConnectionFd] and [SplitConnection] of [TcpStream]. *)
Definition as_connection_fd (s : TcpStream) : Z := stream_raw_fd s.
Definition tcp_split_connection (s : TcpStream) : TcpStream * TcpStream := (s, s).

(** A stream that is handed out was connected, and every option that was asked
    for was set on it, the delay before the keep-alive. *)
Lemma stream_with_opts_ok addr opts w w' s :
  stream_with_opts addr opts w = (w', Val (Ok s)) →
  ∃ w1 w2, tcp_connect addr w = (w1, Val (Ok s)) ∧
    match opts ≫= nodelay with
    | Some b => set_nodelay s b w1 = (w2, Val (Ok tt))
    | None => w2 = w1
    end ∧
    match opts ≫= keepalive with
    | Some k => set_tcp_keepalive s (keepalive_from k) w2 = (w', Val (Ok tt))
    | None => w' = w2
    end.
Proof.
  unfold stream_with_opts, try_bind, mbind, M_bind.
  destruct (tcp_connect addr w) as [w1 [[s1|e]| |]] eqn:Hc; try done.
  destruct opts as [[[b|] [k|]]|]; simpl.
  - destruct (set_nodelay s1 b w1) as [w2 [[[]|e]| |]] eqn:Hn; try done.
    destruct (set_tcp_keepalive s1 _ w2) as [w3 [[[]|e]| |]] eqn:Hk; try done.
    intros [= <- <-]. eauto.
  - destruct (set_nodelay s1 b w1) as [w2 [[[]|e]| |]] eqn:Hn; try done.
    intros [= <- <-]. eauto.
  - destruct (set_tcp_keepalive s1 _ w1) as [w3 [[[]|e]| |]] eqn:Hk; try done.
    intros [= <- <-]. eauto.
  - intros [= <- <-]. eauto.
  - intros [= <- <-]. eauto.
Qed.
End tcp_stream.

(** ** The build for Windows: no number of probes *)
Module windows.

Record KeepaliveOpts : Type := MkWindowsOpts {
  time : option Duration;
  interval : option Duration;
}.

Definition keepalive_opts_default : KeepaliveOpts :=
  MkWindowsOpts (Some TCP_KEEPALIVE_TIME) (Some TCP_KEEPALIVE_INTERVAL).

Definition keepalive_from `{TcpNet W TcpStream TcpKeepalive} (value : KeepaliveOpts) :
    TcpKeepalive :=
  let result := keepalive_new in
  let result := match time value with Some t => with_time result t | None => result end in
  match interval value with Some i => with_interval result i | None => result end.

(** It sets what the other builds set when no probes are asked for. *)
Lemma windows_keepalive `{TcpNet W TcpStream TcpKeepalive} (value : KeepaliveOpts) :
  keepalive_from value =
    Net.keepalive_from (Net.MkKeepaliveOpts (time value) (interval value) None).
Proof. done. Qed.
End windows.

(** ** The network as an observer sees it *)

(** socket2's [TcpKeepalive] holds what was set on it. *)
Definition socket2_keepalive : Type := KeepaliveOpts.

Inductive net_call : Type :=
| Connect (addr : string)
| SetNodelay (b : bool)
| SetKeepalive (k : socket2_keepalive).

(** There is one connection; the stream is its file descriptor. *)
Definition the_stream : Z := 5.

#[export] Instance observed_net : TcpNet (calls net_call io_error) Z socket2_keepalive := {
  tcp_connect addr := call_for the_stream (Connect addr);
  set_nodelay _ b := call (SetNodelay b);
  set_tcp_keepalive _ k := call (SetKeepalive k);
  stream_raw_fd s := s;
  keepalive_new := MkKeepaliveOpts None None None;
  with_time k t := MkKeepaliveOpts (Some t) (interval k) (retries k);
  with_interval k i := MkKeepaliveOpts (time k) (Some i) (retries k);
  with_retries k r := MkKeepaliveOpts (time k) (interval k) (Some r);
}.

Definition requested (opts : option SocketOpts) : list net_call :=
  match opts ≫= nodelay with Some b => [SetNodelay b] | None => [] end ++
  match opts ≫= keepalive with Some k => [SetKeepalive k] | None => [] end.

(** C14: connecting with options makes exactly the calls asked for, in order:
    connect, then the delay if given, then the keep-alive parameters if given, each
    field that is given and no other.  The first call that fails ends it with its
    error, and whichever call may fail, the stream is returned only if none did. *)
Theorem stream_with_opts_trace (addr : string) (opts : option SocketOpts)
    (outs : list (option io_error)) :
  let cs := Connect addr :: requested opts in
  stream_with_opts addr opts (Calls [] outs) =
    let '(k, r) := attempt outs (length cs) in
    (Calls (take k cs) (drop k outs), Val (map_ok (λ _, the_stream) r)).
Proof.
  apply makes_run. unfold stream_with_opts, requested.
  apply makes_call_for.
  destruct opts as [[[b|] [[[t|] [i|] [r|]]|]]|]; simpl;
    repeat apply makes_call; apply makes_nil.
Qed.

(** The default stream: keep-alive after 7200 seconds idle, every 75 seconds, nine
    probes, and no request about the delay. *)
Example stream_default_calls addr :
  made (stream addr (Calls (E := io_error) [] [])).1 =
    [Connect addr;
     SetKeepalive (MkKeepaliveOpts (Some (MkDuration 7200 0)) (Some (MkDuration 75 0)) (Some 9))].
Proof. reflexivity. Qed.
