(* ===== verification/Connectors.v ===== *)
(** * Domain connectors: src/src/net/mod.rs and the connectors of the TLS backends
    (src/src/openssl/connector.rs, native_tls.rs, rust_tls.rs)

    [TcpDomainConnector] is the interface the rest of a program connects through;
    its implementations are its instances.  All but the one of browsers open a
    TCP stream with some options, then make a session on that stream, and hand out
    the two halves of the session with the descriptor of the stream: [connection_sound]
    says so of each. *)

From S2P Require Export Net Openssl.

(** The boxed halves of a connection: of the stream itself or of a TLS session. *)
Inductive Half (TcpStream Tls : Type) : Type :=
| HalfTcp (s : TcpStream)
| HalfTls (t : Tls).
Arguments HalfTcp {TcpStream Tls} s.
Arguments HalfTls {TcpStream Tls} t.

(** [ConnectionFd] is a descriptor, or, on [wasm32], the address as a string. *)
Abbreviation connection TcpStream Tls Fd :=
  (Half TcpStream Tls * Half TcpStream Tls * Fd)%type.

(** The trait.  [Box<dyn TcpDomainConnector>] of a connector is the connector. *)
Class TcpDomainConnector (W TcpStream Tls Fd T : Type) := {
  connect : T → string → M W (result (connection TcpStream Tls Fd) io_error);
  new_domain : T → string → T;
  domain : T → string;
  clone_box : T → T;
}.

(** [AsyncReadExt::split] of futures: the reading and the writing half of a session
    they share. *)
Definition async_split {TcpStream Tls} (t : Tls) :
    Half TcpStream Tls * Half TcpStream Tls := (HalfTls t, HalfTls t).

(** The error of a failed handshake. *)
Definition failed_to_connect (display : string) : io_error :=
  IoErr ConnectionRefused ("failed to connect: " +:+ display).

(** The options with the delay off, of two of the connectors. *)
Definition nodelay_opts : SocketOpts := MkSocketOpts (Some true) (Some keepalive_opts_default).
(** The options of [stream]. *)
Definition stream_opts : SocketOpts := MkSocketOpts None (Some keepalive_opts_default).

(** ** The plain TCP connector *)
Record DefaultTcpDomainConnector : Type := MkDefaultTcp {}.
Definition default_tcp_new : DefaultTcpDomainConnector := MkDefaultTcp.

Section connectors.
Context {W TcpStream TcpKeepalive : Type} `{TcpNet W TcpStream TcpKeepalive}.

Definition default_tcp_connect {Tls} (self : DefaultTcpDomainConnector) (addr : string) :
    M W (result (connection TcpStream Tls Z) io_error) :=
  tcp_stream ←? stream addr;
  let fd := as_connection_fd tcp_stream in
  mret (Ok (HalfTcp tcp_stream, HalfTcp tcp_stream, fd)).

#[export] Instance default_tcp_connector {Tls} :
    TcpDomainConnector W TcpStream Tls Z DefaultTcpDomainConnector := {
  connect := default_tcp_connect;
  new_domain self _ := self;
  domain _ := "localhost";
  clone_box self := self;
}.
End connectors.

(** ** The connector of browsers: [mod wasm_connector]

    The websocket of ws_stream_wasm: [WsMeta::connect], and [into_io] of its stream.
    The session is the stream; there is no descriptor, so the address is handed out. *)
Module wasm_connector.
Section websocket.
Context {W TcpStream WsMeta WsStream WsStreamIo WsErr : Type}
  (ws_connect : string → M W (result (WsMeta * WsStream) WsErr))
  (into_io : WsStream → WsStreamIo) (ws_display : WsErr → string).

Record DefaultDomainWebsocketConnector : Type := MkWebsocket {}.
Definition websocket_new : DefaultDomainWebsocketConnector := MkWebsocket.

Definition websocket_connect (self : DefaultDomainWebsocketConnector) (addr : string) :
    M W (result (connection TcpStream WsStreamIo string) io_error) :=
  ws ←? m_map_err (λ e, IoErr Other (ws_display e)) (ws_connect addr);
  let '(_, wsstream) := ws in
  let wsstream_io := into_io wsstream in
  let '(stream, sink) := async_split wsstream_io in
  mret (Ok (sink, stream, addr)).

#[export] Instance websocket_connector :
    TcpDomainConnector W TcpStream WsStreamIo string DefaultDomainWebsocketConnector := {
  connect := websocket_connect;
  new_domain self _ := self;
  domain _ := "localhost";
  clone_box self := self;
}.
End websocket.
End wasm_connector.

(** ** OpenSSL *)
Module openssl_tls.
(** [SplitConnection] of [TlsStream]: the writing half first. *)
Definition tls_split_connection {TcpStream Tls} (self : Tls) :
    Half TcpStream Tls * Half TcpStream Tls :=
  let '(read, write) := async_split self in (write, read).
Section openssl.
Context {W TcpStream TcpKeepalive : Type} `{TcpNet W TcpStream TcpKeepalive}.
Context {Ssl ErrorStack Mid Connector Config : Type}
  `{SslConnect Ssl ErrorStack Mid Connector Config}.
(** The executor that drives the future of a handshake to its end. *)
Context (block_on : HandshakeFuture Ssl ErrorStack Mid TcpStream →
  M W (result (TlsStream Ssl TcpStream) anyhow)).

Abbreviation Tls := (TlsStream Ssl TcpStream).

(** [TlsConnector::connect], awaited. *)
Definition tls_session (self : TlsConnector Connector) (d : string) (s : TcpStream) :
    M W (result Tls anyhow) :=
  match tls_connect self d s with
  | Ok handshake => block_on handshake
  | Err e => mret (Err e)
  end.

Record TlsAnonymousConnector : Type := MkAnonymous { anonymous_inner : TlsConnector Connector }.
Record TlsDomainConnector : Type := MkDomain {
  domain_name : string;
  domain_connector : TlsConnector Connector;
}.

Definition anonymous_connect (self : TlsAnonymousConnector) (d : string) :
    M W (result (connection TcpStream Tls Z) io_error) :=
  let socket_opts := MkSocketOpts (Some true) (Some keepalive_opts_default) in
  tcp_stream ←? stream_with_opts d (Some socket_opts);
  let fd := as_connection_fd tcp_stream in
  tls ←? m_map_err (λ e, failed_to_connect (anyhow_display e))
           (tls_session (anonymous_inner self) d tcp_stream);
  let '(write, read) := tls_split_connection tls in
  mret (Ok (write, read, fd)).

Definition domain_connect (self : TlsDomainConnector) (addr : string) :
    M W (result (connection TcpStream Tls Z) io_error) :=
  tcp_stream ←? stream addr;
  let fd := as_connection_fd tcp_stream in
  tls ←? m_map_err (λ e, failed_to_connect (anyhow_display e))
           (tls_session (domain_connector self) (domain_name self) tcp_stream);
  let '(write, read) := tls_split_connection tls in
  mret (Ok (write, read, fd)).

#[export] Instance anonymous : TcpDomainConnector W TcpStream Tls Z TlsAnonymousConnector := {
  connect := anonymous_connect;
  new_domain self _ := self;
  domain _ := "localhost";
  clone_box self := self;
}.
#[export] Instance named : TcpDomainConnector W TcpStream Tls Z TlsDomainConnector := {
  connect := domain_connect;
  new_domain self d := MkDomain d (domain_connector self);
  domain := domain_name;
  clone_box self := self;
}.
End openssl.
End openssl_tls.

(** ** native-tls *)
Module native_tls.
(** [SplitConnection] of [TlsStream]: the writing half first. *)
Definition tls_split_connection {TcpStream Tls} (self : Tls) :
    Half TcpStream Tls * Half TcpStream Tls :=
  let '(read, write) := async_split self in (write, read).
Section native.
Context {W TcpStream TcpKeepalive : Type} `{TcpNet W TcpStream TcpKeepalive}.
(** The connector and the session of async-native-tls, and how its error displays. *)
Context {NativeConnector Tls NativeError : Type}
  (native_connect : NativeConnector → string → TcpStream → M W (result Tls NativeError))
  (native_display : NativeError → string).

Record TlsAnonymousConnector : Type := MkAnonymous { anonymous_inner : NativeConnector }.
Record TlsDomainConnector : Type := MkDomain {
  domain_name : string;
  domain_connector : NativeConnector;
}.

Definition anonymous_connect (self : TlsAnonymousConnector) (d : string) :
    M W (result (connection TcpStream Tls Z) io_error) :=
  tcp_stream ←? stream d;
  let fd := as_connection_fd tcp_stream in
  tls ←? m_map_err (λ e, failed_to_connect (native_display e))
           (native_connect (anonymous_inner self) d tcp_stream);
  let '(write, read) := tls_split_connection tls in
  mret (Ok (write, read, fd)).

Definition domain_connect (self : TlsDomainConnector) (addr : string) :
    M W (result (connection TcpStream Tls Z) io_error) :=
  let socket_opts := MkSocketOpts (Some true) (Some keepalive_opts_default) in
  tcp_stream ←? stream_with_opts addr (Some socket_opts);
  let fd := as_connection_fd tcp_stream in
  tls ←? m_map_err (λ e, failed_to_connect (native_display e))
           (native_connect (domain_connector self) (domain_name self) tcp_stream);
  let '(write, read) := tls_split_connection tls in
  mret (Ok (write, read, fd)).

#[export] Instance anonymous : TcpDomainConnector W TcpStream Tls Z TlsAnonymousConnector := {
  connect := anonymous_connect;
  new_domain self _ := self;
  domain _ := "localhost";
  clone_box self := self;
}.
#[export] Instance named : TcpDomainConnector W TcpStream Tls Z TlsDomainConnector := {
  connect := domain_connect;
  new_domain self d := MkDomain d (domain_connector self);
  domain := domain_name;
  clone_box self := self;
}.
End native.
End native_tls.

(** ** rustls *)
Module rust_tls.
(** [SplitConnection] of the client's stream, the writing half first; the server's
    stream is split alike. *)
Definition tls_split_connection {TcpStream Tls} (self : Tls) :
    Half TcpStream Tls * Half TcpStream Tls :=
  let '(read, write) := async_split self in (write, read).
Definition server_split_connection {TcpStream Tls} (self : Tls) :
    Half TcpStream Tls * Half TcpStream Tls :=
  let '(read, write) := async_split self in (write, read).

Section rustls.
Context {W TcpStream TcpKeepalive : Type} `{TcpNet W TcpStream TcpKeepalive}.
(** The connector of futures-rustls, and [ServerName::try_from]. *)
Context {RustlsConnector ServerName Tls : Type}
  (rustls_connect : RustlsConnector → ServerName → TcpStream → M W (result Tls io_error))
  (server_name_from : string → result ServerName string).

Record TlsAnonymousConnector : Type := MkAnonymous { anonymous_inner : RustlsConnector }.
Record TlsDomainConnector : Type := MkDomain {
  domain_name : string;
  domain_connector : RustlsConnector;
}.

Definition invalid_dns_name (err : string) : io_error :=
  IoErr InvalidInput ("Invalid Dns Name: " +:+ err).

Definition anonymous_connect (self : TlsAnonymousConnector) (d : string) :
    M W (result (connection TcpStream Tls Z) io_error) :=
  tcp_stream ←? stream d;
  let fd := as_connection_fd tcp_stream in
  server_name ←? mret (map_err invalid_dns_name (server_name_from d));
  tls ←? rustls_connect (anonymous_inner self) server_name tcp_stream;
  let '(write, read) := tls_split_connection tls in
  mret (Ok (write, read, fd)).

Definition domain_connect (self : TlsDomainConnector) (addr : string) :
    M W (result (connection TcpStream Tls Z) io_error) :=
  tcp_stream ←? stream addr;
  let fd := as_connection_fd tcp_stream in
  server_name ←? mret (map_err invalid_dns_name (server_name_from (domain_name self)));
  tls ←? rustls_connect (domain_connector self) server_name tcp_stream;
  let '(write, read) := tls_split_connection tls in
  mret (Ok (write, read, fd)).

#[export] Instance anonymous : TcpDomainConnector W TcpStream Tls Z TlsAnonymousConnector := {
  connect := anonymous_connect;
  new_domain self _ := self;
  domain _ := "localhost";
  clone_box self := self;
}.
#[export] Instance named : TcpDomainConnector W TcpStream Tls Z TlsDomainConnector := {
  connect := domain_connect;
  new_domain self d := MkDomain d (domain_connector self);
  domain := domain_name;
  clone_box self := self;
}.
End rustls.
End rust_tls.

(** ** What a connection is *)

Section connections.
Context {W TcpStream TcpKeepalive : Type} `{TcpNet W TcpStream TcpKeepalive}.

(** [dials connecting delay session]: if [connecting addr] hands out a connection, then a TCP
    connection to the very address was made, the delay was set on it ([delay], if any) and
    then the default keep-alive, [session] was made on that stream afterwards and is what both
    halves are of, and the descriptor is the one of that stream. *)
Definition dials {Tls} (connecting : string → M W (result (connection TcpStream Tls Z) io_error))
    (delay : option bool)
    (session : string → TcpStream → M W (result (Half TcpStream Tls) io_error)) : Prop :=
  ∀ addr w w' write read fd, connecting addr w = (w', Val (Ok (write, read, fd))) →
    ∃ s w1 w2 w3, tcp_connect addr w = (w1, Val (Ok s)) ∧
      match delay with
      | Some b => set_nodelay s b w1 = (w2, Val (Ok tt))
      | None => w2 = w1
      end ∧
      set_tcp_keepalive s (keepalive_from keepalive_opts_default) w2 = (w3, Val (Ok tt)) ∧
      session addr s w3 = (w', Val (Ok write)) ∧
      read = write ∧ fd = stream_raw_fd s.

(** The half of a session that a handshake gave. *)
Definition tls_half {Tls} (m : M W (result Tls io_error)) :
    M W (result (Half TcpStream Tls) io_error) :=
  r ← m; mret (map_ok HalfTls r).

(** Connecting in the shape the connectors have it: options, session, halves. *)
Lemma connecting_dials {Tls} connecting (delay : option bool)
    (session : string → TcpStream → M W (result (Half TcpStream Tls) io_error)) :
  (∀ addr w, connecting addr w =
     (s ←? stream_with_opts addr (Some (MkSocketOpts delay (Some keepalive_opts_default)));
      h ←? session addr s;
      mret (Ok (h, h, stream_raw_fd s))) w) →
  dials connecting delay session.
Proof.
  intros Hshape addr w w' write read fd. rewrite Hshape. clear Hshape.
  set (opts := MkSocketOpts delay _).
  destruct (stream_with_opts addr (Some opts) w) as [w3 [[s|e]| |]] eqn:Hs;
    unfold try_bind, mbind, M_bind; rewrite Hs; try done.
  destruct (session addr s w3) as [w4 [[h|e]| |]] eqn:Hh; try done.
  intros [= <- <- <- <-].
  apply stream_with_opts_ok in Hs as (w1 & w2 & Hconn & Hdelay & Hkeep).
  exists s, w1, w2, w3. done.
Qed.

Lemma tls_connecting_dials {Tls} connecting (delay : option bool)
    (session : string → TcpStream → M W (result Tls io_error)) :
  (∀ addr w, connecting addr w =
     (s ←? stream_with_opts addr (Some (MkSocketOpts delay (Some keepalive_opts_default)));
      t ←? session addr s;
      mret (Ok (HalfTls (TcpStream := TcpStream) t, HalfTls t, stream_raw_fd s))) w) →
  dials connecting delay (λ addr s, tls_half (session addr s)).
Proof.
  intros Hshape. apply connecting_dials. intros addr w. rewrite Hshape.
  unfold tls_half, try_bind, mbind, M_bind.
  destruct (stream_with_opts _ _ w) as [w1 [[s|e]| |]]; try done.
  by destruct (session addr s w1) as [w2 [[t|e]| |]].
Qed.

Context {Ssl ErrorStack Mid Connector Config : Type}
  `{SslConnect Ssl ErrorStack Mid Connector Config}
  (block_on : HandshakeFuture Ssl ErrorStack Mid TcpStream →
    M W (result (TlsStream Ssl TcpStream) anyhow)).
Context {NativeConnector NativeTls NativeError : Type}
  (native_connect : NativeConnector → string → TcpStream → M W (result NativeTls NativeError))
  (native_display : NativeError → string).
Context {RustlsConnector ServerName RustTls : Type}
  (rustls_connect : RustlsConnector → ServerName → TcpStream → M W (result RustTls io_error))
  (server_name_from : string → result ServerName string).
Context {WsMeta WsStream WsStreamIo WsErr : Type}
  (ws_connect : string → M W (result (WsMeta * WsStream) WsErr))
  (into_io : WsStream → WsStreamIo) (ws_display : WsErr → string).

(** The sessions of the backends, with the errors that the connectors make of theirs. *)
Definition openssl_session (c : TlsConnector Connector) (d : string) (s : TcpStream) :
    M W (result (TlsStream Ssl TcpStream) io_error) :=
  m_map_err (λ e, failed_to_connect (anyhow_display e)) (openssl_tls.tls_session block_on c d s).
Definition native_session (c : NativeConnector) (d : string) (s : TcpStream) :
    M W (result NativeTls io_error) :=
  m_map_err (λ e, failed_to_connect (native_display e)) (native_connect c d s).
Definition rustls_session (c : RustlsConnector) (d : string) (s : TcpStream) :
    M W (result RustTls io_error) :=
  n ←? mret (map_err rust_tls.invalid_dns_name (server_name_from d)); rustls_connect c n s.

Lemma rustls_dials connecting c (d : string → string) :
  (∀ addr w, connecting addr w =
     (s ←? stream addr; n ←? mret (map_err rust_tls.invalid_dns_name (server_name_from (d addr)));
      t ←? rustls_connect c n s; mret (Ok (HalfTls t, HalfTls t, stream_raw_fd s))) w) →
  dials connecting None (λ addr s, tls_half (rustls_session c (d addr) s)).
Proof.
  intros Hshape. apply tls_connecting_dials. intros addr w. rewrite Hshape.
  unfold stream, rustls_session, try_bind, mbind, M_bind.
  destruct (stream_with_opts _ _ w) as [w1 [[s|e]| |]]; try done.
  by destruct (server_name_from (d addr)).
Qed.

(** C19: what a connection is, connector by connector.  Each of the seven that connect over
    TCP, plain or with one of the three TLS backends, named or anonymous, makes a TCP
    connection to the very address it is given, with the default keep-alive, and hands out
    both halves of one session made on that stream, with the descriptor of that stream.  An
    anonymous connector makes the session for the address, a named one for its own domain
    name, whatever the address; the anonymous one of OpenSSL and the named one of native-tls
    turn the delay off.  The connector of browsers opens a websocket to the address, and
    hands out its halves with the address in place of a descriptor. *)
Theorem connection_sound (tcp : DefaultTcpDomainConnector)
    (on : openssl_tls.TlsDomainConnector) (oa : openssl_tls.TlsAnonymousConnector)
    (nn : native_tls.TlsDomainConnector) (na : native_tls.TlsAnonymousConnector)
    (rn : rust_tls.TlsDomainConnector) (ra : rust_tls.TlsAnonymousConnector)
    (ws : wasm_connector.DefaultDomainWebsocketConnector) :
  dials (default_tcp_connect (Tls := False) tcp) None (λ _ s, mret (Ok (HalfTcp s))) ∧
  dials (openssl_tls.domain_connect block_on on) None (λ _ s, tls_half
    (openssl_session (openssl_tls.domain_connector on) (openssl_tls.domain_name on) s)) ∧
  dials (openssl_tls.anonymous_connect block_on oa) (Some true) (λ addr s, tls_half
    (openssl_session (openssl_tls.anonymous_inner oa) addr s)) ∧
  dials (native_tls.domain_connect native_connect native_display nn) (Some true) (λ _ s, tls_half
    (native_session (native_tls.domain_connector nn) (native_tls.domain_name nn) s)) ∧
  dials (native_tls.anonymous_connect native_connect native_display na) None (λ addr s, tls_half
    (native_session (native_tls.anonymous_inner na) addr s)) ∧
  dials (rust_tls.domain_connect rustls_connect server_name_from rn) None (λ _ s, tls_half
    (rustls_session (rust_tls.domain_connector rn) (rust_tls.domain_name rn) s)) ∧
  dials (rust_tls.anonymous_connect rustls_connect server_name_from ra) None (λ addr s, tls_half
    (rustls_session (rust_tls.anonymous_inner ra) addr s)) ∧
  ∀ addr w w' write read fd,
    wasm_connector.websocket_connect (TcpStream := TcpStream) ws_connect into_io ws_display
      ws addr w = (w', Val (Ok (write, read, fd))) →
    ∃ meta socket, ws_connect addr w = (w', Val (Ok (meta, socket))) ∧
      write = HalfTls (into_io socket) ∧ read = HalfTls (into_io socket) ∧ fd = addr.
Proof.
  split; [by apply connecting_dials|]. do 4 (split; [by apply tls_connecting_dials|]).
  split; [by apply rustls_dials|]. split; [by apply rustls_dials|].
  intros addr w w' write read fd. unfold wasm_connector.websocket_connect, m_map_err.
  unfold try_bind, mbind, M_bind.
  destruct (ws_connect addr w) as [w1 [[[meta socket]|e]| |]]; try done.
  intros [= <- <- <- <-]. by exists meta, socket.
Qed.
End connections.

(** ** Two clients that name the server

    The error of a TLS failure, of the two kinds of domain connector. *)
Section backends.
Context {W TcpStream TcpKeepalive : Type} `{TcpNet W TcpStream TcpKeepalive}.
Context {RustlsConnector ServerName NativeConnector Tls NativeError : Type}
  (rustls_connect : RustlsConnector → ServerName → TcpStream → M W (result Tls io_error))
  (server_name_from : string → result ServerName string)
  (native_connect : NativeConnector → string → TcpStream → M W (result Tls NativeError))
  (native_display : NativeError → string).

(** The domain connectors make their session for the domain they were last
    given by [new_domain], not for the address they dial.  A failing handshake is
    [ConnectionRefused] with native-tls, with the text of the error in the message, and
    the unchanged error with rustls, where a domain that is no server name is
    [InvalidInput], reported only when the TCP connection has been made already. *)
Lemma domain_connector_errors (nc : @native_tls.TlsDomainConnector NativeConnector)
    (rc : @rust_tls.TlsDomainConnector RustlsConnector) (d addr : string)
    (s : TcpStream) (w wn wr w2 : W)
    (Hnative : stream_with_opts addr (Some nodelay_opts) w = (wn, Val (Ok s)))
    (Hrustls : stream addr w = (wr, Val (Ok s))) :
  let nd := native_tls.domain_connect native_connect native_display
              (new_domain (TcpDomainConnector :=
                 native_tls.named native_connect native_display) nc d) addr w in
  let rd := rust_tls.domain_connect rustls_connect server_name_from
              (new_domain (TcpDomainConnector :=
                 rust_tls.named rustls_connect server_name_from) rc d) addr w in
  (∀ e, native_connect (native_tls.domain_connector nc) d s wn = (w2, Val (Err e)) →
     nd = (w2, Val (Err (IoErr ConnectionRefused
                           ("failed to connect: " +:+ native_display e))))) ∧
  (∀ t, native_connect (native_tls.domain_connector nc) d s wn = (w2, Val (Ok t)) →
     nd = (w2, Val (Ok (HalfTls t, HalfTls t, stream_raw_fd s)))) ∧
  (∀ e, server_name_from d = Err e →
     rd = (wr, Val (Err (IoErr InvalidInput ("Invalid Dns Name: " +:+ e))))) ∧
  (∀ n r, server_name_from d = Ok n →
     rustls_connect (rust_tls.domain_connector rc) n s wr = (w2, Val r) →
     rd = (w2, Val (map_ok (λ t, (HalfTls t, HalfTls t, stream_raw_fd s)) r))).
Proof.
  intros nd rd. subst nd rd.
  unfold native_tls.domain_connect, rust_tls.domain_connect. fold nodelay_opts. simpl.
  rewrite (try_bind_ok _ _ _ _ _ Hnative), (try_bind_ok _ _ _ _ _ Hrustls).
  unfold m_map_err, try_bind, mbind, M_bind. split; [|split; [|split]].
  - intros e He. by rewrite He.
  - intros t Ht. by rewrite Ht.
  - intros e He. by rewrite He.
  - intros n r Hn Hr. rewrite Hn. simpl. rewrite Hr. by destruct r.
Qed.
End backends.

(** ** Witnesses: sessions that remember their name and their stream *)

Definition name_session (_ : unit) (d : string) (s : Z) :
    M (calls net_call io_error) (result (string * Z) string) := λ w,
  (w, Val (if bool_decide (d = "expired") then Err "certificate has expired"%string
           else Ok (d, s))).
Definition rustls_name_session (_ : unit) (d : string) (s : Z) :
    M (calls net_call io_error) (result (string * Z) io_error) := λ w,
  (w, Val (Ok (d, s))).
Definition dns_name (d : string) : result string string :=
  match d with EmptyString => Err "invalid dns name"%string | _ => Ok d end.

Definition fluvio : native_tls.TlsDomainConnector := native_tls.MkDomain "fluvio.io" ().

(** OpenSSL is there, but nobody connects through it. *)
Local Instance no_openssl : SslConnect unit unit unit unit unit := {
  configure _ := Err (AnyhowError "no configuration");
  config_verify_hostname c _ := c;
  config_partial_chain _ := Err (AnyhowError "no configuration");
  config_connect _ _ := SslRet (Err (SetupFailure tt));
}.

Definition websocket_name (addr : string) :
    M (calls net_call io_error) (result (unit * string) string) := λ w, (w, Val (Ok (tt, addr))).

Lemma connection_sound_witness :
  (native_tls.domain_connect name_session id fluvio "10.0.0.1:9003" (Calls [] [])).2 =
    Val (Ok (HalfTls ("fluvio.io"%string, 5), HalfTls ("fluvio.io"%string, 5), 5)) ∧
  ∃ w1, tcp_connect "10.0.0.1:9003" (Calls [] []) = (w1, Val (Ok 5)).
Proof.
  split; [reflexivity|].
  destruct (connection_sound (H := observed_net) (H0 := no_openssl)
    (λ _, mret (Err (AnyhowError "no handshake"))) name_session id rustls_name_session dns_name
    websocket_name id id MkDefaultTcp
    (openssl_tls.MkDomain "fluvio.io" (MkTlsConnector tt true true))
    (openssl_tls.MkAnonymous (MkTlsConnector tt true true)) fluvio (native_tls.MkAnonymous tt)
    (rust_tls.MkDomain "fluvio.io" tt) (rust_tls.MkAnonymous tt) wasm_connector.MkWebsocket)
    as (_ & _ & _ & Hnative & _).
  destruct (Hnative "10.0.0.1:9003"%string (Calls [] [])
    (Calls [Connect "10.0.0.1:9003"; SetNodelay true; SetKeepalive keepalive_opts_default] [])
    (HalfTls ("fluvio.io"%string, 5)) (HalfTls ("fluvio.io"%string, 5)) 5 eq_refl)
    as (s & w1 & w2 & w3 & Hc & _ & _ & _ & _ & Hfd).
  exists w1. rewrite Hfd. exact Hc.
Defined.

Lemma domain_connector_errors_witness :
  let dialled := Calls [Connect "10.0.0.1:9003"; SetNodelay true;
                        SetKeepalive keepalive_opts_default] [] in
  native_tls.domain_connect name_session id (native_tls.MkDomain "expired" ())
    "10.0.0.1:9003" (Calls [] []) =
    (dialled, Val (Err (IoErr ConnectionRefused
                          "failed to connect: certificate has expired"))).
Proof.
  intros dialled.
  exact (proj1 (domain_connector_errors rustls_name_session dns_name name_session id
    fluvio (rust_tls.MkDomain "fluvio.io" ()) "expired" "10.0.0.1:9003" 5 (Calls [] [])
    dialled (Calls [Connect "10.0.0.1:9003"; SetKeepalive keepalive_opts_default] [])
    dialled eq_refl eq_refl) "certificate has expired"%string eq_refl).
Defined.
