(* ===== verification/TlsSession.v ===== *)
(** * Sessions over OpenSSL, from the address to the stream

    Here the parts meet: [TlsConnector::connect] and [TlsAcceptor::accept] of
    src/src/openssl make a [HandshakeFuture] and await it, and the connectors of
    src/src/openssl/connector.rs await them on a TCP stream.  An executor polls the future
    until it is ready, each time with the context of the task that polls; what the peer
    sends is in the stream.  The specification runs OpenSSL on the stream itself. *)

From S2P Require Export Async Connectors.

Section awaiting.
Context {W Ssl ErrorStack Mid St : Type}
  `{MidOps Ssl ErrorStack Mid, AsyncRead St, AsyncWrite St}.
(** What happens between two polls, and the context of the task that polls. *)
Context (elapse : W → W) (cx : W → Z).
(** [anyhow::Error::new]. *)
Context (error_new :
  HandshakeError ErrorStack (Mid * AsyncToSyncWrapper St) → anyhow).

(** The future, awaited. *)
Definition handshake_machine :
    machine W (HandshakeFuture Ssl ErrorStack Mid St) (result (TlsStream Ssl St) anyhow) :=
  λ h w,
  match handshake_poll (cx w) h with
  | (_, Val (Ready r)) => (w, Val (inl (map_err error_new r)))
  | (h, Val Pending) => (w, Val (inr h))
  | (_, Panic) => (w, Panic)
  | (_, OutOfFuel) => (w, OutOfFuel)
  end.
Definition await_handshake (n : nat) (h : HandshakeFuture Ssl ErrorStack Mid St) :
    M W (result (TlsStream Ssl St) anyhow) := drive elapse n handshake_machine h.

(** ** The specification: OpenSSL on the stream, resumed when it has blocked *)
Inductive shaken : handshake_prog Ssl ErrorStack Mid → St → W →
    W → St → result Ssl (HandshakeError ErrorStack Mid) → Prop :=
| shaken_done f s w s' r :
    run_direct (cx w) f s = (s', Val r) →
    match r with Err (HsWouldBlock _) => False | _ => True end →
    shaken f s w w s' r
| shaken_blocked f s w s1 mid w' s' r :
    run_direct (cx w) f s = (s1, Val (Err (HsWouldBlock mid))) →
    shaken (mid_handshake mid) s1 (elapse w) w' s' r →
    shaken f s w w' s' r.

(** What the caller gets: an idle stream, or OpenSSL's error around what is left. *)
Definition session (c : Z) (s : St) (r : result Ssl (HandshakeError ErrorStack Mid)) :
    result (TlsStream Ssl St) anyhow :=
  match r with
  | Ok sl => Ok (idle sl s)
  | Err (SetupFailure e) => Err (error_new (SetupFailure e))
  | Err (Failure mid) => Err (error_new (Failure (mid, MkWrapper s c)))
  | Err (HsWouldBlock mid) => Err (error_new (HsWouldBlock (mid, MkWrapper s c)))
  end.

Context (Hcx : ∀ w, cx w ≠ 0).

(** One poll of a handshake that has not ended. *)
Lemma handshake_machine_poll h f s w :
  refines h (Running f s) →
  match run_direct (cx w) f s with
  | (s1, Val (Err (HsWouldBlock mid))) => ∃ h', refines h' (Running (mid_handshake mid) s1) ∧
      handshake_machine h w = (w, Val (inr h'))
  | (s', Val r) => handshake_machine h w = (w, Val (inl (session (cx w) s' r)))
  | (_, _) => ∀ x, (handshake_machine h w).2 ≠ Val x
  end.
Proof.
  intros Href. destruct (handshake_poll_simulates (cx w) h _ (Hcx w) Href) as [Ho Hr].
  unfold handshake_machine. simpl in *. destruct (handshake_poll (cx w) h) as [h' o].
  simpl in *. destruct (run_direct (cx w) f s) as [s' [[sl|[e|mid|mid]]| |]]; simpl in *;
    subst o; try done. by exists h'.
Qed.

(** Awaiting a handshake ends when, and as, OpenSSL's handshake does. *)
Lemma await_shaken h f s w w' x :
  refines h (Running f s) →
  (∃ n, await_handshake n h w = (w', Val x)) ↔
  (∃ s' r, shaken f s w w' s' r ∧ x = session (cx w') s' r).
Proof.
  intros Href. split.
  - intros [n Hn]. revert h f s w Href Hn.
    induction n as [|n IH]; intros h f s w Href Hn; [done|].
    pose proof (handshake_machine_poll h f s w Href) as Hp.
    unfold await_handshake in Hn. simpl in Hn. unfold mbind, M_bind in Hn.
    destruct (run_direct (cx w) f s) as [s1 o] eqn:Hrun.
    destruct o as [[sl|[e|mid|mid]]| |].
    4: { destruct Hp as (h' & Href' & Hh). rewrite Hh in Hn.
      destruct (IH _ _ _ _ Href' Hn) as (s' & r & Hs & Hx).
      exists s', r. split; [by eapply shaken_blocked|done]. }
    4, 5: destruct (handshake_machine h w) as [w1 [a| |]]; simpl in *; [by destruct (Hp a)|done..].
    all: rewrite Hp in Hn; injection Hn as <- <-; eexists _, _; split; [by apply shaken_done|done].
  - intros (s' & r & Hs & ->). revert h Href.
    induction Hs as [f s w s' r Hrun Hr|f s w s1 mid w' s' r Hrun Hs IH]; intros h Href;
      pose proof (handshake_machine_poll h f s w Href) as Hp; rewrite Hrun in Hp.
    + exists 1%nat. unfold await_handshake. simpl. unfold mbind, M_bind.
      destruct r as [sl|[e|mid|mid]]; try done; by rewrite Hp.
    + destruct Hp as (h' & Href' & Hh). destruct (IH h' Href') as [n Hn].
      exists (S n). unfold await_handshake. simpl. unfold mbind, M_bind. by rewrite Hh.
Qed.

(** [acceptor.accept(stream).await]. *)
Lemma accept_shaken {Acceptor} `{!SslAccept Ssl ErrorStack Mid Acceptor}
    (a : TlsAcceptor Acceptor) (s : St) w w' x :
  (∃ n, await_handshake n (tls_accept a s) w = (w', Val x)) ↔
  (∃ s' r, shaken (ssl_accept (ta_inner a)) s w w' s' r ∧ x = session (cx w') s' r).
Proof. by apply await_shaken. Qed.
End awaiting.

(** ** The domain connector *)

Section connecting.
Context {W TcpStream TcpKeepalive : Type} `{TcpNet W TcpStream TcpKeepalive}.
Context {Ssl ErrorStack Mid Connector Config : Type}
  `{SslConnect Ssl ErrorStack Mid Connector Config, !MidOps Ssl ErrorStack Mid,
    !AsyncRead TcpStream, !AsyncWrite TcpStream}.
Context (elapse : W → W) (cx : W → Z) (Hcx : ∀ w, cx w ≠ 0).
Context (error_new :
  HandshakeError ErrorStack (Mid * AsyncToSyncWrapper TcpStream) → anyhow).

(** The configuration that a connector starts its handshakes with. *)
Definition client_config (c : TlsConnector Connector) : result Config anyhow :=
  config ←! configure (tc_inner c);
  let config := config_verify_hostname config (tc_verify_hostname c) in
  if tc_allow_partial c then config_partial_chain config else Ok config.

Lemma tls_connect_config (c : TlsConnector Connector) (d : string) (s : TcpStream) :
  tls_connect c d s =
    map_ok (λ config, Initial (config_connect config d) (wrapper_new s)) (client_config c).
Proof.
  unfold tls_connect, client_config. destruct (configure (tc_inner c)) as [config|e]; [|done].
  simpl. destruct (tc_allow_partial c); [|done]. by destruct (config_partial_chain _).
Qed.

(** [connector.connect(domain, stream).await]. *)
Lemma session_shaken (c : TlsConnector Connector) (d : string) (s : TcpStream) w w' x :
  (∃ n, openssl_tls.tls_session (await_handshake elapse cx error_new n) c d s w =
     (w', Val x)) ↔
  match client_config c with
  | Err e => w' = w ∧ x = Err e
  | Ok config => ∃ s' r, shaken elapse cx (config_connect config d) s w w' s' r ∧
      x = session error_new (cx w') s' r
  end.
Proof.
  unfold openssl_tls.tls_session. rewrite tls_connect_config.
  destruct (client_config c) as [config|e]; simpl; [by apply await_shaken|].
  split; [by intros [_ [= <- <-]]|]. intros [-> ->]. by exists 0%nat.
Qed.

(** The connection that a session on a stream becomes. *)
Definition connection_of (s : TcpStream) (r : result (TlsStream Ssl TcpStream) anyhow) :
    result (connection TcpStream (TlsStream Ssl TcpStream) Z) io_error :=
  match r with
  | Ok tls => Ok (HalfTls tls, HalfTls tls, stream_raw_fd s)
  | Err e => Err (failed_to_connect (anyhow_display e))
  end.

Lemma domain_connect_session b (c : @openssl_tls.TlsDomainConnector Connector) addr w w1 s :
  stream addr w = (w1, Val (Ok s)) → ∀ w' x,
  openssl_tls.domain_connect b c addr w = (w', Val x) ↔
  ∃ y, openssl_tls.tls_session b (openssl_tls.domain_connector c) (openssl_tls.domain_name c)
         s w1 = (w', Val y) ∧ x = connection_of s y.
Proof.
  intros Hs w' x. unfold openssl_tls.domain_connect, m_map_err.
  rewrite (try_bind_ok _ _ _ _ _ Hs). unfold try_bind, mbind, M_bind.
  unfold mret, M_ret.
  destruct (openssl_tls.tls_session b _ _ s w1) as [w2 [[t|e]| |]]; simpl;
    (split; [intros Hx; simplify_eq/=; by eexists|by intros (y & Hy & ->); simplify_eq/=]).
Qed.

(** C4: connecting to a domain over OpenSSL, from the address to the session.  It
    ends when, and as, three things do: the TCP connection with the default keep-alive, whose
    error is passed on; the configuration of the client, for the domain of the connector
    and not the address; and OpenSSL's handshake on that stream, resumed at each poll with the
    context of that poll as often as it has blocked.  Then both halves are of the one idle
    session and the descriptor is the one of the stream; a configuration or a
    handshake that fails is [ConnectionRefused], with the error in its message. *)
Theorem openssl_connects (c : @openssl_tls.TlsDomainConnector Connector) (addr : string)
    (w w' : W) (x : result (connection TcpStream (TlsStream Ssl TcpStream) Z) io_error) :
  (∃ n, openssl_tls.domain_connect (await_handshake elapse cx error_new n) c addr w =
     (w', Val x)) ↔
  (∃ e, stream addr w = (w', Val (Err e)) ∧ x = Err e) ∨
  (∃ s w1, stream addr w = (w1, Val (Ok s)) ∧
     match client_config (openssl_tls.domain_connector c) with
     | Err e => w' = w1 ∧ x = Err (failed_to_connect (anyhow_display e))
     | Ok config => ∃ s' r,
         shaken elapse cx (config_connect config (openssl_tls.domain_name c)) s w1 w' s' r ∧
         x = connection_of s (session error_new (cx w') s' r)
     end).
Proof.
  destruct (stream addr w) as [w1 [[s|e]| |]] eqn:Hs.
  - setoid_rewrite (domain_connect_session _ c addr w w1 s Hs).
    pose proof (session_shaken (openssl_tls.domain_connector c) (openssl_tls.domain_name c)
                  s w1 w') as Hsession.
    split.
    + intros (n & y & Hy & ->). right. exists s, w1. split; [done|].
      pose proof (proj1 (Hsession y) (ex_intro _ n Hy)) as Hsy.
      destruct (client_config _) as [config|e]; [|by destruct Hsy as [-> ->]].
      destruct Hsy as (s' & r & Hr & ->). by exists s', r.
    + intros [(e & [=] & _)|(? & ? & [= <- <-] & Hx)].
      destruct (client_config _) as [config|e].
      * destruct Hx as (s' & r & Hr & ->).
        destruct (proj2 (Hsession _) (ex_intro _ s' (ex_intro _ r (conj Hr eq_refl)))) as [n Hn].
        by exists n, (session error_new (cx w') s' r).
      * destruct Hx as [-> ->]. destruct (proj2 (Hsession _) (conj eq_refl eq_refl)) as [n Hn].
        by eexists n, _.
  - unfold openssl_tls.domain_connect. setoid_rewrite (try_bind_err _ _ _ _ _ Hs).
    split; [intros [n Hn]; left; by simplify_eq; eexists|].
    intros [(e' & He & ->)|(? & ? & ? & _)]; simplify_eq. by exists 0%nat.
  - unfold openssl_tls.domain_connect. setoid_rewrite (try_bind_panic _ _ _ _ Hs).
    split; [by intros [n Hn]|by intros [(? & ? & _)|(? & ? & ? & _)]].
  - unfold openssl_tls.domain_connect, try_bind, mbind, M_bind. rewrite Hs.
    split; [by intros [n Hn]|by intros [(? & ? & _)|(? & ? & ? & _)]].
Qed.
End connecting.

(** ** Witness: a session with a peer that is busy twice

    The connection is to a socket that has the handshake's answer waiting and is busy at
    first; contexts are numbered from 7 on. *)

#[export] Instance dialled_net : TcpNet Z socket socket2_keepalive := {
  tcp_connect addr := λ w, (w, Val (Ok (Socket true [])));
  set_nodelay _ _ := λ w, (w, Val (Ok tt));
  set_tcp_keepalive _ _ := λ w, (w, Val (Ok tt));
  stream_raw_fd _ := 5;
  keepalive_new := MkKeepaliveOpts None None None;
  with_time k t := MkKeepaliveOpts (Some t) (interval k) (retries k);
  with_interval k i := MkKeepaliveOpts (time k) (Some i) (retries k);
  with_retries k r := MkKeepaliveOpts (time k) (interval k) (Some r);
}.

(** The configuration is whether the name is checked; no name but fluvio.io passes. *)
#[export] Instance shake_connect : SslConnect unit unit bool bool bool := {
  configure c := Ok c;
  config_verify_hostname _ b := b;
  config_partial_chain c := Ok c;
  config_connect c d :=
    if c && negb (bool_decide (d = "fluvio.io")) then SslRet (Err (SetupFailure tt))
    else shake_start;
}.

Definition task_context (w : Z) : Z := Z.abs w + 7.
Lemma task_context_not_null w : task_context w ≠ 0.
Proof. unfold task_context. lia. Qed.

Definition shake_error (e : HandshakeError unit (bool * AsyncToSyncWrapper socket)) : anyhow :=
  AnyhowError "handshake failed".

Definition fluvio_io : @openssl_tls.TlsDomainConnector bool :=
  openssl_tls.MkDomain "fluvio.io" (MkTlsConnector true true true).

Lemma openssl_connects_witness :
  ∃ n, openssl_tls.domain_connect (await_handshake Z.succ task_context shake_error n) fluvio_io
         "10.0.0.1:9003" 0 =
    (2, Val (Ok (HalfTls (idle tt (Socket true [])), HalfTls (idle tt (Socket true [])), 5))).
Proof.
  apply (openssl_connects Z.succ task_context task_context_not_null shake_error fluvio_io).
  right. exists (Socket true []), 0. split; [reflexivity|].
  exists (Socket true []), (Ok tt). split; [|reflexivity].
  eapply shaken_blocked; [reflexivity|]. eapply shaken_blocked; [reflexivity|].
  apply shaken_done; [reflexivity|exact I].
Defined.
