(* ===== verification/NetTests.v ===== *)
(** * The copies of [test_zero_copy_large_size], at the size of the test

    Of the test of src/src/zero_copy.rs here is what the server copies, over the
    scripted kernel: it passes at three million bytes.  The whole test, with its client, is
    in [SystemTests], evaluated on a smaller file. *)

From S2P Require Export RetryTests Connectors Transfer.

(** The stream is its descriptor, 4; the file is the one of the scripted kernel. *)

Section zero_copy_tests.
Local Instance net_test_target : Target := release_64.

Definition file_of (n : nat) : scripted := Scripted (replicate n Byte.x00) [] [].

Definition copy (writer : ZeroCopy) (slice : AsyncFileSlice) :
    M scripted (result Z SendFileError) :=
  copy_slice_linux scripted_linux scripted_sleep 10 writer slice.

(** The server of [test_zero_copy_large_size]: the whole file, then a slice of twice
    its length. *)
Definition MAX_BYTES : Z := 3000000.
Definition large_size_server (n : Z) : M scripted unit :=
  file ← expect (util.open "async_large");
  f_slice ← expect (as_slice file 0 None);
  _ ← assert (AsyncFileSlice.len f_slice =? n);
  let writer := ZeroCopy.from (λ fd : Z, fd) 4 in
  transferred ← expect (copy writer f_slice);
  _ ← assert (transferred =? n);
  let slice2 := AsyncFileSlice.new (AsyncFileSlice.fd f_slice) 0 (n * 2) in
  transferred ← expect (copy writer slice2);
  assert (transferred =? n).

(** A kernel that is never busy sends what there is of a slice in at most two calls. *)
Lemma copy_never_busy file sent n :
  0 < n < i64_modulus_half → (0 < length file)%nat →
  Z.of_nat (length file) < i64_modulus_half →
  ∃ sent', copy (MkZeroCopy 4) (MkSlice 3 0 n) (Scripted file sent []) =
    (Scripted file sent' [], Val (Ok (Z.min n (Z.of_nat (length file))))).
Proof.
  intros Hn Hfile Hmax. assert (usize_modulus = u64_modulus) as Hmod by reflexivity.
  unfold copy, copy_slice_linux. cbn [slice_len slice_position
    AsyncFileSlice.len AsyncFileSlice.position AsyncFileSlice.fd slice_fd target_raw_fd].
  unfold AsyncFileSlice.len, AsyncFileSlice.position. simpl slice_len. simpl slice_position.
  rewrite as_off_t_small by (unfold off_t_end; simpl; lia).
  assert (as_usize n = n) as Has.
  { apply as_usize_small. unfold in_usize. rewrite Hmod.
    unfold u64_modulus, i64_modulus_half in *. lia. }
  remember (Z.min n (Z.of_nat (length file))) as avail eqn:Havail.
  assert (0 < avail ≤ n ∧ avail ≤ Z.of_nat (length file)) as Hav by lia.
  assert (∀ s, scripted_amount None 0 n (Scripted file s []) = avail) as Ha1
    by (intros; unfold scripted_amount; simpl; lia).
  assert (∀ s, avail < n → scripted_amount None avail (n - avail) (Scripted file s []) = 0) as Ha2
    by (intros; unfold scripted_amount; simpl; lia).
  rewrite (linux_loop_eq scripted_linux scripted_sleep) by (rewrite Has; lia).
  rewrite Has, Z.sub_0_r. unfold scripted_linux at 1. simpl k_script. cbv iota. rewrite Ha1.
  unfold usize_add at 1. rewrite arith_exact
    by (rewrite Hmod; unfold u64_modulus, i64_modulus_half in *; lia).
  unfold mbind at 1, M_bind at 1, lift at 1.
  destruct (Z.eqb_spec avail 0); [lia|]. rewrite Z.add_0_l.
  destruct (Z.ltb_spec avail n) as [Hmore|_]; [|by eexists].
  rewrite (linux_loop_eq scripted_linux scripted_sleep) by (rewrite Has; lia).
  rewrite Has. unfold scripted_linux at 1, scripted_send. simpl k_script. cbv iota.
  rewrite Ha2 by done.
  unfold usize_add at 1. rewrite arith_exact
    by (rewrite Hmod; unfold u64_modulus, i64_modulus_half in *; lia).
  rewrite Z.add_0_r. by eexists.
Qed.

Lemma large_size_server_passes n :
  (0 < n)%nat → Z.of_nat n < 1000000000 →
  passes (large_size_server (Z.of_nat n)) (file_of n).
Proof.
  intros Hn Hmax. unfold passes, large_size_server.
  assert (length (replicate n Byte.x00) = n) as Hlen by apply length_replicate.
  destruct (copy_never_busy (replicate n Byte.x00) [] (Z.of_nat n)) as [s1 Hc1];
    rewrite ?Hlen in *; [unfold i64_modulus_half; lia..|].
  destruct (copy_never_busy (replicate n Byte.x00) s1 (Z.of_nat n * 2)) as [s2 Hc2];
    rewrite ?Hlen in *; [unfold i64_modulus_half; lia..|].
  rewrite Z.min_id in Hc1. replace (Z.min _ _) with (Z.of_nat n) in Hc2 by lia.
  assert (as_slice 3 0 None (file_of n) =
    (file_of n, Val (Ok (MkSlice 3 0 (Z.of_nat n))))) as Hs.
  { rewrite (as_slice_eq 3 0 None _ (file_of n) (Z.of_nat n));
      [|simpl; by rewrite Hlen|unfold in_u64, u64_modulus; lia..|done].
    unfold as_slice_answer. destruct (Z.leb_spec (Z.of_nat n) 0); [lia|]. by rewrite Z.sub_0_r. }
  erewrite expect_bind by reflexivity. rewrite (expect_bind _ _ _ _ _ Hs).
  rewrite assert_bind by apply Z.eqb_refl. cbv zeta. unfold ZeroCopy.from.
  rewrite (expect_bind _ _ _ _ _ Hc1), assert_bind by apply Z.eqb_refl.
  rewrite (expect_bind _ _ _ _ _ Hc2). by rewrite Z.eqb_refl.
Qed.

Example large_size_server_at_its_size :
  passes (large_size_server MAX_BYTES) (file_of (Z.to_nat MAX_BYTES)).
Proof.
  rewrite <- (Z2Nat.id MAX_BYTES) at 1 by done.
  apply large_size_server_passes; unfold MAX_BYTES; [|rewrite Z2Nat.id by done]; lia.
Qed.
End zero_copy_tests.
