(* ===== verification/Peers.v ===== *)
(** * Two tasks that talk: the client and the server of the network tests

    The tests of src/src/net run a client and a server under [zip] of futures-lite, over
    the listener of async-net and frames of tokio-util: interfaces here, with an
    instance, a network in memory, to evaluate the tests on.  Tasks are resumable
    programs, which [zip] polls one after the other. *)

From S2P Require Export NetTests.

(** ** Tasks *)

(** A task: what it ended with, or the program that is left of it. *)
Abbreviation task W A := (A + prog W A)%type.

Section tasks.
Context {W : Type}.

Definition poll_task {A} (t : task W A) : M W (task W A) :=
  match t with inl a => mret (inl a) | inr p => poll_prog p end.

(** Steps of a test: code that does not wait, a future, an assertion, and [expect]. *)
Definition p_do {A} (m : M W A) : prog W A := PDo m PRet.
Definition p_wait {A} (f : M W (poll A)) : prog W A := PWait f PRet.
Definition p_assert (b : bool) : prog W unit := p_do (assert b).
Definition p_expect {A E} (p : prog W (result A E)) : prog W A :=
  r ←• p; match r with Ok a => PRet a | Err _ => p_do panic end.
Definition p_some {A} (p : prog W (option A)) : prog W A :=
  r ←• p; match r with Some a => PRet a | None => p_do panic end.
(** The question mark in an [async] block. *)
Definition p_try {A B E} (p : prog W (result A E)) (k : A → prog W (result B E)) :
    prog W (result B E) :=
  r ←• p; match r with Ok a => k a | Err e => PRet (Err e) end.

(** [for i in 0..n]. *)
Fixpoint p_for (n : nat) (i : Z) (body : Z → prog W unit) : prog W unit :=
  match n with
  | O => PRet tt
  | S n => _ ←• body i; p_for n (i + 1) body
  end.
End tasks.

(** [zip] of futures-lite: "joins two futures, waiting for both to complete"; the first
    is polled first, and what has completed is not polled again. *)
Class FutureZip (W : Type) := {
  future_zip {A B} : machine W (task W A * task W B) (A * B);
  future_zip_polls {A B} (t : task W A) (u : task W B) :
    future_zip (t, u) ≡
      (t ← poll_task t; u ← poll_task u;
       mret match t, u with
            | inl a, inl b => inl (a, b)
            | _, _ => inr (t, u)
            end);
}.

(** The future itself, for a program to wait for in one go. *)
Definition await_zip `{FutureZip W} {A B} (elapse : W → W) (fuel : nat) (t : prog W A) (u : prog W B) :
    M W (A * B) := drive elapse fuel future_zip (inr t, inr u).

(** ** The network of the tests *)

(** [TcpListener] of async-net, and [Incoming], the stream of its connections. *)
Class TcpListener (W Listener TcpStream : Type) := {
  listener_bind : string → M W (poll (result Listener io_error));
  incoming_next : Listener → M W (poll (option (result TcpStream io_error)));
}.

(** [Framed::new(stream.compat(), BytesCodec::new())]: [send] of a [Sink] with the bytes of
    a frame, and [next] of a [Stream]. *)
Class FramedBytes (W S Framed : Type) := {
  framed_new : S → Framed;
  framed_send : Framed → list byte → M W (poll (result unit io_error));
  framed_next : Framed → M W (poll (option (result (list byte) io_error)));
}.

(** [bytes.take(n).into_inner()]: the adaptor limits reading, and [into_inner] gives the
    buffer back, whole. *)
Definition take_into_inner (bytes : list byte) (n : nat) : list byte := bytes.

(** [BytesMut::with_capacity], [put_slice], [freeze]. *)
Definition to_bytes (bytes : list byte) : list byte := bytes.

Definition hundred_ms : Duration := StdTime.from_millis 100.

Section tcp_tests.
Context {W Listener TcpStream TcpKeepalive Timer Framed : Type}
  `{!TcpNet W TcpStream TcpKeepalive, !TcpListener W Listener TcpStream,
    !FramedBytes W TcpStream Framed, !AsyncTimer W Timer, !FutureZip W}.
Context (elapse : W → W) (fuel : nat).

(** tcp_stream.rs: [test_async_tcp]. *)
Definition async_tcp_server (addr : string) : prog W (result unit io_error) :=
  p_try (p_wait (listener_bind addr)) (λ listener : Listener,
  stream ←• p_some (p_wait (incoming_next listener));
  p_try (PRet stream) (λ tcp_stream : TcpStream,
  let framed := framed_new (Framed := Framed) tcp_stream in
  let data := [Byte.x05; Byte.x0a; Byte.x63] in
  p_try (p_wait (framed_send framed (to_bytes data))) (λ _, PRet (Ok tt)))).

Definition async_tcp_client (addr : string) : prog W (result unit io_error) :=
  _ ←• sleep_async hundred_ms;
  p_try (p_do (stream addr)) (λ tcp_stream : TcpStream,
  let framed := framed_new (Framed := Framed) tcp_stream in
  value ←• p_some (p_wait (framed_next framed));
  p_try (PRet value) (λ bytes,
  _ ←• p_assert (Z.of_nat (length bytes) =? 3);
  let values := take_into_inner bytes 3 in
  _ ←• p_assert (byte_is values 0 Byte.x05);
  _ ←• p_assert (byte_is values 1 Byte.x0a);
  _ ←• p_assert (byte_is values 2 Byte.x63);
  PRet (Ok tt))).

Definition test_async_tcp : M W (result unit io_error) :=
  let addr := "127.0.0.1:9998"%string in
  _ ← await_zip elapse fuel (async_tcp_client addr) (async_tcp_server addr);
  mret (Ok tt).

(** net/mod.rs: [test_clone]. *)
Definition clone_server (addr : string) : prog W (result unit unit) :=
  listener ←• p_expect (p_wait (listener_bind addr));
  incoming_stream ←• p_some (p_wait (incoming_next (listener : Listener)));
  _ ←• p_expect (PRet incoming_stream);
  _ ←• sleep_async (StdTime.from_secs 1);
  PRet (Ok tt).

Definition clone_client (addr : string) : prog W unit :=
  _ ←• sleep_async hundred_ms;
  tcp_stream ←• p_expect (p_do (stream addr));
  let '(_read, _write) := async_split (TcpStream := TcpStream) (tcp_stream : TcpStream) in
  PRet tt.

Definition test_clone : M W (result unit unit) :=
  let addr := "127.0.0.1:39000"%string in
  _ ← await_zip elapse fuel (clone_client addr) (clone_server addr);
  mret (Ok tt).
End tcp_tests.

(** ** A network in memory

    Connections are numbered; each has the frames under way in both directions, the
    clock moves between the polls. *)

Record loopback : Type := Loopback {
  lb_clock : Z;
  lb_listening : bool;
  lb_backlog : list nat;
  lb_conns : list (list (list byte) * list (list byte));
}.
Definition no_network : loopback := Loopback 0 false [] [].

(** The end of a connection, at the client or at the server. *)
Record endpoint : Type := Endpoint { ep_conn : nat; ep_client : bool }.
Definition other_end (e : endpoint) : endpoint := Endpoint (ep_conn e) (negb (ep_client e)).

(** The frames that an end has not read yet. *)
Definition inbox (e : endpoint) (w : loopback) : list (list byte) :=
  match lb_conns w !! ep_conn e with
  | Some (up, down) => if ep_client e then down else up
  | None => []
  end.
Definition set_inbox (e : endpoint) (q : list (list byte)) (w : loopback) : loopback :=
  Loopback (lb_clock w) (lb_listening w) (lb_backlog w)
    (alter (λ '(up, down), if ep_client e then (up, q) else (q, down)) (ep_conn e) (lb_conns w)).

Definition later (ns : Z) (w : loopback) : loopback :=
  Loopback (lb_clock w + ns) (lb_listening w) (lb_backlog w) (lb_conns w).

Definition lb_connect (addr : string) : M loopback (result endpoint io_error) := λ w,
  if lb_listening w
  then (Loopback (lb_clock w) true (lb_backlog w ++ [length (lb_conns w)])
          (lb_conns w ++ [([], [])]), Val (Ok (Endpoint (length (lb_conns w)) true)))
  else (w, Val (Err (io_error_from ConnectionRefused))).

#[export] Instance loopback_net : TcpNet loopback endpoint socket2_keepalive := {
  tcp_connect := lb_connect;
  set_nodelay _ _ := mret (Ok tt);
  set_tcp_keepalive _ _ := mret (Ok tt);
  stream_raw_fd e := 10 + 2 * Z.of_nat (ep_conn e) + (if ep_client e then 0 else 1);
  keepalive_new := MkKeepaliveOpts None None None;
  with_time k t := MkKeepaliveOpts (Some t) (interval k) (retries k);
  with_interval k i := MkKeepaliveOpts (time k) (Some i) (retries k);
  with_retries k r := MkKeepaliveOpts (time k) (interval k) (Some r);
}.

#[export] Instance loopback_listener : TcpListener loopback unit endpoint := {
  listener_bind _ := λ w, (Loopback (lb_clock w) true (lb_backlog w) (lb_conns w),
                           Val (Ready (Ok tt)));
  incoming_next _ := λ w,
    match lb_backlog w with
    | [] => (w, Val Pending)
    | c :: rest => (Loopback (lb_clock w) (lb_listening w) rest (lb_conns w),
                    Val (Ready (Some (Ok (Endpoint c false)))))
    end;
}.

#[export] Instance loopback_timer : AsyncTimer loopback Z := {
  timer_after d := λ w, (w, Val (lb_clock w + as_nanos d));
  timer_poll t := λ w, (w, Val (if t <=? lb_clock w then Ready (lb_clock w) else Pending));
}.

Definition lb_send (e : endpoint) (b : list byte) : M loopback (poll (result unit io_error)) :=
  λ w, (set_inbox (other_end e) (inbox (other_end e) w ++ [b]) w, Val (Ready (Ok tt))).

(** TCP has no frames: reading gives all that has arrived. *)
#[export] Instance tcp_frames : FramedBytes loopback endpoint endpoint := {
  framed_new e := e;
  framed_send := lb_send;
  framed_next e := λ w,
    match inbox e w with
    | [] => (w, Val Pending)
    | bs => (set_inbox e [] w, Val (Ready (Some (Ok (concat bs)))))
    end;
}.

Definition zip_poll {W A B} : machine W (task W A * task W B) (A * B) := λ '(t, u),
  t ← poll_task t; u ← poll_task u;
  mret match t, u with
       | inl a, inl b => inl (a, b)
       | _, _ => inr (t, u)
       end.
#[export] Instance zip_of_polls {W} : FutureZip W := {
  future_zip A B := zip_poll;
  future_zip_polls A B t u := reflexivity _;
}.

(** Fifty milliseconds pass between two polls. *)
Definition fifty_ms : Z := 50000000.

Example tcp_peer_tests_pass :
  passes (expect (test_async_tcp (Framed := endpoint) (later fifty_ms) 20)) no_network ∧
  passes (expect (test_clone (later fifty_ms) 60)) no_network.
Proof. split; vm_compute; reflexivity. Qed.

(** ** A network that refuses everything

    [let _ = zip(..).await] drops the results of both sides, so a test passes although the
    server could not bind and the client not connect. *)

Record offline : Type := Offline { of_clock : Z }.
Definition refused {A} : result A io_error := Err (io_error_from ConnectionRefused).

#[export] Instance offline_net : TcpNet offline unit unit := {
  tcp_connect _ := mret refused;
  set_nodelay _ _ := mret refused;
  set_tcp_keepalive _ _ := mret refused;
  stream_raw_fd _ := 10;
  keepalive_new := tt;
  with_time k _ := k;
  with_interval k _ := k;
  with_retries k _ := k;
}.
#[export] Instance offline_listener : TcpListener offline unit unit := {
  listener_bind _ := mret (Ready refused);
  incoming_next _ := mret Pending;
}.
#[export] Instance offline_timer : AsyncTimer offline Z := {
  timer_after d := λ w, (w, Val (of_clock w + as_nanos d));
  timer_poll t := λ w, (w, Val (if t <=? of_clock w then Ready (of_clock w) else Pending));
}.
#[export] Instance offline_frames : FramedBytes offline unit unit := {
  framed_new e := e;
  framed_send _ _ := mret (Ready refused);
  framed_next _ := mret Pending;
}.

Example tcp_test_passes_offline :
  passes (expect (test_async_tcp (Framed := unit)
    (λ w, Offline (of_clock w + fifty_ms)) 20)) (Offline 0).
Proof. vm_compute. reflexivity. Qed.
