(* ===== verification/TlsTests.v ===== *)
(** * The tests of the TLS backends: a conversation over a session

    src/src/openssl/test.rs and the test of src/src/rust_tls.rs let a client and a server
    exchange numbered messages over a TLS session; the ones of native_tls.rs let the
    server send two frames at a time.  Accepting and connecting are parameters, as the
    backends are; the tests run on the network in memory of [Peers]. *)

From stdpp Require Import pretty.
From S2P Require Export Peers NativeTls RustTls.

(** [as_bytes] and [format!("message{i}")]. *)
Definition as_bytes (s : string) : list byte := String.list_byte_of_string s.
Definition message (i : Z) : string := "message" +:+ pretty i.
Definition reply (message : string) : string := message +:+ "reply".

(** [String::from_utf8(bytes).expect("utf8")] compared by [assert_eq!] with a text: bytes
    that are not valid UTF-8 fail the test as bytes of another text do. *)
Definition assert_text {W} (bytes : list byte) (s : string) : prog W unit :=
  p_assert (bool_decide (bytes = as_bytes s)).

(** [ITER]. *)
Definition ITER : nat := 10.

(** ** The conversation *)
Section conversation.
Context {W Session Framed : Type} `{!FramedBytes W Session Framed}.

(** The loops of the server and of the client. *)
Definition server_turn (framed : Framed) (i : Z) : prog W unit :=
  receives_bytes ←• p_some (p_wait (framed_next framed));
  bytes ←• p_expect (PRet receives_bytes);
  _ ←• assert_text bytes (message i);
  p_expect (p_wait (framed_send framed (to_bytes (as_bytes (reply (message i)))))).

Definition client_turn (framed : Framed) (i : Z) : prog W unit :=
  _ ←• p_expect (p_wait (framed_send framed (to_bytes (as_bytes (message i)))));
  frame ←• p_some (p_wait (framed_next framed));
  bytes ←• p_expect (PRet frame);
  assert_text bytes (message i +:+ "reply").

Definition server_loop (n : nat) (i : Z) (framed : Framed) : prog W unit :=
  p_for n i (server_turn framed).
Definition client_loop (n : nat) (i : Z) (framed : Framed) : prog W unit :=
  p_for n i (client_turn framed).
End conversation.

(** ** The tests *)
Section sessions.
Context {W Listener TcpStream TcpKeepalive Timer Session Framed Acceptor Connector E : Type}
  `{!TcpNet W TcpStream TcpKeepalive, !TcpListener W Listener TcpStream,
    !FramedBytes W Session Framed, !AsyncTimer W Timer, !FutureZip W}.
Context (elapse : W → W) (fuel : nat).
(** [acceptor.accept(stream)] and [connector.connect(.., stream)], awaited. *)
Context (accept : Acceptor → TcpStream → prog W (result Session E))
  (connect_localhost : Connector → TcpStream → prog W (result Session E)).

(** What both servers, and both clients, do up to the frames. *)
Definition accepted (acceptor : Acceptor) (addr : string) : prog W Framed :=
  listener ←• p_expect (p_wait (listener_bind addr));
  stream ←• p_some (p_wait (incoming_next (listener : Listener)));
  tcp_stream ←• p_expect (PRet stream);
  tls_stream ←• p_expect (accept acceptor tcp_stream);
  PRet (framed_new tls_stream).
Definition connected (connector : Connector) (addr : string) : prog W Framed :=
  _ ←• sleep_async hundred_ms;
  tcp_stream ←• p_expect (p_do (stream addr));
  tls_stream ←• p_expect (connect_localhost connector tcp_stream);
  PRet (framed_new tls_stream).

(** openssl/test.rs: [run_test]. *)
Definition run_test_server (acceptor : Acceptor) (addr : string) : prog W (result unit anyhow) :=
  framed ←• accepted acceptor addr;
  _ ←• server_loop ITER 0 framed;
  PRet (Ok tt).
Definition run_test_client (connector : Connector) (addr : string) :
    prog W (result unit anyhow) :=
  framed ←• connected connector addr;
  _ ←• client_loop ITER 0 framed;
  PRet (Ok tt).
Definition run_test (acceptor : Acceptor) (connector : Connector) : M W (result unit anyhow) :=
  let addr := "127.0.0.1:19988"%string in
  _ ← await_zip elapse fuel (run_test_client connector addr) (run_test_server acceptor addr);
  mret (Ok tt).

(** rust_tls.rs: [test_rustls], the same but for the port. *)
Definition test_rustls (acceptor : Acceptor) (connector : Connector) :
    M W (result unit anyhow) :=
  let addr := "127.0.0.1:19998"%string in
  _ ← await_zip elapse fuel (run_test_client connector addr) (run_test_server acceptor addr);
  mret (Ok tt).

(** native_tls.rs: [test_tls]. *)
Definition TEST_ITERATION : nat := 2.

Definition native_server (acceptor : Acceptor) (addr : string) : prog W (result unit anyhow) :=
  framed ←• accepted acceptor addr;
  _ ←• p_for TEST_ITERATION 0 (λ _,
    let data := [Byte.x05; Byte.x0a; Byte.x63] in
    _ ←• p_expect (p_wait (framed_send framed (to_bytes data)));
    _ ←• sleep_async (MkDuration 0 1000);
    let data2 := [Byte.x20; Byte.x11] in
    p_expect (p_wait (framed_send framed (to_bytes data2))));
  _ ←• sleep_async (StdTime.from_secs 1);
  PRet (Ok tt).

Definition native_client (connector : Connector) (addr : string) : prog W (result unit anyhow) :=
  framed ←• connected connector addr;
  _ ←• p_for TEST_ITERATION 0 (λ _,
    value ←• p_some (p_wait (framed_next framed));
    bytes ←• p_expect (PRet value);
    let values := take_into_inner bytes 3 in
    _ ←• p_assert (byte_is values 0 Byte.x05);
    _ ←• p_assert (byte_is values 1 Byte.x0a);
    _ ←• p_assert (byte_is values 2 Byte.x63);
    _ ←• p_assert (Z.of_nat (length values) =? 3);
    value2 ←• p_some (p_wait (framed_next framed));
    bytes ←• p_expect (PRet value2);
    let values := take_into_inner bytes 2 in
    p_assert (Z.of_nat (length values) =? 2));
  PRet (Ok tt).

Definition test_tls_native (port : Z) (acceptor : Acceptor) (connector : Connector) :
    M W (result unit anyhow) :=
  let addr := "127.0.0.1:" +:+ pretty port in
  _ ← await_zip elapse fuel (native_client connector addr) (native_server acceptor addr);
  mret (Ok tt).
End sessions.

(** The files the tests use. *)
Definition CA_PATH : string := "certs/test-certs/ca.crt".
Definition INTERMEDIATE_CA_PATH : string := "certs/test-certs/intermediate-ca.crt".

(** *** openssl/test.rs: [test_tls] *)
Section openssl_test.
Context {W B X509 PKey Acceptor Connector : Type} `{SslContextBuilder W B X509 PKey}.
(** [SslAcceptor::mozilla_intermediate_v5], [SslConnector::builder], and [build] of both. *)
Context (mozilla_intermediate_v5 ssl_connector_builder : result B anyhow)
  (build_acceptor : B → Acceptor) (build_connector : B → Connector).
Context (run : TlsAcceptor Acceptor → TlsConnector Connector → M W (result unit anyhow)).

Definition server_acceptor (cert_file key_file : string) :
    M W (result (TlsAcceptorBuilder B) anyhow) :=
  builder ←? mret (acceptor_builder mozilla_intermediate_v5);
  acceptor_key_from_pem_files builder cert_file key_file.

Definition lax_connector (ca_file : string) : M W (result (TlsConnector Connector) anyhow) :=
  builder ←? mret (connector_builder ssl_connector_builder);
  builder ←? mret (hostname_verification_disabled builder);
  builder ←? connector_ca_from_pem_file builder ca_file;
  mret (Ok (connector_build build_connector builder)).

Definition test_tls : M W (result unit anyhow) :=
  acceptor ←? server_acceptor "certs/test-certs/intermediate-server.crt"
                "certs/test-certs/intermediate-server.key";
  connector ←? lax_connector INTERMEDIATE_CA_PATH;
  _ ← expect (run (acceptor_build build_acceptor acceptor) connector);
  acceptor ←? server_acceptor "certs/test-certs/server.crt" "certs/test-certs/server.key";
  connector ←? lax_connector CA_PATH;
  _ ← expect (run (acceptor_build build_acceptor acceptor) connector);
  acceptor ←? server_acceptor "certs/test-certs/server.crt" "certs/test-certs/server.key";
  acceptor ←? acceptor_ca_from_pem_file acceptor CA_PATH;
  builder ←? mret (connector_builder ssl_connector_builder);
  builder ←? connector_key_from_pem_files builder "certs/test-certs/client.crt"
               "certs/test-certs/client.key";
  builder ←? connector_ca_from_pem_file builder CA_PATH;
  _ ← expect (run (acceptor_build build_acceptor acceptor)
                (connector_build build_connector builder));
  mret (Ok tt).
End openssl_test.

(** *** rust_tls.rs: [test_rust_tls_all] *)
Section rustls_test.
Context {W Reader Key Cert Store WantsVerifier WantsClientCert ClientConfig TlsConnector
    WantsServerVerifier WantsServerCert ServerConfig Verifier TlsAcceptor : Type}
  `{!Pem Reader Key Cert, !RootStore Store Cert,
    !RustlsClient WantsVerifier WantsClientCert ClientConfig Store Cert Key TlsConnector,
    !RustlsServer WantsServerVerifier WantsServerCert ServerConfig Verifier Store Cert Key
       TlsAcceptor}.
Context (open_file : string → M W (result Reader io_error)) (pem_fuel : nat).
Context (run : TlsAcceptor → TlsConnector → M W (result unit anyhow)).

(** The functions of the builders at these types. *)
#[local] Abbreviation server_defaults :=
  (acceptor_safe_defaults (Key := Key) (Cert := Cert) (Store := Store)
     (WantsServerCert := WantsServerCert) (ServerConfig := ServerConfig)
     (Verifier := Verifier) (Acceptor := TlsAcceptor) : WantsServerVerifier).
#[local] Abbreviation without_client_authentication :=
  (no_client_authentication (Key := Key) (Cert := Cert) (Store := Store)
     (ServerConfig := ServerConfig) (Verifier := Verifier) (Acceptor := TlsAcceptor)).
#[local] Abbreviation authenticate :=
  (client_authenticate (Key := Key) (Store := Store) (WantsServerCert := WantsServerCert)
     (ServerConfig := ServerConfig) (Verifier := Verifier) (Acceptor := TlsAcceptor) open_file).
#[local] Abbreviation server_certs :=
  (load_server_certs (Store := Store) (WantsVerifier := WantsServerVerifier)
     (Verifier := Verifier) (Acceptor := TlsAcceptor) open_file pem_fuel).
#[local] Abbreviation build_server :=
  (acceptor_config_build (Key := Key) (Cert := Cert) (Store := Store)
     (WantsVerifier := WantsServerVerifier) (WantsServerCert := WantsServerCert)
     (Verifier := Verifier)).
#[local] Abbreviation client_defaults :=
  (connector_safe_defaults (Key := Key) (Cert := Cert) (Store := Store)
     (WantsClientCert := WantsClientCert) (ClientConfig := ClientConfig)
     (Connector := TlsConnector) : WantsVerifier).
#[local] Abbreviation without_verification :=
  (no_cert_verification (Key := Key) (Cert := Cert) (Store := Store)
     (WantsClientCert := WantsClientCert) (Connector := TlsConnector)).
#[local] Abbreviation ca_cert :=
  (load_ca_cert (Key := Key) (Store := Store) (WantsClientCert := WantsClientCert)
     (ClientConfig := ClientConfig) (Connector := TlsConnector) open_file).
#[local] Abbreviation client_certs :=
  (load_client_certs (Store := Store) (WantsVerifier := WantsVerifier)
     (Connector := TlsConnector) open_file pem_fuel).
#[local] Abbreviation build_client :=
  (connector_config_build (Key := Key) (Cert := Cert) (Store := Store)
     (WantsVerifier := WantsVerifier) (WantsClientCert := WantsClientCert)).

Definition test_rust_tls_all : M W (result unit anyhow) :=
  server ←? server_certs (without_client_authentication server_defaults)
              "certs/test-certs/server.crt" "certs/test-certs/server.key";
  _ ← expect (run (build_server server) (build_client (without_verification client_defaults)));
  stage ←? authenticate server_defaults CA_PATH;
  server ←? server_certs stage "certs/test-certs/server.crt" "certs/test-certs/server.key";
  stage ←? ca_cert client_defaults CA_PATH;
  client ←? client_certs stage "certs/test-certs/client.crt" "certs/test-certs/client.key";
  _ ← expect (run (build_server server) (build_client client));
  mret (Ok tt).
End rustls_test.

(** *** native_tls.rs: [test_native_tls_pk12] and [test_native_tls_x509] *)
Section native_test.
Context {W Reader X509 PKey Pkcs12 NativeCertificate NativeIdentity Connector Acceptor : Type}
  `{!Crypto X509 PKey Pkcs12, !NativeTls NativeCertificate NativeIdentity Connector Acceptor}.
Context (read_to_end : Reader → M W (result (list byte) io_error))
  (open_file : string → M W (result Reader io_error)).
Context (run : Z → Acceptor → Connector → M W (result unit anyhow)).

Definition SERVER_IDENTITY : string := "certs/test-certs/server.pfx".
Definition CLIENT_IDENTITY : string := "certs/test-certs/client.pfx".
Definition X509_SERVER : string := "certs/test-certs/server.crt".
Definition X509_SERVER_KEY : string := "certs/test-certs/server.key".
Definition X509_CLIENT : string := "certs/test-certs/client.crt".
Definition X509_CLIENT_KEY : string := "certs/test-certs/client.key".

#[local] Abbreviation load := (from_path read_to_end open_file).

(** [AcceptorBuilder::identity(..).expect(..).build().expect(..)]. *)
Definition native_acceptor (identity : IdentityBuilder) : M W Acceptor :=
  acceptor ← expect (mret (native.acceptor_identity (Connector := Connector)
                             (Acceptor := Acceptor) identity));
  expect (mret (native.acceptor_build (Connector := Connector) acceptor)).
Definition native_connector (identity : IdentityBuilder) : M W Connector :=
  expect (mret (native.identity (Acceptor := Acceptor) identity)).

Definition invalid_hostnames (c : Connector) : Connector :=
  native.danger_accept_invalid_hostnames (NativeCertificate := NativeCertificate)
    (NativeIdentity := NativeIdentity) (Acceptor := Acceptor) c.
Definition unverified (c : Connector) : Connector :=
  native.no_cert_verification (NativeCertificate := NativeCertificate)
    (NativeIdentity := NativeIdentity) (Acceptor := Acceptor) c.

Definition test_native_tls_pk12 : M W (result unit anyhow) :=
  let PK12_PORT := 9900 in
  server ← expect (load SERVER_IDENTITY);
  acceptor ← native_acceptor server;
  client ←? load CLIENT_IDENTITY;
  connector ← native_connector client;
  _ ← expect (run PK12_PORT acceptor (unverified (invalid_hostnames connector)));
  server ← expect (load SERVER_IDENTITY);
  acceptor ← native_acceptor server;
  client ←? load CLIENT_IDENTITY;
  connector ← native_connector client;
  _ ← expect (run PK12_PORT acceptor (unverified connector));
  mret (Ok tt).

(** [IdentityBuilder::from_x509(..).expect(..)] of two files. *)
Definition x509_identity (cert_file key_file : string) : M W IdentityBuilder :=
  cert ← expect (load cert_file);
  key ← expect (load key_file);
  expect (mret (native.from_x509 cert key)).

Definition test_native_tls_x509 : M W (result unit anyhow) :=
  let X500_PORT := 9910 in
  server ← x509_identity X509_SERVER X509_SERVER_KEY;
  acceptor ← native_acceptor server;
  client ← x509_identity X509_CLIENT X509_CLIENT_KEY;
  connector ← native_connector client;
  _ ← expect (run X500_PORT acceptor (unverified (invalid_hostnames connector)));
  server ← x509_identity X509_SERVER X509_SERVER_KEY;
  acceptor ← native_acceptor server;
  client ← x509_identity X509_CLIENT X509_CLIENT_KEY;
  connector ← native_connector client;
  ca ← expect (load CA_PATH);
  connector ← expect (mret (native.add_root_certificate (NativeIdentity := NativeIdentity)
                              (Acceptor := Acceptor) connector ca));
  _ ← expect (run X500_PORT acceptor (unverified connector));
  mret (Ok tt).
End native_test.

(** ** The tests on the network in memory *)

(** A TLS session over a connection in memory: a read gives one record. *)
Record tls_end : Type := TlsEnd { tls_endpoint : endpoint }.
#[export] Instance tls_frames : FramedBytes loopback tls_end tls_end := {
  framed_new e := e;
  framed_send e := lb_send (tls_endpoint e);
  framed_next e := λ w,
    match inbox (tls_endpoint e) w with
    | [] => (w, Val Pending)
    | b :: q => (set_inbox (tls_endpoint e) q w, Val (Ready (Some (Ok b))))
    end;
}.
Definition tls_over {A} (_ : A) (e : endpoint) : prog loopback (result tls_end anyhow) :=
  PRet (Ok (TlsEnd e)).

(** An OpenSSL that takes every file. *)
#[export] Instance loopback_builder : SslContextBuilder loopback unit unit unit := {
  set_certificate_file _ _ := mret (Ok tt);
  set_private_key_file _ _ := mret (Ok tt);
  set_certificate _ _ := mret (Ok tt);
  set_private_key _ _ := mret (Ok tt);
  add_extra_chain_cert _ _ := mret (Ok tt);
  set_ca_file _ _ := mret (Ok tt);
  add_store_cert _ _ := mret (Ok tt);
  set_verify _ _ := tt;
}.

Definition loopback_run {A C} (acceptor : A) (connector : C) : M loopback (result unit anyhow) :=
  run_test (later fifty_ms) 20 tls_over tls_over acceptor connector.

Example openssl_test_passes :
  passes (expect (test_tls (Ok tt) (Ok tt) id id loopback_run)) no_network.
Proof. vm_compute. reflexivity. Qed.

Example rustls_test_passes :
  passes (expect (test_rustls (later fifty_ms) 20 tls_over tls_over tt tt)) no_network.
Proof. vm_compute. reflexivity. Qed.

(** The test of native-tls passes as long as a read gives one record.  Over a stream that
    joins what has arrived, like TCP itself, it depends on the client being polled between
    the two frames. *)
Definition tcp_over {A} (_ : A) (e : endpoint) : prog loopback (result endpoint anyhow) :=
  PRet (Ok e).

Example native_test_passes :
  passes (expect (test_tls_native (later fifty_ms) 60 tls_over tls_over 9900 tt tt)) no_network.
Proof. vm_compute. reflexivity. Qed.
Example native_test_needs_records :
  (test_tls_native (Session := endpoint) (later 2000000000) 60 tcp_over tcp_over 9900 tt tt
     no_network).2 = Panic.
Proof. vm_compute. reflexivity. Qed.

(** The builders, with files that hold one key and no certificate. *)
#[export] Instance unit_store : RootStore unit Z := { root_empty := tt; root_add _ _ := Ok tt }.
#[export] Instance unit_client : RustlsClient unit unit unit unit Z Z unit := {
  client_config_builder := tt;
  client_root_certificates _ _ := tt;
  client_custom_verifier _ := tt;
  client_no_auth _ := tt;
  client_auth_cert _ _ _ := Ok tt;
  connector_from c := c;
}.
#[export] Instance unit_server : RustlsServer unit unit unit unit unit Z Z unit := {
  server_config_builder := tt;
  server_no_client_auth _ := tt;
  build_client_verifier _ := Ok tt;
  server_client_verifier _ _ := tt;
  server_single_cert _ _ _ := Ok tt;
  acceptor_from c := c;
}.

Example rustls_all_test_passes :
  passes (expect (test_rust_tls_all (Reader := item_reader) (Verifier := unit)
    (λ _, mret (Ok [Ok (Pkcs8Key 7)])) 3
    (test_rustls (later fifty_ms) 20 tls_over tls_over))) no_network.
Proof. vm_compute. reflexivity. Qed.

(** Archives of a key and a certificate of one byte each. *)
#[export] Instance listed_native : NativeTls (list byte) sealed unit sealed := {
  native_cert_from_pem := pem_text;
  native_identity_from_pkcs12 der pass :=
    match der with
    | [k; c] => Ok (pass, [k], [c])
    | _ => Err (AnyhowError "bad tag")
    end;
  connector_new := tt;
  connector_identity _ _ := tt;
  accept_invalid_certs _ _ := tt;
  accept_invalid_hostnames _ _ := tt;
  connector_use_sni _ _ := tt;
  connector_root_certificate _ _ := tt;
  acceptor_new i := Ok i;
}.

Definition byte_file (path : string) : M loopback (result (list byte) io_error) :=
  mret (Ok (if bool_decide (path = SERVER_IDENTITY ∨ path = CLIENT_IDENTITY)
            then [Byte.x0b; Byte.x0c] else [Byte.x0b])).

Example native_tests_pass :
  Forall (λ test, passes (expect test) no_network)
    [test_native_tls_pk12 (NativeCertificate := list byte) (λ b, mret (Ok b)) byte_file
       (test_tls_native (later fifty_ms) 60 tls_over tls_over);
     test_native_tls_x509 (λ b, mret (Ok b)) byte_file
       (test_tls_native (later fifty_ms) 60 tls_over tls_over)].
Proof. repeat constructor; vm_compute; reflexivity. Qed.
