(* ===== verification/Task.v ===== *)
(** * Running futures: src/src/task.rs and [assert_async_block!] of test_util.rs

    The executors are async-global-executor and, for [wasm32], wasm-bindgen-futures:
    an interface of what is called of them.  [cfg(target_arch = "wasm32")] is a
    parameter, so that both variants of each function are one definition.  The
    futures are effectful code of the world [W] in which the executors run too. *)

From S2P Require Export StdTime.

Class TargetArch := wasm32 : bool.

Class TaskExecutor (W : Type) (Task : Type → Type) := {
  (** [async_global_executor::block_on], [spawn], and [Task::detach] *)
  block_on {T} : M W T → M W T;
  executor_spawn {T} : M W T → M W (Task T);
  detach {T} : Task T → M W unit;
  (** [wasm_bindgen_futures::spawn_local] *)
  spawn_local : M W unit → M W unit;
}.

(** [sleep] of timer.rs: on [wasm32] it is fallible ([fluvio_wasm_timer::Delay]). *)
Class Sleep (W E : Type) := {
  sleep : Duration → M W unit;
  wasm_sleep : Duration → M W (result unit E);
}.

Section task.
Context `{TargetArch} {W : Type} {Task : Type → Type} {E : Type}.
Context `{!TaskExecutor W Task, !Sleep W E}.

Definition run (spawn_closure : M W unit) : M W unit :=
  if wasm32 then spawn_local spawn_closure else block_on spawn_closure.

(** The body of the infinite loop of [main], and the loop on fuel. *)
Definition sleep_hour : M W unit :=
  if wasm32 then r ← wasm_sleep (from_secs 3600); unwrap r
  else sleep (from_secs 3600).

Fixpoint sleep_loop (fuel : nat) : M W unit :=
  match fuel with
  | O => lift OutOfFuel
  | S fuel => _ ← sleep_hour; sleep_loop fuel
  end.

Definition main (fuel : nat) (spawn_closure : M W unit) : M W unit :=
  run (_ ← spawn_closure; sleep_loop fuel).

Definition spawn {T} (future : M W T) : M W unit :=
  if wasm32 then spawn_local (_ ← future; mret tt)
  else task ← executor_spawn future; detach task.

Definition spawn_task {T} (future : M W T) : M W (Task T) := executor_spawn future.

(** [run_block_on]: the one of the executor, and the function of [wasm32], which
    gives back nothing. *)
Definition run_block_on {T} (f : M W T) : M W T := block_on f.
Definition wasm_run_block_on {T} (f : M W T) : M W unit := spawn_local (_ ← f; mret tt).

(** [assert_async_block!]. *)
Definition assert_async_block {T Err} (ft : M W (result T Err)) : M W unit :=
  if wasm32 then wasm_run_block_on ft
  else r ← run_block_on ft;
       match r with Ok _ => mret tt | Err _ => panic end.
End task.

(** What the executors promise: [block_on] runs the future to its end on the calling
    thread, and nothing but the future when no task was spawned before ([idle]);
    [spawn_local] returns before it polls the future, so that all one can see of
    the world is as it was. *)
Class TaskLaws `{TaskExecutor W Task} (View : Type) := {
  idle : W → Prop;
  view : W → View;
  block_on_alone {T} (f : M W T) w : idle w → block_on f w = f w;
  spawn_local_returns f w : ∃ w', spawn_local f w = (w', Val tt) ∧ view w' = view w;
}.

(** Sleeping an hour, [n] times. *)
Fixpoint hours {W E} `{Sleep W E} (n : nat) (w : W) : W :=
  match n with O => w | S n => hours n (sleep (from_secs 3600) w).1 end.

Section task_correct.
Context `{TargetArch} {W : Type} {Task : Type → Type} {E View : Type}.
Context `{!TaskExecutor W Task, !Sleep W E, !TaskLaws View}.

Lemma sleep_loop_hours fuel (w : W) :
  wasm32 = false → (∀ w, (sleep (from_secs 3600) w).2 = Val tt) →
  sleep_loop fuel w = (hours fuel w, OutOfFuel).
Proof.
  intros Harch Hsleep. revert w. induction fuel as [|fuel IH]; intros w; [done|].
  simpl. unfold mbind, M_bind, sleep_hour. rewrite Harch. pose proof (Hsleep w) as Hw.
  destruct (sleep (from_secs 3600) w) as [w' o]. simpl in *. by rewrite Hw.
Qed.

(** C36: [main], natively, runs the closure and then never returns: on an idle executor
    whose sleeps end, the closure runs once and first, and after it every hour is slept and
    followed by another, whatever the fuel; if the closure unwinds, so does [main], before
    any sleep. *)
Theorem main_never_returns (fuel : nat) (spawn_closure : M W unit) (w : W)
    (Hnative : wasm32 = false) (Hidle : idle w)
    (Hsleep : ∀ w, (sleep (from_secs 3600) w).2 = Val tt) :
  main fuel spawn_closure w =
    match spawn_closure w with
    | (w', Val _) => (hours fuel w', OutOfFuel)
    | (w', Panic) => (w', Panic)
    | (w', OutOfFuel) => (w', OutOfFuel)
    end.
Proof.
  unfold main, run. rewrite Hnative, block_on_alone by done. unfold mbind, M_bind.
  destruct (spawn_closure w) as [w' [[]| |]]; [|done..]. by apply sleep_loop_hours.
Qed.

(** On [wasm32], where nothing blocks, [main] returns at once, having run nothing, although
    the comment in task.rs has it wait forever there too. *)
Lemma main_returns_on_wasm (fuel : nat) (spawn_closure : M W unit) (w : W)
    (Hwasm : wasm32 = true) :
  ∃ w', main fuel spawn_closure w = (w', Val tt) ∧ view w' = view w.
Proof. unfold main, run. rewrite Hwasm. apply spawn_local_returns. Qed.

(** An assertion on an idle executor unwinds exactly when the block fails. *)
Lemma assert_async_block_spec {T Er} (ft : M W (result T Er)) w w' r :
  wasm32 = false → idle w → ft w = (w', Val r) →
  assert_async_block ft w = (w', if is_ok r then Val tt else Panic).
Proof.
  intros Harch Hidle Hft. unfold assert_async_block, run_block_on. rewrite Harch.
  erewrite M_bind_val by (rewrite block_on_alone; done). by destruct r.
Qed.
End task_correct.

(** ** Witness: an executor that logs

    [block_on] runs the future; what is spawned is noted and left for later. *)

Inductive task_event : Type :=
| Slept (d : Duration)
| Spawned
| Said (s : string).

#[export] Instance task_event_eq_dec : EqDecision task_event.
Proof. solve_decision. Defined.

Definition is_spawned (e : task_event) : bool :=
  match e with Spawned => true | _ => false end.
Definition task_log : Type := list task_event.
Definition say (s : string) : M task_log unit := λ w, (w ++ [Said s], Val tt).

#[export] Instance log_executor : TaskExecutor task_log (λ _, unit) := {
  block_on T f := f;
  executor_spawn T f := λ w, (w ++ [Spawned], Val tt);
  detach T t := λ w, (w, Val tt);
  spawn_local f := λ w, (w ++ [Spawned], Val tt);
}.
#[export] Instance log_sleep : Sleep task_log string := {
  sleep d := λ w, (w ++ [Slept d], Val tt);
  wasm_sleep d := λ w, (w ++ [Slept d], Val (Ok tt));
}.
#[export] Instance log_task_laws : TaskLaws (W := task_log) (list task_event).
Proof.
  refine {| idle w := Forall (λ e, is_spawned e = false) w;
            view w := base.filter (λ e, is_spawned e = false) w |}.
  - done.
  - intros f w. exists (w ++ [Spawned]). split; [done|]. rewrite filter_app. simpl.
    by rewrite app_nil_r.
Defined.

Lemma main_never_returns_witness :
  main (H := false) (E := string) 2 (say "server started") [] =
    ([Said "server started"; Slept (from_secs 3600); Slept (from_secs 3600)], OutOfFuel).
Proof.
  refine (main_never_returns (H := false) (E := string) 2 (say "server started") [] eq_refl _ _);
    [by apply Forall_nil_2|done].
Defined.

Lemma main_returns_on_wasm_witness :
  ∃ w', main (H := true) (E := string) 2 (say "server started") [] = (w', Val tt) ∧
    view w' = [].
Proof. exact (main_returns_on_wasm (H := true) (E := string) 2 (say "server started") [] eq_refl). Defined.
