(* ===== verification/Derive.v ===== *)
(** * The attribute macros: src/fluvio-future-derive/src/lib.rs

    A macro takes the function it is put on, as syn parses it, and quotes a new one.
    The functions and what is quoted are abstract syntax: the attributes, types
    and parameters are texts, the body of the user's function is opaque.  What
    an expansion does when it is compiled and called is given by a small semantics over
    the executors of [Task]: name resolution (an item of a block hides the outer one of
    the same name), the arity and the [async] of what is called, whether what is taken
    apart as a [Result] is one, then the effects. *)

From S2P Require Export Task.

(** [syn::ItemFn], over the type [B] of bodies. *)
Record ItemFn (B : Type) : Type := MkItemFn {
  attrs : list string;
  vis : string;
  asyncness : bool;
  ident : string;
  inputs : list string;
  output : string;
  block : B;
}.
Arguments MkItemFn {B} _ _ _ _ _ _ _.
Arguments attrs {B} _.
Arguments vis {B} _.
Arguments asyncness {B} _.
Arguments ident {B} _.
Arguments inputs {B} _.
Arguments output {B} _.
Arguments block {B} _.

(** The [async] blocks of the quotes: a call without arguments, awaited; with a
    semicolon after it the value is dropped. *)
Record async_call : Type := AsyncCall { callee : string; value_dropped : bool }.

(** The statements of the quotes, in the order of the code. *)
Inductive statement (B : Type) : Type :=
(** [::fluvio_future::subscriber::init_logger();] *)
| InitLogger
(** a function in the function *)
| Item (f : ItemFn B)
(** [let ft = async {..};] *)
| LetFt (a : async_call)
(** [::fluvio_future::task::run_block_on(async {..})], the value of the block *)
| RunBlockOn (a : async_call)
(** [::fluvio_future::task::run_block_on(ft);] *)
| RunFt
(** [if let Err(err) = run_block_on(ft) { assert!(false, ..) }], not on [wasm32] *)
| AssertFt.
Arguments InitLogger {B}.
Arguments Item {B} f.
Arguments LetFt {B} a.
Arguments RunBlockOn {B} a.
Arguments RunFt {B}.
Arguments AssertFt {B}.

(** What a macro gives: a function, or [compile_error!]. *)
Inductive expansion (B : Type) : Type :=
| CompileError (message : string)
| Expanded (f : ItemFn (list (statement B))).
Arguments CompileError {B} message.
Arguments Expanded {B} f.

(** [syn::parse_macro_input!]: what syn could not parse is its error. *)
Definition parse_macro_input {A B} (parsed : result A string) (k : A → expansion B) :
    expansion B :=
  match parsed with Ok a => k a | Err message => CompileError message end.

Section macros.
Context {B : Type}.

Definition only_main : string :=
  "only the main function can be tagged with #[fluvio_future::main_async]".
Definition async_missing : string :=
  "the async keyword is missing from the function declaration".

Definition main_async (item : result (ItemFn B) string) : expansion B :=
  parse_macro_input item (λ input,
  if negb (String.eqb (ident input) "main") then CompileError only_main
  else if negb (asyncness input) then CompileError async_missing
  else Expanded (MkItemFn [] (vis input) false "main" [] (output input)
    [InitLogger;
     Item (MkItemFn (attrs input) "" true "main" (inputs input) (output input) (block input));
     RunBlockOn (AsyncCall "main" false)])).

(** [mod generate]. *)
Definition generate_test_attributes (attributes : list string) : list string :=
  (λ meta, "#[" +:+ meta +:+ "]") <$> attributes.

Definition sync_name (name : string) : string := name +:+ "_sync".

Definition test_async (args : result (list string) string) (item : result (ItemFn B) string) :
    expansion B :=
  parse_macro_input args (λ attribute_args,
  parse_macro_input item (λ input,
  Expanded (MkItemFn ("#[test]" :: generate_test_attributes attribute_args) "" false
    (sync_name (ident input)) [] ""
    [InitLogger; Item input; LetFt (AsyncCall (ident input) false); AssertFt]))).

Definition test (args : result (list string) string) (item : result (ItemFn B) string) :
    expansion B :=
  parse_macro_input args (λ attribute_args,
  parse_macro_input item (λ input,
  Expanded (MkItemFn ("#[test]" :: generate_test_attributes attribute_args) "" false
    (sync_name (ident input)) [] ""
    [InitLogger; Item input; LetFt (AsyncCall (ident input) true); RunFt]))).
End macros.

(** ** What an expansion means *)

(** What the texts of return types stand for, the empty one for none: the unit type; a
    [Result] whose error has [Debug]; a type that [main] may have ([Termination]); a type
    that is a [Future], with the text of its [Output]. *)
Class ReturnTypes := {
  is_unit : string → bool;
  is_result : string → bool;
  main_type : string → bool;
  future_output : string → option string;
  no_output_unit : is_unit "" = true;
}.

(** The type of [name().await], if [name] is [f]: there is no argument in the call, and what
    it gives has to be a future, as what an [async fn] gives always is. *)
Definition awaited_type `{ReturnTypes} {B} (f : ItemFn B) : option string :=
  if bool_decide (inputs f = [])
  then if asyncness f then Some (output f) else future_output (output f)
  else None.

Section semantics.
Context `{TargetArch} `{!ReturnTypes} {B W V : Type} {Task : Type → Type} `{!TaskExecutor W Task}.
Context (init_logger : M W unit).
(** Calling the user's function and awaiting what it gives; whether a value is an [Err]. *)
Context (run_body : B → M W V).
Context (is_err : V → bool).

(** Items are in scope in the whole block. *)
Fixpoint find_item (name : string) (body : list (statement B)) : option (ItemFn B) :=
  match body with
  | [] => None
  | Item f :: body => if String.eqb (ident f) name then Some f else find_item name body
  | _ :: body => find_item name body
  end.

(** The block of an [async_call]: its type and its effect.  [None] is an error of the
    compiler. *)
Definition awaited_call (body : list (statement B)) (a : async_call) : option (string * M W V) :=
  f ← find_item (callee a) body;
  type ← awaited_type f;
  Some (if value_dropped a then ""%string else type, run_body (block f)).

(** Statements after each other, in a function with the return type [ret]; [ft] is the
    variable.  [run_block_on] of [wasm32] gives nothing back, so its call is a value of the
    unit type there.  [if let Err(err) = ..] is about a [Result] only. *)
Fixpoint exec_body (ret : string) (whole rest : list (statement B))
    (ft : option (string * M W V)) : option (M W (option V)) :=
  match rest with
  | [] => if is_unit ret then Some (mret None) else None
  | InitLogger :: rest =>
      k ← exec_body ret whole rest ft; Some (_ ← init_logger; k)
  | Item _ :: rest => exec_body ret whole rest ft
  | LetFt a :: rest =>
      f ← awaited_call whole a; exec_body ret whole rest (Some f)
  | RunBlockOn a :: rest =>
      '(type, f) ← awaited_call whole a;
      if wasm32
      then if is_unit ret then Some (_ ← wasm_run_block_on f; mret None) else None
      else if String.eqb type ret then Some (v ← run_block_on f; mret (Some v)) else None
  | RunFt :: rest =>
      '(_, f) ← ft; k ← exec_body ret whole rest ft;
      Some (if wasm32 then _ ← wasm_run_block_on f; k else _ ← run_block_on f; k)
  | AssertFt :: rest =>
      '(type, f) ← ft; k ← exec_body ret whole rest ft;
      if wasm32 then Some k
      else if is_result type then Some (v ← run_block_on f; if is_err v then panic else k)
      else None
  end.

(** Calling the expansion: [None] where it does not compile. *)
Definition call_expansion (e : expansion B) : option (M W (option V)) :=
  match e with
  | CompileError _ => None
  | Expanded f =>
      if String.eqb (ident f) "main" && negb (main_type (output f)) then None
      else exec_body (output f) (block f) (block f) None
  end.
End semantics.

(** ** The macros are correct *)

Section macros_correct.
Context `{TargetArch} `{!ReturnTypes} {B W V : Type} {Task : Type → Type} `{!TaskExecutor W Task}.
Context (init_logger : M W unit) (run_body : B → M W V) (is_err : V → bool).

(** A [main] that the macro can do something with: without parameters, and with a type that
    [main] may have and that [run_block_on] gives. *)
Definition runnable_main (f : ItemFn B) : bool :=
  bool_decide (inputs f = []) && main_type (output f) && (negb wasm32 || is_unit (output f)).

(** What [block_on(async { name().await })] does after the logger is set up. *)
Definition logged_run (body : M W V) : M W (option V) :=
  _ ← init_logger;
  if wasm32 then _ ← wasm_run_block_on body; mret None
  else v ← run_block_on body; mret (Some v).

(** C23: [main_async].  A function that is not called [main] is refused, [async] or
    not, and so is a [main] that is not [async], each with its message.  Otherwise the
    expansion is a synchronous [main] without parameters or attributes, with the
    visibility and the return type of the original, which sets up the logger and then runs
    the body of the original (not itself: the inner function hides the outer one): it blocks
    on it and gives its value, but on [wasm32] hands it to the browser and returns.  What
    comes out does not compile if the original has parameters, which are quoted into the
    inner function and never passed; if its type is none that [main] may have; and on
    [wasm32] if it returns anything, as nothing comes back from [run_block_on] there. *)
Theorem main_async_correct (f : ItemFn B) :
  (ident f ≠ "main"%string → main_async (Ok f) = CompileError only_main) ∧
  (ident f = "main"%string → asyncness f = false →
     main_async (Ok f) = CompileError async_missing) ∧
  (ident f = "main"%string → asyncness f = true →
     ∃ body, main_async (Ok f) =
         Expanded (MkItemFn [] (vis f) false "main" [] (output f) body) ∧
       if runnable_main f
       then ∃ m, call_expansion init_logger run_body is_err (main_async (Ok f)) = Some m ∧
              m ≡ logged_run (run_body (block f))
       else call_expansion init_logger run_body is_err (main_async (Ok f)) = None).
Proof.
  unfold main_async, parse_macro_input. split; [|split].
  - intros Hname. by rewrite (proj2 (String.eqb_neq _ _) Hname).
  - intros -> ->. done.
  - intros -> Ha. rewrite Ha. eexists. split; [reflexivity|].
    unfold runnable_main, logged_run, call_expansion, exec_body, awaited_call, awaited_type,
      find_item. simpl.
    destruct (main_type (output f)); [|by rewrite andb_false_r]. rewrite andb_true_r. simpl.
    destruct (bool_decide (inputs f = [])); [|done]. simpl. rewrite String.eqb_refl.
    destruct wasm32; simpl; [|by eexists]. by destruct (is_unit (output f)); [eexists|].
Qed.

(** C37: [test_async] and [test].  Both expand to a test function with the name of the
    original and [_sync] after it, [#[test]] and one attribute per argument.  It does not
    compile if the original has parameters, or gives nothing that can be awaited, being
    neither [async] nor a function that returns a future.  The expansion sets up the logger
    and then, natively, blocks on the original: the one of [test_async] unwinds exactly when
    the awaited value is an [Err], and does not compile if that is no [Result]; the one of
    [test] drops the value whatever it is.  On [wasm32] that of [test_async] never runs the
    body, and that of [test] hands it to the browser. *)
Theorem test_macros_correct (args : list string) (f : ItemFn B) :
  ∃ body1 body2,
  let header := MkItemFn ("#[test]"%string :: generate_test_attributes args) "" false
                  (sync_name (ident f)) [] ""%string in
  test_async (Ok args) (Ok f) = Expanded (header body1) ∧
  test (Ok args) (Ok f) = Expanded (header body2) ∧
  match awaited_type f with
  | Some type =>
      (if wasm32 || is_result type
       then ∃ m1,
         call_expansion init_logger run_body is_err (Expanded (header body1)) = Some m1 ∧
         m1 ≡ (_ ← init_logger;
               if wasm32 then mret None
               else v ← run_block_on (run_body (block f));
                    if is_err v then panic else mret None)
       else call_expansion init_logger run_body is_err (Expanded (header body1)) = None) ∧
      ∃ m2,
        call_expansion init_logger run_body is_err (Expanded (header body2)) = Some m2 ∧
        m2 ≡ (_ ← init_logger;
              if wasm32 then _ ← wasm_run_block_on (run_body (block f)); mret None
              else _ ← run_block_on (run_body (block f)); mret None)
  | None =>
      call_expansion init_logger run_body is_err (Expanded (header body1)) = None ∧
      call_expansion init_logger run_body is_err (Expanded (header body2)) = None
  end.
Proof.
  assert (String.eqb (sync_name (ident f)) "main" = false) as Hname.
  { apply String.eqb_neq. unfold sync_name. by destruct (ident f) as [|? [|? [|? [|? [|? ?]]]]]. }
  do 2 eexists. split; [reflexivity|]. split; [reflexivity|].
  unfold call_expansion, block, exec_body, awaited_call, find_item. simpl.
  rewrite Hname, String.eqb_refl. unfold mbind, option_bind. simpl.
  destruct (awaited_type f) as [type|]; [|done]. rewrite no_output_unit.
  split; [|by eexists]. destruct wasm32; simpl; [by eexists|].
  destruct (is_result type); [by eexists|done].
Qed.
End macros_correct.

(** ** Witnesses

    A [main] that says something, one that takes an argument, and one that returns something;
    bodies are what they say. *)

Definition hello_body (b : string) : M task_log (result unit string) :=
  _ ← say b; mret (Ok tt).
Definition hello_main (params : list string) (output : string) : ItemFn string :=
  MkItemFn [] "pub" true "main" params output "I am live".

#[export] Instance text_types : ReturnTypes := {
  is_unit t := String.eqb t "" || String.eqb t "-> ()";
  is_result t := String.prefix "-> Result" t;
  main_type t := String.eqb t "" || String.eqb t "-> ()" || String.prefix "-> Result" t;
  future_output t :=
    if String.eqb t "-> impl Future<Output = Result<(), Error>>"
    then Some "-> Result<(), Error>"%string else None;
  no_output_unit := eq_refl;
}.

Lemma main_async_correct_witness :
  (∃ m, call_expansion (H := false) (Task := λ _, unit) (say "logger") hello_body
     (λ r, negb (is_ok r)) (main_async (Ok (hello_main [] ""))) = Some m ∧
     m [] = ([Said "logger"; Said "I am live"], Val (Some (Ok tt)))) ∧
  call_expansion (H := false) (Task := λ _, unit) (say "logger") hello_body
    (λ r, negb (is_ok r)) (main_async (Ok (hello_main ["args: Args"%string] ""))) = None ∧
  call_expansion (H := true) (Task := λ _, unit) (say "logger") hello_body
    (λ r, negb (is_ok r)) (main_async (Ok (hello_main [] "-> Result<(), Error>"))) = None.
Proof.
  split; [|split].
  - destruct (main_async_correct (H := false) (Task := λ _, unit) (say "logger")
      hello_body (λ r, negb (is_ok r)) (hello_main [] "")) as (_ & _ & Hm).
    destruct (Hm eq_refl eq_refl) as (body & _ & m & Hrun & Heq).
    exists m. split; [exact Hrun|]. rewrite (Heq []). reflexivity.
  - destruct (main_async_correct (H := false) (Task := λ _, unit) (say "logger")
      hello_body (λ r, negb (is_ok r)) (hello_main ["args: Args"%string] ""))
      as (_ & _ & Hm).
    destruct (Hm eq_refl eq_refl) as (body & _ & Hrun). exact Hrun.
  - destruct (main_async_correct (H := true) (Task := λ _, unit) (say "logger")
      hello_body (λ r, negb (is_ok r)) (hello_main [] "-> Result<(), Error>"))
      as (_ & _ & Hm).
    destruct (Hm eq_refl eq_refl) as (body & _ & Hrun). exact Hrun.
Defined.
