(* ===== verification/DeriveTests.v ===== *)
(** * The tests of src/src/test_util.rs and of the macros, run on the model

    As in [RetryTests].  A test with an attribute is its expansion, called natively
    over the executor that logs; the bodies are programs, so that the futures the
    tests define are awaited poll by poll. *)

From S2P Require Export Derive RetryTests.

Section derive_tests.
Local Open Scope string_scope.

(** Test functions have a program for their body; [None] is an [Err]. *)
Abbreviation body := (prog task_log (option unit)).

Definition debug (s : string) : M task_log unit := say s.

Definition async_derive_test_body : body := PDo (debug "I am live") (λ _, PRet (Some tt)).
Definition simple_test_body : body :=
  PDo (assert (1 =? Z.of_nat (String.length "x"))%Z) (λ _, PRet (Some tt)).

(** [TestFuture::poll] and [test_poll]. *)
Definition test_future_poll : M task_log (poll Z) := mret (Ready 2).
Definition test_poll : M task_log (poll Z) := mret (Ready 4).

Definition test_future_body : body :=
  PWait test_future_poll (λ v, PDo (assert (v =? 2)%Z) (λ _, PRet (Some tt))).
Definition test_future_with_poll_body : body :=
  PWait test_poll (λ v, PDo (assert (v =? 4)%Z) (λ _, PRet (Some tt))).

(** The functions, with their return types. *)
Definition io_result : string := "-> Result<(), Error>".
Definition async_fn (name output : string) (b : body) : ItemFn body :=
  MkItemFn [] "" true name [] output b.

Definition async_derive_test : expansion body :=
  test_async (Ok []) (Ok (async_fn "async_derive_test" io_result async_derive_test_body)).
Definition async_derive_test_ignore : expansion body :=
  test_async (Ok ["ignore"]) (Ok (async_fn "async_derive_test_ignore" io_result async_derive_test_body)).
Definition simple_test : expansion body :=
  test (Ok []) (Ok (async_fn "simple_test" "" simple_test_body)).
Definition simple_test_ignore : expansion body :=
  test (Ok ["ignore"]) (Ok (async_fn "simple_test_ignore" "" simple_test_body)).
Definition test_future : expansion body :=
  test_async (Ok []) (Ok (async_fn "test_future" io_result test_future_body)).
Definition test_future_with_poll : expansion body :=
  test_async (Ok []) (Ok (async_fn "test_future_with_poll" io_result test_future_with_poll_body)).

(** [test_1_sync_example]: [assert_async_block!] around [test_1]. *)
Definition test_1_sync_example : M task_log unit :=
  let test_1 : body := PDo (debug "works") (λ _, PRet (Some tt)) in
  let ft : M task_log (result unit unit) :=
    r ← run_prog id 1 test_1; mret (match r with Some _ => Ok tt | None => Err tt end) in
  assert_async_block (H := false) ft.

(** ui-tests/pass_async.rs and pass_ignore.rs: [test_simple]. *)
Definition test_simple : expansion body :=
  test_async (Ok ["ignore"]) (Ok (async_fn "test_simple" ""
    (PDo (assert (2 =? 2)%Z) (λ _, PRet (Some tt))))).

(** Calling an expansion; the logger is set up without a trace. *)
Definition call_test (e : expansion body) : option (M task_log (option (option unit))) :=
  call_expansion (H := false) (Task := λ _, unit) (mret tt) (run_prog id 10)
    (λ r, bool_decide (r = None)) e.

Definition expansion_passes (e : expansion body) : bool :=
  match call_test e with
  | Some m => bool_decide ((m []).2 = Val None)
  | None => false
  end.

Example derive_tests_pass :
  Forall (λ e, expansion_passes e = true)
    [async_derive_test; simple_test; test_future; test_future_with_poll;
     async_derive_test_ignore; simple_test_ignore] ∧
  passes test_1_sync_example [].
Proof. by repeat constructor. Qed.

(** The function of the tests of the user interface returns nothing: where a build keeps the
    tests, its expansion does not compile. *)
Example test_simple_not_compiled : call_test test_simple = None.
Proof. reflexivity. Qed.

(** A function that is not [async] but returns a future makes a test just as well; one that
    returns something else does not compile. *)
Definition plain_fn (output : string) : ItemFn body :=
  MkItemFn [] "" false "returns_future" [] output simple_test_body.
Example future_returned_passes :
  expansion_passes
    (test_async (Ok []) (Ok (plain_fn "-> impl Future<Output = Result<(), Error>>"))) = true ∧
  call_test (test (Ok []) (Ok (plain_fn "-> u32"))) = None.
Proof. split; vm_compute; reflexivity. Qed.

(** Ignored tests carry the attribute. *)
Example ignored_tests_attributes :
  (λ e : expansion body, match e with Expanded f => attrs f | _ => [] end) <$>
    [async_derive_test_ignore; simple_test_ignore; test_simple] =
  replicate 3 ["#[test]"; "#[ignore]"].
Proof. reflexivity. Qed.
End derive_tests.
