(* ===== verification/Subscriber.v ===== *)
(** * Logging: the module [subscriber] of src/src/lib.rs

    What [init_logger] and [init_tracer] ask of tracing-subscriber, an interface here.
    The expansions of the macros call [init_logger]; in [Derive] it is any code. *)

From S2P Require Export Prelude.

(** [fmt()], [SubscriberBuilder], [EnvFilter::from_default_env], and [try_init], which
    "returns an error if the initialization was unsuccessful, likely because a global
    subscriber was already installed".  A filter replaces a maximum level that was set
    before: "that value is replaced by the new filter". *)
Class TracingSubscriber (W Level EnvFilter Builder TryInitError : Type) := {
  DEBUG : Level;
  fmt : Builder;
  with_max_level : Builder → Level → Builder;
  with_env_filter : Builder → EnvFilter → Builder;
  with_writer_stderr : Builder → Builder;
  from_default_env : M W EnvFilter;
  try_init : Builder → M W (result unit TryInitError);
}.

Class SubscriberLaws `{TracingSubscriber W Level EnvFilter Builder TryInitError}
    (installed : W → bool) := {
  filter_replaces b l f : with_env_filter (with_max_level b l) f = with_env_filter b f;
  env_read w : ∃ f, from_default_env w = (w, Val f);
  try_init_first b w : installed w = false →
    ∃ w', try_init b w = (w', Val (Ok tt)) ∧ installed w' = true;
  try_init_again b w : installed w = true → ∃ e, try_init b w = (w, Val (Err e));
}.

Section subscriber.
Context `{TracingSubscriber W Level EnvFilter Builder TryInitError}.

Definition init_tracer (level : option Level) : M W unit :=
  filter ← from_default_env;
  _ ← try_init (with_writer_stderr
        (with_env_filter (with_max_level fmt (default DEBUG level)) filter));
  mret tt.
Definition init_logger : M W unit := init_tracer None.

Context (installed : W → bool) `{!SubscriberLaws installed}.

(** It never fails: the first call installs the subscriber, a later one does nothing, so
    that every test of a program may call it. *)
Lemma init_tracer_installs level w :
  ∃ w', init_tracer level w = (w', Val tt) ∧ installed w' = true ∧
    (installed w = true → w' = w).
Proof.
  unfold init_tracer. destruct (env_read w) as [f Hf]. rewrite (M_bind_val _ _ _ _ _ Hf).
  destruct (installed w) eqn:Hw.
  - destruct (try_init_again (with_writer_stderr
      (with_env_filter (with_max_level fmt (default DEBUG level)) f)) w Hw) as [e He].
    rewrite (M_bind_val _ _ _ _ _ He). by exists w.
  - destruct (try_init_first (with_writer_stderr
      (with_env_filter (with_max_level fmt (default DEBUG level)) f)) w Hw) as (w' & Ht & Hi).
    rewrite (M_bind_val _ _ _ _ _ Ht). by exists w'.
Qed.

(** The level is never used: the filter of the environment replaces it. *)
Lemma init_tracer_ignores_level level : init_tracer level ≡ init_logger.
Proof.
  intros w. unfold init_logger, init_tracer. destruct (env_read w) as [f Hf].
  rewrite !(M_bind_val _ _ _ _ _ Hf). by rewrite !filter_replaces.
Qed.
End subscriber.

(** ** A process with one global subscriber: its filter, once it is installed *)

Record process : Type := Process { global : option (option nat); env_level : option nat }.

(** A builder is the filter it has: of a level, or of the environment. *)
#[export] Instance process_subscriber :
    TracingSubscriber process nat (option nat) (option nat) unit := {
  DEBUG := 4%nat;
  fmt := Some 3%nat;
  with_max_level _ l := Some l;
  with_env_filter _ f := f;
  with_writer_stderr b := b;
  from_default_env := λ w, (w, Val (env_level w));
  try_init b := λ w,
    match global w with
    | Some _ => (w, Val (Err tt))
    | None => (Process (Some b) (env_level w), Val (Ok tt))
    end;
}.
#[export] Instance process_laws :
  SubscriberLaws (W := process) (λ w, bool_decide (is_Some (global w))).
Proof.
  split; simpl; [done|by eexists|..]; intros b [[g|] l] Hi; try done; by eexists.
Qed.

(** Asked for a level, with another one in the environment. *)
Example level_of_the_environment :
  init_tracer (Some 1%nat) (Process None (Some 5%nat)) =
    (Process (Some (Some 5%nat)) (Some 5%nat), Val tt).
Proof. reflexivity. Qed.
