(* ===== verification/DiskTests.v ===== *)
(** * The tests that read back what they wrote, and the ones of tasks and timers

    As in [FsTests], for the tests of src/src/fs that use the positions of files: here the
    file system in memory has handles with a position, as the operating system has
    them.  After them the tests of src/src/fs/shared_file.rs, timer.rs and task.rs. *)

From stdpp Require Import gmap.
From S2P Require Export Peers SharedFile DeriveTests FsTests.

(** ** A file system with positions *)

Record handle : Type := Handle {
  h_path : string;
  h_readable : bool;
  h_writable : bool;
  h_append : bool;
  h_pos : nat;
}.

(** A [File] is the number of its handle. *)
Record disk : Type := Disk { d_files : gmap string (list byte); d_handles : list handle }.
Definition empty_disk : disk := Disk ∅ [].

Definition new_handle (files : gmap string (list byte)) (h : handle) :
    M disk (result nat io_error) := λ w,
  (Disk files (d_handles w ++ [h]), Val (Ok (length (d_handles w)))).

Definition disk_open (o : OpenOptions) (path : string) : M disk (result nat io_error) := λ w,
  let h := Handle path (oo_read o) (oo_write o || oo_append o) (oo_append o) 0 in
  match d_files w !! path with
  | Some _ => new_handle (d_files w) h w
  | None =>
      if oo_create o then new_handle (<[path := []]> (d_files w)) h w
      else (w, Val (Err (io_error_from NotFound)))
  end.

(** A call on a handle, with the bytes of its file. *)
Definition on_handle {A} (f : nat) (k : handle → list byte → handle * list byte * result A io_error) :
    M disk (result A io_error) := λ w,
  match d_handles w !! f with
  | Some h =>
      let '(h, bytes, r) := k h (default [] (d_files w !! h_path h)) in
      (Disk (<[h_path h := bytes]> (d_files w)) (<[f := h]> (d_handles w)), Val r)
  | None => (w, Val (Err bad_descriptor))
  end.

Definition at_pos (n : nat) (h : handle) : handle :=
  Handle (h_path h) (h_readable h) (h_writable h) (h_append h) n.

#[export] Instance disk_file_system : FileSystem disk nat := {
  File_create path := λ w,
    new_handle (<[path := []]> (d_files w)) (Handle path false true false 0) w;
  File_open path := disk_open (with_read true oo_new) path;
  OpenOptions_open := disk_open;
  metadata_len f := on_handle f (λ h bytes, (h, bytes, Ok (Z.of_nat (length bytes))));
  seek_from_start f n := on_handle f (λ h bytes, (at_pos (Z.to_nat n) h, bytes, Ok n));
  File_as_raw_fd f := Z.of_nat f;
}.

(** [write_all], [read_to_end] and [sync_all] of a file; appending writes go to the end,
    whatever the position. *)
Class FileIo (W File : Type) := {
  file_write_all : File → list byte → M W (result unit io_error);
  file_read_to_end : File → M W (result (list byte) io_error);
  file_sync_all : File → M W (result unit io_error);
}.

#[export] Instance disk_io : FileIo disk nat := {
  file_write_all f b := on_handle f (λ h bytes,
    if negb (h_writable h) then (h, bytes, Err bad_descriptor)
    else
      let pos := if h_append h then length bytes else h_pos h in
      (at_pos (pos + length b) h, take pos bytes ++ b ++ drop (pos + length b) bytes, Ok tt));
  file_read_to_end f := on_handle f (λ h bytes,
    if negb (h_readable h) then (h, bytes, Err bad_descriptor)
    else (at_pos (length bytes) h, bytes, Ok (drop (h_pos h) bytes)));
  file_sync_all f := on_handle f (λ h bytes, (h, bytes, Ok tt));
}.

Section disk_tests.
Context {W File : Type} `{!FileSystem W File, !FileIo W File}.
(** [ensure_clean_file] of flv-util, and [std::fs::remove_file]. *)
Context (ensure_clean_file : string → M W unit).
Context (remove_file : string → M W (result unit io_error)).

(** [assert_eq!(contents, s)]. *)
Definition text_is {V} (bytes : list byte) (s : string) : M V unit :=
  assert (bool_decide (bytes = String.list_byte_of_string s)).
Definition write_text (file : File) (s : string) : M W unit :=
  expect (file_write_all file (String.list_byte_of_string s)).
Definition len_is {V} (bytes : list byte) (n : nat) : M V unit :=
  assert (bool_decide (length bytes = n)).

(** *** extension.rs *)

Definition test_sync_seek_write : M W unit :=
  let option :=
    with_append false (with_create true (with_write true (with_read true oo_new))) in
  file ← expect (OpenOptions_open option "x1");
  _ ← expect (seek_from_start file 0);
  _ ← write_text file "test";
  _ ← expect (file_sync_all file);
  f2 ← expect (File_open "x1");
  contents ← expect (file_read_to_end f2);
  text_is contents "test".

Definition file_multiple_overwrite : M W unit :=
  _ ← ensure_clean_file "file_write_test";
  file ← expect (util.create "file_write_test");
  _ ← expect (seek_from_start file 0);
  _ ← write_text file "test";
  _ ← expect (file_sync_all file);
  file ← expect (util.create "file_write_test");
  _ ← expect (seek_from_start file 0);
  _ ← write_text file "xyzt";
  _ ← expect (file_sync_all file);
  file ← expect (util.open "file_write_test");
  output ← expect (file_read_to_end file);
  _ ← len_is output 4;
  text_is output "xyzt".

Definition async_file_write_read_same : M W unit :=
  _ ← ensure_clean_file "read_write_test";
  file ← expect (util.open_read_write "read_write_test");
  _ ← write_text file "test";
  _ ← expect (seek_from_start file 0);
  output ← expect (file_read_to_end file);
  _ ← len_is output 4;
  text_is output "test".

Definition async_file_write_append_same : M W unit :=
  _ ← ensure_clean_file "read_append_test";
  file ← expect (util.open_read_append "read_append_test");
  _ ← write_text file "test";
  _ ← expect (seek_from_start file 0);
  _ ← write_text file "xyz";
  _ ← expect (seek_from_start file 0);
  output ← expect (file_read_to_end file);
  _ ← len_is output 7;
  text_is output "testxyz".

(** *** bounded.rs, with the [ensure_clean_file] of its own *)
Definition test_sink_file_write_std : M W unit :=
  _ ← FsTests.ensure_clean_file remove_file "file_test_two_write_std";
  f_sink ← expect (File_create "file_test_two_write_std");
  _ ← expect (file_write_all f_sink (replicate 73 Byte.x01));
  _ ← expect (file_write_all f_sink (replicate 74 Byte.x01));
  len ← expect (metadata_len f_sink);
  assert (len =? 147).
End disk_tests.

Definition clean (path : string) : M disk unit := λ w,
  (Disk (delete path (d_files w)) (d_handles w), Val tt).
Definition disk_remove_file (path : string) : M disk (result unit io_error) := λ w,
  match d_files w !! path with
  | Some _ => (Disk (delete path (d_files w)) (d_handles w), Val (Ok tt))
  | None => (w, Val (Err (io_error_from NotFound)))
  end.

Example disk_tests_pass :
  Forall (λ test, passes test empty_disk)
    [test_sync_seek_write; file_multiple_overwrite clean; async_file_write_read_same clean;
     async_file_write_append_same clean; test_sink_file_write_std disk_remove_file].
Proof. repeat constructor; vm_compute; reflexivity. Qed.

(** The same file opened with [open_read_write] is overwritten where [open_read_append]
    adds to it. *)
Example overwrite_not_append :
  (file ← expect (util.open_read_write "f"); _ ← write_text file "test";
   _ ← expect (seek_from_start file 0); _ ← write_text file "xyz";
   _ ← expect (seek_from_start file 0); expect (file_read_to_end file)) empty_disk =
  (Disk {[ "f" := String.list_byte_of_string "xyzt" ]} [Handle "f" true true false 4],
   Val (String.list_byte_of_string "xyzt")).
Proof. vm_compute. reflexivity. Qed.

(** ** shared_file.rs: [test_shared_read] *)

(** A file opened for reading, with its position. *)
Record reading : Type := Reading { rd_bytes : list byte; rd_pos : nat }.
#[export] Instance reading_async_read : AsyncRead reading := {
  poll_read cx n := λ r,
    let bs := take n (drop (rd_pos r) (rd_bytes r)) in
    (Reading (rd_bytes r) (rd_pos r + length bs), Val (Ready (Ok bs)));
}.
Definition reading_seek (cx : Z) (pos : SeekFrom) : M reading (poll (result Z io_error)) := λ r,
  match pos with
  | SeekStart n => (Reading (rd_bytes r) (Z.to_nat n), Val (Ready (Ok n)))
  | SeekEnd _ | SeekCurrent _ => (r, Val (Ready (Err (io_error_from InvalidInput))))
  end.

(** A future that is ready at once, as those of these files are. *)
Definition ready_or_fail {W A} (m : M W (poll (result A io_error))) : M W A :=
  p ← m; match p with Ready (Ok a) => mret a | _ => panic end.

(** [read_to_end] of futures: reading until there is nothing left. *)
Fixpoint read_all {W} `{AsyncRead W} (fuel : nat) (output : list byte) : M W (list byte) :=
  match fuel with
  | O => lift OutOfFuel
  | S fuel =>
      bs ← ready_or_fail (poll_read 1 32);
      match bs with [] => mret output | _ => read_all fuel (output ++ bs) end
  end.

(** The file was written before; the clone is the same lock. *)
Definition test_shared_read : M reading unit := λ r,
  let test : M (shared reading) unit :=
    buffer ← ready_or_fail (shared_read_poll (shared_read 4) 1);
    _ ← len_is buffer 4;
    _ ← text_is buffer "test";
    _ ← ready_or_fail (shared_seek_poll reading_seek (shared_seek (SeekStart 0)) 1);
    output ← read_all 3 [];
    text_is output "test" in
  let '(s, o) := test (shared_new r) in (sh_world s, o).

Example test_shared_read_passes : passes test_shared_read (Reading test_bytes 0).
Proof. vm_compute. reflexivity. Qed.

(** ** timer.rs: [test_sleep] *)

(** Timers by number, each with the instant it is due at; one that has fired is never
    ready again. *)
Record timers : Type := Timers { tm_clock : Z; tm_due : list (option Z) }.
#[export] Instance one_shot_timers : AsyncTimer timers nat := {
  timer_after d := λ w,
    (Timers (tm_clock w) (tm_due w ++ [Some (tm_clock w + as_nanos d)]),
     Val (length (tm_due w)));
  timer_poll t := λ w,
    match tm_due w !! t with
    | Some (Some due) =>
        if due <=? tm_clock w
        then (Timers (tm_clock w) (<[t := None]> (tm_due w)), Val (Ready due))
        else (w, Val Pending)
    | _ => (w, Val Pending)
    end;
}.

Section timer_test.
Context {W T : Type} `{!AsyncTimer W T}.
Context (elapse : W → W) (now : W → Z).

(** [select!] of tokio on two sleepers: polled in the order that [first] says (it is
    random in tokio), the first that is ready decides, the other is dropped. *)
Definition select (first : bool) (f g : M W (poll unit)) : M W (poll bool) :=
  p ← (if first then f else g);
  match p with
  | Ready _ => mret (Ready first)
  | Pending => q ← (if first then g else f);
               mret (match q with Ready _ => Ready (negb first) | Pending => Pending end)
  end.

(** The ten turns of the loop: how often each branch was taken. *)
Fixpoint sleep_turns (fuel n : nat) (first : bool) (sleep_ft : T) (fired not_fired : Z) :
    M W (Z * Z) :=
  match n with
  | O => mret (fired, not_fired)
  | S n =>
      other ← timer_after (StdTime.from_millis 40);
      b ← wait elapse fuel (select first (poll_sleeper sleep_ft) (poll_sleeper other));
      if (b : bool) then sleep_turns fuel n first sleep_ft (fired + 1) not_fired
      else sleep_turns fuel n first sleep_ft fired (not_fired + 1)
  end.

Definition test_sleep (first : bool) : M W unit :=
  time_now ← (λ w, (w, Val (now w)));
  sleep_ft ← timer_after (StdTime.from_millis 10);
  '(times_fired, times_not_fired) ← sleep_turns 100 10 first sleep_ft 0 0;
  elapsed ← (λ w, (w, Val (now w - time_now)));
  _ ← assert (elapsed <? as_nanos (StdTime.from_millis 1000));
  _ ← assert (as_nanos (StdTime.from_millis 10) <? elapsed);
  _ ← assert (times_fired =? 1);
  assert (times_not_fired =? 9).
End timer_test.

(** It passes in either order of polling, with a millisecond between the polls. *)
Example test_sleep_passes first :
  passes (test_sleep (λ w, Timers (tm_clock w + millisecond) (tm_due w)) tm_clock first)
    (Timers 0 []).
Proof. destruct first; vm_compute; reflexivity. Qed.

(** ** task.rs: [future_join] and [future_spawn]

    The blocking sleeps of the threads are what the log shows of them, with the messages;
    the one with the number of cores is left out. *)

Definition thread_sleep_log (d : Duration) : M task_log unit := λ w, (w ++ [Slept d], Val tt).

Definition blocking_task (starting : string) (millis : Z) (woke : string) : M task_log unit :=
  _ ← say starting;
  _ ← thread_sleep_log (StdTime.from_millis millis);
  say woke.
Definition ft1_task : M task_log unit :=
  blocking_task "ft1: starting sleeping for 1000ms" 1000 "ft1: woke from sleep".
Definition ft2_task : M task_log unit :=
  blocking_task "ft2: starting sleeping for 500ms" 500 "ft2: woke up".

Definition future_join : M task_log unit :=
  let ft1 : prog task_log (result unit unit) :=
    PDo ft1_task (λ _, PRet (Ok tt)) in
  let ft2 : prog task_log (result unit unit) :=
    PDo ft2_task (λ _, PRet (Ok tt)) in
  _ ← await_zip id 2 ft1 ft2;
  mret tt.

Definition future_spawn : M task_log unit :=
  _ ← Task.spawn (H := false) ft1_task;
  _ ← Task.spawn (H := false) ft2_task;
  thread_sleep_log (StdTime.from_millis 2000).

(** Joined futures share the thread: the second starts when the first has slept.
    Spawned ones are left to other threads. *)
Example future_join_order :
  future_join [] =
    ([Said "ft1: starting sleeping for 1000ms"; Slept (StdTime.from_millis 1000);
      Said "ft1: woke from sleep"; Said "ft2: starting sleeping for 500ms";
      Slept (StdTime.from_millis 500); Said "ft2: woke up"], Val tt).
Proof. reflexivity. Qed.
Example future_spawn_passes : passes future_spawn [].
Proof. reflexivity. Qed.
