(* ===== verification/SystemTests.v ===== *)
(** * The tests that need the network, files and the kernel together

    The tests of src/src/zero_copy.rs and [test_tcp_stream_socket_opts] of
    src/src/net/tcp_stream.rs, client and server, over a system in memory: the network of
    [Peers] with the options of its sockets, the disk of [DiskTests], and a [sendfile]
    that takes a thousand bytes at a time from the one to the other. *)

From stdpp Require Import gmap pretty.
From S2P Require Export DiskTests.

(** ** What the tests call besides *)

(** [read] of a TCP stream, of at most so many bytes, and its drop, which closes it. *)
Class StreamReads (W TcpStream : Type) := {
  stream_read : TcpStream → nat → M W (poll (result (list byte) io_error));
  stream_drop : TcpStream → M W unit;
}.

(** [TcpStream::nodelay], and [SockRef] of socket2. *)
Class SocketOptions (W TcpStream : Type) := {
  stream_nodelay : TcpStream → M W (result bool io_error);
  sockref_nodelay : TcpStream → M W (result bool io_error);
  sockref_keepalive : TcpStream → M W (result bool io_error);
  sockref_keepalive_time : TcpStream → M W (result Duration io_error);
  sockref_keepalive_interval : TcpStream → M W (result Duration io_error);
  sockref_keepalive_retries : TcpStream → M W (result Z io_error);
}.

(** [assert!(f(p?))]. *)
Definition p_check {W A B E} (p : prog W (result A E)) (f : A → bool)
    (k : prog W (result B E)) : prog W (result B E) :=
  p_try p (λ a, _ ←• p_assert (f a); k).

(** [for i in 0..n], with a body that may return early. *)
Fixpoint p_try_for {W E} (n : nat) (body : prog W (result unit E)) : prog W (result unit E) :=
  match n with
  | O => PRet (Ok tt)
  | S n => p_try body (λ _, p_try_for n body)
  end.

(** The question mark on an [io::Error] where the error is a [SendFileError]. *)
Definition p_io {W A} (p : prog W (result A io_error)) : prog W (result A SendFileError) :=
  r ←• p; PRet (map_err IoError r).

Section system_tests.
Context `{Target}.
Context {W File Listener TcpStream TcpKeepalive Timer : Type}
  `{!FileSystem W File, !FileIo W File, !TcpNet W TcpStream TcpKeepalive,
    !TcpListener W Listener TcpStream, !StreamReads W TcpStream, !SocketOptions W TcpStream,
    !AsyncTimer W Timer, !FutureZip W}.
Context (elapse : W → W) (fuel : nat).

(** ** tcp_stream.rs: [test_tcp_stream_socket_opts] *)

Definition socket_opts_server (addr : string) : prog W (result unit io_error) :=
  p_try (p_wait (listener_bind addr)) (λ listener : Listener,
  _stream ←• p_some (p_wait (incoming_next (TcpStream := TcpStream) listener));
  _stream ←• p_some (p_wait (incoming_next (TcpStream := TcpStream) listener));
  PRet (Ok tt)).

(** The two blocks of the client. *)
Definition without_keepalive (addr : string) : prog W (result unit io_error) :=
  let socket_opts := MkSocketOpts (Some false) None in
  p_try (p_do (stream_with_opts addr (Some socket_opts))) (λ tcp_stream : TcpStream,
  p_check (p_do (stream_nodelay tcp_stream)) negb
  (p_check (p_do (sockref_nodelay tcp_stream)) negb
  (p_check (p_do (sockref_keepalive tcp_stream)) negb
  (PRet (Ok tt))))).
Definition with_keepalive (addr : string) : prog W (result unit io_error) :=
  let time := StdTime.from_secs 7201 in
  let interval := StdTime.from_secs 76 in
  let retries := 10 in
  let socket_opts :=
    MkSocketOpts (Some true) (Some (MkKeepaliveOpts (Some time) (Some interval) (Some retries))) in
  p_try (p_do (stream_with_opts addr (Some socket_opts))) (λ tcp_stream : TcpStream,
  p_check (p_do (stream_nodelay tcp_stream)) id
  (p_check (p_do (sockref_nodelay tcp_stream)) id
  (p_check (p_do (sockref_keepalive tcp_stream)) id
  (p_check (p_do (sockref_keepalive_time tcp_stream)) (λ t, bool_decide (t = time))
  (p_check (p_do (sockref_keepalive_interval tcp_stream)) (λ i, bool_decide (i = interval))
  (p_check (p_do (sockref_keepalive_retries tcp_stream)) (λ r, bool_decide (r = retries))
  (PRet (Ok tt)))))))).
Definition socket_opts_client (addr : string) : prog W (result unit io_error) :=
  _ ←• sleep_async hundred_ms;
  p_try (without_keepalive addr) (λ _, with_keepalive addr).

Definition test_tcp_stream_socket_opts : M W (result unit io_error) :=
  let addr := "127.0.0.1:9997"%string in
  _ ← await_zip elapse fuel (socket_opts_client addr) (socket_opts_server addr);
  mret (Ok tt).

(** ** zero_copy.rs *)

(** [pick_unused_port] of portpicker, and [sendfile]. *)
Context (pick_unused_port : M W (option Z))
  (sendfile : Z → Z → Z → Z → W → W * (Z * result Z Errno))
  (thread_sleep : Duration → W → W * unit) (copy_fuel : nat).

Definition unused_addr : M W string :=
  port ← pick_unused_port;
  match port with Some port => mret ("127.0.0.1:" +:+ pretty port) | None => panic end.

Definition copy_to (stream : TcpStream) (slice : AsyncFileSlice) :
    M W (result Z SendFileError) :=
  let writer := ZeroCopy.from stream_raw_fd stream in
  copy_slice_linux sendfile thread_sleep copy_fuel writer slice.

(** The server of the two small tests reads what a client copies to it. *)
Definition reading_server (addr : string) : prog W (result unit SendFileError) :=
  p_try (p_io (p_wait (listener_bind addr))) (λ listener : Listener,
  stream ←• p_wait (incoming_next listener);
  match stream with
  | Some stream =>
      p_try (p_io (PRet stream)) (λ tcp_stream : TcpStream,
      p_check (p_io (p_wait (stream_read tcp_stream 30))) (λ buf, Z.of_nat (length buf) =? 30)
      (PRet (Ok tt)))
  | None => p_do panic
  end).

(** The client of them, with the slice that it makes of the one of the whole file. *)
Definition copying_client (slice_of : AsyncFileSlice → AsyncFileSlice) (addr : string) :
    prog W (result unit SendFileError) :=
  p_try (p_io (p_do (util.open "test-data/apirequest.bin"))) (λ file : File,
  _ ←• sleep_async hundred_ms;
  p_try (p_io (p_do (stream addr))) (λ stream : TcpStream,
  p_try (p_io (p_do (as_slice file 0 None))) (λ f_slice,
  p_check (p_do (copy_to stream (slice_of f_slice))) (λ transfered, transfered =? 30)
  (PRet (Ok tt))))).

Definition test_zero_copy_simple : M W unit :=
  addr ← unused_addr;
  _ ← await_zip elapse fuel (copying_client id addr) (reading_server addr);
  mret tt.

Definition test_zero_copy_large_slace : M W unit :=
  addr ← unused_addr;
  let max_slice f_slice := AsyncFileSlice.new (AsyncFileSlice.fd f_slice) 0 1000 in
  _ ← await_zip elapse fuel (copying_client max_slice addr) (reading_server addr);
  mret tt.

(** *** [test_zero_copy_large_size], for a file of so many thousand bytes *)

Definition TEST_ITERATION : nat := 2.

Fixpoint write_times (file : File) (bytes : list byte) (n : nat) : M W unit :=
  match n with
  | O => mret tt
  | S n => _ ← expect (file_write_all file bytes); write_times file bytes n
  end.
Definition init_file (thousands : nat) : M W unit :=
  file ← expect (util.create "async_large");
  _ ← write_times file (replicate 1000 Byte.x00) thousands;
  expect (file_sync_all file).

(** One turn of the loop of the server: the first copies the file, the second a slice of
    twice its length. *)
Definition large_turn (max_bytes : Z) (f_slice : AsyncFileSlice) (listener : Listener) (i : Z) :
    prog W unit :=
  stream ←• p_some (p_wait (incoming_next listener));
  tcp_stream ←• p_expect (PRet stream);
  let slice2 := AsyncFileSlice.new (AsyncFileSlice.fd f_slice) 0 (max_bytes * 2) in
  transferred ←• p_expect (p_do (copy_to tcp_stream (if i =? 0 then f_slice else slice2)));
  _ ←• p_assert (transferred =? max_bytes);
  p_do (stream_drop tcp_stream).

Definition large_server (max_bytes : Z) (addr : string) : prog W unit :=
  file ←• p_expect (p_do (util.open "async_large"));
  f_slice ←• p_expect (p_do (as_slice (file : File) 0 None));
  _ ←• p_assert (AsyncFileSlice.len f_slice =? max_bytes);
  listener ←• p_expect (p_wait (listener_bind addr));
  p_for TEST_ITERATION 0 (large_turn max_bytes f_slice listener).

(** [read_to_end]: reads until there is nothing more. *)
Fixpoint p_read_to_end (n : nat) (stream : TcpStream) (buffer : list byte) :
    prog W (result (list byte) io_error) :=
  match n with
  | O => p_do (lift OutOfFuel)
  | S n =>
      p_try (p_wait (stream_read stream 2000)) (λ bytes,
      match bytes with
      | [] => PRet (Ok buffer)
      | _ => p_read_to_end n stream (buffer ++ bytes)
      end)
  end.

Definition large_client (addr : string) : prog W (result unit SendFileError) :=
  _ ←• sleep_async hundred_ms;
  p_try_for TEST_ITERATION
    (p_try (p_io (p_do (stream addr))) (λ stream,
    _ ←• p_expect (p_read_to_end copy_fuel stream []);
    _ ←• sleep_async (StdTime.from_millis 10);
    PRet (Ok tt))).

Definition test_zero_copy_large_size (thousands : nat) : M W unit :=
  addr ← unused_addr;
  _ ← init_file thousands;
  _ ← await_zip elapse fuel (large_client addr) (large_server (Z.of_nat thousands * 1000) addr);
  mret tt.
End system_tests.

(** ** A system in memory *)

(** The options of a socket; a new one has neither set. *)
Record socket_state : Type := MkSocket {
  sock_nodelay : bool;
  sock_keepalive : option socket2_keepalive;
}.

(** [sy_closed] are the ends that were dropped, [sy_socks] the options by connection. *)
Record system : Type := System {
  sy_net : loopback;
  sy_disk : disk;
  sy_closed : list nat;
  sy_socks : list socket_state;
}.

Definition on_net {A} (m : M loopback A) : M system A := λ w,
  let '(n, o) := m (sy_net w) in (System n (sy_disk w) (sy_closed w) (sy_socks w), o).
Definition on_disk {A} (m : M disk A) : M system A := λ w,
  let '(d, o) := m (sy_disk w) in (System (sy_net w) d (sy_closed w) (sy_socks w), o).
Definition on_sock (e : endpoint) (f : socket_state → socket_state) :
    M system (result unit io_error) := λ w,
  (System (sy_net w) (sy_disk w) (sy_closed w) (alter f (ep_conn e) (sy_socks w)), Val (Ok tt)).
Definition sock_get {A} (f : socket_state → option A) (e : endpoint) :
    M system (result A io_error) := λ w,
  (w, Val (match sy_socks w !! ep_conn e ≫= f with
           | Some a => Ok a
           | None => Err (io_error_from Other)
           end)).

#[export] Instance system_disk : FileSystem system nat := {
  File_create path := on_disk (File_create path);
  File_open path := on_disk (File_open path);
  OpenOptions_open o path := on_disk (OpenOptions_open o path);
  metadata_len f := on_disk (metadata_len f);
  seek_from_start f n := on_disk (seek_from_start f n);
  File_as_raw_fd f := File_as_raw_fd f;
}.
#[export] Instance system_io : FileIo system nat := {
  file_write_all f b := on_disk (file_write_all f b);
  file_read_to_end f := on_disk (file_read_to_end f);
  file_sync_all f := on_disk (file_sync_all f);
}.

Definition new_socket {A} (a : A) : M system A := λ w,
  (System (sy_net w) (sy_disk w) (sy_closed w) (sy_socks w ++ [MkSocket false None]), Val a).
Definition system_connect (addr : string) : M system (result endpoint io_error) :=
  r ← on_net (lb_connect addr); new_socket r.

#[export] Instance system_net : TcpNet system endpoint socket2_keepalive := {
  tcp_connect := system_connect;
  set_nodelay e b := on_sock e (λ s, MkSocket b (sock_keepalive s));
  set_tcp_keepalive e k := on_sock e (λ s, MkSocket (sock_nodelay s) (Some k));
  stream_raw_fd := stream_raw_fd (W := loopback);
  keepalive_new := MkKeepaliveOpts None None None;
  with_time k t := MkKeepaliveOpts (Some t) (interval k) (retries k);
  with_interval k i := MkKeepaliveOpts (time k) (Some i) (retries k);
  with_retries k r := MkKeepaliveOpts (time k) (interval k) (Some r);
}.
#[export] Instance system_listener : TcpListener system unit endpoint := {
  listener_bind addr := on_net (listener_bind addr);
  incoming_next l := on_net (incoming_next l);
}.
#[export] Instance system_timer : AsyncTimer system Z := {
  timer_after d := on_net (timer_after d);
  timer_poll t := on_net (timer_poll t);
}.
#[export] Instance system_sockets : SocketOptions system endpoint := {
  stream_nodelay := sock_get (λ s, Some (sock_nodelay s));
  sockref_nodelay := sock_get (λ s, Some (sock_nodelay s));
  sockref_keepalive := sock_get (λ s, Some (bool_decide (is_Some (sock_keepalive s))));
  sockref_keepalive_time := sock_get (λ s, sock_keepalive s ≫= time);
  sockref_keepalive_interval := sock_get (λ s, sock_keepalive s ≫= interval);
  sockref_keepalive_retries := sock_get (λ s, sock_keepalive s ≫= retries);
}.

(** What has arrived, up to [n] bytes; after it the end, once the server has closed. *)
#[export] Instance system_reads : StreamReads system endpoint := {
  stream_read e n := λ w,
    match concat (inbox e (sy_net w)) with
    | [] => (w, Val (if bool_decide (ep_conn e ∈ sy_closed w) then Ready (Ok []) else Pending))
    | bytes =>
        let rest := drop n bytes in
        (System (set_inbox e [rest] (sy_net w)) (sy_disk w) (sy_closed w) (sy_socks w),
         Val (Ready (Ok (take n bytes))))
    end;
  stream_drop e := λ w,
    (System (sy_net w) (sy_disk w) (ep_conn e :: sy_closed w) (sy_socks w), Val tt);
}.

(** [sendfile] from a file of the disk to a connection. *)
Definition system_sendfile (target source off count : Z) (w : system) :
    system * (Z * result Z Errno) :=
  let e := Endpoint (Z.to_nat ((target - 10) / 2)) (Z.even target) in
  match d_handles (sy_disk w) !! Z.to_nat source with
  | Some h =>
      let rest := drop (Z.to_nat off) (default [] (d_files (sy_disk w) !! h_path h)) in
      let bytes := take (Z.to_nat (Z.min count 1000)) rest in
      let n := Z.of_nat (length bytes) in
      let '(net, _) := lb_send e bytes (sy_net w) in
      (System net (sy_disk w) (sy_closed w) (sy_socks w), (off + n, Ok n))
  | None => (w, (off, Err (EOTHER 9)))
  end.

Definition system_later (w : system) : system :=
  System (later fifty_ms (sy_net w)) (sy_disk w) (sy_closed w) (sy_socks w).
Definition port_40000 : M system (option Z) := mret (Some 40000).

Section tests_pass.
Local Instance system_target : Target := release_64.
Local Abbreviation simple :=
  (test_zero_copy_simple (File := nat) (Listener := unit) (Timer := Z) system_later 20 port_40000
     system_sendfile (λ _ w, (w, tt)) 10).
Local Abbreviation large_slace :=
  (test_zero_copy_large_slace (File := nat) (Listener := unit) (Timer := Z) system_later 20
     port_40000 system_sendfile (λ _ w, (w, tt)) 10).
Local Abbreviation large_size :=
  (test_zero_copy_large_size (File := nat) (Listener := unit) (Timer := Z) system_later 30
     port_40000 system_sendfile (λ _ w, (w, tt)) 10).

Definition with_request : system :=
  System no_network (Disk {[ "test-data/apirequest.bin" := replicate 30 Byte.x00 ]} []) [] [].

Example system_tests_pass :
  passes (expect (test_tcp_stream_socket_opts (Listener := unit) (Timer := Z) system_later 20))
    (System no_network empty_disk [] []) ∧
  passes simple with_request ∧ passes large_slace with_request ∧
  passes (large_size 3) (System no_network empty_disk [] []).
Proof. repeat split; vm_compute; reflexivity. Qed.
End tests_pass.

(** ** net/mod.rs on wasm32: [test_connect]

    The test wants a server that sends back what it is sent. *)

(** [write] of the writing half and [read] into a buffer of the reading half, awaited. *)
Class HalfIo (W H : Type) := {
  half_write : H → list byte → M W (result Z io_error);
  half_read : H → nat → M W (result (list byte) io_error);
}.

Section wasm_test.
Context {W TcpStream WsMeta WsStream WsStreamIo WsErr : Type}
  `{!HalfIo W (Connectors.Half TcpStream WsStreamIo)}
  (ws_connect : string → M W (result (WsMeta * WsStream) WsErr))
  (into_io : WsStream → WsStreamIo) (ws_display : WsErr → string).

(** Of the buffer of zeros, [read] fills as many bytes as it gives. *)
Definition test_connect : M W unit :=
  let addr := "ws://127.0.0.1:1234"%string in
  let input_msg := String.list_byte_of_string "foobar" in
  let websocket_stream := wasm_connector.websocket_new in
  c ← expect (wasm_connector.websocket_connect (TcpStream := TcpStream) ws_connect into_io
                ws_display websocket_stream addr);
  let '(writer, reader, _id) := c in
  _ ← expect (half_write writer input_msg);
  read ← expect (half_read reader (length input_msg));
  let output := read ++ replicate (length input_msg - length read) Byte.x00 in
  _ ← assert (bool_decide (output = input_msg));
  assert (bool_decide (length read = length input_msg)).
End wasm_test.

(** An echo: the world is what was written and not read yet. *)
#[export] Instance echo_half : HalfIo (list byte) (Connectors.Half unit unit) := {
  half_write _ b := λ w, (w ++ b, Val (Ok (Z.of_nat (length b))));
  half_read _ n := λ w, (drop n w, Val (Ok (take n w)));
}.
Example websocket_test_passes :
  passes (test_connect (WsMeta := unit) (WsErr := string) (TcpStream := unit)
    (λ _, mret (Ok (tt, tt))) (id : unit → unit) id) [].
Proof. vm_compute. reflexivity. Qed.
