(* ===== verification/Doomsday.v ===== *)
(** * The doomsday timer: src/src/doomsday.rs

    A timer that panics or exits the process unless it is reset in time.  Its
    handles, the task of its main loop and the clock run concurrently; a run is
    a sequence of atomic actions of any of them ([action], [exec]).  An action is
    what the code does between two points where another task can interfere: the
    load of the flag, the reading of the clock, the read of the deadline under the
    lock, and so on.  The clock is the monotonic clock in nanoseconds.

    A load of the flag sees the last store here.  The code asks for less,
    [Ordering::Relaxed]: [DoomsdayRelaxed] takes the same steps ([main_step_at]) with loads
    that may miss a store, and shows that its runs are runs of this file with [defuse]
    delayed.  The theorems here are therefore on what does not depend on when a store
    of the flag is seen; the ones on [defuse] are there. *)

From S2P Require Export StdTime.

(** The immutable fields of [DoomsdayTimer]. *)
Record DoomsdayTimer : Type := MkTimer {
  duration : Duration;
  aggressive_mode : bool;
}.

(** Where the main loop is: before the load of the flag, after it, after
    [Instant::now()], after the read of the deadline with the time to sleep, asleep
    until a time; or it has ended. *)
Inductive loop_pc : Type :=
| AtTop
| FlagClear
| HaveNow (now : Z)
| MustSleep (time_to_sleep : Duration)
| Sleeping (until : Z)
| Returned
| Exploded.

(** The shared state.  [resets] are the values that running [reset] calls have
    computed and not yet stored. *)
Record world : Type := MkWorld {
  clock : Z;
  time_to_explode : Z;
  defused : bool;
  resets : list Z;
  main : loop_pc;
  exited : bool;
}.

#[export] Instance loop_pc_eq_dec : EqDecision loop_pc.
Proof. solve_decision. Defined.

Inductive action : Type :=
| Tick (d : Z)
| MainStep
| ResetStart
| ResetStore (i : nat)
| Defuse
| Explode.

#[export] Instance action_eq_dec : EqDecision action.
Proof. solve_decision. Defined.

Section timer.
Context (self : DoomsdayTimer).

(** The [Display] text, over the [Debug] text of a duration. *)
Definition timer_fmt (debug_duration : Duration → string) : string :=
  "DoomsdayTimer(Duration: " +:+ debug_duration (duration self) +:+ ", " +:+
  (if aggressive_mode self then "Exits" else "Panics") +:+ ")".

(** [spawn] at the time [now]: the loop is ready to run. *)
Definition spawn (now : Z) : outcome world :=
  tte ← instant_add now (duration self);
  Val (MkWorld now tte false [] AtTop false).

Definition set_main (pc : loop_pc) (w : world) : world :=
  MkWorld (clock w) (time_to_explode w) (defused w) (resets w) pc (exited w).

(** It never returns: [process::exit] ends every task, [panic!] the caller's. *)
Definition explode_inner (w : world) : world :=
  if aggressive_mode self
  then MkWorld (clock w) (time_to_explode w) (defused w) (resets w) (main w) true
  else w.

(** [reset], up to the lock: the addition may unwind, in the caller. *)
Definition reset_start (w : world) : world :=
  match instant_add (clock w) (duration self) with
  | Val new_time_to_explode =>
      MkWorld (clock w) (time_to_explode w) (defused w)
        (resets w ++ [new_time_to_explode]) (main w) (exited w)
  | _ => w
  end.

(** The [i]-th waiting [reset] gets the lock and stores its value. *)
Definition reset_store (i : nat) (w : world) : option world :=
  new_time_to_explode ← resets w !! i;
  Some (MkWorld (clock w) new_time_to_explode (defused w)
          (delete i (resets w)) (main w) (exited w)).

Definition defuse (w : world) : world :=
  MkWorld (clock w) (time_to_explode w) true (resets w) (main w) (exited w).

(** One step of [main_loop], where a load of the flag returns [loaded]; [None] when it is
    asleep or has ended. *)
Definition main_step_at (loaded : bool) (w : world) : option world :=
  match main w with
  | AtTop => Some (set_main (if loaded then Returned else FlagClear) w)
  | FlagClear => Some (set_main (HaveNow (clock w)) w)
  | HaveNow now =>
      let time_to_explode := time_to_explode w in
      if time_to_explode <? now
      then Some (set_main Exploded (explode_inner w))
      else
        let time_to_sleep := instant_sub time_to_explode now in
        Some (set_main (MustSleep time_to_sleep) w)
  | MustSleep time_to_sleep =>
      Some (set_main (Sleeping (clock w + as_nanos time_to_sleep)) w)
  | Sleeping until => if until <=? clock w then Some (set_main AtTop w) else None
  | Returned | Exploded => None
  end.

(** The step where every store of the flag is seen at once. *)
Definition main_step (w : world) : option world := main_step_at (defused w) w.

Definition exec_action (a : action) (w : world) : option world :=
  if exited w then None else
  match a with
  | Tick d =>
      if 0 <=? d
      then Some (MkWorld (clock w + d) (time_to_explode w) (defused w) (resets w)
                   (main w) (exited w))
      else None
  | MainStep => main_step w
  | ResetStart => Some (reset_start w)
  | ResetStore i => reset_store i w
  | Defuse => Some (defuse w)
  | Explode => Some (explode_inner w)
  end.

Fixpoint exec (acts : list action) (w : world) : option world :=
  match acts with
  | [] => Some w
  | a :: acts => w ← exec_action a w; exec acts w
  end.

(** The steps as a relation, for runs that are not written out. *)
Definition step (w w' : world) : Prop := ∃ a, exec_action a w = Some w'.

Lemma exec_rtc acts w w' : exec acts w = Some w' → rtc step w w'.
Proof.
  revert w. induction acts as [|a acts IH]; intros w; simpl.
  - intros [= <-]. apply rtc_refl.
  - intros (w1 & Ha & Hr)%bind_Some. eapply rtc_l; [by exists a|by apply IH].
Qed.

Lemma exec_app acts1 acts2 w :
  exec (acts1 ++ acts2) w = exec acts1 w ≫= exec acts2.
Proof.
  revert w. induction acts1 as [|a acts1 IH]; intros w; simpl; [done|].
  destruct (exec_action a w); simpl; [apply IH|done].
Qed.

Lemma step_clock w w' : step w w' → clock w ≤ clock w'.
Proof.
  intros [a Ha]. unfold exec_action in Ha. destruct (exited w); [done|].
  destruct a; simplify_eq/=; try lia.
  - destruct (Z.leb_spec 0 d); simplify_eq/=. lia.
  - unfold main_step, main_step_at, explode_inner in Ha. repeat case_match; simplify_eq/=; lia.
  - unfold reset_start. case_match; simpl; lia.
  - unfold reset_store in Ha. apply bind_Some in Ha as (t & _ & [= <-]). simpl. lia.
  - unfold explode_inner. case_match; simpl; lia.
Qed.

(** *** The invariant

    Every deadline, stored or about to be, was computed as a time of the past
    plus the full duration, and a sample of the clock is a time of the past. *)
Definition deadline_of (t0 : Z) (w : world) (t : Z) : Prop :=
  ∃ b, t0 ≤ b ≤ clock w ∧ t = b + as_nanos (duration self).

Record timer_inv (t0 : Z) (w : world) : Prop := {
  inv_deadline : deadline_of t0 w (time_to_explode w);
  inv_resets : Forall (deadline_of t0 w) (resets w);
  inv_now : match main w with HaveNow now => t0 ≤ now ≤ clock w | _ => True end;
  inv_clock : t0 ≤ clock w;
}.

Lemma deadline_of_mono t0 w w' t :
  clock w ≤ clock w' → deadline_of t0 w t → deadline_of t0 w' t.
Proof. intros Hc (b & Hb & ->). exists b. split; [lia|done]. Qed.

Lemma spawn_inv t0 w : spawn t0 = Val w → timer_inv t0 w.
Proof.
  unfold spawn. destruct (instant_add t0 (duration self)) as [tte| |] eqn:Ht; [|done..].
  apply instant_add_val in Ht as [-> _]. intros [= <-].
  split; simpl; [exists t0; simpl; lia|constructor|done|lia].
Qed.

Lemma main_step_shared w w' :
  main_step w = Some w' →
  clock w' = clock w ∧ time_to_explode w' = time_to_explode w ∧ resets w' = resets w ∧
  defused w' = defused w ∧
  match main w' with HaveNow now => now = clock w | _ => True end.
Proof.
  unfold main_step, main_step_at, explode_inner, set_main. intros Hm.
  repeat case_match; simplify_eq/=; done.
Qed.

Lemma timer_inv_step t0 w w' : timer_inv t0 w → step w w' → timer_inv t0 w'.
Proof.
  intros [Hd Hr Hn Hc] Hstep. pose proof (step_clock _ _ Hstep) as Hmono.
  assert (∀ t, deadline_of t0 w t → deadline_of t0 w' t) as Hm
    by (intros t; by apply deadline_of_mono).
  assert (Forall (deadline_of t0 w') (resets w)) as Hr'
    by (eapply Forall_impl; [apply Hr|done]).
  destruct Hstep as [a Ha]. unfold exec_action in Ha. destruct (exited w); [done|].
  destruct a; simplify_eq/=.
  - destruct (Z.leb_spec 0 d); simplify_eq/=. split; simpl; auto; [|lia].
    destruct (main w); auto. lia.
  - apply main_step_shared in Ha as (Hc' & Ht & Hrs & _ & Hm').
    split; rewrite ?Ht, ?Hrs; auto; [|lia].
    destruct (main w'); auto. lia.
  - unfold reset_start in *. destruct (instant_add _ _) as [t| |] eqn:Ht; [|by split..].
    apply instant_add_val in Ht as [-> _]. split; simpl; auto.
    apply Forall_app. split; [done|]. constructor; [|done].
    exists (clock w). simpl. lia.
  - unfold reset_store in Ha. apply bind_Some in Ha as (t & Hi & [= <-]).
    split; simpl; auto.
    + apply Hm. by eapply Forall_lookup_1 in Hi.
    + by apply Forall_delete.
  - split; simpl; auto.
  - unfold explode_inner in *. destruct (aggressive_mode self); split; simpl; auto.
Qed.

Lemma timer_inv_exec t0 acts w0 w :
  spawn t0 = Val w0 → exec acts w0 = Some w → timer_inv t0 w.
Proof.
  intros Hs He. apply exec_rtc in He. apply spawn_inv in Hs. revert Hs.
  induction He; eauto using timer_inv_step.
Qed.

(** *** The theorems *)

Definition running (pc : loop_pc) : bool :=
  match pc with Returned | Exploded => false | _ => true end.

(** C9: the main loop explodes only when the timer is overdue: in every run from
    [spawn], the step that explodes is taken more than the full duration after
    the time of which the deadline was computed, which is the time of the spawn or
    of a call of [reset]; in particular never within the duration of the spawn.  If
    the timer is aggressive the process is gone after that step, otherwise only the
    task has ended. *)
Theorem explosion_is_overdue (t0 : Z) (w0 w w' : world) (acts : list action)
    (Hs : spawn t0 = Val w0) (Hrun : exec acts w0 = Some w)
    (Hstep : exec_action MainStep w = Some w') (Hboom : main w' = Exploded) :
  ∃ b, t0 ≤ b ≤ clock w ∧ time_to_explode w = b + as_nanos (duration self) ∧
    b + as_nanos (duration self) < clock w ∧ exited w' = aggressive_mode self ∧
    (exited w' = true → ∀ a, exec_action a w' = None).
Proof.
  destruct (timer_inv_exec t0 acts w0 w Hs Hrun) as [(b & Hb & Htte) _ Hn _].
  unfold exec_action in Hstep. destruct (exited w) eqn:Hex; [done|].
  unfold main_step, main_step_at in Hstep. destruct (main w) as [| |now|d|until| |]; simplify_eq/=.
  - by destruct (defused w).
  - destruct (Z.ltb_spec (time_to_explode w) now); simplify_eq/=.
    exists b. repeat split; try lia.
    + unfold explode_inner. by destruct (aggressive_mode self).
    + intros Hgone a. unfold exec_action. simpl. by rewrite Hgone.
  - by destruct (until <=? clock w); simplify_eq/=.
Qed.

Lemma reset_store_keeps i w w' :
  reset_store i w = Some w' → main w' = main w ∧ defused w' = defused w.
Proof. intros (t & _ & [= <-])%bind_Some. done. Qed.

(** How often the main loop moves in a run. *)
Fixpoint main_steps (acts : list action) : nat :=
  match acts with
  | [] => 0
  | MainStep :: acts => S (main_steps acts)
  | _ :: acts => main_steps acts
  end.

(** What an action other than a step of the loop does to the loop. *)
Lemma other_action a w w' :
  a ≠ MainStep → exec_action a w = Some w' →
  main w' = main w ∧ (defused w = true → defused w' = true) ∧
  (a ≠ Defuse → defused w' = defused w) ∧
  ((∀ i, a ≠ ResetStore i) → time_to_explode w' = time_to_explode w).
Proof.
  unfold exec_action. destruct (exited w); [done|]. intros Ha Hx.
  destruct a; simplify_eq/=; try done.
  - destruct (0 <=? d); by simplify_eq/=.
  - unfold reset_start. by destruct (instant_add _ _).
  - apply reset_store_keeps in Hx as [Hm Hd]. rewrite Hm, Hd.
    repeat split; try done. intros Hi. by destruct (Hi i).
  - unfold explode_inner. by destruct (aggressive_mode self).
Qed.

(** The loop can move, once enough time has passed, unless it has ended or the
    process is gone. *)
Lemma main_enabled w :
  exited w = false → running (main w) = true →
  ∃ d w', exec [Tick d; MainStep] w = Some w'.
Proof.
  intros Hex Hr. exists (match main w with Sleeping u => Z.max 0 (u - clock w) | _ => 0 end).
  unfold exec, exec_action. rewrite Hex.
  rewrite (proj2 (Z.leb_le 0 _)) by (case_match; lia). simpl.
  unfold main_step, main_step_at. simpl.
  destruct (main w) as [| |now|d|u| |] eqn:Hm; simplify_eq/=; try by eexists.
  - case_match; by eexists.
  - rewrite (proj2 (Z.leb_le u _)) by lia. by eexists.
Qed.

(** Runs in which no handle resets or defuses the timer. *)
Definition undisturbed (a : action) : bool :=
  match a with ResetStore _ | Defuse => false | _ => true end.

(** The steps an overdue loop has left. *)
Definition overdue_left (w : world) : option nat :=
  match main w with
  | HaveNow now => Some (if time_to_explode w <? now then 1%nat else 6%nat)
  | MustSleep _ => Some 5%nat
  | Sleeping _ => Some 4%nat
  | AtTop => Some 3%nat
  | FlagClear => Some 2%nat
  | Exploded => Some 0%nat
  | Returned => None
  end.

Lemma overdue_step w w' n :
  defused w = false → time_to_explode w < clock w → overdue_left w = Some n →
  main_step w = Some w' → ∃ m, overdue_left w' = Some m ∧ n = S m.
Proof.
  unfold overdue_left, main_step, main_step_at. intros Hd Ht Hn Hs.
  destruct (main w) as [| |now|d|u| |]; simplify_eq/=.
  - rewrite Hd. simpl. eauto.
  - rewrite (proj2 (Z.ltb_lt _ _)) by lia. eauto.
  - destruct (time_to_explode w <? now); simplify_eq/=; eauto.
  - eauto.
  - destruct (u <=? clock w); simplify_eq/=. eauto.
Qed.

Lemma overdue_exec acts w w' n :
  defused w = false → time_to_explode w < clock w → overdue_left w = Some n →
  forallb undisturbed acts = true → exec acts w = Some w' →
  ∃ m, overdue_left w' = Some m ∧ n = (main_steps acts + m)%nat.
Proof.
  revert w n. induction acts as [|a acts IH]; intros w n Hd Ht Hn Hq; simpl.
  - intros [= <-]. eauto.
  - intros (w1 & Ha & Hr)%bind_Some. simpl in Hq. apply andb_true_iff in Hq as [Hqa Hq].
    assert (clock w ≤ clock w1) as Hc by (apply step_clock; by exists a).
    destruct (decide (a = MainStep)) as [->|Hne].
    + unfold exec_action in Ha. destruct (exited w); [done|].
      destruct (overdue_step w w1 n Hd Ht Hn Ha) as (m & Hm & ->).
      pose proof (main_step_shared _ _ Ha) as (_ & Ht1 & _ & Hd1 & _).
      rewrite <- Hd1 in Hd. rewrite <- Ht1 in Ht.
      destruct (IH w1 m Hd ltac:(lia) Hm Hq Hr) as (m' & ? & ->).
      exists m'. split; [done|lia].
    + destruct (other_action a w w1 Hne Ha) as (Hm & _ & Hd1 & Ht1).
      assert (overdue_left w1 = Some n) as Hn1.
      { rewrite <- Hn. unfold overdue_left. rewrite Hm.
        rewrite Ht1; [done|]. by intros i ->. }
      rewrite <- Hd1 in Hd by (by intros ->).
      rewrite <- Ht1 in Ht by (by intros i ->).
      destruct (IH w1 n Hd ltac:(lia) Hn1 Hq Hr) as (m & ? & ->).
      exists m. split; [done|]. by destruct a.
Qed.

(** C24: an overdue timer explodes.  Once the deadline has passed, if no handle
    resets or defuses the timer any more, the loop explodes within six of its
    steps (three of a round begun in time, then flag, clock and test), whatever else
    happens, and until then time always lets it move. *)
Theorem overdue_explodes (w w' : world) (acts : list action)
    (Hlive : running (main w) = true) (Hflag : defused w = false)
    (Hlate : time_to_explode w < clock w)
    (Hquiet : forallb undisturbed acts = true) (Hrun : exec acts w = Some w') :
  (main_steps acts ≤ 6)%nat ∧ (main_steps acts = 6%nat → main w' = Exploded) ∧
  (main w' = Exploded ∨ exited w' = true ∨ ∃ d w'', exec [Tick d; MainStep] w' = Some w'').
Proof.
  assert (∃ n, overdue_left w = Some n ∧ (n ≤ 6)%nat) as (n & Hn & Hle).
  { unfold overdue_left. destruct (main w); try done; eexists; split; done || (simpl; lia) ||
      (case_match; lia). }
  destruct (overdue_exec acts w w' n Hflag Hlate Hn Hquiet Hrun) as (m & Hm & ->).
  unfold overdue_left in Hm. split; [lia|]. split.
  - intros H6. assert (m = 0)%nat as -> by lia.
    destruct (main w'); simplify_eq; [by destruct (_ <? _)|done].
  - destruct (main w') eqn:Hpc; try done; [..|by left];
      (destruct (exited w') eqn:Hex; [by right; left|right; right];
       apply main_enabled; [done|by rewrite Hpc]).
Qed.

(** [defuse] "will no longer explode" is not what happens.  A loop that has
    read the flag just before explodes although [defuse] has returned, and
    [explode] does not look at the flag at all. *)
Lemma defuse_does_not_prevent_explosion (t0 : Z) (w : world) (late : Z)
    (Hs : spawn t0 = Val w) (Hdur : duration_wf (duration self))
    (Hlate : as_nanos (duration self) < late) :
  (∃ w', exec [MainStep; Tick late; Defuse; MainStep; MainStep] w = Some w' ∧
     defused w' = true ∧ main w' = Exploded) ∧
  (∃ w', exec [Defuse; Explode] w = Some w' ∧
     defused w' = true ∧ exited w' = aggressive_mode self).
Proof.
  unfold spawn in Hs. destruct (instant_add t0 (duration self)) as [tte| |] eqn:Ht; [|done..].
  apply instant_add_val in Ht as [-> _]. simplify_eq/=.
  pose proof (as_nanos_bounds _ Hdur). split.
  - unfold exec_action. simpl. rewrite (proj2 (Z.leb_le 0 late)) by lia. simpl.
    unfold main_step, main_step_at. simpl.
    rewrite (proj2 (Z.ltb_lt (t0 + as_nanos (duration self)) _)) by lia. simpl.
    eexists. split; [done|]. unfold explode_inner. by destruct (aggressive_mode self).
  - eexists. split; [done|]. unfold explode_inner. by destruct (aggressive_mode self).
Qed.

(** A [reset] grants the full duration from the time it was called, and the
    last one to get the lock decides: of two concurrent resets the one called
    first may store last, and the deadline then moves back by the time between the
    two calls. *)
Lemma reset_grants_duration (w : world) (d : Z)
    (Hd : 0 ≤ d) (Hgone : exited w = false) (Hidle : resets w = [])
    (Hmax : clock w + d + as_nanos (duration self) ≤ instant_max) :
  (∃ w', exec [ResetStart; Tick d; ResetStore 0] w = Some w' ∧
     time_to_explode w' = clock w + as_nanos (duration self) ∧ resets w' = []) ∧
  (∃ w1 w2, exec [ResetStart; Tick d; ResetStart; ResetStore 1] w = Some w1 ∧
     exec [ResetStore 0] w1 = Some w2 ∧ clock w2 = clock w1 ∧
     time_to_explode w1 = clock w + d + as_nanos (duration self) ∧
     time_to_explode w2 = time_to_explode w1 - d ∧ resets w2 = []).
Proof.
  destruct w as [c tte f rs m ex]. simplify_eq/=.
  unfold exec_action, reset_start, instant_add. simpl.
  rewrite (proj2 (Z.leb_le (c + as_nanos (duration self)) _)) by lia. simpl.
  rewrite (proj2 (Z.leb_le 0 d)) by lia. simpl. split.
  - eexists. split; [reflexivity|]. done.
  - rewrite (proj2 (Z.leb_le (c + d + _) _)) by lia. simpl.
    eexists _, _. split; [reflexivity|]. split; [reflexivity|].
    simpl. repeat split; lia.
Qed.
End timer.


(** ** Witnesses: the timer of the tests, ten milliseconds, panicking *)

Definition bomb : DoomsdayTimer := MkTimer (StdTime.from_millis 10) false.
Definition bomb_spawned : world := MkWorld 0 10000000 false [] AtTop false.
(** Eleven milliseconds later, the loop about to test. *)
Definition bomb_late : world := MkWorld 11000000 10000000 false [] (HaveNow 11000000) false.

Lemma explosion_is_overdue_witness :
  exec bomb [MainStep; Tick 11000000; MainStep] bomb_spawned = Some bomb_late ∧
  ∃ b, 0 ≤ b ∧ 10000000 = b + 10000000 ∧ b + 10000000 < 11000000.
Proof.
  split; [reflexivity|].
  destruct (explosion_is_overdue bomb 0 bomb_spawned bomb_late
    (set_main Exploded bomb_late) [MainStep; Tick 11000000; MainStep]
    eq_refl eq_refl eq_refl eq_refl) as (b & Hb & Ht & Hl & _).
  exists b. repeat split; [apply Hb|exact Ht|exact Hl].
Defined.

Lemma overdue_explodes_witness :
  let w := MkWorld 10500000 10000000 false [] (HaveNow 9000000) false in
  main (MkWorld 11500000 10000000 false [] Exploded false) = Exploded.
Proof.
  exact (proj1 (proj2 (overdue_explodes bomb
    (MkWorld 10500000 10000000 false [] (HaveNow 9000000) false)
    (MkWorld 11500000 10000000 false [] Exploded false)
    [MainStep; MainStep; Tick 1000000; MainStep; MainStep; MainStep; MainStep]
    eq_refl eq_refl eq_refl eq_refl eq_refl)) eq_refl).
Defined.

Lemma defuse_does_not_prevent_explosion_witness :
  ∃ w', exec bomb [MainStep; Tick 11000000; Defuse; MainStep; MainStep] bomb_spawned = Some w' ∧
    defused w' = true ∧ main w' = Exploded.
Proof.
  refine (proj1 (defuse_does_not_prevent_explosion bomb 0 bomb_spawned 11000000 eq_refl _ _));
    vm_compute; intuition discriminate.
Defined.

Lemma reset_grants_duration_witness :
  ∃ w', exec bomb [ResetStart; Tick 5; ResetStore 0] bomb_spawned = Some w' ∧
    time_to_explode w' = 10000000 ∧ resets w' = [].
Proof.
  refine (proj1 (reset_grants_duration bomb bomb_spawned 5 _ eq_refl eq_refl _));
    vm_compute; intuition discriminate.
Defined.
