(* ===== verification/DoomsdayRelaxed.v ===== *)
(** * The doomsday timer under relaxed memory: src/src/doomsday.rs

    In [Doomsday] the flag is one variable, and a load sees the last store.  The code uses
    [Ordering::Relaxed]: a store is seen by another thread some time later.  Here every
    thread has a view, that is whether it knows of the store.  The mutex of the deadline is
    what orders the threads otherwise: who unlocks it leaves its view there, and who locks
    it next takes the view over.  A handle is the thread that uses it.

    The flag is only ever set, so a view is a boolean, and a load may return [false]
    exactly as long as the thread that loads does not know of the store. *)

From S2P Require Export Doomsday.

Record relaxed : Type := MkRelaxed {
  base : world; (** with the last value stored in the flag *)
  seen : bool; (** the view of the loop *)
  knows : list nat; (** the handles that know of the store *)
  lock_knows : bool; (** the view left in the mutex *)
  owners : list nat; (** who is calling [reset], along with [resets] *)
}.

Inductive raction : Type :=
| RTick (d : Z)
| RMain (fresh : bool) (** a load of the flag that may be stale is not, if [fresh] *)
| RResetStart (h : nat)
| RResetStore (i : nat)
| RDefuse (h : nat)
| RSync (h h' : nat) (** anything that orders what [h] did before what [h'] does *)
| RExplode.

(** [spawn], before anything else is done. *)
Definition relaxed_of (w : world) : relaxed := MkRelaxed w false [] false [].

Section relaxed_timer.
Context (self : DoomsdayTimer).

(** [main_loop]: the load of the flag returns what the loop knows, or the last store; the
    read of the deadline under the lock takes the view in the mutex over. *)
Definition rmain_step (fresh : bool) (r : relaxed) : option relaxed :=
  let loaded := seen r || (fresh && defused (base r)) in
  w ← main_step_at self loaded (base r);
  match main (base r) with
  | AtTop => Some (MkRelaxed w loaded (knows r) (lock_knows r) (owners r))
  | HaveNow _ =>
      let view := seen r || lock_knows r in
      Some (MkRelaxed w view (knows r) view (owners r))
  | _ => Some (MkRelaxed w (seen r) (knows r) (lock_knows r) (owners r))
  end.

(** [reset] of the handle [h]: up to the lock, and the store under it. *)
Definition rreset_start (h : nat) (r : relaxed) : relaxed :=
  let w := reset_start self (base r) in
  MkRelaxed w (seen r) (knows r) (lock_knows r)
    (if decide (length (resets w) = length (resets (base r))) then owners r
     else owners r ++ [h]).
Definition rreset_store (i : nat) (r : relaxed) : option relaxed :=
  w ← reset_store i (base r);
  h ← owners r !! i;
  let view := bool_decide (h ∈ knows r) || lock_knows r in
  Some (MkRelaxed w (seen r) (if view then h :: knows r else knows r) view
          (delete i (owners r))).

(** [defuse] of the handle [h]. *)
Definition rdefuse (h : nat) (r : relaxed) : relaxed :=
  MkRelaxed (defuse (base r)) (seen r) (h :: knows r) (lock_knows r) (owners r).

Definition with_base (w : world) (r : relaxed) : relaxed :=
  MkRelaxed w (seen r) (knows r) (lock_knows r) (owners r).

Definition rexec_action (a : raction) (r : relaxed) : option relaxed :=
  if exited (base r) then None else
  match a with
  | RTick d => w ← exec_action self (Tick d) (base r); Some (with_base w r)
  | RMain fresh => rmain_step fresh r
  | RResetStart h => Some (rreset_start h r)
  | RResetStore i => rreset_store i r
  | RDefuse h => Some (rdefuse h r)
  | RSync h h' =>
      Some (MkRelaxed (base r) (seen r)
              (if decide (h ∈ knows r) then h' :: knows r else knows r)
              (lock_knows r) (owners r))
  | RExplode => Some (with_base (explode_inner self (base r)) r)
  end.

Fixpoint rexec (acts : list raction) (r : relaxed) : option relaxed :=
  match acts with
  | [] => Some r
  | a :: acts => r ← rexec_action a r; rexec acts r
  end.

Lemma rexec_app acts1 acts2 r : rexec (acts1 ++ acts2) r = rexec acts1 r ≫= rexec acts2.
Proof.
  revert r. induction acts1 as [|a acts1 IH]; intros r; simpl; [done|].
  destruct (rexec_action a r); simpl; [apply IH|done].
Qed.

Fixpoint rmain_steps (acts : list raction) : nat :=
  match acts with
  | [] => 0
  | RMain _ :: acts => S (rmain_steps acts)
  | _ :: acts => rmain_steps acts
  end.

(** *** Every relaxed run is a run in which [defuse] comes later

    Later, that is when the loop learns of it. *)

(** The world as the loop sees it. *)
Definition seen_world (r : relaxed) : world :=
  let w := base r in
  MkWorld (clock w) (time_to_explode w) (seen r) (resets w) (main w) (exited w).

(** A step of the loop that learns of the store. *)
Definition learns (fresh : bool) (r : relaxed) : bool :=
  negb (seen r) && match main (base r) with
                   | AtTop => fresh && defused (base r)
                   | HaveNow _ => lock_knows r
                   | _ => false
                   end.

Definition delayed (a : raction) (r : relaxed) : list action :=
  match a with
  | RTick d => [Tick d]
  | RMain fresh => (if learns fresh r then [Defuse] else []) ++ [MainStep]
  | RResetStart _ => [ResetStart]
  | RResetStore i => [ResetStore i]
  | RDefuse _ | RSync _ _ => []
  | RExplode => [Explode]
  end.

Lemma delayed_main_steps a r : main_steps (delayed a r) = rmain_steps [a].
Proof. destruct a; simpl; try done. by destruct (learns _ r). Qed.

Lemma main_steps_app l1 l2 : main_steps (l1 ++ l2) = (main_steps l1 + main_steps l2)%nat.
Proof. induction l1 as [|[] l1 IH]; simpl; auto. Qed.

Lemma step_delayed a r r' :
  rexec_action a r = Some r' → exec self (delayed a r) (seen_world r) = Some (seen_world r').
Proof.
  unfold rexec_action. destruct r as [[c t f rs pc ex] s k l o]. simpl.
  destruct ex eqn:Hex; [done|]. intros Hr.
  destruct a as [d|fresh|h|i|h|h h'|]; simplify_eq/=.
  - unfold exec_action in *. simpl in *. by destruct (0 <=? d); simplify_eq/=.
  - unfold rmain_step, learns, main_step_at, explode_inner in *. simpl in *.
    destruct pc as [| |now|dd|u| |]; simplify_eq/=; rewrite ?andb_false_r; simpl;
      unfold exec_action, main_step, main_step_at, explode_inner; simpl.
    + by destruct s, fresh, f.
    + done.
    + destruct s, l; simpl; unfold exec_action, main_step, main_step_at, explode_inner; simpl;
        destruct (t <? now), (aggressive_mode self); by simplify_eq/=.
    + done.
    + by destruct (u <=? c); simplify_eq/=.
  - unfold rreset_start, seen_world, reset_start. simpl. by destruct (instant_add _ _).
  - unfold rreset_store, exec_action, reset_store in *. simpl in *.
    by destruct (rs !! i), (o !! i); simplify_eq/=.
  - done.
  - done.
  - unfold explode_inner, seen_world. simpl. by destruct (aggressive_mode self).
Qed.

(** A view is never ahead of the store, and there is an owner to every call. *)
Record coherent (r : relaxed) : Prop := {
  coherent_seen : seen r = true → defused (base r) = true;
  coherent_lock : lock_knows r = true → defused (base r) = true;
  coherent_knows h : h ∈ knows r → defused (base r) = true;
  coherent_owners : length (owners r) = length (resets (base r));
}.

Lemma coherent_spawn w : resets w = [] → coherent (relaxed_of w).
Proof. intros Hr. split; simpl; try done; [by intros h ?%elem_of_nil|by rewrite Hr]. Qed.

Lemma main_step_defused loaded w w' :
  main_step_at self loaded w = Some w' → defused w' = defused w ∧ resets w' = resets w.
Proof.
  unfold main_step_at, explode_inner. intros Hm. by repeat case_match; simplify_eq/=.
Qed.

Lemma rmain_step_inv fresh r r' :
  rmain_step fresh r = Some r' →
  main_step_at self (seen r || (fresh && defused (base r))) (base r) = Some (base r') ∧
  knows r' = knows r ∧ owners r' = owners r ∧
  seen r' = match main (base r) with
            | AtTop => seen r || (fresh && defused (base r))
            | HaveNow _ => seen r || lock_knows r
            | _ => seen r
            end ∧
  lock_knows r' = match main (base r) with
                  | HaveNow _ => seen r || lock_knows r
                  | _ => lock_knows r
                  end.
Proof.
  intros (w & Hw & Hr)%bind_Some. rewrite Hw. by destruct (main (base r)); simplify_eq/=.
Qed.

Lemma coherent_step a r r' : coherent r → rexec_action a r = Some r' → coherent r'.
Proof.
  unfold rexec_action. intros Hco Hr. destruct (exited (base r)); [done|].
  pose proof Hco as [Hs Hl Hk Ho].
  destruct a as [d|fresh|h|i|h|h h'|]; simplify_eq/=.
  - apply bind_Some in Hr as (w & Hw & [= <-]).
    destruct (other_action self (Tick d) _ _ ltac:(done) Hw) as (_ & _ & Hd & _).
    assert (resets w = resets (base r)) as Hrs.
    { unfold exec_action in Hw. destruct (exited _); [done|]. by destruct (0 <=? d); simplify_eq/=. }
    split; simpl; rewrite ?Hd, ?Hrs by done; auto.
  - apply rmain_step_inv in Hr as ([Hd Hrs]%main_step_defused & Hk' & Ho' & Hs' & Hl').
    split; rewrite ?Hd, ?Hrs, ?Hk', ?Ho', ?Hs', ?Hl'; auto;
      destruct (main (base r)); auto; intros [?|?]%orb_true_iff; auto.
    by apply andb_true_iff in H as [_ ?].
  - unfold rreset_start. split; simpl; unfold reset_start; destruct (instant_add _ _); auto;
      simpl; case_decide as Hlen; rewrite ?length_app in *; simpl in *; lia.
  - unfold rreset_store, reset_store in Hr.
    apply bind_Some in Hr as (w & (t & Ht & [= <-])%bind_Some & (h & Hh & [= <-])%bind_Some).
    assert (bool_decide (h ∈ knows r) || lock_knows r = true → defused (base r) = true) as Hv.
    { intros [Hin%bool_decide_eq_true|?]%orb_true_iff; eauto. }
    split; simpl; auto.
    + destruct (_ || _) eqn:Hview; [by auto|eauto].
    + rewrite !length_delete; [by rewrite Ho|by eexists|by eexists].
  - split; simpl; auto.
  - split; simpl; auto. case_decide as Hin; [|done]. eauto.
  - assert (defused (explode_inner self (base r)) = defused (base r) ∧
      resets (explode_inner self (base r)) = resets (base r)) as [Hd Hrs]
      by (unfold explode_inner; by destruct (aggressive_mode self)).
    split; simpl; rewrite ?Hd, ?Hrs; auto.
Qed.

Lemma coherent_exec acts r r' : coherent r → rexec acts r = Some r' → coherent r'.
Proof.
  revert r. induction acts as [|a acts IH]; intros r Hr; simpl; [by intros [= <-]|].
  intros (r1 & Ha & Hrun)%bind_Some. eauto using coherent_step.
Qed.

Lemma exec_delayed acts r r' :
  rexec acts r = Some r' → ∃ acts', exec self acts' (seen_world r) = Some (seen_world r') ∧
    main_steps acts' = rmain_steps acts.
Proof.
  revert r. induction acts as [|a acts IH]; intros r; simpl.
  - intros [= <-]. by exists [].
  - intros (r1 & Ha & Hrun)%bind_Some. destruct (IH r1 Hrun) as (acts' & He & Hm).
    exists (delayed a r ++ acts'). split.
    + by rewrite exec_app, (step_delayed a r r1 Ha).
    + rewrite main_steps_app, delayed_main_steps, Hm. by destruct a.
Qed.

(** The other way round, a run of [Doomsday] is one in which every load is fresh. *)
Definition prompt (a : action) : raction :=
  match a with
  | Tick d => RTick d
  | MainStep => RMain true
  | ResetStart => RResetStart 0
  | ResetStore i => RResetStore i
  | Defuse => RDefuse 0
  | Explode => RExplode
  end.

Lemma step_prompt a r w :
  coherent r → exec_action self a (base r) = Some w →
  ∃ r', rexec_action (prompt a) r = Some r' ∧ base r' = w.
Proof.
  intros Hco Ha. unfold rexec_action. unfold exec_action in Ha.
  destruct (exited (base r)) eqn:Hex; [done|]. destruct a; simpl; simplify_eq.
  - unfold exec_action. rewrite Hex, Ha. simpl. by eexists.
  - unfold rmain_step. replace (seen r || (true && defused (base r))) with (defused (base r)).
    + fold (main_step self (base r)). rewrite Ha. simpl. destruct (main (base r)); by eexists.
    + simpl. destruct (seen r) eqn:Hs; [|done]. by rewrite (coherent_seen r Hco Hs).
  - by eexists.
  - unfold rreset_store. rewrite Ha. simpl.
    apply bind_Some in Ha as (t & Ht & _).
    destruct (lookup_lt_is_Some_2 (owners r) i) as [h Hh].
    { rewrite (coherent_owners r Hco). by eapply lookup_lt_Some. }
    rewrite Hh. simpl. by eexists.
  - by eexists.
  - by eexists.
Qed.

Lemma exec_prompt acts r w :
  coherent r → exec self acts (base r) = Some w →
  ∃ r', rexec (map prompt acts) r = Some r' ∧ base r' = w.
Proof.
  revert r. induction acts as [|a acts IH]; intros r Hco; simpl.
  - intros [= <-]. by exists r.
  - intros (w1 & Ha & Hrun)%bind_Some. destruct (step_prompt a r w1 Hco Ha) as (r1 & Hr1 & <-).
    rewrite Hr1. simpl. apply IH; [|done]. by eapply coherent_step.
Qed.

(** C26: relaxed memory only delays [defuse].  Whatever a run under relaxed memory does to
    the loop, the deadline and the process, a run of the timer with a single flag does, in
    as many steps of the loop, in which the flag is set when the loop learns of it; and it
    never learns of a store that was not made.  Every run with a single flag is a run under
    relaxed memory.  So what holds in all runs with the flag at any value, that explosions
    are overdue above all, holds under relaxed memory. *)
Theorem relaxed_refines (t0 : Z) (w0 : world) (Hs : spawn self t0 = Val w0) :
  (∀ racts r, rexec racts (relaxed_of w0) = Some r →
     (∃ acts, exec self acts w0 = Some (seen_world r) ∧ main_steps acts = rmain_steps racts) ∧
     (seen r = true → defused (base r) = true)) ∧
  (∀ acts w, exec self acts w0 = Some w →
     ∃ r, rexec (map prompt acts) (relaxed_of w0) = Some r ∧ base r = w).
Proof.
  assert (coherent (relaxed_of w0) ∧ seen_world (relaxed_of w0) = w0) as [Hco Hw].
  { unfold spawn in Hs. destruct (instant_add t0 (duration self)); simplify_eq/=.
    by split; [apply coherent_spawn|]. }
  split.
  - intros racts r Hrun. split.
    + rewrite <- Hw. by apply exec_delayed.
    + exact (coherent_seen r (coherent_exec racts _ r Hco Hrun)).
  - intros acts w Hrun. by apply exec_prompt.
Qed.

(** *** When a defused timer may still explode *)

(** The steps that a loop has left which knows of the store, or finds it in the mutex. *)
Definition ending_left (r : relaxed) : nat :=
  match main (base r) with
  | FlagClear => 5
  | HaveNow _ => 4
  | MustSleep _ => if seen r then 3 else 8
  | Sleeping _ => if seen r then 2 else 7
  | AtTop => if seen r then 1 else 6
  | Returned | Exploded => 0
  end.

(** The steps within which it can explode, if it can. *)
Definition danger_left (r : relaxed) : option nat :=
  match main (base r) with
  | FlagClear => Some 2%nat
  | HaveNow _ => Some 1%nat
  | MustSleep _ => if seen r then None else Some 5%nat
  | Sleeping _ => if seen r then None else Some 4%nat
  | AtTop => if seen r then None else Some 3%nat
  | Returned => None
  | Exploded => Some 0%nat
  end.

Definition less_danger (r r' : relaxed) : Prop :=
  ∀ m, danger_left r' = Some m → ∃ n, danger_left r = Some n ∧ (m < n)%nat.

Lemma rmain_step_ends fresh r r' :
  lock_knows r = true → rmain_step fresh r = Some r' →
  lock_knows r' = true ∧ (ending_left r' < ending_left r)%nat ∧ less_danger r r'.
Proof.
  destruct r as [[c t f rs pc ex] s k l o]. simpl. intros -> Hr.
  unfold rmain_step, main_step_at, less_danger, ending_left, danger_left in *.
  destruct pc as [| |now|dd|u| |]; simpl in *; try done.
  - injection Hr as <-. destruct s, fresh, f; simpl; (split; [done|]); (split; [lia|]); intros m Hm;
      simplify_eq/=; try (eexists; split; [done|lia]).
  - simplify_eq/=. split; [done|]. split; [lia|]. intros m Hm. simplify_eq/=. eauto with lia.
  - rewrite orb_true_r in Hr. unfold explode_inner in Hr.
    destruct (t <? now), (aggressive_mode self); simplify_eq/=;
      (split; [done|]); (split; [lia|]); intros m Hm; simplify_eq/=; eauto with lia.
  - simplify_eq/=. split; [done|].
    destruct s; (split; [lia|]); intros m Hm; simplify_eq/=; eauto with lia.
  - destruct (u <=? c); simplify_eq/=. split; [done|].
    destruct s; (split; [lia|]); intros m Hm; simplify_eq/=; eauto with lia.
Qed.

(** What another thread does leaves the loop where it is, and the view in the mutex. *)
Lemma rother_action a r r' :
  (∀ fresh, a ≠ RMain fresh) → rexec_action a r = Some r' →
  main (base r') = main (base r) ∧ seen r' = seen r ∧
  (lock_knows r = true → lock_knows r' = true).
Proof.
  unfold rexec_action. intros Ha Hr. destruct (exited (base r)); [done|].
  destruct a as [d|fresh|h|i|h|h h'|]; simplify_eq/=; try done.
  - apply bind_Some in Hr as (w & Hw & [= <-]).
    by destruct (other_action self (Tick d) _ _ ltac:(done) Hw) as (? & _).
  - by destruct (Ha fresh).
  - unfold reset_start. by destruct (instant_add _ _).
  - unfold rreset_store in Hr.
    apply bind_Some in Hr as (w & [Hm _]%reset_store_keeps & (h & Hh & [= <-])%bind_Some).
    split; [done|]. split; [done|]. intros Hl. simpl. rewrite Hl. apply orb_true_r.
  - split; [|done]. unfold explode_inner. by destruct (aggressive_mode self).
Qed.

Lemma ending_exec acts r r' :
  lock_knows r = true → rexec acts r = Some r' →
  (rmain_steps acts + ending_left r' ≤ ending_left r)%nat ∧
  ∀ m, danger_left r' = Some m →
    ∃ n, danger_left r = Some n ∧ (rmain_steps acts + m ≤ n)%nat.
Proof.
  revert r. induction acts as [|a acts IH]; intros r Hl; cbn [rexec].
  - intros [= <-]. simpl. split; [lia|]. eauto.
  - intros (r1 & Ha & Hrun)%bind_Some.
    assert ((∃ fresh, a = RMain fresh) ∨ ∀ fresh, a ≠ RMain fresh) as [[fresh ->]|Hne].
    { destruct a; try (by right); left; by eexists. }
    + unfold rexec_action in Ha. destruct (exited (base r)); [done|].
      destruct (rmain_step_ends fresh r r1 Hl Ha) as (Hl1 & Hlt & Hdg).
      destruct (IH r1 Hl1 Hrun) as [Hle Hd]. simpl. split; [lia|].
      intros m Hm. destruct (Hd m Hm) as (n & Hn & ?). destruct (Hdg n Hn) as (n' & ? & ?).
      exists n'. split; [done|]. lia.
    + destruct (rother_action a r r1 Hne Ha) as (Hm1 & Hs1 & Hl1).
      destruct (IH r1 (Hl1 Hl) Hrun) as [Hle Hd].
      assert (rmain_steps (a :: acts) = rmain_steps acts) as Hsteps
        by (destruct a; try done; by destruct (Hne fresh)).
      assert (ending_left r1 = ending_left r ∧ danger_left r1 = danger_left r) as [He Hdg]
        by (unfold ending_left, danger_left; by rewrite Hm1, Hs1).
      rewrite Hsteps, <- He, <- Hdg. done.
Qed.

Lemma ending_left_ended r : ending_left r = 0%nat → running (main (base r)) = false.
Proof. unfold ending_left. by destruct (main (base r)), (seen r). Qed.

(** Whether a step can be taken does not depend on the flag. *)
Lemma main_step_at_some loaded loaded' w w1 :
  main_step_at self loaded w = Some w1 → ∃ w2, main_step_at self loaded' w = Some w2.
Proof.
  unfold main_step_at. intros Hm. repeat case_match; simplify_eq; by eexists.
Qed.

Lemma rmain_enabled fresh r :
  exited (base r) = false → running (main (base r)) = true →
  ∃ d r', rexec [RTick d; RMain fresh] r = Some r'.
Proof.
  intros Hex Hr. destruct (main_enabled self (base r) Hex Hr) as (d & w & Hw).
  exists d. simpl in Hw. apply bind_Some in Hw as (w1 & Ht & (w2 & Hm & [= <-])%bind_Some).
  unfold rexec, rexec_action. rewrite Hex, Ht. simpl.
  unfold exec_action in Hm. destruct (exited w1); [done|].
  destruct (main_step_at_some _ (seen r || (fresh && defused w1)) _ _ Hm) as [w3 Hw3].
  unfold rmain_step. simpl. rewrite Hw3. simpl. destruct (main w1); by eexists.
Qed.

(** A store of [reset] by a handle that knows leaves that in the mutex. *)
Lemma reset_publishes i h r r' :
  owners r !! i = Some h → h ∈ knows r → rexec_action (RResetStore i) r = Some r' →
  lock_knows r' = true.
Proof.
  unfold rexec_action, rreset_store. intros Hi Hk Hr. destruct (exited (base r)); [done|].
  apply bind_Some in Hr as (w & _ & (h' & Hh & [= <-])%bind_Some). simplify_eq.
  simpl. by rewrite bool_decide_true.
Qed.

Lemma knows_step a h r r' : h ∈ knows r → rexec_action a r = Some r' → h ∈ knows r'.
Proof.
  unfold rexec_action. intros Hk Hr. destruct (exited (base r)); [done|].
  destruct a as [d|fresh|h1|i|h1|h1 h2|]; simplify_eq/=; try done.
  - by apply bind_Some in Hr as (w & _ & [= <-]).
  - apply rmain_step_inv in Hr as (_ & Hk' & _). by rewrite Hk'.
  - unfold rreset_store in Hr.
    apply bind_Some in Hr as (w & _ & (h' & _ & [= <-])%bind_Some). simpl.
    destruct (_ || _); [by right|done].
  - by right.
  - destruct (decide _); [by right|done].
Qed.

Lemma knows_exec acts h r r' : h ∈ knows r → rexec acts r = Some r' → h ∈ knows r'.
Proof.
  revert r. induction acts as [|a acts IH]; intros r Hk; simpl; [by intros [= <-]|].
  intros (r1 & Ha & Hrun)%bind_Some. eauto using knows_step.
Qed.

(** C27: [defuse] followed by [reset] ends the timer, under relaxed memory too.  When a
    handle has called [defuse] and later, of its own or after the loop or another handle
    did, a [reset] of it has stored its deadline, the loop ends within eight of its steps,
    whatever the loads of the flag return and whatever else happens, and time lets it
    move until then, unless the process is gone.  It can explode only within the first five,
    that is before it has read the deadline again. *)
Theorem defuse_then_reset (h i : nat) (acts acts' : list raction) (r r1 r2 r3 : relaxed)
    (fresh : bool)
    (Hdefuse : rexec (RDefuse h :: acts) r = Some r1)
    (Howner : owners r1 !! i = Some h)
    (Hreset : rexec_action (RResetStore i) r1 = Some r2)
    (Hrun : rexec acts' r2 = Some r3) :
  (rmain_steps acts' ≤ 8)%nat ∧
  (rmain_steps acts' = 8%nat → running (main (base r3)) = false) ∧
  (main (base r3) = Exploded → (rmain_steps acts' ≤ 5)%nat) ∧
  (running (main (base r3)) = false ∨ exited (base r3) = true ∨
   ∃ d r4, rexec [RTick d; RMain fresh] r3 = Some r4).
Proof.
  simpl in Hdefuse. apply bind_Some in Hdefuse as (r0 & Hr0 & Hacts).
  assert (h ∈ knows r0) as Hk.
  { unfold rexec_action in Hr0. destruct (exited (base r)); simplify_eq/=. by left. }
  pose proof (reset_publishes i h r1 r2 Howner (knows_exec acts h r0 r1 Hk Hacts) Hreset) as Hl.
  destruct (ending_exec acts' r2 r3 Hl Hrun) as [Hle Hd].
  assert (ending_left r2 ≤ 8)%nat
    by (unfold ending_left; destruct (main (base r2)), (seen r2); lia).
  split; [lia|]. split; [intros ?; apply ending_left_ended; lia|]. split.
  - intros Hx. destruct (Hd 0%nat) as (n & Hn & ?); [unfold danger_left; by rewrite Hx|].
    assert (n ≤ 5)%nat; [|lia].
    unfold danger_left in Hn. destruct (main (base r2)), (seen r2); simplify_eq; lia.
  - destruct (running (main (base r3))) eqn:Hrn; [|by left]. right.
    destruct (exited (base r3)) eqn:Hex; [by left|right]. by apply rmain_enabled.
Qed.

(** *** A timer defused in time

    [missed acts r]: in the run of [acts] from [r], a load of the flag misses a store. *)
Definition misses (a : raction) (r : relaxed) : bool :=
  match a, main (base r) with
  | RMain fresh, AtTop => defused (base r) && negb (seen r || fresh)
  | _, _ => false
  end.

Fixpoint missed (acts : list raction) (r : relaxed) : bool :=
  match acts with
  | [] => false
  | a :: acts =>
      misses a r || match rexec_action a r with Some r' => missed acts r' | None => false end
  end.

Lemma defused_stays a r r' :
  defused (base r) = true → rexec_action a r = Some r' → defused (base r') = true.
Proof.
  unfold rexec_action. intros Hd Hr. destruct (exited (base r)); [done|].
  destruct a as [d|fresh|h|i|h|h h'|]; simplify_eq/=; try done.
  - apply bind_Some in Hr as (w & Hw & [= <-]).
    destruct (other_action self (Tick d) _ _ ltac:(done) Hw) as (_ & Hd' & _). by apply Hd'.
  - apply rmain_step_inv in Hr as ([-> _]%main_step_defused & _). done.
  - unfold reset_start. by destruct (instant_add _ _).
  - unfold rreset_store in Hr.
    apply bind_Some in Hr as (w & [_ Hd']%reset_store_keeps & (h & _ & [= <-])%bind_Some).
    simpl. congruence.
  - unfold explode_inner. by destruct (aggressive_mode self).
Qed.

(** The steps that a loop has left which is not past the test, if it misses no store. *)
Definition defused_left (pc : loop_pc) : option nat :=
  match pc with
  | MustSleep _ => Some 3%nat
  | Sleeping _ => Some 2%nat
  | AtTop => Some 1%nat
  | Returned => Some 0%nat
  | _ => None
  end.

Lemma defused_step fresh r r' n :
  defused (base r) = true → defused_left (main (base r)) = Some n →
  misses (RMain fresh) r = false → rmain_step fresh r = Some r' →
  ∃ m, defused_left (main (base r')) = Some m ∧ n = S m.
Proof.
  intros Hd Hn Hmiss Hr. apply rmain_step_inv in Hr as [Hw _].
  unfold misses in Hmiss. unfold main_step_at in Hw. rewrite Hd in *.
  destruct (main (base r)) as [| |now|d|u| |]; simplify_eq/=; rewrite <- ?Hw; simpl; eauto.
  - destruct (seen r), fresh; simplify_eq/=; eauto.
  - destruct (u <=? clock (base r)); simplify_eq/=. rewrite <- Hw. simpl. eauto.
Qed.

Lemma defused_exec acts r r' n :
  defused (base r) = true → defused_left (main (base r)) = Some n →
  rexec acts r = Some r' → missed acts r = false →
  ∃ m, defused_left (main (base r')) = Some m ∧ n = (rmain_steps acts + m)%nat.
Proof.
  revert r n. induction acts as [|a acts IH]; intros r n Hd Hn; cbn [rexec missed].
  - intros [= <-] _. eauto.
  - intros (r1 & Ha & Hrun)%bind_Some. rewrite Ha. intros [Hmiss Hrest]%orb_false_iff.
    pose proof (defused_stays a r r1 Hd Ha) as Hd1.
    assert ((∃ fresh, a = RMain fresh) ∨ ∀ fresh, a ≠ RMain fresh) as [[fresh ->]|Hne].
    { destruct a; try (by right); left; by eexists. }
    + unfold rexec_action in Ha. destruct (exited (base r)); [done|].
      destruct (defused_step fresh r r1 n Hd Hn Hmiss Ha) as (m & Hm & ->).
      destruct (IH r1 m Hd1 Hm Hrun Hrest) as (m' & ? & ->). exists m'. split; [done|simpl; lia].
    + destruct (rother_action a r r1 Hne Ha) as (Hm1 & _). rewrite <- Hm1 in Hn.
      destruct (IH r1 n Hd1 Hn Hrun Hrest) as (m & ? & ->). exists m. split; [done|].
      destruct a; try done. by destruct (Hne fresh).
Qed.

(** C25: the timer that was defused in time explodes only if the loop misses the store.
    When [defuse] is called while the loop is asleep, about to sleep or at its top, and a later
    run, whatever the clock and the other handles do, makes the loop explode, then a load of
    the flag in that run returned the old value, as a relaxed load may.  If none does, three
    steps of the loop (falling asleep, waking, reading the flag) are enough to end it, and as
    long as it has not ended, time lets it move, unless another handle ends the process. *)
Theorem defused_never_explodes (h : nat) (acts : list raction) (r r' : relaxed)
    (Hmain : match main (base r) with
             | AtTop | MustSleep _ | Sleeping _ | Returned => True | _ => False end)
    (Hrun : rexec (RDefuse h :: acts) r = Some r') :
  (main (base r') = Exploded → missed acts (rdefuse h r) = true) ∧
  (missed acts (rdefuse h r) = false →
     (rmain_steps acts ≤ 3)%nat ∧
     (rmain_steps acts = 3%nat → main (base r') = Returned) ∧
     (main (base r') = Returned ∨ exited (base r') = true ∨
      ∃ d r'', rexec [RTick d; RMain true] r' = Some r'')).
Proof.
  cbn [rexec] in Hrun. apply bind_Some in Hrun as (r1 & Hr1 & Hrun).
  assert (r1 = rdefuse h r) as ->.
  { unfold rexec_action in Hr1. destruct (exited (base r)); [done|]. by injection Hr1. }
  assert (∃ n, defused_left (main (base (rdefuse h r))) = Some n ∧ (n ≤ 3)%nat) as (n & Hn & Hle)
    by (simpl; destruct (main (base r)); try done; eexists; split; done || (simpl; lia)).
  assert (missed acts (rdefuse h r) = false →
    ∃ m, defused_left (main (base r')) = Some m ∧ n = (rmain_steps acts + m)%nat) as Hsafe
    by (by apply defused_exec).
  split.
  - intros Hx. destruct (missed acts (rdefuse h r)); [done|].
    destruct (Hsafe eq_refl) as (m & Hm & _). by rewrite Hx in Hm.
  - intros Hmiss. destruct (Hsafe Hmiss) as (m & Hm & ->). split; [lia|]. split.
    + intros H3. assert (m = 0)%nat as -> by lia. by destruct (main (base r')).
    + destruct (running (main (base r'))) eqn:Hrn.
      * right. destruct (exited (base r')) eqn:Hex; [by left|right]. by apply rmain_enabled.
      * left. by destruct (main (base r')).
Qed.

(** And it does explode if the load misses the store: a timer that was defused while its
    loop slept, with no [reset] after it. *)
Lemma stale_defuse_explodes (t0 : Z) (w : world) (late : Z) (h : nat)
    (Hs : spawn self t0 = Val w) (Hdur : duration_wf (duration self))
    (Hlate : as_nanos (duration self) < late) :
  ∃ r, rexec [RMain true; RMain true; RMain true; RMain true; RDefuse h; RTick late;
              RMain true; RMain false; RMain true; RMain true] (relaxed_of w) = Some r ∧
    defused (base r) = true ∧ main (base r) = Exploded.
Proof.
  unfold spawn in Hs. destruct (instant_add t0 (duration self)) as [tte| |] eqn:Ht; [|done..].
  apply instant_add_val in Ht as [-> _]. simplify_eq/=.
  pose proof (as_nanos_bounds _ Hdur).
  set (D := as_nanos (duration self)) in *.
  clearbody D. destruct (aggressive_mode self) eqn:Hmode; eexists;
    cbv -[Z.ltb Z.leb Z.add Z.le Z.lt as_nanos instant_sub aggressive_mode];
    rewrite (proj2 (Z.ltb_ge (t0 + D) t0)), (proj2 (Z.leb_le 0 late)), as_nanos_instant_sub,
      (proj2 (Z.leb_le _ (t0 + late))), (proj2 (Z.ltb_lt (t0 + D) _)), ?Hmode by lia;
    done.
Qed.
End relaxed_timer.

(** ** Witnesses *)

(** The loop misses the store that handle 7 has made, and explodes. *)
Definition bomb_missed : relaxed :=
  MkRelaxed (MkWorld 11000000 10000000 true [] Exploded false) false [7%nat] false [].

Lemma relaxed_refines_witness :
  ∃ acts w, exec bomb acts bomb_spawned = Some w ∧ main w = Exploded ∧ defused w = false ∧
    main_steps acts = 3%nat.
Proof.
  destruct (proj1 (proj1 (relaxed_refines bomb 0 bomb_spawned eq_refl)
    [RDefuse 7; RTick 11000000; RMain false; RMain true; RMain true] bomb_missed
    ltac:(vm_compute; reflexivity))) as (acts & He & Hm).
  exists acts, (seen_world bomb_missed). split; [exact He|]. repeat split. exact Hm.
Defined.

(** Defused while the loop is about to sleep: with a load that misses it explodes, with
    loads that see the store it returns. *)
Lemma defused_never_explodes_witness :
  let w := MkWorld 5000000 10000000 false [] (MustSleep (StdTime.from_millis 5)) false in
  let seeing := [RMain true; RTick 6000000; RMain true; RMain true] in
  let missing := [RMain true; RTick 6000000; RMain true; RMain false; RMain true; RMain true] in
  missed bomb missing (rdefuse 7 (relaxed_of w)) = true ∧
  main (MkWorld 11000000 10000000 true [] Returned false) = Returned.
Proof.
  intros w seeing missing. split.
  - refine (proj1 (defused_never_explodes bomb 7 missing (relaxed_of w)
      (MkRelaxed (MkWorld 11000000 10000000 true [] Exploded false) false [7%nat] false [])
      I _) eq_refl). vm_compute. reflexivity.
  - refine (proj1 (proj2 (proj2 (defused_never_explodes bomb 7 seeing (relaxed_of w)
      (MkRelaxed (MkWorld 11000000 10000000 true [] Returned false) true [7%nat] false [])
      I _) _)) eq_refl); vm_compute; reflexivity.
Defined.

(** The loop is about to sleep when handle 7 calls [defuse] and [reset]; it misses the
    store once, finds it in the mutex, sleeps once more and returns. *)
Definition bomb_at (clock deadline : Z) (resets : list Z) (pc : loop_pc) (set : bool) : world :=
  MkWorld clock deadline set resets pc false.

Definition bomb_resting : relaxed :=
  relaxed_of (bomb_at 5000000 10000000 [] (MustSleep (StdTime.from_millis 5)) false).
Definition bomb_resetting : relaxed :=
  MkRelaxed (bomb_at 5000000 10000000 [15000000] (MustSleep (StdTime.from_millis 5)) true)
    false [7%nat] false [7%nat].
Definition bomb_reset : relaxed :=
  MkRelaxed (bomb_at 5000000 15000000 [] (MustSleep (StdTime.from_millis 5)) true)
    false [7%nat; 7%nat] true [].
Definition bomb_returned : relaxed :=
  MkRelaxed (bomb_at 17000000 15000000 [] Returned true) true [7%nat; 7%nat] true [].

Definition bomb_ending : list raction :=
  [RMain true; RTick 6000000; RMain true; RMain false; RMain true; RMain true; RMain true;
   RTick 6000000; RMain true; RMain false].

Lemma defuse_then_reset_witness :
  rexec bomb bomb_ending bomb_reset = Some bomb_returned ∧ rmain_steps bomb_ending = 8%nat ∧
  running (main (base bomb_returned)) = false.
Proof.
  split; [vm_compute; reflexivity|]. split; [reflexivity|].
  refine (proj1 (proj2 (defuse_then_reset bomb 7 0 [RResetStart 7] bomb_ending bomb_resting
    bomb_resetting bomb_reset bomb_returned true _ _ _ _)) eq_refl);
    vm_compute; reflexivity.
Defined.
