(* ===== verification/DoomsdayTests.v ===== *)
(** * The tests of src/src/doomsday.rs, run on the model

    As in [RetryTests], under the executor that lets the main loop run as far as it goes
    before the clock moves; the theorems of [Doomsday] are for every order. *)

From S2P Require Export RetryTests.
From S2P Require Doomsday.

Section doomsday_tests.
Import Doomsday.
Context (self : DoomsdayTimer).

(** The main loop until it sleeps or ends; one round of it is five steps. *)
Fixpoint settle (fuel : nat) (w : world) : world :=
  match fuel with
  | O => w
  | S fuel => match main_step self w with Some w' => settle fuel w' | None => w end
  end.

Definition act_on (acts : list action) : M world unit := λ w,
  match exec self acts (settle 20 w) with
  | Some w' => (settle 20 w', Val tt)
  | None => (w, OutOfFuel)
  end.

(** [timer::sleep(..).await], [bomb.reset().await] and [bomb.defuse()]. *)
Definition test_sleep_for (d : Duration) : M world unit := act_on [Tick (as_nanos d)].
Definition test_reset : M world unit := act_on [ResetStart; ResetStore 0].
Definition test_defuse : M world unit := act_on [Defuse].

(** [jh.await]: the end of the main loop, which unwinds if the loop has. *)
Fixpoint test_join (fuel : nat) : M world unit := λ w,
  match fuel with
  | O => (w, OutOfFuel)
  | S fuel =>
      let w := settle 20 w in
      match main w with
      | Returned => (w, Val tt)
      | Exploded => (w, Panic)
      | Sleeping until =>
          (_ ← act_on [Tick (Z.max 0 (until - clock w))]; test_join fuel) w
      | _ => test_join fuel w
      end
  end.
End doomsday_tests.

Definition bomb (millis : Z) : Doomsday.DoomsdayTimer :=
  Doomsday.MkTimer (from_millis millis) false.

(** [DoomsdayTimer::spawn(duration, false)] and the rest of the test. *)
Definition with_bomb (millis : Z) (test : Doomsday.DoomsdayTimer → M Doomsday.world unit) :
    M Z unit := λ now,
  match Doomsday.spawn (bomb millis) now with
  | Val w => let '(w, o) := test (bomb millis) w in (Doomsday.clock w, o)
  | _ => (now, Panic)
  end.

(** [#[test_async(should_panic)]] *)
Definition test_explode : M Z unit := with_bomb 1 (λ self,
  _ ← test_sleep_for self (from_millis 2);
  test_join self 10).

Definition test_do_not_explode : M Z unit := with_bomb 10 (λ self,
  _ ← test_sleep_for self (from_millis 5);
  _ ← test_reset self;
  _ ← test_sleep_for self (from_millis 5);
  _ ← test_reset self;
  _ ← test_sleep_for self (from_millis 5);
  _ ← test_defuse self;
  test_join self 10).

Example doomsday_tests_pass : (test_explode 0).2 = Panic ∧ passes test_do_not_explode 0.
Proof. by vm_compute. Qed.
